(* ===== verification/_CoqProject ===== *)
-Q . S2P
Prelude.v
Memory.v
Monitor.v
Dll.v
Buddy.v
BuddyInv.v
BuddyOps.v
BuddyAlloc.v
BuddyNew.v
BuddySpec.v
Queue.v
Trace.v
Tlsf.v
TlsfInv.v
TlsfLists.v
TlsfPhys.v
TlsfAlloc.v
TlsfMalloc.v
TlsfSpec.v
Heap.v
KernelHeap.v
HeapBoot.v
Collections.v
Str.v
Fs.v
FsInv.v
FsSim.v
FsSpec.v
Task.v
TaskInv.v
TaskSpec.v
Font.v
Framebuffer.v
FramebufferInv.v
FramebufferOps.v
FramebufferSpec.v
Io.v
Uart.v
UartSpec.v
Pic.v
Apic.v
AcpiSpec.v
ApicSpec.v
Interrupts.v
Boot.v
Fmt.v
Log.v
Shell.v
ShellSpec.v
Async.v
Terminal.v
Kernel.v
Locks.v
Deadlock.v
Debug.v
Harness.v
Build.v
KernelMain.v
System.v
TestKernel.v
Gdt.v
