(* ===== verification/Prelude.v ===== *)
(** * Yonti-os: a verification development of the kernel

    Yonti-os ([src/kernel]) is a small x86_64 kernel in Rust. It boots from the
    [bootloader] crate, builds a physical frame allocator and a heap, routes the
    timer and keyboard interrupts through the APICs or, failing that, the legacy
    controllers, and then runs an executor of asynchronous tasks of which the shell
    is the main one. This library models that code, translated definition by
    definition from the source, and proves what makes it correct.

    ** How code is modelled

    The modelled build is the one [runner/build.rs] makes: [cargo build] without
    [--release], so arithmetic is overflow-checked, [debug_assert!] is on and a
    panic aborts. A function of the code is a Rocq function over the state it
    changes, in the monad [M] of this file: it returns ([Ret]) or ends in a [fault]:
    a panic, undefined behaviour, or lack of fuel in a loop of the model. [wp c Q s]
    says that [c], run from [s], returns with [Q]; a theorem in this form, or one
    that gives [Ret], therefore also says that the code terminates and neither
    panics nor does anything undefined. Integers are [Z] with their width written
    out ([chk_add], [wrap], [saturating_sub]); raw memory is a map from addresses to
    bytes ([Memory]); maps and sets of the code are stdpp's or, where order matters,
    sorted lists ([Str]). Loops are structural, over ranges and lists, or carry fuel;
    the fuel is computed from the state and proved to be enough where the loop is
    used. The processor runs one thing at a time: what the code does inside
    [without_interrupts] is one step. Spin locks are left out of these functions, since
    none is ever waited for unless the kernel panics with the heap's or the serial
    line's lock held: that is [Deadlock.kernel_never_deadlocks], about the same
    code seen as what it does to the locks and to the interrupt flag. Reads through
    pointers of the firmware's tables are checked for alignment, as that build does.

    Code outside [src] and hardware are parameters: typeclasses with operations and,
    as laws, documented behaviour. They are the crate's frames and pages ([Buddy],
    [KernelHeap]), its mapper ([HeapBoot.PageTables]) and virtual addresses
    ([KernelMain.VirtAddrApi]), ports and memory-mapped registers ([Io]), the 16550
    ([UartSpec.Uart16550]), the 8259 pair ([Pic.Pic8259Pair]), the APICs
    ([ApicSpec.ApicMachine]), the board that has them all ([Interrupts.Board]) with its
    serial chip apart ([KernelMain.Com1Apart], [System.SerialApart]), the keyboard decoder
    ([Shell.KeyboardDecoder]), the descriptor table ([Gdt.GdtApi]), the emulator's exit
    device ([Harness.DebugExit]), the time stamp counter, the futures of other tasks, and
    the sizes of the blocks that the collections of the [alloc] crate ask for at boot
    ([KernelMain.asks]). Each has an instance, so that its laws
    are known to be satisfiable, and the theorems about it are applied to that
    instance.

    ** The parts

    - Shared: [Prelude] (outcomes, the monad, total-correctness rules, bit facts),
      [Memory] (raw memory), [Str] ([core::str], [BTreeMap]), [Fmt] (formatting,
      parsing, UTF-8, words), [Io] (ports and memory-mapped registers).
    - Physical memory, [memory/buddy.rs]: [Buddy] is the allocator with its bitmap and
      the intrusive lists in page memory; [Dll] is the theory of such lists; [BuddyInv]
      the invariant; [BuddyOps], [BuddyAlloc], [BuddyNew] the operations; [BuddySpec]
      the theorems: exact behaviour of allocation and release, construction, safety of
      any client, round trip, and what goes wrong with touching regions.
    - Heap, [allocator/tlsf.rs]: [Tlsf] is the allocator over byte memory, [TlsfInv],
      [TlsfLists], [TlsfPhys] its invariant (a list of blocks tiling the heap, the
      segregated lists, the boundary tags), [TlsfAlloc], [TlsfMalloc] the operations,
      [TlsfSpec] the theorems. [Heap] states the contract of [GlobalAlloc] as a class,
      proves client safety from it, and discharges it for [Dummy] of [allocator.rs],
      [allocator/bump.rs] and [allocator/linked_list.rs]; [KernelHeap] does so for the global allocator of
      [allocator.rs] (TLSF with metrics and trace), models [init_heap], and shows how much
      free memory is enough for a request to be granted. [HeapBoot]
      joins the two allocators as [kernel_main] does: [init_heap] on the buddy
      allocator gives each heap page a usable frame of its own. [Collections] serves a
      list of requests of the [alloc] crate by that heap.
    - Data structures: [Queue] ([array_queue.rs], [once_cell.rs]) refines a bounded
      FIFO; [Monitor] ([monitor.rs]) and [Trace] ([trace.rs]) count and record.
    - Tasks: [Task] ([task/], [async_utils.rs]) has the executor, the wakers, the
      scancode stream, and the executor as a machine of atomic steps on which keyboard
      interrupts interleave; [TaskInv] is its invariant; [TaskSpec] shows that no
      wake-up is lost, scancodes arrive in order and once, and the queues drain. [Async]
      has the streams of [async_utils.rs] and the futures of [shell_task] and
      [print_keypresses], suspended at their [await] between polls; polling them in
      rounds is equivalent to the loop over all scancodes.
    - File system: [Fs] ([fs/]) is the inode tree with its operations; [FsInv] and
      [FsSim] relate it to a flat map from paths to nodes; [FsSpec] has the refinement,
      the limits, the shape of the tree and the round trips.
    - Screen: [Font] is the glyph table, [Framebuffer] ([framebuffer.rs]) the console;
      [FramebufferInv] and [FramebufferOps] say what each operation paints;
      [FramebufferSpec] shows that it never panics and draws what it should.
    - Serial line: [Uart] ([uart.rs], [serial.rs]); [UartSpec] shows that what is
      printed is transmitted, in order, and that a dead chip cannot hang the kernel.
    - Interrupt controllers: [Pic] ([pic.rs]); [Apic] ([apic/]) with the ACPI walk,
      whose round trip with the tables' encoding (or panic, where they are not aligned) is
      in [AcpiSpec], and the drivers,
      whose effect on the chips is in [ApicSpec]. [Interrupts] ([interrupts.rs]) has the
      descriptor table and the handlers, and shows that each interrupt is handled and
      acknowledged once, at the right controller. [Boot] ([lib.rs], [sse.rs],
      [main.rs]) shows that start-up, on firmware whose tables the walk accepts, leaves
      exactly one controller delivering.
    - Shell: [Log] ([log.rs]) and [Shell] ([shell.rs], [vga_buffer.rs]); [ShellSpec]
      composes UART, screen, file system and heap: for any scancodes that do not spell an
      [alloc] of more than [2^56] bytes the shell task does not panic, and what it transmits is the transcript of a line editor in
      front of the file system. [Terminal] runs the shell's future inside the executor's
      machine of atomic steps: whatever the interleaving, no step panics, and once the
      keys stop every line typed has been answered. [Kernel] adds the other task of
      [kernel_main], [example_task], so that the output of the executor is known whole.
    - Locks: [Locks] has a small language of code that takes and releases locks, masks
      and unmasks interrupts and halts, the processor that runs it with interrupts
      between any two steps, a check of such code, and the proof that checked code never
      waits for a lock. [Deadlock] writes the kernel's functions in it ([kernel_main],
      the executor, the shell, the handlers, the panic handler); a panic may strike at any
      step and is handled by the panic handler. Nothing ever waits as long as every panic
      comes with the report's locks free; a panic inside the heap waits for ever.
    - Failure and tests: [Debug] ([debug.rs]) is the crash report, specified by the format strings of the
      source filled in by name ([Fmt.fill]). [Harness] ([lib.rs],
      [runner/src]) has the test harness, the panic handlers and the host programs, and
      shows which exit code a test run ends with; [TestKernel] ([lib.rs]) runs it on the
      library's test kernel from reset. [Build] ([runner/build.rs]) is the build script,
      which names to the runner the images it has made.
    - The whole: [KernelMain] ([main.rs], [memory.rs]) is [kernel_main] over one machine
      and shows that it arrives at [executor.run] with every part in the state the
      other theorems start from, the heap having served what the file system, the
      executor and the tasks asked for. [System] continues from there with [Kernel], on one
      board: from reset to a session at the terminal, with every byte transmitted. [Gdt] ([gdt.rs]) loads the
      descriptor table and shows that a double fault then has a stack of its own.

    ** Bounds

    Sizes are assumed where the code's types or the hardware give them: physical
    addresses of 52 bits, heap requests of at most [2^56] bytes (beyond, the heap's
    class computation overflows: [ShellSpec.shell_alloc_overflow_panics]), heap
    alignments of at most 8 for the TLSF contract (above, [TlsfSpec.tlsf_aligned_free_panics]),
    screens of less than [2^31] pixels a side, fewer than [2^62] steps of the executor, fewer than [2^64] operations of a queue whose
    capacity is no divisor of that,
    I/O APICs of at most 120 pins. Fuel: carving a region gets its number of frames,
    coalescing and the search for an order the number of orders, the metrics'
    compare-exchange loop two rounds, the MADT walk the table's length, the executor's
    loop one more than the queue's length, a poll of a keyboard task ([Async.poll_fuel])
    one more than the scancode queue holds; every theorem about such a loop gives a
    result, hence proves the fuel sufficient.

    ** Not modelled

    The boot run of [KernelMain] is one without interrupts between their enabling and
    [run]; what an interrupt does is in [Interrupts], and its interleaving with the
    executor in [TaskSpec], [Terminal] and [Kernel]. There the body of the shell's loop is one
    step: an interrupt during it is taken before or after it. [System] continues with the
    heap as [kernel_main] left it or with any other in order. The linked-list allocator's
    nodes are a list of addresses and sizes, not bytes in the free regions. In [Deadlock] a branch of the code is a free choice and a loop
    runs any number of times, so that it has every run of the code and more; the
    exception handlers, which panic or print, are not among its interrupts. Not modelled
    are the boot loader's configuration in [lib.rs], which only the boot loader reads,
    and what the host's programs do that [runner] starts: [cargo], the image builder, the
    emulator. The lines that [init_apic] and [demo_fs] print are printed when they have
    returned: the serial chip is apart from what they work on. What the collections ask of the heap is charged up to [executor.run]; the strings
    and vectors of a session after that are not. The theorem that each task is polled once
    is about futures that wake nobody, and those about boot are about firmware whose walk
    returns and controllers [init] accepts; misaligned tables, on which it panics, are in
    [AcpiSpec]. Debug formatting of the writer and the executor ([fmt::Debug]) is not used by
    the kernel. *)

From Stdlib Require Export ZArith Lia.
From stdpp Require Export base tactics numbers strings gmap list.

#[global] Open Scope Z_scope.

(** ** Outcomes

    The kernel is built by [runner/build.rs] with [cargo build] and no
    [--release]: overflow checks and [debug_assert!] are on and [panic = "abort"].
    A run therefore returns, panics, or (through [unsafe]) does something the
    language leaves undefined; a loop of the model that ran out of fuel is a
    fourth outcome, so that a theorem giving [Ret] also gives termination. *)

Inductive fault :=
  | Panic (why : string)
  | UB (why : string)
  | OutOfFuel.

Inductive outcome (A : Type) :=
  | Ret (a : A)
  | Crash (f : fault).
Arguments Ret {A} a.
Arguments Crash {A} f.

(** Rust's [Result<T, E>]. *)
Inductive result (T E : Type) :=
  | Ok (x : T)
  | Err (e : E).
Arguments Ok {T E} x.
Arguments Err {T E} e.

#[global] Instance outcome_ret : MRet outcome := fun A a => Ret a.
#[global] Instance outcome_bind : MBind outcome := fun A B f o =>
  match o with Ret a => f a | Crash e => Crash e end.
#[global] Instance outcome_fmap : FMap outcome := fun A B f o =>
  match o with Ret a => Ret (f a) | Crash e => Crash e end.

(** Code that mutates [self]: state passing over outcomes. *)
Definition M (S A : Type) : Type := S -> outcome (A * S).

#[global] Instance M_ret {S} : MRet (M S) := fun A a s => Ret (a, s).
#[global] Instance M_bind {S} : MBind (M S) := fun A B f c s =>
  match c s with Ret (a, s') => f a s' | Crash e => Crash e end.

Definition get {S} : M S S := fun s => Ret (s, s).
Definition gets {S A} (f : S -> A) : M S A := fun s => Ret (f s, s).
Definition modify {S} (f : S -> S) : M S unit := fun s => Ret (tt, f s).
Definition lift {S A} (o : outcome A) : M S A := fun s =>
  match o with Ret a => Ret (a, s) | Crash e => Crash e end.
Definition crash {S A} (f : fault) : M S A := fun _ => Crash f.

(** [assert!], [debug_assert!] and the like. *)
Definition guard_or {S} (b : bool) (f : fault) : M S unit :=
  fun s => if b then Ret (tt, s) else Crash f.

(** [opt.expect(..)], [opt.unwrap()]. *)
Definition expect {A} (o : option A) (why : string) : outcome A :=
  match o with Some a => Ret a | None => Crash (Panic why) end.

(** [for i in start .. start + n { body }]. *)
Fixpoint for_range {S} (n : nat) (start : Z) (body : Z -> M S unit) : M S unit :=
  match n with
  | O => mret tt
  | Datatypes.S n' => body start ≫= fun _ => for_range n' (start + 1) body
  end.

(** [for x in xs { body }]. *)
Fixpoint for_each {S A} (xs : list A) (body : A -> M S unit) : M S unit :=
  match xs with
  | [] => mret tt
  | x :: xs' => body x ≫= fun _ => for_each xs' body
  end.

(** ** Machine integers

    [usize] and [u64] are 64 bits wide on x86_64. *)

Definition max_of (w : Z) : Z := 2 ^ w - 1.
Definition u64_max : Z := 18446744073709551615.
Definition u32_max : Z := 4294967295.

Definition in_u64 (x : Z) : Prop := 0 <= x <= u64_max.
Definition in_u32 (x : Z) : Prop := 0 <= x <= u32_max.
Definition in_u8 (x : Z) : Prop := 0 <= x <= 255.

(** Checked arithmetic: [+], [-], [*], [<<] with overflow checks on. *)
Definition chk_add (bound a b : Z) : outcome Z :=
  if a + b <=? bound then Ret (a + b) else Crash (Panic "attempt to add with overflow").
Definition chk_sub (a b : Z) : outcome Z :=
  if b <=? a then Ret (a - b) else Crash (Panic "attempt to subtract with overflow").
Definition chk_mul (bound a b : Z) : outcome Z :=
  if a * b <=? bound then Ret (a * b) else Crash (Panic "attempt to multiply with overflow").

(** [1 << n] on a [w]-bit integer, [n] checked against the width. *)
Definition chk_shl1 (w n : Z) : outcome Z :=
  if (0 <=? n) && (n <? w) then Ret (2 ^ n)
  else Crash (Panic "attempt to shift left with overflow").

(** [wrapping_add], [wrapping_sub], [as u32], [as u8]. *)
Definition wrap (w x : Z) : Z := x mod 2 ^ w.
Definition saturating_sub (a b : Z) : Z := Z.max 0 (a - b).

Declare Scope rust_scope.
Delimit Scope rust_scope with rust.
Notation "a +? b" := (chk_add u64_max a b) (at level 50, left associativity) : rust_scope.
Notation "a -? b" := (chk_sub a b) (at level 50, left associativity) : rust_scope.
Notation "a *? b" := (chk_mul u64_max a b) (at level 40, left associativity) : rust_scope.

(** ** Array indexing: [xs[i]] and [xs[i] = v], bounds-checked *)

Definition index {A} (xs : list A) (i : Z) : outcome A :=
  if i <? 0 then Crash (Panic "index out of bounds")
  else match xs !! Z.to_nat i with
       | Some x => Ret x
       | None => Crash (Panic "index out of bounds")
       end.

Definition store_index {A} (xs : list A) (i : Z) (v : A) : outcome (list A) :=
  if (0 <=? i) && (i <? Z.of_nat (length xs)) then Ret (<[Z.to_nat i := v]> xs)
  else Crash (Panic "index out of bounds").

(** ** Total-correctness reasoning

    [wp c Q s]: run from [s], [c] returns (no panic, no undefined behaviour, no
    lack of fuel) in a state, and with a value, that satisfy [Q]. *)

Definition wp {S A} (c : M S A) (Q : A -> S -> Prop) (s : S) : Prop :=
  match c s with Ret (a, s') => Q a s' | Crash _ => False end.

Definition returns {A} (o : outcome A) (Q : A -> Prop) : Prop :=
  match o with Ret a => Q a | Crash _ => False end.

Section wp_rules.
Context {S : Type}.

Lemma wp_ret {A} (a : A) (Q : A -> S -> Prop) s : Q a s -> wp (mret a) Q s.
Proof. done. Qed.

Lemma wp_bind {A B} (c : M S A) (k : A -> M S B) Q s :
  wp c (fun a s' => wp (k a) Q s') s -> wp (c ≫= k) Q s.
Proof. unfold wp, mbind, M_bind. by destruct (c s) as [[? ?]|]. Qed.

Lemma wp_mono {A} (c : M S A) (Q Q' : A -> S -> Prop) s :
  wp c Q s -> (forall a s', Q a s' -> Q' a s') -> wp c Q' s.
Proof. unfold wp. destruct (c s) as [[? ?]|]; eauto. Qed.

Lemma wp_get (Q : S -> S -> Prop) s : Q s s -> wp get Q s.
Proof. done. Qed.

Lemma wp_gets {A} (f : S -> A) (Q : A -> S -> Prop) s : Q (f s) s -> wp (gets f) Q s.
Proof. done. Qed.

Lemma wp_modify (f : S -> S) (Q : unit -> S -> Prop) s : Q tt (f s) -> wp (modify f) Q s.
Proof. done. Qed.

Lemma wp_lift {A} (o : outcome A) (Q : A -> S -> Prop) s :
  returns o (fun a => Q a s) -> wp (lift o) Q s.
Proof. unfold wp, lift, returns. by destruct o. Qed.

Lemma wp_guard (b : bool) f (Q : unit -> S -> Prop) s : b = true -> Q tt s -> wp (guard_or b f) Q s.
Proof. unfold wp, guard_or. by intros ->. Qed.

Lemma wp_elim {A} (c : M S A) Q s : wp c Q s -> exists a s', c s = Ret (a, s') /\ Q a s'.
Proof. unfold wp. destruct (c s) as [[a s']|]; [eauto|done]. Qed.

Lemma wp_intro {A} (c : M S A) Q s a s' : c s = Ret (a, s') -> Q a s' -> wp c Q s.
Proof. unfold wp. by intros ->. Qed.

Lemma wp_and {A} (c : M S A) (Q R : A -> S -> Prop) s :
  wp c Q s -> wp c R s -> wp c (fun a s' => Q a s' /\ R a s') s.
Proof. unfold wp. destruct (c s) as [[? ?]|]; auto. Qed.

Lemma wp_unbind {A B} (c : M S A) (k : A -> M S B) Q s :
  wp (c ≫= k) Q s -> wp c (fun a s' => wp (k a) Q s') s.
Proof. unfold wp, mbind, M_bind. by destruct (c s) as [[? ?]|]. Qed.

(** Two operations first, then the rest. *)
Lemma wp_bind_assoc {A B C} (c : M S A) (d : A -> M S B) (k : B -> M S C) Q s :
  wp (c ≫= d) (fun b s' => wp (k b) Q s') s -> wp (c ≫= fun a => d a ≫= k) Q s.
Proof. unfold wp, mbind, M_bind. destruct (c s) as [[a s1]|]; [|done]. by destruct (d a s1) as [[? ?]|]. Qed.

(** A [for] loop over a range, by an invariant indexed with the loop variable. *)
Lemma wp_for_range (Inv : Z -> S -> Prop) body n start s :
  (forall i s, start <= i < start + Z.of_nat n -> Inv i s ->
     wp (body i) (fun _ s' => Inv (i + 1) s') s) ->
  Inv start s ->
  wp (for_range n start body) (fun _ s' => Inv (start + Z.of_nat n) s') s.
Proof.
  revert start s. induction n as [|n IH]; intros start s Hb Hs; cbn [for_range].
  - apply wp_ret. by rewrite Z.add_0_r.
  - apply wp_bind. eapply wp_mono; [apply Hb; [lia|done]|]. intros [] s' Hs'.
    replace (start + Z.of_nat _) with (start + 1 + Z.of_nat n) by lia.
    apply IH; [|done]. intros i s1 Hi. apply Hb. lia.
Qed.

(** A [for] loop over a list, by an invariant indexed with the part already done. *)
Lemma wp_for_each {A} (Inv : list A -> S -> Prop) body (todo : list A) :
  forall acc s,
  (forall pre x post s, acc ++ todo = pre ++ x :: post -> Inv pre s ->
     wp (body x) (fun _ s' => Inv (pre ++ [x]) s') s) ->
  Inv acc s ->
  wp (for_each todo body) (fun _ s' => Inv (acc ++ todo) s') s.
Proof.
  induction todo as [|x todo IH]; intros acc s Hb Hs; simpl.
  - apply wp_ret. by rewrite app_nil_r.
  - apply wp_bind. eapply wp_mono; [by eapply (Hb acc x todo)|]. intros [] s' Hs'.
    replace (acc ++ x :: todo) with ((acc ++ [x]) ++ todo) by by rewrite <- app_assoc.
    apply IH; [|done]. intros pre y post s1 Heq. apply (Hb pre y post).
    by rewrite <- app_assoc in Heq.
Qed.
End wp_rules.

Lemma for_each_app {S A} (xs ys : list A) (body : A -> M S unit) s :
  for_each (xs ++ ys) body s = (for_each xs body ≫= fun _ => for_each ys body) s.
Proof.
  revert s. induction xs as [|x xs IH]; intros s; [done|]. cbn [for_each app]. unfold mbind, M_bind in *.
  by destruct (body x s) as [[[] s']|]; [apply IH|].
Qed.

(** Whatever [c] returns, it leaves [f] of the state alone. *)
Definition preserves {S T A} (f : S -> T) (c : M S A) : Prop :=
  forall s a s', c s = Ret (a, s') -> f s' = f s.

Lemma preserves_bind {S T A B} (f : S -> T) (c : M S A) (g : A -> M S B) :
  preserves f c -> (forall a, preserves f (g a)) -> preserves f (c ≫= g).
Proof.
  intros Hc Hg s b s'. unfold mbind, M_bind. destruct (c s) as [[a s1]|] eqn:Ec; [|done].
  intros Hb. rewrite (Hg _ _ _ _ Hb). by eapply Hc.
Qed.
Lemma preserves_ret {S T A} (f : S -> T) (a : A) : preserves f (mret a).
Proof. by intros s b s' [= _ <-]. Qed.
Lemma preserves_lift {S T A} (f : S -> T) (o : outcome A) : preserves f (lift o).
Proof. intros s b s'. unfold lift. by destruct o; intros [= _ <-]. Qed.
Lemma preserves_guard {S T} (f : S -> T) c e : preserves f (guard_or c e).
Proof. intros s b s'. unfold guard_or. by destruct c; intros [= _ <-]. Qed.
Lemma preserves_get {S T} (f : S -> T) : preserves f get.
Proof. by intros s b s' [= _ <-]. Qed.
Lemma preserves_gets {S T A} (f : S -> T) (g : S -> A) : preserves f (gets g).
Proof. by intros s b s' [= _ <-]. Qed.
Lemma preserves_modify {S T} (f : S -> T) (g : S -> S) : (forall s, f (g s) = f s) -> preserves f (modify g).
Proof. intros Hg s a s' [= _ <-]. apply Hg. Qed.
Lemma preserves_crash {S T A} (f : S -> T) e : preserves f (crash (A := A) e).
Proof. by intros s a s'. Qed.
Lemma preserves_for_range {S T} (f : S -> T) body n : (forall i, preserves f (body i)) ->
  forall start, preserves f (for_range n start body).
Proof. intros Hb. induction n as [|n IH]; intros start; [apply preserves_ret|]. by apply preserves_bind. Qed.
Lemma preserves_for_each {S T A} (f : S -> T) (body : A -> M S unit) xs : (forall x, preserves f (body x)) ->
  preserves f (for_each xs body).
Proof. intros Hb. induction xs as [|x xs IH]; [apply preserves_ret|]. by apply preserves_bind. Qed.

Lemma returns_ret {A} (a : A) (Q : A -> Prop) : Q a -> returns (Ret a) Q.
Proof. done. Qed.

Lemma returns_bind {A B} (o : outcome A) (k : A -> outcome B) Q :
  returns o (fun a => returns (k a) Q) -> returns (o ≫= k) Q.
Proof. by destruct o. Qed.

Lemma returns_chk_add bound a b (Q : Z -> Prop) :
  a + b <= bound -> Q (a + b) -> returns (chk_add bound a b) Q.
Proof. intros H ?. unfold chk_add. by rewrite (proj2 (Z.leb_le _ _) H). Qed.

Lemma returns_chk_sub a b (Q : Z -> Prop) :
  b <= a -> Q (a - b) -> returns (chk_sub a b) Q.
Proof. intros H ?. unfold chk_sub. by rewrite (proj2 (Z.leb_le _ _) H). Qed.

Lemma returns_chk_mul bound a b (Q : Z -> Prop) :
  a * b <= bound -> Q (a * b) -> returns (chk_mul bound a b) Q.
Proof. intros H ?. unfold chk_mul. by rewrite (proj2 (Z.leb_le _ _) H). Qed.

Lemma returns_chk_shl1 w n (Q : Z -> Prop) :
  0 <= n < w -> Q (2 ^ n) -> returns (chk_shl1 w n) Q.
Proof.
  intros [H1 H2] ?. unfold chk_shl1.
  by rewrite (proj2 (Z.leb_le _ _) H1), (proj2 (Z.ltb_lt _ _) H2).
Qed.

Lemma returns_index {A} (xs : list A) i x (Q : A -> Prop) :
  0 <= i -> xs !! Z.to_nat i = Some x -> Q x -> returns (index xs i) Q.
Proof.
  intros Hi Hx ?. unfold index. rewrite (proj2 (Z.ltb_ge _ _)) by lia. by rewrite Hx.
Qed.

Lemma returns_store_index {A} (xs : list A) i v (Q : list A -> Prop) :
  0 <= i < Z.of_nat (length xs) -> Q (<[Z.to_nat i := v]> xs) ->
  returns (store_index xs i v) Q.
Proof.
  intros [H1 H2] ?. unfold store_index.
  by rewrite (proj2 (Z.leb_le _ _) H1), (proj2 (Z.ltb_lt _ _) H2).
Qed.

Lemma returns_elim {A} (o : outcome A) Q : returns o Q -> exists a, o = Ret a /\ Q a.
Proof. destruct o; [eauto|done]. Qed.

(** One step of symbolic execution of a monadic definition. *)
Ltac wp_step :=
  lazymatch goal with
  | |- wp (mret _) _ _ => apply wp_ret
  | |- wp (_ ≫= _) _ _ => apply wp_bind
  | |- wp get _ _ => apply wp_get
  | |- wp (gets _) _ _ => apply wp_gets; lazy beta
  | |- wp (modify _) _ _ => apply wp_modify; lazy beta
  | |- wp (lift _) _ _ => apply wp_lift
  | |- returns (Ret _) _ => apply returns_ret
  | |- returns (mret _) _ => apply returns_ret
  | |- returns (_ ≫= _) _ => apply returns_bind
  | |- returns (chk_add _ _ _) _ => apply returns_chk_add; [try lia|]
  | |- returns (chk_sub _ _) _ => apply returns_chk_sub; [try lia|]
  | |- returns (chk_mul _ _ _) _ => apply returns_chk_mul; [try lia|]
  | |- returns (chk_shl1 _ _) _ => apply returns_chk_shl1; [try lia|]
  end.
Ltac wp_steps := repeat wp_step.

(** Case analysis on the boolean test a goal computes with. *)
Ltac case_test H :=
  match goal with
  | |- context [if ?a <=? ?b then _ else _] => destruct (Z.leb_spec a b) as [H|H]
  | |- context [if ?a <? ?b then _ else _] => destruct (Z.ltb_spec a b) as [H|H]
  | |- context [if ?a =? ?b then _ else _] => destruct (Z.eqb_spec a b) as [H|H]
  end.

(** ** Bit-level facts *)

Lemma pow2_pos o : 0 <= o -> 0 < 2 ^ o.
Proof. intros. apply Z.pow_pos_nonneg; lia. Qed.

Lemma pow2_S o : 0 <= o -> 2 ^ (o + 1) = 2 * 2 ^ o.
Proof. intros. rewrite Z.pow_add_r by lia. lia. Qed.

Lemma pow2_mono o p : 0 <= o <= p -> 2 ^ o <= 2 ^ p.
Proof. intros. apply Z.pow_le_mono_r; lia. Qed.

Lemma pow2_divide o p : 0 <= o <= p -> (2 ^ o | 2 ^ p).
Proof. intros. exists (2 ^ (p - o)). rewrite <- Z.pow_add_r by lia. f_equal. lia. Qed.

(** [x & (2^o - 1) == 0] is divisibility by [2^o]. *)
Lemma land_mask x o : 0 <= o -> Z.land x (2 ^ o - 1) = x mod 2 ^ o.
Proof. intros. rewrite <- Z.land_ones by done. by rewrite Z.ones_equiv. Qed.

Lemma land_mask_divide x o : 0 <= o -> (Z.land x (2 ^ o - 1) =? 0) = true <-> (2 ^ o | x).
Proof.
  intros Ho. rewrite land_mask by done. pose proof (pow2_pos o Ho).
  rewrite Z.eqb_eq. apply Z.mod_divide. lia.
Qed.

(** A single-bit test. *)
Lemma land_pow2_test w n : 0 <= n -> negb (Z.land w (2 ^ n) =? 0) = Z.testbit w n.
Proof.
  intros Hn. destruct (Z.testbit w n) eqn:Hb.
  - apply negb_true_iff, Z.eqb_neq. intros H0.
    assert (Z.testbit (Z.land w (2 ^ n)) n = true) as H1.
    { by rewrite Z.land_spec, Hb, Z.pow2_bits_true. }
    by rewrite H0, Z.testbit_0_l in H1.
  - apply negb_false_iff, Z.eqb_eq. apply Z.bits_inj'. intros k Hk.
    rewrite Z.land_spec, Z.pow2_bits_eqb, Z.testbit_0_l by lia.
    destruct (Z.eqb_spec n k) as [->|]; [by rewrite Hb|apply andb_false_r].
Qed.

Lemma land_not_test w n k :
  0 <= n < 64 -> 0 <= k < 64 ->
  Z.testbit (Z.land w (Z.lxor u64_max (2 ^ n))) k = Z.testbit w k && negb (k =? n).
Proof.
  intros Hn Hk. rewrite Z.land_spec, Z.lxor_spec, Z.pow2_bits_eqb by lia.
  change u64_max with (Z.ones 64). rewrite Z.ones_spec_low by lia.
  rewrite (Z.eqb_sym n k). by destruct (k =? n).
Qed.

Lemma log2_lt_iff x n : 0 <= x -> 0 < n -> Z.log2 x < n <-> x < 2 ^ n.
Proof.
  intros Hx Hn. destruct (Z.eq_dec x 0) as [->|].
  - pose proof (pow2_pos n). simpl. lia.
  - symmetry. apply Z.log2_lt_pow2. lia.
Qed.

Lemma land_lt_pow2 a b n : 0 <= a < 2 ^ n -> 0 <= b -> 0 < n -> 0 <= Z.land a b < 2 ^ n.
Proof.
  intros Ha Hb Hn. assert (0 <= Z.land a b) by (apply Z.land_nonneg; lia). split; [done|].
  apply log2_lt_iff; [done..|]. pose proof (Z.log2_land a b ltac:(lia) Hb).
  pose proof (proj2 (log2_lt_iff a n ltac:(lia) Hn)). lia.
Qed.

Lemma lor_lt_pow2 a b n : 0 <= a < 2 ^ n -> 0 <= b < 2 ^ n -> 0 < n -> 0 <= Z.lor a b < 2 ^ n.
Proof.
  intros Ha Hb Hn. assert (0 <= Z.lor a b) by (apply Z.lor_nonneg; lia). split; [done|].
  apply log2_lt_iff; [done..|]. rewrite Z.log2_lor by lia.
  apply Z.max_lub_lt; apply log2_lt_iff; lia.
Qed.

Lemma in_u64_pow x : in_u64 x <-> 0 <= x < 2 ^ 64.
Proof. unfold in_u64. change u64_max with (2 ^ 64 - 1). lia. Qed.

Lemma land_in_u64 a b : in_u64 a -> 0 <= b -> in_u64 (Z.land a b).
Proof. rewrite !in_u64_pow. intros. by apply land_lt_pow2. Qed.

Lemma lor_in_u64 a b : in_u64 a -> in_u64 b -> in_u64 (Z.lor a b).
Proof. rewrite !in_u64_pow. intros. by apply lor_lt_pow2. Qed.

(** The buddy of an aligned block: [idx ^ (1 << order)]. *)
Lemma lxor_buddy x o :
  0 <= x -> 0 <= o -> (2 ^ o | x) ->
  ((2 ^ (o + 1) | x) /\ Z.lxor x (2 ^ o) = x + 2 ^ o) \/
  ((2 ^ (o + 1) | x - 2 ^ o) /\ 2 ^ o <= x /\ Z.lxor x (2 ^ o) = x - 2 ^ o).
Proof.
  intros Hx Ho [q ->]. pose proof (pow2_pos o Ho).
  assert (Hlx : Z.lxor (q * 2 ^ o) (2 ^ o) = Z.lxor q 1 * 2 ^ o).
  { rewrite <- !Z.shiftl_mul_pow2, Z.shiftl_lxor, Z.shiftl_1_l by done. done. }
  rewrite Hlx, pow2_S by done. assert (0 <= q) by nia.
  destruct (Z.Even_or_Odd q) as [[r ->]|[r ->]].
  - left. split; [exists r; lia|].
    replace (Z.lxor (2 * r) 1) with (2 * r + 1); [lia|].
    destruct r as [|p|p]; simpl; try done; lia.
  - right. split_and!; [exists r; lia|nia|].
    replace (Z.lxor (2 * r + 1) 1) with (2 * r); [lia|].
    destruct r as [|p|p]; simpl; try done; lia.
Qed.
