(* ===== verification/Memory.v ===== *)
(** * Raw memory

    What the kernel's [unsafe] code dereferences: bytes at 64-bit addresses.
    A load of an address nobody wrote (or that is not mapped), and a load or a
    store that is not aligned for its type, are undefined behaviour
    ([*p] on a raw pointer requires alignment in Rust); integers are
    little-endian as on x86_64. *)

From S2P Require Import Prelude.

Abbreviation memory := (gmap Z Z).

Fixpoint load (n : nat) (m : memory) (a : Z) : option Z :=
  match n with
  | O => Some 0
  | S n' => b ← m !! a; r ← load n' m (a + 1); Some (b + 256 * r)
  end.

Fixpoint store (n : nat) (m : memory) (a v : Z) : memory :=
  match n with
  | O => m
  | S n' => store n' (<[a := v mod 256]> m) (a + 1) (v / 256)
  end.

Definition read_int (n : nat) (m : memory) (a : Z) : outcome Z :=
  if a mod Z.of_nat n =? 0 then
    match load n m a with
    | Some v => Ret v
    | None => Crash (UB "load of an unmapped or uninitialised address")
    end
  else Crash (UB "misaligned pointer dereference").

Definition write_int (n : nat) (m : memory) (a v : Z) : outcome memory :=
  if a mod Z.of_nat n =? 0 then Ret (store n m a v)
  else Crash (UB "misaligned pointer dereference").

Abbreviation read_u8 := (read_int 1).
Abbreviation read_u16 := (read_int 2).
Abbreviation read_u32 := (read_int 4).
Abbreviation read_u64 := (read_int 8).
Abbreviation write_u32 := (write_int 4).
Abbreviation write_u64 := (write_int 8).

(** ** What a store changes *)

Lemma pow256_S n : 256 ^ Z.of_nat (S n) = 256 * 256 ^ Z.of_nat n.
Proof. rewrite <- Z.pow_succ_r by lia. f_equal. lia. Qed.

Lemma store_lookup n : forall m a v x,
  store n m a v !! x =
    if bool_decide (a <= x < a + Z.of_nat n)
    then Some ((v / 256 ^ (x - a)) mod 256) else m !! x.
Proof.
  induction n as [|n IH]; intros m a v x; cbn [store].
  - rewrite bool_decide_eq_false_2; [done|lia].
  - rewrite IH. destruct (decide (x = a)) as [->|Hne].
    + rewrite bool_decide_eq_false_2, bool_decide_eq_true_2 by lia.
      rewrite lookup_insert_eq, Z.sub_diag, Z.pow_0_r, Z.div_1_r. done.
    + rewrite lookup_insert_ne by done.
      destruct (bool_decide_reflect (a + 1 <= x < a + 1 + Z.of_nat n)).
      * rewrite bool_decide_eq_true_2 by lia.
        replace (x - a) with (1 + (x - (a + 1))) by lia.
        rewrite Z.pow_add_r, Z.pow_1_r, Z.div_div by lia. done.
      * rewrite bool_decide_eq_false_2; [done|lia].
Qed.

Lemma store_lookup_out n m a v x :
  x < a \/ a + Z.of_nat n <= x -> store n m a v !! x = m !! x.
Proof. intros ?. rewrite store_lookup, bool_decide_eq_false_2; [done|lia]. Qed.

Lemma load_ext n : forall m m' a,
  (forall x, a <= x < a + Z.of_nat n -> m !! x = m' !! x) -> load n m a = load n m' a.
Proof.
  induction n as [|n IH]; intros m m' a Hx; cbn [load]; [done|].
  rewrite (Hx a) by lia. rewrite (IH m m' (a + 1)); [done|]. intros; apply Hx; lia.
Qed.

Lemma load_store_eq n m a v :
  load n (store n m a v) a = Some (v mod 256 ^ Z.of_nat n).
Proof.
  revert m a v. induction n as [|n IH]; intros m a v; cbn [load store].
  - by rewrite Z.pow_0_r, Z.mod_1_r.
  - rewrite store_lookup_out by lia. rewrite lookup_insert_eq.
    cbn [mbind option_bind]. rewrite IH. cbn [mbind option_bind].
    rewrite pow256_S, Z.rem_mul_r by lia. done.
Qed.

Lemma load_store_ne n k m a v b :
  b + Z.of_nat k <= a \/ a + Z.of_nat n <= b ->
  load k (store n m a v) b = load k m b.
Proof. intros ?. apply load_ext. intros x ?. apply store_lookup_out. lia. Qed.

Lemma load_range n m a v :
  (forall x b, m !! x = Some b -> 0 <= b < 256) -> load n m a = Some v ->
  0 <= v < 256 ^ Z.of_nat n.
Proof.
  intros Hb. revert a v. induction n as [|n IH]; intros a v; cbn [load].
  - intros [= <-]. simpl. lia.
  - destruct (m !! a) as [b|] eqn:Ea; [|done]. simpl.
    destruct (load n m (a + 1)) as [r|] eqn:Er; [|done]. intros [= <-].
    apply Hb in Ea. apply IH in Er.
    rewrite pow256_S. lia.
Qed.

(** ** Aligned accesses *)

Lemma returns_read n m a v (Q : Z -> Prop) :
  a mod Z.of_nat n = 0 -> load n m a = Some v -> Q v -> returns (read_int n m a) Q.
Proof. intros Ha Hl HQ. unfold read_int. by rewrite Ha, Hl. Qed.

Lemma returns_write n m a v (Q : memory -> Prop) :
  a mod Z.of_nat n = 0 -> Q (store n m a v) -> returns (write_int n m a v) Q.
Proof. intros Ha HQ. unfold write_int. by rewrite Ha. Qed.

Lemma load_u64_eq m a v : in_u64 v -> load 8 (store 8 m a v) a = Some v.
Proof.
  intros Hv. rewrite load_store_eq. f_equal. unfold in_u64, u64_max in Hv.
  apply Z.mod_small. simpl. lia.
Qed.

Lemma load_u32_eq m a v : in_u32 v -> load 4 (store 4 m a v) a = Some v.
Proof.
  intros Hv. rewrite load_store_eq. f_equal. unfold in_u32, u32_max in Hv.
  apply Z.mod_small. simpl. lia.
Qed.

Arguments load : simpl never.
Arguments store : simpl never.
