(* ===== verification/Monitor.v ===== *)
(** * Runtime metrics ([kernel/src/monitor.rs])

    The atomic counters of [MONITOR] as a record; each update is one
    [fetch_add]/[fetch_sub] (which wrap around), and the peak is maintained by a
    compare-exchange loop. *)

From S2P Require Import Prelude.
Local Open Scope rust_scope.

Record MonitorData := mkMonitor {
  alloc_count : Z;
  free_count : Z;
  current_allocated : Z;
  peak_allocated : Z;
  allocated_frames : Z;
  mon_total_frames : Z;
  tasks_spawned : Z;
  tasks_completed : Z;
  active_tasks : Z;
  interrupt_counts : list Z;
  timer_ticks : Z;
  dropped_wakes : Z
}.

Definition MonitorData_new : MonitorData :=
  mkMonitor 0 0 0 0 0 0 0 0 0 (replicate 16 0) 0 0.

(** [fetch_add] and [fetch_sub] of an [AtomicU64]/[AtomicUsize]: the new value. *)
Definition fetch_add (x n : Z) : Z := wrap 64 (x + n).
Definition fetch_sub (x n : Z) : Z := wrap 64 (x - n).

Definition set_heap (ac fc cur peak : Z) (m : MonitorData) : MonitorData :=
  mkMonitor ac fc cur peak (allocated_frames m) (mon_total_frames m) (tasks_spawned m)
    (tasks_completed m) (active_tasks m) (interrupt_counts m) (timer_ticks m) (dropped_wakes m).
Definition set_frames (af tf : Z) (m : MonitorData) : MonitorData :=
  mkMonitor (alloc_count m) (free_count m) (current_allocated m) (peak_allocated m) af tf
    (tasks_spawned m) (tasks_completed m) (active_tasks m) (interrupt_counts m)
    (timer_ticks m) (dropped_wakes m).
Definition set_tasks (sp co ac : Z) (m : MonitorData) : MonitorData :=
  mkMonitor (alloc_count m) (free_count m) (current_allocated m) (peak_allocated m)
    (allocated_frames m) (mon_total_frames m) sp co ac (interrupt_counts m)
    (timer_ticks m) (dropped_wakes m).
Definition set_irqs (ic : list Z) (m : MonitorData) : MonitorData :=
  mkMonitor (alloc_count m) (free_count m) (current_allocated m) (peak_allocated m)
    (allocated_frames m) (mon_total_frames m) (tasks_spawned m) (tasks_completed m)
    (active_tasks m) ic (timer_ticks m) (dropped_wakes m).
Definition set_ticks (t dw : Z) (m : MonitorData) : MonitorData :=
  mkMonitor (alloc_count m) (free_count m) (current_allocated m) (peak_allocated m)
    (allocated_frames m) (mon_total_frames m) (tasks_spawned m) (tasks_completed m)
    (active_tasks m) (interrupt_counts m) t dw.

(** The compare-exchange loop of [inc_alloc]. An x86_64 [lock cmpxchg] fails
    only when the cell differs from the expected value, in which case [peak] is
    reloaded and the test repeated. *)
Fixpoint raise_peak (fuel : nat) (new peak : Z) (m : MonitorData) : outcome MonitorData :=
  if new <=? peak then Ret m
  else match fuel with
       | O => Crash OutOfFuel
       | S fuel' =>
           if peak_allocated m =? peak
           then Ret (set_heap (alloc_count m) (free_count m) (current_allocated m) new m)
           else raise_peak fuel' new (peak_allocated m) m
       end.

Definition inc_alloc (size : Z) (m : MonitorData) : outcome MonitorData :=
  let prev := current_allocated m in
  let m1 := set_heap (fetch_add (alloc_count m) 1) (free_count m)
              (fetch_add prev size) (peak_allocated m) m in
  new ← prev +? size;
  raise_peak 2 new (peak_allocated m1) m1.

Definition inc_free (size : Z) (m : MonitorData) : MonitorData :=
  set_heap (alloc_count m) (fetch_add (free_count m) 1)
    (fetch_sub (current_allocated m) size) (peak_allocated m) m.

Definition set_frame_metrics (total : Z) (m : MonitorData) : MonitorData :=
  set_frames (allocated_frames m) total m.

Definition inc_allocated_frames (count : Z) (m : MonitorData) : MonitorData :=
  set_frames (fetch_add (allocated_frames m) count) (mon_total_frames m) m.

Definition dec_allocated_frames (count : Z) (m : MonitorData) : MonitorData :=
  set_frames (fetch_sub (allocated_frames m) count) (mon_total_frames m) m.

Definition inc_task_spawned (m : MonitorData) : MonitorData :=
  set_tasks (fetch_add (tasks_spawned m) 1) (tasks_completed m)
    (fetch_add (active_tasks m) 1) m.

Definition inc_task_completed (m : MonitorData) : MonitorData :=
  set_tasks (tasks_spawned m) (fetch_add (tasks_completed m) 1)
    (fetch_sub (active_tasks m) 1) m.

Definition inc_interrupt (irq : Z) (m : MonitorData) : MonitorData :=
  let idx := saturating_sub irq 32 in
  if idx <? 16 then
    set_irqs (alter (fun c => fetch_add c 1) (Z.to_nat idx) (interrupt_counts m)) m
  else m.

Definition inc_timer_tick (m : MonitorData) : MonitorData :=
  set_ticks (fetch_add (timer_ticks m) 1) (dropped_wakes m) m.

Definition uptime_ticks (m : MonitorData) : Z := timer_ticks m.

Definition inc_dropped_wake (m : MonitorData) : MonitorData :=
  set_ticks (timer_ticks m) (fetch_add (dropped_wakes m) 1) m.

(** [snapshot()]: with no interrupt taken in between, the values of all
    counters at once; [MetricsSnapshot] has the fields of [MonitorData]. *)
Definition snapshot (m : MonitorData) : MonitorData :=
  let irq_counts :=
    imap (fun i _ => default 0 (interrupt_counts m !! i)) (replicate 16 0) in
  mkMonitor (alloc_count m) (free_count m) (current_allocated m) (peak_allocated m)
    (allocated_frames m) (mon_total_frames m) (tasks_spawned m) (tasks_completed m)
    (active_tasks m) irq_counts (timer_ticks m) (dropped_wakes m).

(** ** The heap counters along a history of heap events *)

Inductive heap_event :=
  | HAlloc (size : Z)
  | HFree (size : Z).

Definition heap_step (e : heap_event) (m : MonitorData) : outcome MonitorData :=
  match e with HAlloc n => inc_alloc n m | HFree n => Ret (inc_free n m) end.

Fixpoint heap_run (es : list heap_event) (m : MonitorData) : outcome MonitorData :=
  match es with
  | [] => Ret m
  | e :: es' => m' ← heap_step e m; heap_run es' m'
  end.

(** Bytes live after each event, and the largest amount ever live. *)
Definition live_after (e : heap_event) (live : Z) : Z :=
  match e with HAlloc n => live + n | HFree n => live - n end.
Fixpoint lives (live : Z) (es : list heap_event) : list Z :=
  match es with
  | [] => []
  | e :: es' => live_after e live :: lives (live_after e live) es'
  end.
Definition live_of (es : list heap_event) : Z := List.last (lives 0 es) 0.
Definition peak_of (es : list heap_event) : Z := foldr Z.max 0 (lives 0 es).
Definition allocs_of (es : list heap_event) : Z :=
  foldr (fun e n => match e with HAlloc _ => n + 1 | HFree _ => n end) 0 es.

Definition event_ok (e : heap_event) : Prop :=
  match e with HAlloc n => 0 <= n | HFree n => 0 <= n end.

(** No release of more than is live, no overflow of the 64-bit amount. *)
Definition history_ok (es : list heap_event) : Prop :=
  Forall event_ok es /\ Forall in_u64 (lives 0 es).

Lemma last_cons_default {A} (l : list A) : forall x d, List.last (x :: l) d = List.last l x.
Proof. induction l as [|y l IH]; intros x d; [done|]. change (List.last (y :: l) d = List.last (y :: l) x). by rewrite !IH. Qed.

Lemma raise_peak_max new m :
  raise_peak 2 new (peak_allocated m) m =
    Ret (set_heap (alloc_count m) (free_count m) (current_allocated m)
          (Z.max new (peak_allocated m)) m).
Proof.
  simpl. case_test H.
  - rewrite Z.max_r by done. by destruct m.
  - rewrite Z.eqb_refl, Z.max_l by lia. done.
Qed.

Lemma wrap_small x : in_u64 x -> wrap 64 x = x.
Proof. intros H%in_u64_pow. by apply Z.mod_small. Qed.

Lemma heap_step_spec e m :
  event_ok e -> in_u64 (live_after e (current_allocated m)) ->
  exists m', heap_step e m = Ret m' /\
    current_allocated m' = live_after e (current_allocated m) /\
    (0 <= current_allocated m <= peak_allocated m ->
     peak_allocated m' = Z.max (live_after e (current_allocated m)) (peak_allocated m)) /\
    alloc_count m' = (match e with HAlloc _ => fetch_add (alloc_count m) 1 | _ => alloc_count m end) /\
    free_count m' = (match e with HFree _ => fetch_add (free_count m) 1 | _ => free_count m end).
Proof.
  destruct e as [n|n]; simpl; intros Hn Hin.
  - unfold inc_alloc, chk_add, mbind, outcome_bind. unfold in_u64 in Hin.
    rewrite (proj2 (Z.leb_le _ _)) by lia. rewrite raise_peak_max. eexists. split; [done|].
    cbn. unfold fetch_add. rewrite (wrap_small (_ + n)) by done. done.
  - eexists. split; [done|]. cbn. unfold fetch_sub. rewrite wrap_small by done.
    split_and!; [done| |done..]. intros. lia.
Qed.

Lemma heap_run_spec es : forall m,
  Forall event_ok es -> Forall in_u64 (lives (current_allocated m) es) ->
  0 <= current_allocated m <= peak_allocated m ->
  exists m', heap_run es m = Ret m' /\
    current_allocated m' = List.last (lives (current_allocated m) es) (current_allocated m) /\
    peak_allocated m' = Z.max (foldr Z.max 0 (lives (current_allocated m) es)) (peak_allocated m) /\
    wrap 64 (alloc_count m') = wrap 64 (alloc_count m + allocs_of es) /\
    wrap 64 (free_count m') = wrap 64 (free_count m + (Z.of_nat (length es) - allocs_of es)).
Proof.
  induction es as [|e es IH]; intros m Hok Hin Hcp.
  - exists m. simpl. rewrite !Z.add_0_r. split_and!; try done. lia.
  - apply Forall_cons in Hok as [He Hok]. cbn [lives] in Hin. apply Forall_cons in Hin as [Hl Hin].
    destruct (heap_step_spec e m He Hl) as (m1 & Hs & Hc & Hp & Ha & Hf). specialize (Hp Hcp).
    unfold in_u64 in Hl. rewrite <- Hc in Hin.
    destruct (IH m1 Hok Hin) as (m2 & Hr & Hc2 & Hp2 & Ha2 & Hf2); [lia|].
    exists m2. cbn [heap_run lives foldr]. rewrite Hs. split_and!; [done|..].
    + by rewrite Hc2, Hc, last_cons_default.
    + rewrite Hp2, Hp, Hc. lia.
    + rewrite Ha2, Ha. unfold fetch_add, wrap. destruct e; cbn [allocs_of foldr]; fold (allocs_of es).
      * rewrite Zplus_mod_idemp_l. f_equal. lia.
      * done.
    + rewrite Hf2, Hf. unfold fetch_add, wrap. cbn [length].
      destruct e; cbn [allocs_of foldr]; fold (allocs_of es); [f_equal; lia|].
      rewrite Zplus_mod_idemp_l. f_equal. lia.
Qed.
