(* ===== verification/Dll.v ===== *)
(** * Doubly-linked lists threaded through memory

    Both allocators keep their free blocks on doubly-linked lists whose links
    live inside the free blocks themselves ([memory/buddy.rs] stores frame
    indices with [usize::MAX] as the end marker, [allocator/tlsf.rs] stores
    [Option<NonNull<..>>]). This file is the representation predicate they
    share and what pushing and unlinking do to it. *)

From S2P Require Import Prelude.

Lemma last_elem (l : list Z) t : last l = Some t -> t ∈ l.
Proof. intros [l' ->]%last_Some. set_solver. Qed.
Lemma head_elem (l : list Z) h : head l = Some h -> h ∈ l.
Proof. destruct l; set_solver. Qed.

Section dll.
(** How an optional link is encoded in a memory word. *)
Context (lk : option Z -> Z).

(** [seg nx pv p l n]: the nodes [l] are linked in this order, where [nx x] and
    [pv x] are the words holding the [next] and [prev] links of node [x], the
    predecessor of the first node is [p] and the successor of the last is [n]. *)
Fixpoint seg (nx pv : Z -> option Z) (p : option Z) (l : list Z) (n : option Z) : Prop :=
  match l with
  | [] => True
  | x :: l' =>
      nx x = Some (lk (match l' with y :: _ => Some y | [] => n end)) /\
      pv x = Some (lk p) /\
      seg nx pv (Some x) l' n
  end.

(** A whole list: nothing before its first node, nothing after its last. *)
Definition dll (nx pv : Z -> option Z) (l : list Z) : Prop := seg nx pv None l None.

Definition first_or (n : option Z) (l : list Z) : option Z :=
  match l with y :: _ => Some y | [] => n end.
Definition last_or (p : option Z) (l : list Z) : option Z :=
  match last l with Some y => Some y | None => p end.

Implicit Types (nx pv : Z -> option Z) (l : list Z).

Lemma seg_app nx pv l2 n : forall l1 p,
  seg nx pv p (l1 ++ l2) n <->
  seg nx pv p l1 (first_or n l2) /\ seg nx pv (last_or p l1) l2 n.
Proof.
  induction l1 as [|x l1 IH]; intros p; cbn [seg app].
  - by split; [|intros [_ ?]].
  - rewrite IH. unfold last_or at 2. rewrite last_cons.
    destruct l1 as [|y l1]; [by destruct l2; simpl; tauto|].
    unfold last_or. destruct (last (y :: l1)) eqn:El; [simpl; tauto|].
    apply last_None in El. done.
Qed.

Lemma seg_ext nx pv nx' pv' n : forall l p,
  (forall x, x ∈ l -> nx' x = nx x /\ pv' x = pv x) ->
  seg nx pv p l n -> seg nx' pv' p l n.
Proof.
  induction l as [|x l IH]; intros p Hx; cbn [seg]; [done|].
  intros (Hn & Hp & Hs). destruct (Hx x) as [-> ->]; [set_solver|].
  split_and!; [done..|]. apply IH; [|done]. intros; apply Hx; set_solver.
Qed.

(** The links of a node, read off its position in the list. *)
Lemma dll_at nx pv l1 x l2 :
  dll nx pv (l1 ++ x :: l2) -> nx x = Some (lk (head l2)) /\ pv x = Some (lk (last l1)).
Proof.
  unfold dll. rewrite seg_app. cbn [seg]. intros (_ & Hn & Hp & _).
  split; [by destruct l2|]. rewrite Hp. unfold last_or. by destruct (last l1).
Qed.

(** Pushing in front writes the new node's links and the old head's [prev]. *)
Lemma dll_push nx pv nx' pv' x l :
  dll nx pv l -> NoDup l ->
  nx' x = Some (lk (head l)) -> pv' x = Some (lk None) ->
  (forall h, head l = Some h -> nx' h = nx h /\ pv' h = Some (lk (Some x))) ->
  (forall y, y ∈ l -> head l <> Some y -> nx' y = nx y /\ pv' y = pv y) ->
  dll nx' pv' (x :: l).
Proof.
  unfold dll. intros Hl Hnd Hnx Hpx Hh Hy. cbn [seg].
  split_and!; [by destruct l|done|].
  destruct l as [|h l]; cbn [seg] in *; [done|].
  destruct Hl as (Hn & _ & Hs), (Hh h eq_refl) as [-> Hp].
  split_and!; [done..|]. eapply seg_ext; [|done].
  intros y Hyl. apply Hy; [set_solver|]. intros [= ->].
  by apply NoDup_cons in Hnd as [? _].
Qed.

(** Unlinking a node writes its neighbours' links. *)
Lemma dll_remove nx pv nx' pv' l1 x l2 :
  dll nx pv (l1 ++ x :: l2) -> NoDup (l1 ++ x :: l2) ->
  (forall t, last l1 = Some t -> nx' t = Some (lk (head l2)) /\ pv' t = pv t) ->
  (forall h, head l2 = Some h -> nx' h = nx h /\ pv' h = Some (lk (last l1))) ->
  (forall y, y ∈ l1 ++ l2 -> last l1 <> Some y -> head l2 <> Some y ->
     nx' y = nx y /\ pv' y = pv y) ->
  dll nx' pv' (l1 ++ l2).
Proof.
  unfold dll. rewrite seg_app. cbn [seg].
  intros (H1 & _ & _ & H2) Hnd Ht Hh Hy.
  apply NoDup_app in Hnd as (Hnd1 & Hd & [Hx Hnd2]%NoDup_cons).
  rewrite seg_app. split.
  - destruct l1 as [|t l1' _] using rev_ind; [done|].
    rewrite last_snoc in *. destruct (Ht t eq_refl) as [Hnt Hpt].
    apply seg_app in H1 as [H1 Hlast]. apply seg_app. split.
    + eapply seg_ext; [|done]. intros y Hyl. apply Hy; [set_solver|..].
      * intros [= ->]. apply NoDup_app in Hnd1 as (_ & Hd1 & _). set_solver.
      * intros Hhy. apply (Hd y); [set_solver|]. destruct l2; set_solver.
    + cbn [seg] in *. rewrite Hnt, Hpt. split_and!; [|tauto|done].
      by destruct l2.
  - destruct l2 as [|h l2]; cbn [seg] in *; [done|].
    destruct (Hh h eq_refl) as [-> ->], H2 as (Hn & _ & Hs).
    split_and!; [done|unfold last_or; by destruct (last l1)|].
    eapply seg_ext; [|done]. intros y Hyl. apply Hy; [set_solver|..].
    + intros Hly. apply (Hd y); [|set_solver].
      destruct l1 as [|t l1' _] using rev_ind; [done|].
      rewrite last_snoc in Hly. set_solver.
    + intros [= ->]. by apply NoDup_cons in Hnd2 as [? _].
Qed.
End dll.

Arguments dll lk nx pv l : simpl never.
