(* ===== verification/Buddy.v ===== *)
(** * Buddy frame allocator: the model ([kernel/src/memory/buddy.rs])

    [BuddyAllocator] with its free lists, bitmap and counters, the memory the
    free blocks' links live in, and every operation of the file. The state of
    the operations is [bworld]: the allocator, the memory it reaches through
    the physical-memory mapping, and the frame metrics of [monitor.rs]. *)

From S2P Require Import Prelude Memory Monitor.
Local Open Scope rust_scope.

Definition MAX_ORDER : Z := 10.
Definition MAX_TRACKED_FRAMES : Z := 131072.
Definition BITMAP_U64_LEN : Z := MAX_TRACKED_FRAMES / 64.
Definition NULL_LINK : Z := u64_max.

Record BuddyAllocator := mkBuddy {
  free_lists : list (option Z);
  bitmap : list Z;
  total_frames : Z;
  base_phys : Z;
  phys_mem_offset : Z;
  allocated_count : Z
}.

Record bworld := mkWorld {
  self : BuddyAllocator;
  mem : memory;
  mon : MonitorData
}.

Definition upd_self (f : BuddyAllocator -> BuddyAllocator) (w : bworld) : bworld :=
  mkWorld (f (self w)) (mem w) (mon w).
Definition set_mem (m : memory) (w : bworld) : bworld := mkWorld (self w) m (mon w).
Definition upd_mon (f : MonitorData -> MonitorData) (w : bworld) : bworld :=
  mkWorld (self w) (mem w) (f (mon w)).

Definition set_free_lists (fl : list (option Z)) (b : BuddyAllocator) : BuddyAllocator :=
  mkBuddy fl (bitmap b) (total_frames b) (base_phys b) (phys_mem_offset b) (allocated_count b).
Definition set_bitmap (bm : list Z) (b : BuddyAllocator) : BuddyAllocator :=
  mkBuddy (free_lists b) bm (total_frames b) (base_phys b) (phys_mem_offset b) (allocated_count b).
Definition set_base (p : Z) (b : BuddyAllocator) : BuddyAllocator :=
  mkBuddy (free_lists b) (bitmap b) (total_frames b) p (phys_mem_offset b) (allocated_count b).
Definition set_total (n : Z) (b : BuddyAllocator) : BuddyAllocator :=
  mkBuddy (free_lists b) (bitmap b) n (base_phys b) (phys_mem_offset b) (allocated_count b).
Definition set_allocated (n : Z) (b : BuddyAllocator) : BuddyAllocator :=
  mkBuddy (free_lists b) (bitmap b) (total_frames b) (base_phys b) (phys_mem_offset b) n.

(** ** [bootloader_api]'s memory map (data only) *)

Inductive MemoryRegionKind :=
  | Usable
  | Bootloader
  | UnknownUefi (n : Z)
  | UnknownBios (n : Z).

Record MemoryRegion := mkRegion {
  region_start : Z;
  region_end : Z;
  region_kind : MemoryRegionKind
}.

Definition is_usable (r : MemoryRegion) : bool :=
  match region_kind r with Usable => true | _ => false end.

(** [memory_regions.iter().filter(|r| r.kind == MemoryRegionKind::Usable)] *)
Fixpoint usable_regions (rs : list MemoryRegion) : list MemoryRegion :=
  match rs with
  | [] => []
  | r :: rs' => if is_usable r then r :: usable_regions rs' else usable_regions rs'
  end.

(** ** [x86_64]'s [PhysFrame<Size4KiB>]

    The crate is not part of the repository: a frame is an opaque value built
    from a physical address by [PhysFrame::containing_address(PhysAddr::new(a))]
    and giving back the start of its page. The documented behaviour the
    allocator relies on is [PhysFrameLaws]. *)

Class PhysFrameApi := {
  PhysFrame : Type;
  containing_address : Z -> outcome PhysFrame;
  start_address : PhysFrame -> Z
}.

Class PhysFrameLaws (api : PhysFrameApi) : Prop :=
  containing_address_spec p :
    0 <= p < 2 ^ 52 -> p mod 4096 = 0 ->
    returns (containing_address p) (fun f => start_address f = p).

(** ** Bitmap helpers *)

Definition bitmap_index (idx : Z) : Z * Z := (idx / 64, Z.shiftl 1 (idx mod 64)).

Definition is_free (b : BuddyAllocator) (idx : Z) : outcome bool :=
  let '(word, bit) := bitmap_index idx in
  w ← index (bitmap b) word;
  Ret (negb (Z.land w bit =? 0)).

Fixpoint all_free (b : BuddyAllocator) (start : Z) (count : nat) : outcome bool :=
  match count with
  | O => Ret true
  | S count' =>
      f ← is_free b start;
      if f : bool then all_free b (start + 1) count' else Ret false
  end.

Definition is_range_free (b : BuddyAllocator) (start count : Z) : outcome bool :=
  e ← start +? count;
  if total_frames b <? e then Ret false
  else all_free b start (Z.to_nat count).

Definition mark_free (idx : Z) : M bworld unit :=
  w ← get;
  let '(word, bit) := bitmap_index idx in
  old ← lift (index (bitmap (self w)) word);
  bm ← lift (store_index (bitmap (self w)) word (Z.lor old bit));
  modify (upd_self (set_bitmap bm)).

(** [&= !bit]: the complement is taken on 64 bits. *)
Definition mark_allocated (idx : Z) : M bworld unit :=
  w ← get;
  let '(word, bit) := bitmap_index idx in
  old ← lift (index (bitmap (self w)) word);
  bm ← lift (store_index (bitmap (self w)) word (Z.land old (Z.lxor u64_max bit)));
  modify (upd_self (set_bitmap bm)).

Definition mark_range_allocated (start count : Z) : M bworld unit :=
  for_range (Z.to_nat count) start mark_allocated.

Definition mark_range_free (start count : Z) : M bworld unit :=
  for_range (Z.to_nat count) start mark_free.

(** ** Address conversion *)

Definition idx_to_phys (b : BuddyAllocator) (idx : Z) : outcome Z :=
  off ← idx *? 4096;
  base_phys b +? off.

Definition phys_to_idx (b : BuddyAllocator) (phys : Z) : outcome Z :=
  d ← phys -? base_phys b;
  Ret (d / 4096).

Definition frame_idx_to_ptr (b : BuddyAllocator) (idx : Z) : outcome Z :=
  p ← idx_to_phys b idx;
  p +? phys_mem_offset b.

(** ** Free list helpers *)

Definition is_aligned_for_order (idx order : Z) : outcome bool :=
  s ← chk_shl1 64 order;
  Ret (Z.land idx (s - 1) =? 0).

Definition read_word (p : Z) : M bworld Z := w ← get; lift (read_u64 (mem w) p).
Definition write_word (p v : Z) : M bworld unit :=
  w ← get; m ← lift (write_u64 (mem w) p v); modify (set_mem m).

Definition set_head (order : Z) (h : option Z) : M bworld unit :=
  w ← get;
  fl ← lift (store_index (free_lists (self w)) order h);
  modify (upd_self (set_free_lists fl)).

(** [if next == NULL_LINK { None } else { Some(next) }] *)
Definition unlink (next : Z) : option Z := if next =? NULL_LINK then None else Some next.

Definition insert_free (idx order : Z) : M bworld unit :=
  al ← lift (is_aligned_for_order idx order);
  _ ← guard_or al (Panic "debug_assert: is_aligned_for_order");
  size ← lift (chk_shl1 64 order);
  _ ← mark_range_free idx size;
  b ← gets self;
  header ← lift (frame_idx_to_ptr b idx);
  old_head ← lift (index (free_lists b) order);
  _ ← write_word header (default NULL_LINK old_head);
  _ ← write_word (header + 8) NULL_LINK;
  _ ← match old_head with
      | Some old =>
          old_header ← lift (frame_idx_to_ptr b old);
          write_word (old_header + 8) idx
      | None => mret tt
      end;
  set_head order (Some idx).

Definition pop_free (order : Z) : M bworld (option Z) :=
  b ← gets self;
  h ← lift (index (free_lists b) order);
  match h with
  | None => mret None
  | Some idx =>
      header ← lift (frame_idx_to_ptr b idx);
      next ← read_word header;
      _ ← (if next =? NULL_LINK then mret tt
           else next_header ← lift (frame_idx_to_ptr b next);
                write_word (next_header + 8) NULL_LINK);
      _ ← set_head order (unlink next);
      size ← lift (chk_shl1 64 order);
      _ ← mark_range_allocated idx size;
      mret (Some idx)
  end.

Definition remove_free (idx order : Z) : M bworld unit :=
  b ← gets self;
  header ← lift (frame_idx_to_ptr b idx);
  next ← read_word header;
  prev ← read_word (header + 8);
  _ ← (if prev =? NULL_LINK then set_head order (unlink next)
       else prev_header ← lift (frame_idx_to_ptr b prev);
            write_word prev_header next);
  if next =? NULL_LINK then mret tt
  else next_header ← lift (frame_idx_to_ptr b next);
       write_word (next_header + 8) prev.

(** ** Construction *)

(** [usize::BITS - x.leading_zeros() - 1] *)
Definition leading_zeros (x : Z) : Z := if x =? 0 then 64 else 63 - Z.log2 x.
Definition floor_log2 (x : Z) : Z :=
  if x =? 0 then 0 else 64 - leading_zeros x - 1.

(** [while order > 0 && !is_aligned_for_order(pos, order) { order -= 1 }] *)
Fixpoint largest_aligned (pos : Z) (order : nat) : nat :=
  match order with
  | O => O
  | S o' => if Z.land pos (2 ^ Z.of_nat order - 1) =? 0 then order else largest_aligned pos o'
  end.

(** The body of the carving loop, [while pos < end]. *)
Fixpoint carve (fuel : nat) (pos end_ : Z) : M bworld unit :=
  if end_ <=? pos then mret tt
  else match fuel with
  | O => crash OutOfFuel
  | S fuel' =>
      let remaining := end_ - pos in
      let order := Z.of_nat (largest_aligned pos (Z.to_nat (Z.min MAX_ORDER (floor_log2 remaining)))) in
      b ← gets self;
      f ← lift (is_free b pos);
      _ ← (if f : bool then insert_free pos order else mret tt);
      size ← lift (chk_shl1 64 order);
      next ← lift (pos +? size);
      carve fuel' next end_
  end.

(** First pass: the lowest start and the highest end of the usable regions. *)
Definition scan_regions (rs : list MemoryRegion) : Z * Z * bool :=
  fold_left (fun '(base, last_end, _) r =>
      (Z.min base (region_start r), Z.max last_end (region_end r), true))
    rs (u64_max, 0, false).

Definition region_frames (b : BuddyAllocator) (r : MemoryRegion) : outcome (Z * Z) :=
  s ← region_start r -? base_phys b;
  e ← region_end r -? base_phys b;
  Ret (s / 4096, e / 4096).

(** Second pass, for one region. *)
Definition mark_region (r : MemoryRegion) : M bworld unit :=
  b ← gets self;
  se ← lift (region_frames b r);
  let '(start_idx, end_idx) := se : Z * Z in
  for_range (Z.to_nat (end_idx - start_idx)) start_idx (fun idx =>
    if idx <? total_frames b then mark_free idx else mret tt).

(** Third pass, for one region. *)
Definition carve_region (r : MemoryRegion) : M bworld unit :=
  b ← gets self;
  se ← lift (region_frames b r);
  let '(pos, e) := se : Z * Z in
  if total_frames b <=? pos then mret tt
  else let end_ := if total_frames b <? e then total_frames b else e in
       carve (Z.to_nat (end_ - pos)) pos end_.

Definition new (memory_regions : list MemoryRegion) (physical_memory_offset : Z) : M bworld unit :=
  _ ← modify (upd_self (fun _ =>
        mkBuddy (replicate 11 None) (replicate (Z.to_nat BITMAP_U64_LEN) 0) 0 u64_max
          physical_memory_offset 0));
  let rs := usable_regions memory_regions in
  let '(base, last_end, found_usable) := scan_regions rs in
  _ ← guard_or found_usable (Panic "no usable memory regions");
  _ ← modify (upd_self (set_base base));
  span ← lift (last_end -? base);
  let total := span / 4096 in
  let total := if MAX_TRACKED_FRAMES <? total then MAX_TRACKED_FRAMES else total in
  _ ← modify (upd_self (set_total total));
  _ ← modify (upd_mon (set_frame_metrics total));
  _ ← for_each rs mark_region;
  for_each rs carve_region.

(** ** Allocation and deallocation *)

(** [while alloc_order <= MAX_ORDER && self.free_lists[alloc_order].is_none()] *)
Fixpoint find_order (fuel : nat) (b : BuddyAllocator) (o : Z) : outcome Z :=
  if MAX_ORDER <? o then Ret o
  else match fuel with
  | O => Crash OutOfFuel
  | S fuel' =>
      h ← index (free_lists b) o;
      match h with None => find_order fuel' b (o + 1) | Some _ => Ret o end
  end.

(** [while alloc_order > order { alloc_order -= 1; insert_free(idx + (1 << alloc_order), ..) }] *)
Fixpoint split_down (n : nat) (idx alloc_order : Z) : M bworld unit :=
  match n with
  | O => mret tt
  | S n' =>
      let o := alloc_order - 1 in
      size ← lift (chk_shl1 64 o);
      buddy ← lift (idx +? size);
      _ ← insert_free buddy o;
      split_down n' idx o
  end.

(** [while order < MAX_ORDER]: merge with the buddy as long as it is free. *)
Fixpoint coalesce (fuel : nat) (idx order : Z) : M bworld (Z * Z) :=
  if MAX_ORDER <=? order then mret (idx, order)
  else match fuel with
  | O => crash OutOfFuel
  | S fuel' =>
      size ← lift (chk_shl1 64 order);
      let buddy_idx := Z.lxor idx size in
      b ← gets self;
      if total_frames b <=? buddy_idx then mret (idx, order)
      else
        f ← lift (is_range_free b buddy_idx size);
        if f : bool then
          _ ← remove_free buddy_idx order;
          _ ← mark_range_allocated buddy_idx size;
          coalesce fuel' (Z.min idx buddy_idx) (order + 1)
        else mret (idx, order)
  end.

Section frames.
Context {api : PhysFrameApi}.

Definition allocate_frame_order (order : Z) : M bworld (option PhysFrame) :=
  if MAX_ORDER <? order then mret None
  else
    b ← gets self;
    alloc_order ← lift (find_order 11 b order);
    if MAX_ORDER <? alloc_order then mret None
    else
      r ← pop_free alloc_order;
      match r with
      | None => mret None
      | Some idx =>
          _ ← split_down (Z.to_nat (alloc_order - order)) idx alloc_order;
          size ← lift (chk_shl1 64 order);
          b ← gets self;
          n ← lift (allocated_count b +? size);
          _ ← modify (upd_self (set_allocated n));
          _ ← modify (upd_mon (inc_allocated_frames size));
          phys ← lift (idx_to_phys b idx);
          f ← lift (containing_address phys);
          mret (Some f)
      end.

Definition deallocate_frame_order (frame : PhysFrame) (order : Z) : M bworld unit :=
  if MAX_ORDER <? order then mret tt
  else
    size ← lift (chk_shl1 64 order);
    b ← gets self;
    n ← lift (allocated_count b -? size);
    _ ← modify (upd_self (set_allocated n));
    _ ← modify (upd_mon (dec_allocated_frames size));
    idx ← lift (phys_to_idx b (start_address frame));
    io ← coalesce 11 idx order;
    insert_free (fst io) (snd io).

Definition deallocate_frame (frame : PhysFrame) : M bworld unit :=
  deallocate_frame_order frame 0.

(** [impl FrameAllocator<Size4KiB> for BuddyAllocator] *)
Definition allocate_frame : M bworld (option PhysFrame) := allocate_frame_order 0.
End frames.

Definition free_frames (b : BuddyAllocator) : outcome Z := total_frames b -? allocated_count b.

Definition get_total_frames (b : BuddyAllocator) : Z := total_frames b.
