(* ===== verification/BuddyInv.v ===== *)
(** * Buddy frame allocator: representation invariant

    The ghost state of a buddy allocator is the list of free blocks of each
    order ([L]) and the map of the blocks in use ([A], start index to order);
    [binv] says how they are represented by the bitmap, the heads and the links
    in memory, that blocks are aligned, in range and disjoint, and that no two
    free buddies are left uncoalesced. The lemmas give what each helper of
    [memory/buddy.rs] does to it. *)

From S2P Require Import Prelude Memory Monitor Dll Buddy.
Local Open Scope rust_scope.

(** ** The bitmap *)

Definition bit_at (bm : list Z) (f : Z) : bool :=
  match bm !! Z.to_nat (f / 64) with Some w => Z.testbit w (f mod 64) | None => false end.

Definition bm_ok (bm : list Z) : Prop := length bm = 2048%nat /\ Forall in_u64 bm.

Definition with_bitmap (bm : list Z) (w : bworld) : bworld := upd_self (set_bitmap bm) w.

Lemma word_index f : 0 <= f < MAX_TRACKED_FRAMES -> 0 <= f / 64 < 2048.
Proof. unfold MAX_TRACKED_FRAMES. intros. split; [apply Z.div_pos; lia|]. apply Z.div_lt_upper_bound; lia. Qed.

Lemma bm_word bm f :
  bm_ok bm -> 0 <= f < MAX_TRACKED_FRAMES ->
  exists w, bm !! Z.to_nat (f / 64) = Some w /\ in_u64 w.
Proof.
  intros [Hl Hr] Hf%word_index.
  destruct (lookup_lt_is_Some_2 bm (Z.to_nat (f / 64))) as [w Hw]; [lia|].
  exists w. split; [done|]. by eapply Forall_lookup_1.
Qed.

Lemma is_free_bit b f :
  bm_ok (bitmap b) -> 0 <= f < MAX_TRACKED_FRAMES -> is_free b f = Ret (bit_at (bitmap b) f).
Proof.
  intros Hb Hf. destruct (bm_word _ _ Hb Hf) as (w & Hw & _).
  apply word_index in Hf. unfold is_free, bitmap_index, bit_at, index.
  rewrite (proj2 (Z.ltb_ge _ _)) by lia. rewrite Hw. cbn [mbind outcome_bind].
  rewrite Z.shiftl_1_l, land_pow2_test by (apply Z.mod_pos_bound; lia). done.
Qed.

(** Writing one bit of one word changes that frame's bit only. *)
Lemma bit_at_insert bm f g w w' v :
  bm_ok bm -> 0 <= f < MAX_TRACKED_FRAMES -> 0 <= g ->
  bm !! Z.to_nat (f / 64) = Some w ->
  (forall k, 0 <= k < 64 -> Z.testbit w' k = if k =? f mod 64 then v else Z.testbit w k) ->
  bit_at (<[Z.to_nat (f / 64) := w']> bm) g = if g =? f then v else bit_at bm g.
Proof.
  intros [Hl Hr] Hf%word_index Hg Hw Hk. unfold bit_at.
  assert (0 <= g mod 64 < 64) as Hgm by (apply Z.mod_pos_bound; lia).
  assert (0 <= g / 64) by (apply Z.div_pos; lia).
  destruct (decide (g / 64 = f / 64)) as [Heq|Hne].
  - rewrite Heq, list_lookup_insert_eq, Hw by lia. rewrite Hk by done.
    destruct (Z.eqb_spec (g mod 64) (f mod 64)) as [Hm|Hm];
      destruct (Z.eqb_spec g f) as [->|Hgf]; try done; exfalso.
    apply Hgf. rewrite (Z.div_mod g 64), (Z.div_mod f 64), Heq, Hm by lia. done.
  - rewrite list_lookup_insert_ne by lia.
    destruct (Z.eqb_spec g f) as [->|]; done.
Qed.

(** The new value of a word when frame [f]'s bit becomes [v]. *)
Definition set_bit (w f : Z) (v : bool) : Z :=
  if v then Z.lor w (2 ^ (f mod 64)) else Z.land w (Z.lxor u64_max (2 ^ (f mod 64))).

Lemma set_bit_spec bm f g w v :
  bm_ok bm -> 0 <= f < MAX_TRACKED_FRAMES -> 0 <= g ->
  bm !! Z.to_nat (f / 64) = Some w ->
  bit_at (<[Z.to_nat (f / 64) := set_bit w f v]> bm) g = if g =? f then v else bit_at bm g.
Proof.
  intros Hok Hf Hg Hw. eapply bit_at_insert; [done..|]. intros k Hk.
  assert (0 <= f mod 64 < 64) as Hfm by (apply Z.mod_pos_bound; lia).
  destruct v; cbn [set_bit].
  - rewrite Z.lor_spec, Z.pow2_bits_eqb, Z.eqb_sym by lia.
    destruct (k =? f mod 64); [apply orb_true_r|apply orb_false_r].
  - rewrite land_not_test by lia.
    destruct (k =? f mod 64); [apply andb_false_r|apply andb_true_r].
Qed.

Lemma set_bit_ok bm f w v :
  bm_ok bm -> in_u64 w -> bm_ok (<[Z.to_nat (f / 64) := set_bit w f v]> bm).
Proof.
  intros [Hl Hr] Hw. split; [by rewrite length_insert|].
  assert (0 <= f mod 64 < 64) as Hfm by (apply Z.mod_pos_bound; lia).
  assert (in_u64 (2 ^ (f mod 64))) as Hp.
  { rewrite in_u64_pow. split; [apply Z.lt_le_incl, pow2_pos; lia|].
    apply Z.pow_lt_mono_r; lia. }
  apply Forall_insert; [done|]. destruct v; cbn [set_bit].
  - by apply lor_in_u64.
  - apply land_in_u64; [done|]. apply Z.lxor_nonneg. unfold in_u64 in Hp.
    split; intros; [lia|]. unfold u64_max. lia.
Qed.

(** [mark_free]/[mark_allocated]: frame [f]'s bit becomes [v], nothing else
    changes. *)
Definition marks (c : M bworld unit) (lo hi : Z) (v : bool) : Prop :=
  forall w, bm_ok (bitmap (self w)) ->
  wp c (fun _ w' => exists bm, w' = with_bitmap bm w /\ bm_ok bm /\
    forall g, 0 <= g ->
      bit_at bm g = if (lo <=? g) && (g <? hi) then v else bit_at (bitmap (self w)) g) w.

Lemma mark_one f v w :
  bm_ok (bitmap (self w)) -> 0 <= f < MAX_TRACKED_FRAMES ->
  wp (if v : bool then mark_free f else mark_allocated f)
    (fun _ w' => exists bm, w' = with_bitmap bm w /\ bm_ok bm /\
       forall g, 0 <= g -> bit_at bm g = if g =? f then v else bit_at (bitmap (self w)) g) w.
Proof.
  intros Hok Hf. destruct (bm_word _ _ Hok Hf) as (x & Hx & Hxr).
  pose proof (word_index f Hf) as Hi. destruct Hok as [Hl Hr] eqn:E; clear E.
  assert (0 <= f mod 64) by (apply Z.mod_pos_bound; lia).
  assert (exists bm, (if v : bool then mark_free f else mark_allocated f) w = Ret (tt, with_bitmap bm w)
     /\ bm = <[Z.to_nat (f / 64) := set_bit x f v]> (bitmap (self w))) as (bm & Hrun & ->).
  { eexists. split; [|done]. destruct v;
      unfold mark_free, mark_allocated, bitmap_index, mbind, M_bind, get, lift, index, store_index;
      rewrite (proj2 (Z.ltb_ge _ _)), Hx, (proj2 (Z.leb_le _ _)), (proj2 (Z.ltb_lt _ _)) by lia;
      rewrite Z.shiftl_1_l; done. }
  eapply wp_intro; [done|]. eexists. split_and!; [done|by apply set_bit_ok|].
  intros g Hg. by apply set_bit_spec.
Qed.

Lemma marks_range v start count :
  0 <= start -> 0 <= count -> start + count <= MAX_TRACKED_FRAMES ->
  marks (for_range (Z.to_nat count) start (if v : bool then mark_free else mark_allocated))
    start (start + count) v.
Proof.
  intros Hs Hc He w Hok.
  eapply wp_mono.
  - apply (wp_for_range (fun i w' => exists bm, w' = with_bitmap bm w /\ bm_ok bm /\
      forall g, 0 <= g ->
        bit_at bm g = if (start <=? g) && (g <? i) then v else bit_at (bitmap (self w)) g)).
    + intros i s Hi (bm & -> & Hbm & Hg).
      assert (wp (if v : bool then mark_free i else mark_allocated i)
        (fun _ w' => exists bm', w' = with_bitmap bm' (with_bitmap bm w) /\ bm_ok bm' /\
         forall g, 0 <= g -> bit_at bm' g = if g =? i then v else bit_at bm g) (with_bitmap bm w)) as Hw.
      { apply mark_one; [done|lia]. }
      destruct v; (eapply wp_mono; [exact Hw|]); intros [] w' (bm' & -> & Hbm' & Hg');
        exists bm'; (split_and!; [done..|]); intros g Hg0; rewrite Hg', Hg by done;
        destruct (Z.eqb_spec g i), (Z.leb_spec start g), (Z.ltb_spec g i), (Z.ltb_spec g (i + 1));
        simpl; try done; lia.
    + exists (bitmap (self w)). split_and!; [by destruct w as [[] ? ?]|done|].
      intros g Hg. destruct (Z.leb_spec start g), (Z.ltb_spec g start); simpl; try done; lia.
  - intros [] w' Hw'. rewrite Z2Nat.id in Hw' by done. done.
Qed.

Lemma mark_range_free_spec start count :
  0 <= start -> 0 <= count -> start + count <= MAX_TRACKED_FRAMES ->
  marks (mark_range_free start count) start (start + count) true.
Proof. intros. by apply (marks_range true). Qed.

Lemma mark_range_allocated_spec start count :
  0 <= start -> 0 <= count -> start + count <= MAX_TRACKED_FRAMES ->
  marks (mark_range_allocated start count) start (start + count) false.
Proof. intros. by apply (marks_range false). Qed.

(** [is_range_free] reads the bits of the range. *)
Lemma all_free_spec b n : forall start,
  bm_ok (bitmap b) -> 0 <= start -> start + Z.of_nat n <= MAX_TRACKED_FRAMES ->
  exists r, all_free b start n = Ret r /\
    (r = true <-> forall g, start <= g < start + Z.of_nat n -> bit_at (bitmap b) g = true).
Proof.
  induction n as [|n IH]; intros start Hok Hs He; cbn [all_free].
  - exists true. split; [done|]. split; [|done]. intros _ g Hg. lia.
  - rewrite is_free_bit by (done || lia). cbn [mbind outcome_bind].
    destruct (bit_at (bitmap b) start) eqn:Hb.
    + destruct (IH (start + 1) Hok ltac:(lia) ltac:(lia)) as (r & -> & Hr).
      exists r. split; [done|]. rewrite Hr. split; intros H g Hg.
      * destruct (decide (g = start)) as [->|]; [done|]. apply H. lia.
      * apply H. lia.
    + exists false. split; [done|]. split; [done|]. intros H.
      rewrite (H start) in Hb by lia. done.
Qed.

Lemma is_range_free_spec b start count :
  bm_ok (bitmap b) -> 0 <= start -> 0 <= count -> start + count <= u64_max ->
  0 <= total_frames b <= MAX_TRACKED_FRAMES ->
  exists r, is_range_free b start count = Ret r /\
    (r = true <-> start + count <= total_frames b /\
                  forall g, start <= g < start + count -> bit_at (bitmap b) g = true).
Proof.
  intros Hok Hs Hc He Ht. unfold is_range_free, chk_add.
  rewrite (proj2 (Z.leb_le _ _)) by lia. cbn [mbind outcome_bind].
  destruct (Z.ltb_spec (total_frames b) (start + count)).
  - exists false. split; [done|]. split; [done|]. lia.
  - destruct (all_free_spec b (Z.to_nat count) start) as (r & -> & Hr); [done|lia..|].
    exists r. split; [done|]. rewrite Hr, Z2Nat.id by done. tauto.
Qed.

(** ** Blocks *)

(** Frame [f] belongs to the block of order [o] that starts at [x]. *)
Definition covers (x o f : Z) : Prop := x <= f < x + 2 ^ o.

(** [x] heads a free block of order [o]. *)
Definition blk (L : list (list Z)) (x o : Z) : Prop :=
  0 <= o /\ exists l, L !! Z.to_nat o = Some l /\ x ∈ l.

Definition free_frame (L : list (list Z)) (f : Z) : Prop :=
  exists x o, blk L x o /\ covers x o f.
Definition used_frame (A : gmap Z Z) (f : Z) : Prop :=
  exists x o, A !! x = Some o /\ covers x o f.

Definition block_ok (total x o : Z) : Prop :=
  0 <= o <= MAX_ORDER /\ 0 <= x /\ x + 2 ^ o <= total /\ (2 ^ o | x).

(** Aligned blocks are nested or disjoint. *)
Lemma laminar x o y p f :
  0 <= o <= p -> (2 ^ o | x) -> (2 ^ p | y) -> covers x o f -> covers y p f ->
  y <= x /\ x + 2 ^ o <= y + 2 ^ p.
Proof.
  unfold covers. intros Hop [a ->] [c ->] Hx Hy.
  replace (2 ^ p) with (2 ^ (p - o) * 2 ^ o) in * by (rewrite <- Z.pow_add_r by lia; f_equal; lia).
  assert (0 < 2 ^ o) by (apply pow2_pos; lia).
  assert (c * 2 ^ (p - o) <= a < c * 2 ^ (p - o) + 2 ^ (p - o)) by nia. nia.
Qed.

(** The ghost lists after pushing [x] on the list of order [o]. *)
Definition push (L : list (list Z)) (o x : Z) : list (list Z) := alter (cons x) (Z.to_nat o) L.

Definition set_list (L : list (list Z)) (o : Z) (l : list Z) : list (list Z) :=
  <[Z.to_nat o := l]> L.

Lemma blk_order L x o : length L = 11%nat -> blk L x o -> 0 <= o <= MAX_ORDER.
Proof.
  intros Hl (Ho & l & Hlk & _). apply lookup_lt_Some in Hlk. unfold MAX_ORDER. lia.
Qed.

Lemma blk_push L o x y p :
  0 <= o <= MAX_ORDER -> length L = 11%nat ->
  blk (push L o x) y p <-> (y = x /\ p = o) \/ blk L y p.
Proof.
  unfold blk, push, MAX_ORDER. intros Ho Hl.
  destruct (lookup_lt_is_Some_2 L (Z.to_nat o)) as [l0 Hl0]; [lia|].
  destruct (decide (p = o)) as [->|Hne].
  - rewrite list_lookup_alter_eq, Hl0. simpl. split.
    + intros (_ & l & [= <-] & Hy). apply elem_of_cons in Hy as [->|Hy]; [tauto|]. right. split; [lia|eauto].
    + intros [[-> _]|(_ & l & [= <-] & Hy)]; split; try lia; eexists; split; [done|set_solver|done|set_solver].
  - split.
    + intros (Hp & l & Hlk & Hy). rewrite list_lookup_alter_ne in Hlk by lia. right. split_and?; eauto.
    + intros [[_ ->]|(Hp & l & Hlk & Hy)]; [done|]. split; [done|].
      exists l. by rewrite list_lookup_alter_ne by lia.
Qed.

Lemma blk_set_list L o l y p :
  0 <= o <= MAX_ORDER -> length L = 11%nat ->
  blk (set_list L o l) y p <-> (p = o /\ y ∈ l) \/ (p <> o /\ blk L y p).
Proof.
  unfold blk, set_list, MAX_ORDER. intros Ho Hl.
  destruct (decide (p = o)) as [->|Hne].
  - rewrite list_lookup_insert_eq by lia. split.
    + intros (_ & l' & [= <-] & Hy). tauto.
    + intros [[_ Hy]|[? _]]; [|done]. split; [lia|]. eauto.
  - split.
    + intros (Hp & l' & Hlk & Hy). rewrite list_lookup_insert_ne in Hlk by lia. right. split_and?; eauto.
    + intros [[-> _]|[_ (Hp & l' & Hlk & Hy)]]; [done|]. split; [done|].
      exists l'. by rewrite list_lookup_insert_ne by lia.
Qed.

(** ** The invariant *)

Definition lk (o : option Z) : Z := default NULL_LINK o.
Definition ptr_of (b : BuddyAllocator) (x : Z) : Z :=
  base_phys b + x * 4096 + phys_mem_offset b.
Definition nxt (b : BuddyAllocator) (m : memory) (x : Z) : option Z := load 8 m (ptr_of b x).
Definition prv (b : BuddyAllocator) (m : memory) (x : Z) : option Z := load 8 m (ptr_of b x + 8).

(** Physical addresses fit in 52 bits, their mapping in 64. *)
Definition addr_ok (b : BuddyAllocator) : Prop :=
  0 <= total_frames b <= MAX_TRACKED_FRAMES /\
  0 <= base_phys b /\ base_phys b mod 4096 = 0 /\
  0 <= phys_mem_offset b /\ phys_mem_offset b mod 8 = 0 /\
  base_phys b + total_frames b * 4096 <= 2 ^ 52 /\
  base_phys b + total_frames b * 4096 + phys_mem_offset b <= u64_max.

(** Everything but the bitmap's meaning. *)
Record core (A : gmap Z Z) (L : list (list Z)) (w : bworld) : Prop := {
  c_len : length L = 11%nat;
  c_heads : free_lists (self w) = head <$> L;
  c_bm : bm_ok (bitmap (self w));
  c_addr : addr_ok (self w);
  c_blk : forall x o, blk L x o -> block_ok (total_frames (self w)) x o;
  c_used : forall x o, A !! x = Some o -> block_ok (total_frames (self w)) x o;
  c_nodup : forall o l, L !! o = Some l -> NoDup l;
  c_ff : forall x o y p f, blk L x o -> blk L y p -> covers x o f -> covers y p f -> x = y /\ o = p;
  c_fa : forall f, free_frame L f -> used_frame A f -> False;
  c_aa : forall x o y p f,
    A !! x = Some o -> A !! y = Some p -> covers x o f -> covers y p f -> x = y;
  c_max : forall x o, blk L x o -> o < MAX_ORDER -> ~ blk L (Z.lxor x (2 ^ o)) o;
  c_links : forall o l, L !! o = Some l ->
    dll lk (nxt (self w) (mem w)) (prv (self w) (mem w)) l
}.

(** The frames whose bit is set are those of [B]. *)
Definition bits_are (B : Z -> Prop) (b : BuddyAllocator) : Prop :=
  forall f, 0 <= f < total_frames b -> bit_at (bitmap b) f = true <-> B f.

Definition binv (A : gmap Z Z) (L : list (list Z)) (w : bworld) : Prop :=
  core A L w /\ bits_are (free_frame L) (self w).

(** What an operation leaves alone: the geometry, the counters, and every byte
    outside the pages of the frames in [F]. *)
Record frame_rel (F : Z -> Prop) (w w' : bworld) : Prop := {
  fr_total : total_frames (self w') = total_frames (self w);
  fr_base : base_phys (self w') = base_phys (self w);
  fr_off : phys_mem_offset (self w') = phys_mem_offset (self w);
  fr_count : allocated_count (self w') = allocated_count (self w);
  fr_mon : mon w' = mon w;
  fr_mem : forall a, (forall f, F f -> a < ptr_of (self w) f \/ ptr_of (self w) f + 4096 <= a) ->
    mem w' !! a = mem w !! a
}.

Lemma frame_rel_refl F w : frame_rel F w w.
Proof. by split. Qed.

Lemma frame_rel_trans (F G H : Z -> Prop) w1 w2 w3 :
  frame_rel F w1 w2 -> frame_rel G w2 w3 ->
  (forall f, F f -> H f) -> (forall f, G f -> H f) -> frame_rel H w1 w3.
Proof.
  intros [] [] HF HG. split; try congruence. intros a Ha.
  rewrite fr_mem1; [apply fr_mem0; eauto|].
  intros f Hf%HG. unfold ptr_of. rewrite fr_base0, fr_off0. by apply Ha.
Qed.

Lemma frame_rel_mono (F G : Z -> Prop) w w' :
  frame_rel F w w' -> (forall f, F f -> G f) -> frame_rel G w w'.
Proof. intros H HG. eapply frame_rel_trans; [exact H|apply frame_rel_refl| |]; eauto. Qed.

(** ** Primitive steps *)

Lemma idx_to_phys_ret b x :
  addr_ok b -> 0 <= x <= total_frames b -> idx_to_phys b x = Ret (base_phys b + x * 4096).
Proof.
  unfold addr_ok, u64_max, MAX_TRACKED_FRAMES. intros H Hx.
  unfold idx_to_phys, chk_mul, chk_add, u64_max.
  rewrite (proj2 (Z.leb_le _ _)) by lia. cbn [mbind outcome_bind].
  by rewrite (proj2 (Z.leb_le _ _)) by lia.
Qed.

Lemma frame_idx_to_ptr_ret b x :
  addr_ok b -> 0 <= x <= total_frames b -> frame_idx_to_ptr b x = Ret (ptr_of b x).
Proof.
  intros H Hx. unfold frame_idx_to_ptr. rewrite idx_to_phys_ret by done.
  cbn [mbind outcome_bind]. unfold chk_add, ptr_of. unfold addr_ok in H.
  by rewrite (proj2 (Z.leb_le _ _)) by lia.
Qed.

Lemma ptr_of_aligned b x : addr_ok b -> ptr_of b x mod 8 = 0.
Proof.
  intros (_ & _ & Hb & _ & Ho & _). unfold ptr_of.
  apply Z.mod_divide in Hb as [k ->]; [|lia]. apply Z.mod_divide in Ho as [j ->]; [|lia].
  apply Z.mod_divide; [lia|]. exists (k * 512 + x * 512 + j). lia.
Qed.

Lemma ptr_of_aligned8 b x : addr_ok b -> (ptr_of b x + 8) mod 8 = 0.
Proof.
  intros H%(ptr_of_aligned b x). rewrite <- (Z.mul_1_l 8) at 1. by rewrite Z.mod_add.
Qed.

Lemma wp_write_word p v Q w :
  p mod 8 = 0 -> Q tt (set_mem (store 8 (mem w) p v) w) -> wp (write_word p v) Q w.
Proof.
  intros Hp HQ. unfold write_word. wp_steps. apply returns_write; [done|]. by wp_steps.
Qed.

Lemma wp_read_word p v (Q : Z -> bworld -> Prop) w :
  p mod 8 = 0 -> load 8 (mem w) p = Some v -> Q v w -> wp (read_word p) Q w.
Proof.
  intros Hp Hl HQ. unfold read_word. wp_steps. by eapply returns_read.
Qed.

Lemma wp_set_head o h (Q : unit -> bworld -> Prop) w :
  0 <= o < Z.of_nat (length (free_lists (self w))) ->
  Q tt (upd_self (set_free_lists (<[Z.to_nat o := h]> (free_lists (self w)))) w) ->
  wp (set_head o h) Q w.
Proof.
  intros Ho HQ. unfold set_head. wp_steps. apply returns_store_index; [done|]. by wp_steps.
Qed.

Lemma wp_marks c lo hi v (Q : unit -> bworld -> Prop) w :
  marks c lo hi v -> bm_ok (bitmap (self w)) ->
  (forall bm, bm_ok bm ->
    (forall g, 0 <= g ->
      bit_at bm g = if (lo <=? g) && (g <? hi) then v else bit_at (bitmap (self w)) g) ->
    Q tt (with_bitmap bm w)) ->
  wp c Q w.
Proof.
  intros Hm Hok HQ. eapply wp_mono; [by apply Hm|]. intros [] w' (bm & -> & ? & ?). by apply HQ.
Qed.

(** Links are frame indices or the end marker; a frame index is never the marker. *)
Lemma lk_inj_null o : lk o = NULL_LINK -> (forall x, o = Some x -> x <> NULL_LINK) -> o = None.
Proof. destruct o as [x|]; simpl; [|done]. intros H Hx. exfalso. by eapply Hx. Qed.

Lemma unlink_lk o : (forall x, o = Some x -> x <> NULL_LINK) -> unlink (lk o) = o.
Proof.
  intros Hx. unfold unlink, lk. destruct o as [x|]; [simpl|done].
  destruct (Z.eqb_spec x NULL_LINK); [|done]. exfalso. by eapply Hx.
Qed.

Section core_facts.
Context {A : gmap Z Z} {L : list (list Z)} {w : bworld} (Hc : core A L w).
Implicit Types (x y o p f : Z).

Lemma core_list o : 0 <= o <= MAX_ORDER -> exists l, L !! Z.to_nat o = Some l.
Proof.
  intros Ho. destruct (lookup_lt_is_Some_2 L (Z.to_nat o)) as [l Hl]; [|eauto].
  rewrite (c_len _ _ _ Hc). unfold MAX_ORDER in Ho. lia.
Qed.

Lemma core_blk_in o l x : 0 <= o -> L !! Z.to_nat o = Some l -> x ∈ l -> blk L x o.
Proof. intros ? ? ?. split; eauto. Qed.

Lemma core_lookup_blk i l x : L !! i = Some l -> x ∈ l -> blk L x (Z.of_nat i).
Proof. intros Hl Hx. split; [lia|]. exists l. by rewrite Nat2Z.id. Qed.

(** The head of a free block is a frame of the allocator, not the end marker. *)
Lemma core_blk_frame x o : blk L x o -> 0 <= x < total_frames (self w) /\ covers x o x.
Proof.
  intros Hb. destruct (c_blk _ _ _ Hc _ _ Hb) as (Ho & Hx & Ht & _).
  pose proof (pow2_pos o ltac:(lia)). unfold covers. lia.
Qed.

Lemma core_not_null x o : blk L x o -> x <> NULL_LINK /\ in_u64 x.
Proof.
  intros Hb. apply core_blk_frame in Hb as [Hx _].
  destruct (c_addr _ _ _ Hc) as (Ht & _). unfold MAX_TRACKED_FRAMES in Ht.
  unfold NULL_LINK, in_u64, u64_max. lia.
Qed.

Lemma core_same_head x o p : blk L x o -> blk L x p -> o = p.
Proof.
  intros H1 H2. eapply (c_ff _ _ _ Hc x o x p x); [done..| |].
  - by eapply core_blk_frame.
  - by eapply core_blk_frame.
Qed.

Lemma core_head_index o l :
  0 <= o -> L !! Z.to_nat o = Some l -> index (free_lists (self w)) o = Ret (head l).
Proof.
  intros Ho Hl. unfold index. rewrite (proj2 (Z.ltb_ge _ _)) by lia.
  rewrite (c_heads _ _ _ Hc), list_lookup_fmap, Hl. done.
Qed.

Lemma core_heads_len : Z.of_nat (length (free_lists (self w))) = 11.
Proof. rewrite (c_heads _ _ _ Hc), length_fmap, (c_len _ _ _ Hc). done. Qed.
End core_facts.

(** ** Geometry of pushing and removing a block *)

Definition same_geometry (w w' : bworld) : Prop :=
  total_frames (self w') = total_frames (self w) /\
  base_phys (self w') = base_phys (self w) /\
  phys_mem_offset (self w') = phys_mem_offset (self w).

Lemma addr_ok_same w w' : same_geometry w w' -> addr_ok (self w) -> addr_ok (self w').
Proof. intros (Ht & Hb & Ho). unfold addr_ok. by rewrite Ht, Hb, Ho. Qed.

Lemma lxor_invol x a : Z.lxor (Z.lxor x a) a = x.
Proof. by rewrite Z.lxor_assoc, Z.lxor_nilpotent, Z.lxor_0_r. Qed.

Lemma core_push A L w w' x o :
  core A L w -> same_geometry w w' ->
  block_ok (total_frames (self w)) x o ->
  (forall f, covers x o f -> ~ free_frame L f /\ ~ used_frame A f) ->
  (o < MAX_ORDER -> ~ blk L (Z.lxor x (2 ^ o)) o) ->
  free_lists (self w') = head <$> push L o x -> bm_ok (bitmap (self w')) ->
  (forall p l, push L o x !! p = Some l ->
     dll lk (nxt (self w') (mem w')) (prv (self w') (mem w')) l) ->
  core A (push L o x) w'.
Proof.
  intros Hc Hg Hok Hfree Hbud Hh Hbm Hlinks.
  destruct Hok as (Ho & Hx & Ht & Hal) eqn:E; clear E.
  pose proof (c_len _ _ _ Hc) as Hlen. pose proof (pow2_pos o ltac:(lia)) as Hp2.
  destruct Hg as (Hgt & Hgb & Hgo) eqn:E; clear E.
  assert (Hself : covers x o x) by (unfold covers; lia).
  assert (Hnew : forall y p, blk (push L o x) y p <-> (y = x /\ p = o) \/ blk L y p)
    by (intros; by apply blk_push).
  split.
  - unfold push. by rewrite length_alter.
  - done.
  - done.
  - eapply addr_ok_same; [done|]. apply Hc.
  - rewrite Hgt. intros y p [[-> ->]|Hb]%Hnew; [done|]. by apply Hc.
  - rewrite Hgt. apply Hc.
  - intros p l. unfold push. destruct (decide (p = Z.to_nat o)) as [->|].
    + rewrite list_lookup_alter_eq. destruct (L !! Z.to_nat o) as [l0|] eqn:Hl0; [|done].
      intros [= <-]. apply NoDup_cons. split; [|by eapply c_nodup].
      intros Hin. apply (proj1 (Hfree x Hself)). exists x, o. split; [|done].
      eapply core_blk_in; [lia|done..].
    + rewrite list_lookup_alter_ne by done. by eapply c_nodup.
  - intros y p z q f [[-> ->]|Hy]%Hnew [[-> ->]|Hz]%Hnew Hcy Hcz; [done|..].
    + exfalso. apply (proj1 (Hfree f Hcy)). by exists z, q.
    + exfalso. apply (proj1 (Hfree f Hcz)). by exists y, p.
    + by eapply c_ff.
  - intros f (y & p & [[-> ->]|Hy]%Hnew & Hcy) Hu.
    + by apply (proj2 (Hfree f Hcy)).
    + eapply c_fa; [done| |done]. by exists y, p.
  - apply Hc.
  - intros y p [[-> ->]|Hy]%Hnew Hp [[Heq Heqo]|Hb]%Hnew.
    + apply (f_equal (Z.lxor x)) in Heq.
      rewrite <- Z.lxor_assoc, Z.lxor_nilpotent, Z.lxor_0_l in Heq. lia.
    + by apply Hbud.
    + subst p. apply Hbud; [done|]. by rewrite <- Heq, lxor_invol.
    + by eapply (c_max _ _ _ Hc y p).
  - done.
Qed.

Lemma core_sub A L L' w w' :
  core A L w -> same_geometry w w' -> length L' = 11%nat ->
  (forall x o, blk L' x o -> blk L x o) ->
  (forall o l, L' !! o = Some l -> NoDup l) ->
  free_lists (self w') = head <$> L' -> bm_ok (bitmap (self w')) ->
  (forall p l, L' !! p = Some l ->
     dll lk (nxt (self w') (mem w')) (prv (self w') (mem w')) l) ->
  core A L' w'.
Proof.
  intros Hc Hg Hlen Hsub Hnd Hh Hbm Hlinks. destruct Hg as (Hgt & Hgb & Hgo) eqn:E; clear E.
  split; try done.
  - eapply addr_ok_same; [done|]. apply Hc.
  - rewrite Hgt. intros x o Hb. apply Hc. by apply Hsub.
  - rewrite Hgt. apply Hc.
  - intros x o y p f Hx Hy. eapply c_ff; eauto.
  - intros f (x & o & Hb & Hcv). apply (c_fa _ _ _ Hc). exists x, o. split; [|done]. by apply Hsub.
  - apply Hc.
  - intros x o Hb Ho Hb'. eapply (c_max _ _ _ Hc x o); [by apply Hsub|done|by apply Hsub].
Qed.

(** ** Ghost moves of the blocks in use *)

Lemma core_unuse A L w x : core A L w -> core (delete x A) L w.
Proof.
  intros Hc.
  assert (Hsub : forall y p, delete x A !! y = Some p -> A !! y = Some p).
  { intros y p. by rewrite lookup_delete_Some; intros [_ ?]. }
  destruct Hc. split; eauto.
  intros f Hf (y & p & Hy & Hcv). eapply c_fa0; [done|]. exists y, p. eauto.
Qed.

Lemma core_use A L w x o :
  core A L w -> block_ok (total_frames (self w)) x o ->
  (forall f, covers x o f -> ~ free_frame L f /\ ~ used_frame A f) ->
  core (<[x := o]> A) L w.
Proof.
  intros Hc Hok Hfree.
  assert (Hins : forall y p, <[x := o]> A !! y = Some p -> (y = x /\ p = o) \/ A !! y = Some p).
  { intros y p. rewrite lookup_insert_Some. naive_solver. }
  destruct Hc. split; try done.
  - intros y p [[-> ->]|Hy]%Hins; eauto.
  - intros f Hf (y & p & [[-> ->]|Hy]%Hins & Hcv).
    + by apply (proj1 (Hfree f Hcv)).
    + eapply c_fa0; [done|]. by exists y, p.
  - intros y p z q f [[-> ->]|Hy]%Hins [[-> ->]|Hz]%Hins Hcy Hcz; [done|..].
    + exfalso. apply (proj2 (Hfree f Hcy)). by exists z, q.
    + exfalso. apply (proj2 (Hfree f Hcz)). by exists y, p.
    + eauto.
Qed.

(** ** Link words under stores *)

Section link_words.
Context (b : BuddyAllocator) (m : memory).

Lemma nxt_store_nxt x v y : in_u64 v ->
  nxt b (store 8 m (ptr_of b x) v) y = if decide (y = x) then Some v else nxt b m y.
Proof.
  intros Hv. unfold nxt. case_decide as Hd; [subst; by apply load_u64_eq|].
  apply load_store_ne. unfold ptr_of. lia.
Qed.
Lemma prv_store_nxt x v y : prv b (store 8 m (ptr_of b x) v) y = prv b m y.
Proof. unfold prv. apply load_store_ne. unfold ptr_of. lia. Qed.
Lemma nxt_store_prv x v y : nxt b (store 8 m (ptr_of b x + 8) v) y = nxt b m y.
Proof. unfold nxt. apply load_store_ne. unfold ptr_of. lia. Qed.
Lemma prv_store_prv x v y : in_u64 v ->
  prv b (store 8 m (ptr_of b x + 8) v) y = if decide (y = x) then Some v else prv b m y.
Proof.
  intros Hv. unfold prv. case_decide as Hd; [subst; by apply load_u64_eq|].
  apply load_store_ne. unfold ptr_of. lia.
Qed.
End link_words.

Lemma null_in_u64 : in_u64 NULL_LINK.
Proof. unfold in_u64, NULL_LINK, u64_max. lia. Qed.

Create HintDb buddy.
#[export] Hint Resolve null_in_u64 : buddy.

(** Stores of link words stay inside the page of their frame. *)
Lemma store_link_outside b m x v k a :
  0 <= k <= 8 -> a < ptr_of b x \/ ptr_of b x + 4096 <= a ->
  store 8 m (ptr_of b x + k) v !! a = m !! a.
Proof. intros. apply store_lookup_out. lia. Qed.

Lemma core_lk_in_u64 A L w o l1 l2 :
  core A L w -> L !! o = Some (l1 ++ l2) -> in_u64 (lk (head l2)) /\ in_u64 (lk (last l1)).
Proof.
  intros Hc Hl. split.
  - destruct l2 as [|h l2]; [apply null_in_u64|]. simpl.
    eapply core_not_null; [done|]. eapply core_lookup_blk; [done|set_solver].
  - destruct l1 as [|t l1 _] using rev_ind; [apply null_in_u64|].
    rewrite last_snoc. simpl. eapply core_not_null; [done|].
    eapply core_lookup_blk; [done|set_solver].
Qed.

(** The memory [insert_free] leaves behind. *)
Definition mem_push (b : BuddyAllocator) (m : memory) (x : Z) (h : option Z) : memory :=
  let m1 := store 8 (store 8 m (ptr_of b x) (lk h)) (ptr_of b x + 8) NULL_LINK in
  match h with Some old => store 8 m1 (ptr_of b old + 8) x | None => m1 end.

Lemma links_push A L w o x l p l' :
  core A L w -> 0 <= o <= MAX_ORDER -> L !! Z.to_nat o = Some l ->
  0 <= x < total_frames (self w) -> ~ free_frame L x ->
  push L o x !! p = Some l' ->
  let m' := mem_push (self w) (mem w) x (head l) in
  dll lk (nxt (self w) m') (prv (self w) m') l'.
Proof.
  intros Hc Ho Hl Hx Hnf Hp m'.
  assert (Hxu : in_u64 x).
  { destruct (c_addr _ _ _ Hc) as (Ht & _). unfold MAX_TRACKED_FRAMES in Ht.
    unfold in_u64, u64_max. lia. }
  destruct (core_lk_in_u64 _ _ _ _ [] l Hc Hl) as [Hhu _].
  assert (Hne : forall q y k, L !! q = Some k -> y ∈ k -> y <> x).
  { intros q y k Hq Hy ->. apply Hnf. exists x, (Z.of_nat q). split; [by eapply core_lookup_blk|].
    by eapply core_blk_frame, core_lookup_blk. }
  assert (Hn : forall y, nxt (self w) m' y = if decide (y = x) then Some (lk (head l)) else nxt (self w) (mem w) y).
  { intros y. unfold m', mem_push. destruct (head l) as [h|]; rewrite ?nxt_store_prv, nxt_store_nxt by done; done. }
  assert (Hv : forall y, prv (self w) m' y =
    if decide (head l = Some y) then Some x
    else if decide (y = x) then Some NULL_LINK else prv (self w) (mem w) y).
  { intros y. unfold m', mem_push. destruct (head l) as [h|] eqn:Hh.
    - rewrite prv_store_prv by done. destruct (decide (y = h)) as [->|]; [by rewrite decide_True|].
      rewrite decide_False, prv_store_prv, prv_store_nxt by (auto with buddy || congruence). done.
    - rewrite decide_False, prv_store_prv, prv_store_nxt by (auto with buddy). done. }
  unfold push in Hp. destruct (decide (p = Z.to_nat o)) as [->|Hpo].
  - rewrite list_lookup_alter_eq, Hl in Hp. injection Hp as <-.
    apply (dll_push _ (nxt (self w) (mem w)) (prv (self w) (mem w))).
    + by eapply c_links.
    + by eapply c_nodup.
    + by rewrite Hn, decide_True.
    + rewrite Hv, decide_False, decide_True by
        (done || (intros Hh; eapply (Hne _ x l); [done| |done]; destruct l; set_solver)). done.
    + intros h Hh. rewrite Hn, Hv, Hh, decide_False, decide_True by
        (done || (eapply Hne; [done|]; destruct l; set_solver)). done.
    + intros y Hy Hhy. rewrite Hn, Hv, !decide_False by (done || by eapply Hne). done.
  - rewrite list_lookup_alter_ne in Hp by done.
    eapply seg_ext; [|by eapply c_links].
    intros y Hy. rewrite Hn, Hv. rewrite !decide_False; [done|..]; try by eapply Hne.
    intros Hh. assert (y ∈ l) as Hyl by (destruct l; set_solver).
    pose proof (core_same_head Hc y (Z.of_nat p) o (core_lookup_blk _ _ _ Hp Hy)) as Heq.
    specialize (Heq (core_blk_in o l y ltac:(lia) Hl Hyl)). lia.
Qed.
