(* ===== verification/BuddyOps.v ===== *)
(** * Buddy frame allocator: the free-list helpers

    What [insert_free], [pop_free] and [remove_free] of [memory/buddy.rs] do to
    the representation of [BuddyInv.v]. *)

From S2P Require Import Prelude Memory Monitor Dll Buddy BuddyInv.
Local Open Scope rust_scope.

Lemma is_aligned_ret x o :
  0 <= o < 64 -> (2 ^ o | x) -> is_aligned_for_order x o = Ret true.
Proof.
  intros Ho Hd. unfold is_aligned_for_order, chk_shl1.
  rewrite (proj2 (Z.leb_le _ _)), (proj2 (Z.ltb_lt _ _)) by lia. cbn [andb mbind outcome_bind].
  by rewrite (proj2 (land_mask_divide x o ltac:(lia))).
Qed.

Lemma chk_shl1_ret o : 0 <= o < 64 -> chk_shl1 64 o = Ret (2 ^ o).
Proof.
  intros Ho. unfold chk_shl1.
  by rewrite (proj2 (Z.leb_le _ _)), (proj2 (Z.ltb_lt _ _)) by lia.
Qed.

Lemma bits_are_range (B : Z -> Prop) b bm lo hi v :
  bits_are B b -> 0 <= lo ->
  (forall g, 0 <= g -> bit_at bm g = if (lo <=? g) && (g <? hi) then v else bit_at (bitmap b) g) ->
  bits_are (fun f => if v : bool then B f \/ lo <= f < hi else B f /\ ~ (lo <= f < hi)) (set_bitmap bm b).
Proof.
  intros HB Hlo Hbm f Hf. cbn [bitmap set_bitmap total_frames] in *. rewrite Hbm by lia.
  specialize (HB f Hf).
  destruct (Z.leb_spec lo f), (Z.ltb_spec f hi), v; simpl; rewrite ?HB; intuition (done || lia).
Qed.

(** ** [insert_free] *)
(** The world with [x] pushed on the list of order [o], whose blocks were [l]. *)
Definition pushed (w : bworld) (bm : list Z) (x o : Z) (l : list Z) : bworld :=
  mkWorld (set_free_lists (<[Z.to_nat o := Some x]> (free_lists (self w))) (set_bitmap bm (self w)))
    (mem_push (self w) (mem w) x (head l)) (mon w).

Lemma pushed_ok A L w B x o l bm :
  core A L w -> bits_are B (self w) -> block_ok (total_frames (self w)) x o ->
  (forall f, covers x o f -> ~ free_frame L f /\ ~ used_frame A f) ->
  (o < MAX_ORDER -> ~ blk L (Z.lxor x (2 ^ o)) o) -> L !! Z.to_nat o = Some l -> bm_ok bm ->
  (forall g, 0 <= g -> bit_at bm g =
     if (x <=? g) && (g <? x + 2 ^ o) then true else bit_at (bitmap (self w)) g) ->
  core A (push L o x) (pushed w bm x o l) /\ bits_are (fun f => B f \/ covers x o f) (self (pushed w bm x o l)) /\
  frame_rel (fun f => free_frame L f \/ f = x) w (pushed w bm x o l).
Proof.
  intros Hc HB Hok Hfree Hbud Hl Hbm Hbits. pose proof Hok as (Ho & Hx & Ht & Hal). unfold MAX_ORDER in Ho.
  assert (Hcx : covers x o x) by (pose proof (pow2_pos o ltac:(lia)); unfold covers; lia).
  split_and!.
  - eapply (core_push A L w); try done.
    + cbn [pushed self free_lists set_free_lists]. rewrite (c_heads _ _ _ Hc). unfold push.
      apply list_eq. intros i. rewrite list_lookup_fmap.
      destruct (decide (i = Z.to_nat o)) as [->|].
      * rewrite list_lookup_alter_eq, list_lookup_insert_eq, Hl; [done|].
        rewrite length_fmap, (c_len _ _ _ Hc). lia.
      * by rewrite list_lookup_alter_ne, list_lookup_insert_ne, list_lookup_fmap.
    + intros p l' Hp. eapply (links_push A L w o x l p l'); try done; [lia|].
      by apply Hfree.
  - by eapply (bits_are_range B (self w) bm x (x + 2 ^ o) true).
  - split; try done. intros a Ha. cbn [pushed mem]. unfold mem_push.
    assert (Hhd : forall h, head l = Some h -> free_frame L h).
    { intros h Hh. assert (blk L h o) by (eapply core_blk_in; [lia|done|destruct l; set_solver]).
      exists h, o. split; [done|]. by eapply core_blk_frame. }
    destruct (head l) as [h|] eqn:Hh.
    all: rewrite ?(store_link_outside (self w) _ h) by (first [lia | apply Ha; left; by apply Hhd]).
    all: rewrite (store_link_outside (self w) _ x) by (first [lia | apply Ha; by right]).
    all: rewrite <- (Z.add_0_r (ptr_of (self w) x)).
    all: rewrite (store_link_outside (self w) _ x) by (first [lia | apply Ha; by right]).
    all: done.
Qed.

Lemma insert_free_spec A L w B x o :
  core A L w -> bits_are B (self w) ->
  block_ok (total_frames (self w)) x o ->
  (forall f, covers x o f -> ~ free_frame L f /\ ~ used_frame A f) ->
  (o < MAX_ORDER -> ~ blk L (Z.lxor x (2 ^ o)) o) ->
  wp (insert_free x o) (fun _ w' =>
    core A (push L o x) w' /\ bits_are (fun f => B f \/ covers x o f) (self w') /\
    frame_rel (fun f => free_frame L f \/ f = x) w w') w.
Proof.
  intros Hc HB Hok Hfree Hbud. destruct Hok as (Ho & Hx & Ht & Hal) eqn:E; clear E.
  unfold MAX_ORDER in Ho. pose proof (pow2_pos o ltac:(lia)) as Hp2.
  pose proof (c_addr _ _ _ Hc) as (Htot & _).
  destruct (core_list Hc o Ho) as [l Hl].
  assert (Hcx : covers x o x) by (unfold covers; lia).
  unfold insert_free. rewrite is_aligned_ret, chk_shl1_ret by (done || lia).
  wp_steps. apply wp_guard; [done|]. wp_steps.
  eapply wp_marks; [apply mark_range_free_spec; lia|apply Hc|]. intros bm Hbm Hbits.
  wp_steps. change (self (with_bitmap bm w)) with (set_bitmap bm (self w)).
  rewrite frame_idx_to_ptr_ret by (apply Hc || (simpl; lia)). wp_steps.
  change (free_lists (set_bitmap bm (self w))) with (free_lists (self w)).
  rewrite (core_head_index Hc o l) by (done || lia). wp_steps.
  apply wp_write_word; [apply (ptr_of_aligned (self w)), Hc|].
  wp_steps. apply wp_write_word; [apply (ptr_of_aligned8 (self w)), Hc|].
  wp_steps.
  assert (Hfin : forall w', w' = pushed w bm x o l ->
    core A (push L o x) w' /\ bits_are (fun f => B f \/ covers x o f) (self w') /\
    frame_rel (fun f => free_frame L f \/ f = x) w w').
  { intros w' ->. by apply pushed_ok. }
  destruct (head l) as [h|] eqn:Hh.
  - assert (blk L h o) as Hbh by (eapply core_blk_in; [lia|done|destruct l; set_solver]).
    rewrite frame_idx_to_ptr_ret.
    2: apply Hc.
    2: apply (core_blk_frame Hc) in Hbh; simpl; lia.
    wp_steps. apply wp_write_word; [apply (ptr_of_aligned8 (self w)), Hc|].
    apply wp_set_head.
    + cbn. rewrite (core_heads_len Hc). lia.
    + apply Hfin. unfold pushed. by rewrite Hh.
  - wp_steps. apply wp_set_head.
    + cbn. rewrite (core_heads_len Hc). lia.
    + apply Hfin. unfold pushed. by rewrite Hh.
Qed.

(** ** Unlinking *)

(** The memory after a node between [l1] and [l2] is unlinked. *)
Definition mem_unlink (b : BuddyAllocator) (m : memory) (l1 l2 : list Z) : memory :=
  let m1 := match last l1 with Some t => store 8 m (ptr_of b t) (lk (head l2)) | None => m end in
  match head l2 with Some h => store 8 m1 (ptr_of b h + 8) (lk (last l1)) | None => m1 end.

Lemma links_remove A L w o l1 x l2 p l' :
  core A L w -> 0 <= o <= MAX_ORDER -> L !! Z.to_nat o = Some (l1 ++ x :: l2) ->
  set_list L o (l1 ++ l2) !! p = Some l' ->
  let m' := mem_unlink (self w) (mem w) l1 l2 in
  dll lk (nxt (self w) m') (prv (self w) m') l'.
Proof.
  intros Hc Ho Hl Hp m'.
  destruct (core_lk_in_u64 _ _ _ (Z.to_nat o) (l1 ++ [x]) l2 Hc) as [Hh _]; [by rewrite <- app_assoc; apply Hl|].
  destruct (core_lk_in_u64 _ _ _ (Z.to_nat o) l1 (x :: l2) Hc Hl) as [_ Ht].
  assert (Hn : forall y, nxt (self w) m' y =
    if decide (last l1 = Some y) then Some (lk (head l2)) else nxt (self w) (mem w) y).
  { intros y. unfold m', mem_unlink. destruct (head l2), (last l1) as [t|];
      rewrite ?nxt_store_prv, ?nxt_store_nxt by done; try done;
      destruct (decide (y = t)) as [->|]; [by rewrite decide_True|by rewrite decide_False by congruence
        |by rewrite decide_True|by rewrite decide_False by congruence]. }
  assert (Hv : forall y, prv (self w) m' y =
    if decide (head l2 = Some y) then Some (lk (last l1)) else prv (self w) (mem w) y).
  { intros y. unfold m', mem_unlink. destruct (head l2) as [h|].
    - rewrite prv_store_prv by done. destruct (decide (y = h)) as [->|]; [by rewrite decide_True|].
      rewrite decide_False by congruence. destruct (last l1); by rewrite ?prv_store_nxt.
    - destruct (last l1); by rewrite ?prv_store_nxt. }
  assert (Hnd : NoDup (l1 ++ x :: l2)) by by eapply c_nodup.
  assert (Hdis : forall y, y ∈ l1 -> y ∈ l2 -> False).
  { apply NoDup_app in Hnd as (_ & Hd & _). intros y H1 H2. apply (Hd y H1). set_solver. }
  unfold set_list in Hp. destruct (decide (p = Z.to_nat o)) as [->|Hpo].
  - rewrite list_lookup_insert_eq in Hp by (rewrite (c_len _ _ _ Hc); unfold MAX_ORDER in Ho; lia).
    injection Hp as <-.
    apply (dll_remove _ (nxt (self w) (mem w)) (prv (self w) (mem w)) _ _ l1 x l2); [by eapply c_links|done|..].
    + intros t Hlt. rewrite Hn, Hv, decide_True, decide_False; [done| |done].
      intros Hht. eapply Hdis; [by apply last_elem|by apply head_elem].
    + intros h Hhh. rewrite Hn, Hv, decide_False, decide_True; [done|done|].
      intros Hlh. eapply Hdis; [by apply last_elem|by apply head_elem].
    + intros y Hy H1 H2. by rewrite Hn, Hv, !decide_False.
  - rewrite list_lookup_insert_ne in Hp by done.
    eapply seg_ext; [|by eapply c_links]. intros y Hy.
    assert (y ∉ l1 ++ x :: l2) as Hout.
    { intros Hyl. pose proof (core_same_head Hc y (Z.of_nat p) o (core_lookup_blk _ _ _ Hp Hy)
        (core_blk_in o _ y ltac:(lia) Hl Hyl)). lia. }
    rewrite Hn, Hv, !decide_False; [done| |].
    + intros ?%head_elem. set_solver.
    + intros ?%last_elem. set_solver.
Qed.

Lemma core_remove A L w w' o l1 x l2 :
  core A L w -> 0 <= o <= MAX_ORDER -> L !! Z.to_nat o = Some (l1 ++ x :: l2) ->
  same_geometry w w' -> bm_ok (bitmap (self w')) ->
  free_lists (self w') = <[Z.to_nat o := head (l1 ++ l2)]> (free_lists (self w)) ->
  mem w' = mem_unlink (self w) (mem w) l1 l2 ->
  core A (set_list L o (l1 ++ l2)) w'.
Proof.
  intros Hc Ho Hl Hg Hbm Hfl Hm. eapply core_sub; try done.
  - unfold set_list. by rewrite length_insert, (c_len _ _ _ Hc).
  - intros y p. rewrite blk_set_list by (done || apply Hc). intros [[-> Hy]|[_ ?]]; [|done].
    eapply core_blk_in; [lia|done|set_solver].
  - intros p l. unfold set_list. destruct (decide (p = Z.to_nat o)) as [->|].
    + rewrite list_lookup_insert_eq by (rewrite (c_len _ _ _ Hc); unfold MAX_ORDER in Ho; lia).
      intros [= <-]. eapply c_nodup in Hl; [|done].
      apply NoDup_app in Hl as (? & Hd & [? ?]%NoDup_cons). apply NoDup_app. split_and!; [done| |done].
      intros y Hy Hy2. apply (Hd y Hy). set_solver.
    + rewrite list_lookup_insert_ne by done. by eapply c_nodup.
  - rewrite Hfl, (c_heads _ _ _ Hc). unfold set_list. by rewrite list_fmap_insert.
  - intros p l Hp. rewrite Hm. destruct Hg as (_ & Hb & Hoff).
    pose proof (links_remove A L w o l1 x l2 p l Hc Ho Hl Hp) as Hd. cbn zeta in Hd.
    eapply seg_ext; [|exact Hd]. intros y _. unfold nxt, prv, ptr_of. by rewrite Hb, Hoff.
Qed.

Lemma mem_unlink_outside A L w o l1 x l2 a :
  core A L w -> 0 <= o -> L !! Z.to_nat o = Some (l1 ++ x :: l2) ->
  (forall f, free_frame L f -> a < ptr_of (self w) f \/ ptr_of (self w) f + 4096 <= a) ->
  mem_unlink (self w) (mem w) l1 l2 !! a = mem w !! a.
Proof.
  intros Hc Ho Hl Ha.
  assert (Hff : forall y, y ∈ l1 ++ x :: l2 -> a < ptr_of (self w) y \/ ptr_of (self w) y + 4096 <= a).
  { intros y Hy. apply Ha. assert (blk L y o) by by eapply core_blk_in.
    exists y, o. split; [done|]. by eapply core_blk_frame. }
  unfold mem_unlink.
  destruct (head l2) as [h|] eqn:Hh, (last l1) as [t|] eqn:Ht;
    rewrite ?(store_link_outside (self w) _ h) by
      (first [lia | apply Hff; apply head_elem in Hh; set_solver]);
    try (rewrite <- (Z.add_0_r (ptr_of (self w) t)), (store_link_outside (self w) _ t) by
      (first [lia | apply Hff; apply last_elem in Ht; set_solver])); done.
Qed.

(** ** [remove_free] and [pop_free] *)

Lemma lk_null_iff A L w o l1 l2 :
  core A L w -> L !! o = Some (l1 ++ l2) ->
  (lk (head l2) =? NULL_LINK) = (if head l2 then false else true) /\
  (lk (last l1) =? NULL_LINK) = (if last l1 then false else true).
Proof.
  intros Hc Hl. split.
  - destruct (head l2) as [h|] eqn:Hh; [|done]. simpl. apply Z.eqb_neq.
    eapply core_not_null; [done|]. eapply core_lookup_blk; [done|]. apply head_elem in Hh. set_solver.
  - destruct (last l1) as [t|] eqn:Ht; [|done]. simpl. apply Z.eqb_neq.
    eapply core_not_null; [done|]. eapply core_lookup_blk; [done|]. apply last_elem in Ht. set_solver.
Qed.

Lemma unlink_head A L w o l1 l2 :
  core A L w -> L !! o = Some (l1 ++ l2) -> unlink (lk (head l2)) = head l2.
Proof.
  intros Hc Hl. unfold unlink. destruct (lk_null_iff _ _ _ _ _ _ Hc Hl) as [-> _].
  by destruct (head l2).
Qed.

Lemma core_ptr A L w b x o :
  core A L w -> blk L x o ->
  total_frames b = total_frames (self w) -> base_phys b = base_phys (self w) ->
  phys_mem_offset b = phys_mem_offset (self w) ->
  frame_idx_to_ptr b x = Ret (ptr_of (self w) x).
Proof.
  intros Hc Hx Ht Hb Ho. rewrite frame_idx_to_ptr_ret.
  - unfold ptr_of. by rewrite Hb, Ho.
  - unfold addr_ok. rewrite Ht, Hb, Ho. apply Hc.
  - rewrite Ht. apply (core_blk_frame Hc) in Hx. lia.
Qed.

Lemma remove_free_spec A L w B o l1 x l2 :
  core A L w -> bits_are B (self w) -> 0 <= o <= MAX_ORDER ->
  L !! Z.to_nat o = Some (l1 ++ x :: l2) ->
  wp (remove_free x o) (fun _ w' =>
    core A (set_list L o (l1 ++ l2)) w' /\ bits_are B (self w') /\
    frame_rel (free_frame L) w w') w.
Proof.
  intros Hc HB Ho Hl.
  assert (Hin : forall y, y ∈ l1 ++ x :: l2 -> blk L y o)
    by (intros; eapply core_blk_in; [lia|done..]).
  assert (Hfin : forall w', self w' = set_free_lists (<[Z.to_nat o := head (l1 ++ l2)]> (free_lists (self w))) (self w) ->
    mem w' = mem_unlink (self w) (mem w) l1 l2 -> mon w' = mon w ->
    core A (set_list L o (l1 ++ l2)) w' /\ bits_are B (self w') /\ frame_rel (free_frame L) w w').
  { intros w' Hs Hm Hmon. split_and!.
    - eapply (core_remove A L w w'); rewrite ?Hs; try done; [|apply Hc].
      by unfold same_geometry; split_and!; rewrite Hs.
    - by rewrite Hs.
    - split; rewrite ?Hs; try done. intros a Ha. rewrite Hm.
      apply (mem_unlink_outside A L w o l1 x l2); [done|lia|done..]. }
  destruct (dll_at _ _ _ _ _ _ (c_links _ _ _ Hc _ _ Hl)) as [Hnx Hpv].
  destruct (lk_null_iff _ _ _ _ l1 (x :: l2) Hc Hl) as [_ Hpn].
  assert (Hl' : L !! Z.to_nat o = Some ((l1 ++ [x]) ++ l2)) by by rewrite <- app_assoc.
  destruct (lk_null_iff _ _ _ _ _ _ Hc Hl') as [Hnn _].
  unfold remove_free. wp_steps. rewrite (core_ptr A L w _ x o) by (done || (apply Hin; set_solver)).
  wp_steps. eapply wp_read_word; [apply ptr_of_aligned, Hc|exact Hnx|].
  wp_steps. eapply wp_read_word; [apply ptr_of_aligned8, Hc|exact Hpv|].
  rewrite Hpn, Hnn, (unlink_head _ _ _ _ _ _ Hc Hl').
  destruct (last l1) as [t|] eqn:Ht.
  - (* a predecessor exists: the head does not move *)
    assert (Hhd : set_free_lists (<[Z.to_nat o := head (l1 ++ l2)]> (free_lists (self w))) (self w) = self w).
    { rewrite (c_heads _ _ _ Hc). rewrite list_insert_id.
      - rewrite <- (c_heads _ _ _ Hc). by destruct w as [[] ? ?].
      - rewrite list_lookup_fmap, Hl. simpl. f_equal. by destruct l1. }
    rewrite Hhd in Hfin.
    assert (t ∈ l1) by by apply last_elem.
    wp_steps. rewrite (core_ptr A L w _ t o) by (done || (apply Hin; set_solver)).
    wp_steps. apply wp_write_word; [apply ptr_of_aligned, Hc|].
    destruct (head l2) as [h|] eqn:Hh.
    + wp_steps. rewrite (core_ptr A L w _ h o) by (done || (apply Hin; apply head_elem in Hh; set_solver)).
      wp_steps. apply wp_write_word; [apply ptr_of_aligned8, Hc|].
      apply Hfin; [done| |done]. unfold mem_unlink. by rewrite Hh, Ht.
    + wp_steps. apply Hfin; [done| |done]. unfold mem_unlink. by rewrite Hh, Ht.
  - apply last_None in Ht as ->. cbn [app] in *.
    wp_steps. apply wp_set_head; [rewrite (core_heads_len Hc); unfold MAX_ORDER in Ho; lia|].
    destruct (head l2) as [h|] eqn:Hh.
    + wp_steps. rewrite (core_ptr A L w _ h o) by (done || (apply Hin; apply head_elem in Hh; set_solver)).
      wp_steps. apply wp_write_word; [apply ptr_of_aligned8, Hc|].
      apply Hfin; [done| |done]. unfold mem_unlink. by rewrite Hh.
    + wp_steps. apply Hfin; [done| |done]. unfold mem_unlink. by rewrite Hh.
Qed.

Lemma pop_free_spec A L w B o x l :
  core A L w -> bits_are B (self w) -> 0 <= o <= MAX_ORDER ->
  L !! Z.to_nat o = Some (x :: l) ->
  wp (pop_free o) (fun r w' =>
    r = Some x /\ core A (set_list L o l) w' /\
    bits_are (fun f => B f /\ ~ covers x o f) (self w') /\
    frame_rel (free_frame L) w w') w.
Proof.
  intros Hc HB Ho Hl.
  assert (Hin : forall y, y ∈ x :: l -> blk L y o) by (intros; eapply core_blk_in; [lia|done..]).
  destruct (c_blk _ _ _ Hc x o ltac:(apply Hin; set_solver)) as (_ & Hx & Ht & _).
  pose proof (pow2_pos o ltac:(lia)). pose proof (c_addr _ _ _ Hc) as (Htot & _).
  destruct (dll_at _ _ _ [] x l (c_links _ _ _ Hc _ _ Hl)) as [Hnx _].
  assert (Hl' : L !! Z.to_nat o = Some ([x] ++ l)) by done.
  destruct (lk_null_iff _ _ _ _ _ _ Hc Hl') as [Hnn _].
  unfold pop_free. wp_steps. rewrite (core_head_index Hc o _ ltac:(lia) Hl). wp_steps. simpl.
  wp_steps. rewrite (core_ptr A L w _ x o) by (done || (apply Hin; set_solver)).
  wp_steps. eapply wp_read_word; [apply ptr_of_aligned, Hc|exact Hnx|].
  rewrite Hnn, (unlink_head _ _ _ _ _ _ Hc Hl').
  assert (Hfin : forall w1, self w1 = self w -> mem w1 = mem_unlink (self w) (mem w) [] l -> mon w1 = mon w ->
    wp (set_head o (head l) ≫= fun _ => lift (chk_shl1 64 o) ≫= fun size =>
        mark_range_allocated x size ≫= fun _ => mret (Some x)) (fun r w' =>
      r = Some x /\ core A (set_list L o l) w' /\
      bits_are (fun f => B f /\ ~ covers x o f) (self w') /\ frame_rel (free_frame L) w w') w1).
  { intros w1 Hs Hm Hmon. wp_steps.
    apply wp_set_head; [rewrite Hs, (core_heads_len Hc); unfold MAX_ORDER in Ho; lia|].
    wp_steps; [unfold MAX_ORDER in Ho; lia|].
    eapply wp_marks; [apply mark_range_allocated_spec; lia|cbn; rewrite Hs; apply Hc|].
    intros bm Hbm Hbits. wp_steps. cbn [self upd_self] in *. rewrite Hs in *. split_and!; [done|..].
    - eapply (core_remove A L w _ o [] x l); cbn; rewrite ?Hs; try done.
      by unfold same_geometry; split_and!; cbn; rewrite Hs.
    - cbn. rewrite Hs. by eapply (bits_are_range B (self w) bm x (x + 2 ^ o) false).
    - split; cbn; rewrite ?Hs; try done. intros a Ha. rewrite Hm.
      apply (mem_unlink_outside A L w o [] x l); [done|lia|done..]. }
  destruct (head l) as [h|] eqn:Hh.
  - wp_steps. rewrite (core_ptr A L w _ h o) by (done || (apply Hin; apply head_elem in Hh; set_solver)).
    wp_steps. apply wp_write_word; [apply ptr_of_aligned8, Hc|].
    apply Hfin; [done| |done]. unfold mem_unlink. by rewrite Hh.
  - apply wp_bind, wp_ret. apply Hfin; [done| |done]. unfold mem_unlink. by rewrite Hh.
Qed.

Lemma pop_free_none A L w o :
  core A L w -> 0 <= o -> L !! Z.to_nat o = Some [] -> pop_free o w = Ret (None, w).
Proof.
  intros Hc Ho Hl. unfold pop_free, mbind, M_bind, gets, lift.
  rewrite (core_head_index Hc o _ Ho Hl). done.
Qed.
