(* ===== verification/BuddyAlloc.v ===== *)
(** * Buddy frame allocator: allocation and deallocation

    Splitting, coalescing and the two public operations of [memory/buddy.rs],
    proved against the invariant of [BuddyInv.v]. *)

From S2P Require Import Prelude Memory Monitor Dll Buddy BuddyInv BuddyOps.
Local Open Scope rust_scope.

(** ** Free frames after a push and after a removal *)

Lemma free_frame_push L o x f :
  0 <= o <= MAX_ORDER -> length L = 11%nat ->
  free_frame (push L o x) f <-> free_frame L f \/ covers x o f.
Proof.
  intros Ho Hl. unfold free_frame. split.
  - intros (y & p & [[-> ->]|Hb]%blk_push & Hcv); [by right|by left; exists y, p|done..].
  - intros [(y & p & Hb & Hcv)|Hcv]; [exists y, p|exists x, o]; (split; [|done]);
      apply blk_push; auto.
Qed.

Lemma free_frame_remove A L w o l1 x l2 f :
  core A L w -> 0 <= o <= MAX_ORDER -> L !! Z.to_nat o = Some (l1 ++ x :: l2) ->
  free_frame (set_list L o (l1 ++ l2)) f <-> free_frame L f /\ ~ covers x o f.
Proof.
  intros Hc Ho Hl. pose proof (c_len _ _ _ Hc) as Hlen.
  assert (Hbx : blk L x o) by (eapply core_blk_in; [lia|done|set_solver]).
  pose proof (c_nodup _ _ _ Hc _ _ Hl) as Hnd.
  assert (Hx : x ∉ l1 ++ l2).
  { apply NoDup_app in Hnd as (_ & Hd & [Hx2 _]%NoDup_cons). intros [Hx1|]%elem_of_app; [|done].
    apply (Hd x Hx1). set_solver. }
  unfold free_frame. split.
  - intros (y & p & Hb & Hcv). apply blk_set_list in Hb as [[-> Hy]|[Hpo Hb]]; [|..|done|done].
    + assert (blk L y o) as Hby by (eapply core_blk_in; [lia|done|set_solver]).
      split; [by exists y, o|]. intros Hcx.
      destruct (c_ff _ _ _ Hc x o y o f) as [-> _]; done.
    + split; [by exists y, p|]. intros Hcx.
      destruct (c_ff _ _ _ Hc x o y p f) as [_ ->]; done.
  - intros [(y & p & Hb & Hcv) Hncv]. exists y, p. split; [|done]. apply blk_set_list; [done..|].
    destruct (decide (p = o)) as [->|]; [left|by right]. split; [done|].
    destruct Hb as (_ & l & Hl' & Hy). rewrite Hl in Hl'. injection Hl' as <-.
    rewrite elem_of_app, elem_of_cons in Hy. rewrite elem_of_app.
    destruct Hy as [?|[->|?]]; [by left|done|by right].
Qed.

Lemma bits_are_iff (B B' : Z -> Prop) b :
  (forall f, 0 <= f < total_frames b -> B f <-> B' f) -> bits_are B b -> bits_are B' b.
Proof. intros HB H f Hf. by rewrite <- HB, (H f Hf). Qed.

Lemma core_with_bitmap A L w bm : bm_ok bm -> core A L w -> core A L (with_bitmap bm w).
Proof. intros Hbm []. by split. Qed.

(** ** Maximal coalescing

    Since free buddies are always merged, an aligned run of free frames lies
    inside a single free block. *)
Lemma free_run_in_block A L w : core A L w ->
  forall (n : nat) x, let o := Z.of_nat n in
  block_ok (total_frames (self w)) x o ->
  (forall f, covers x o f -> free_frame L f) ->
  exists y p, blk L y p /\ o <= p /\ y <= x /\ x + 2 ^ o <= y + 2 ^ p.
Proof.
  intros Hc. induction n as [|n IH]; intros x o Hok Hall; unfold o in *; clear o.
  - destruct (Hall x) as (y & p & Hb & Hcv); [unfold covers; simpl; lia|].
    destruct Hcv as [H1 H2]. exists y, p. destruct Hb as [Hp ?] eqn:E; clear E.
    split_and!; [done|simpl; lia|done|]. change (2 ^ Z.of_nat 0) with 1. lia.
  - destruct Hok as (Ho & Hx & Ht & Hal).
    replace (Z.of_nat (S n)) with (Z.of_nat n + 1) in * by lia.
    set (o := Z.of_nat n) in *. assert (0 <= o) by lia. pose proof (pow2_pos o ltac:(lia)).
    rewrite pow2_S in * by lia. unfold covers in Hall.
    assert (Hal' : (2 ^ o | x)) by (eapply Z.divide_trans; [|exact Hal]; exists 2; lia).
    rewrite pow2_S in Hall by lia.
    destruct (IH x) as (y1 & p1 & Hb1 & Hp1 & Hy1 & He1).
    { split_and!; [lia..|done]. }
    { intros f Hf. apply Hall. unfold covers in Hf. lia. }
    destruct (IH (x + 2 ^ o)) as (y2 & p2 & Hb2 & Hp2 & Hy2 & He2).
    { split_and!; [lia..|]. apply Z.divide_add_r; [done|]. apply Z.divide_refl. }
    { intros f Hf. apply Hall. unfold covers in Hf. lia. }
    assert (Hlarge : forall y p g, blk L y p -> o < p -> covers y p g -> x <= g < x + 2 * 2 ^ o ->
      exists y p, blk L y p /\ o + 1 <= p /\ y <= x /\ x + 2 * 2 ^ o <= y + 2 ^ p).
    { intros y p g Hb Hp Hcv Hg. exists y, p.
      destruct (c_blk _ _ _ Hc y p Hb) as (? & ? & ? & Haly).
      pose proof (laminar x (o + 1) y p g ltac:(lia)) as Hlam. rewrite pow2_S in Hlam by lia.
      unfold covers in *. rewrite pow2_S in Hlam by lia.
      destruct Hlam as [? ?]; [done|done|lia|done|]. split_and!; [done|lia..]. }
    destruct (decide (o < p1)) as [Hgt|Hle1]; [eapply (Hlarge y1 p1 x); try done; unfold covers; lia|].
    destruct (decide (o < p2)) as [Hgt|Hle2];
      [eapply (Hlarge y2 p2 (x + 2 ^ o)); try done; unfold covers; lia|].
    exfalso. assert (p1 = o) as -> by lia. assert (p2 = o) as -> by lia.
    assert (y1 = x) as -> by lia. assert (y2 = x + 2 ^ o) as -> by lia.
    apply (c_max _ _ _ Hc x o Hb1); [unfold MAX_ORDER in *; lia|].
    destruct (lxor_buddy x o Hx ltac:(lia) Hal') as [[_ ->]|(Hd & _ & _)]; [done|].
    exfalso. assert (Hd2 : (2 * 2 ^ o | 2 ^ o)).
    { rewrite pow2_S in Hd by lia. replace (2 ^ o) with (x - (x - 2 ^ o)) at 2 by lia.
      by apply Z.divide_sub_r. }
    apply Z.divide_pos_le in Hd2; lia.
Qed.

(** The blocks are determined by the frames that are free. *)
Lemma blocks_canonical A L w A' L' w' :
  core A L w -> core A' L' w' -> total_frames (self w') = total_frames (self w) ->
  (forall f, free_frame L f <-> free_frame L' f) ->
  forall x o, blk L x o -> blk L' x o.
Proof.
  intros Hc Hc' Ht Hff x o Hb.
  pose proof (c_blk _ _ _ Hc x o Hb) as Hok. destruct Hok as (Ho & Hx & Htx & Hal) eqn:E; clear E.
  pose proof (pow2_pos o ltac:(lia)).
  destruct (free_run_in_block _ _ _ Hc' (Z.to_nat o) x) as (y & p & Hby & Hop & Hyx & Hye).
  { rewrite Z2Nat.id, Ht by lia. done. }
  { intros f Hf. rewrite Z2Nat.id in Hf by lia. apply Hff. by exists x, o. }
  rewrite Z2Nat.id in * by lia.
  destruct (decide (p = o)) as [->|Hne]; [by replace x with y by lia|]. exfalso.
  destruct (c_blk _ _ _ Hc' y p Hby) as (Hp & Hy & Hty & Haly).
  destruct (free_run_in_block _ _ _ Hc (Z.to_nat p) y) as (z & q & Hbz & Hpq & Hzy & Hze).
  { rewrite Z2Nat.id, <- Ht by lia. split_and!; done || lia. }
  { intros f Hf. rewrite Z2Nat.id in Hf by lia. apply Hff. by exists y, p. }
  rewrite Z2Nat.id in * by lia.
  destruct (c_ff _ _ _ Hc x o z q x Hb Hbz) as [_ ->]; unfold covers; lia.
Qed.

(** ** Counting the frames in use *)

Definition frames_in_use (A : gmap Z Z) : Z := map_fold (fun _ o n => n + 2 ^ o) 0 A.

Lemma frames_in_use_insert A x o :
  A !! x = None -> frames_in_use (<[x := o]> A) = frames_in_use A + 2 ^ o.
Proof. intros Hx. unfold frames_in_use. rewrite map_fold_insert_L; [done| |done]. lia. Qed.

Lemma frames_in_use_delete A x o :
  A !! x = Some o -> frames_in_use (delete x A) = frames_in_use A - 2 ^ o.
Proof.
  intros Hx. rewrite <- (insert_delete_id A x o Hx) at 2.
  rewrite frames_in_use_insert by apply lookup_delete_eq. lia.
Qed.

(** Disjoint blocks of a range cannot count more frames than the range has. *)
Definition disjoint_blocks (A : gmap Z Z) : Prop := forall x o y p f,
  A !! x = Some o -> A !! y = Some p -> covers x o f -> covers y p f -> x = y.

Lemma frames_in_use_set A T :
  (forall x o, A !! x = Some o -> block_ok T x o) -> disjoint_blocks A ->
  exists S : gset Z, Z.of_nat (size S) = frames_in_use A /\ forall f, f ∈ S <-> used_frame A f.
Proof.
  induction A as [|x o A Hx IH] using map_ind; intros Hok Hdis.
  - exists ∅. split; [by rewrite size_empty|]. intros f. split; [set_solver|].
    intros (y & p & Hy & _). by rewrite lookup_empty in Hy.
  - assert (Hsub : forall y p, A !! y = Some p -> <[x := o]> A !! y = Some p).
    { intros y p Hy. rewrite lookup_insert_ne; [done|]. intros ->. congruence. }
    destruct IH as (S & Hsz & HS); [eauto|unfold disjoint_blocks; eauto|].
    destruct (Hok x o) as (Ho & Hx0 & _); [by rewrite lookup_insert_eq|].
    pose proof (pow2_pos o ltac:(lia)).
    exists (list_to_set (seqZ x (2 ^ o)) ∪ S). split.
    + rewrite size_union, size_list_to_set by (apply NoDup_seqZ ||
        (intros f; rewrite elem_of_list_to_set, elem_of_seqZ, HS; intros Hf (y & p & Hy & Hcv);
         assert (x = y) as -> by (eapply (Hdis x o y p f); [by rewrite lookup_insert_eq|eauto|done|done]);
         congruence)).
      rewrite length_seqZ, frames_in_use_insert by done. lia.
    + intros f. rewrite elem_of_union, elem_of_list_to_set, elem_of_seqZ, HS. split.
      * intros [Hf|(y & p & Hy & Hcv)]; [exists x, o|exists y, p; eauto].
        by rewrite lookup_insert_eq.
      * intros (y & p & [[<- <-]|[? Hy]]%lookup_insert_Some & Hcv); [by left|]. right. by exists y, p.
Qed.

Lemma frames_in_use_bound A L w : core A L w -> 0 <= frames_in_use A <= total_frames (self w).
Proof.
  intros Hc. pose proof (c_addr _ _ _ Hc) as (Ht & _).
  destruct (frames_in_use_set A (total_frames (self w))) as (S & Hsz & HS);
    [apply Hc|exact (c_aa _ _ _ Hc)|].
  assert (S ⊆ list_to_set (seqZ 0 (total_frames (self w)))) as Hsub.
  { intros f (x & o & Hx & Hcv)%HS. rewrite elem_of_list_to_set, elem_of_seqZ.
    destruct (c_used _ _ _ Hc x o Hx) as (_ & ? & ? & _). unfold covers in Hcv. lia. }
  apply subseteq_size in Hsub. rewrite size_list_to_set in Hsub by apply NoDup_seqZ.
  rewrite length_seqZ in Hsub. lia.
Qed.

(** ** The full invariant *)

Definition buddy_inv (A : gmap Z Z) (L : list (list Z)) (w : bworld) : Prop :=
  core A L w /\ bits_are (free_frame L) (self w) /\
  allocated_count (self w) = frames_in_use A /\
  allocated_frames (mon w) = frames_in_use A.

(** ** Searching for a block *)

Lemma find_order_spec A L w : core A L w ->
  forall n o, 0 <= o <= 11 -> 11 <= o + Z.of_nat n ->
  exists r, find_order n (self w) o = Ret r /\ o <= r <= 11 /\
    (forall p, o <= p < r -> L !! Z.to_nat p = Some []) /\
    (r <= MAX_ORDER -> exists x l, L !! Z.to_nat r = Some (x :: l)).
Proof.
  intros Hc. induction n as [|n IH]; intros o Ho Hn; cbn [find_order].
  - exists o. unfold MAX_ORDER. rewrite (proj2 (Z.ltb_lt _ _)) by lia.
    split_and!; [done|lia..|]. lia.
  - destruct (Z.ltb_spec MAX_ORDER o) as [Hgt|Hle].
    { exists o. split_and!; [done|lia..|]. lia. }
    destruct (core_list Hc o) as [l Hl]; [lia|].
    rewrite (core_head_index Hc o l ltac:(lia) Hl). cbn [mbind outcome_bind].
    unfold MAX_ORDER in Hle. destruct l as [|x l]; simpl.
    + destruct (IH (o + 1)) as (r & Hr & Hrr & Hemp & Hsome); [lia..|].
      exists r. split_and!; [done|lia..| |done]. intros p Hp.
      destruct (decide (p = o)) as [->|]; [done|]. apply Hemp. lia.
    + exists o. split_and!; [done|lia..|]. eauto.
Qed.

(** ** Splitting *)

Lemma core_shrink A L w x o k :
  core A L w -> A !! x = Some k -> 0 <= o <= k -> core (<[x := o]> A) L w.
Proof.
  intros Hc Hx Ho. destruct (c_used _ _ _ Hc x k Hx) as (Hk & Hx0 & Ht & Hal).
  pose proof (pow2_mono o k Ho). rewrite <- insert_delete_eq.
  assert (Hcv : forall f, covers x o f -> covers x k f) by (unfold covers; lia).
  apply core_use; [by apply core_unuse|..].
  - split_and!; [lia..|]. eapply Z.divide_trans; [|done]. apply pow2_divide. lia.
  - intros f Hf%Hcv. split.
    + intros Hff. eapply (c_fa _ _ _ Hc); [done|]. by exists x, k.
    + intros (y & p & [Hne Hy]%lookup_delete_Some & Hcy). apply Hne.
      by eapply (c_aa _ _ _ Hc).
Qed.

(** The buddy of the upper half of a block is the lower half. *)
Lemma upper_half_buddy x j : 0 <= x -> 0 <= j -> (2 ^ (j + 1) | x) -> Z.lxor (x + 2 ^ j) (2 ^ j) = x.
Proof.
  intros Hx Hj Hal. pose proof (pow2_pos j Hj). pose proof (pow2_S j Hj).
  destruct (lxor_buddy x j Hx Hj) as [[_ <-]|(Hd & _)].
  - eapply Z.divide_trans; [|exact Hal]. apply pow2_divide. lia.
  - apply lxor_invol.
  - assert (Hd2 : (2 ^ (j + 1) | 2 ^ j)).
    { replace (2 ^ j) with (x - (x - 2 ^ j)) by lia. by apply Z.divide_sub_r. }
    apply Z.divide_pos_le in Hd2; lia.
Qed.

(** Splitting the block in hand down from order [k] to [k - n] frees exactly
    its frames beyond the first [2 ^ (k - n)]. *)
Lemma split_down_spec idx n : forall A L w k,
  core A L w -> bits_are (free_frame L) (self w) ->
  A !! idx = Some k -> 0 <= k - Z.of_nat n ->
  wp (split_down n idx k) (fun _ w' => exists L',
    let o := k - Z.of_nat n in
    core (<[idx := o]> A) L' w' /\ bits_are (free_frame L') (self w') /\
    (forall f, free_frame L' f <-> free_frame L f \/ (covers idx k f /\ ~ covers idx o f)) /\
    frame_rel (fun f => free_frame L f \/ covers idx k f) w w') w.
Proof.
  induction n as [|n IH]; intros A L w k Hc HB Hidx Hk; cbn [split_down].
  - apply wp_ret. exists L. cbn zeta. replace (k - Z.of_nat 0) with k by lia.
    rewrite insert_id by done. split_and!; [done..| |apply frame_rel_refl].
    intros f. tauto.
  - destruct (c_used _ _ _ Hc idx k Hidx) as (Hkr & Hi & Ht & Hal).
    pose proof (c_addr _ _ _ Hc) as (Htot & _). unfold MAX_TRACKED_FRAMES in Htot.
    set (j := k - 1). assert (Hkj : k = j + 1) by lia.
    pose proof (pow2_pos j ltac:(lia)) as Hpj. pose proof (pow2_S j ltac:(lia)) as Hps.
    rewrite <- Hkj in Hps. unfold MAX_ORDER in Hkr.
    rewrite chk_shl1_ret by lia. wp_steps; [unfold u64_max; lia|].
    assert (Hc1 : core (<[idx := j]> A) L w) by (eapply core_shrink; [done..|lia]).
    assert (Halj : (2 ^ j | idx)) by (eapply Z.divide_trans; [|exact Hal]; exists 2; lia).
    assert (Hcvk : forall f, covers (idx + 2 ^ j) j f -> covers idx k f) by (unfold covers; lia).
    eapply wp_mono; [apply (insert_free_spec (<[idx := j]> A) L w (free_frame L)); try done|].
    + split_and!; [unfold MAX_ORDER; lia..|]. apply Z.divide_add_r; [done|apply Z.divide_refl].
    + intros f Hf. split.
      * intros Hff. eapply (c_fa _ _ _ Hc); [done|]. exists idx, k. auto.
      * intros (y & p & [[<- <-]|[Hne Hy]]%lookup_insert_Some & Hcy);
          [unfold covers in *; lia|]. apply Hne. eapply (c_aa _ _ _ Hc); eauto.
    + intros _ Hb. rewrite upper_half_buddy in Hb by (done || lia || by rewrite <- Hkj).
      eapply (c_fa _ _ _ Hc idx); [exists idx, j|exists idx, k]; (split; [done|unfold covers; lia]).
    + intros [] w1 (Hc2 & HB2 & Hfr).
      assert (HB3 : bits_are (free_frame (push L j (idx + 2 ^ j))) (self w1)).
      { eapply bits_are_iff; [|done]. intros f _. rewrite free_frame_push; [done| |apply Hc].
        unfold MAX_ORDER. lia. }
      eapply wp_mono; [eapply (IH _ _ w1 j Hc2 HB3)|].
      * by rewrite lookup_insert_eq.
      * lia.
      * intros [] w2 (L' & Hc' & HB' & Hff & Hfr'). exists L'. cbn zeta in *.
        replace (k - Z.of_nat (S n)) with (j - Z.of_nat n) by lia.
        rewrite insert_insert_eq in Hc'. split_and!; [done..| |].
        -- intros f. rewrite Hff, free_frame_push by (apply Hc || (unfold MAX_ORDER; lia)).
           pose proof (pow2_mono (j - Z.of_nat n) j ltac:(lia)).
           unfold covers. destruct (decide (idx <= f < idx + 2 ^ k)), (decide (idx <= f < idx + 2 ^ j)),
             (decide (idx <= f < idx + 2 ^ (j - Z.of_nat n))); intuition lia.
        -- eapply frame_rel_trans; [exact Hfr|exact Hfr'| |].
           ++ intros f [?| ->]; [by left|right; unfold covers; lia].
           ++ intros f [Hf|Hf]; [|right; unfold covers in *; lia].
              apply free_frame_push in Hf as [?|?]; [by left|right; auto| |apply Hc].
              unfold MAX_ORDER. lia.
Qed.

(** Every byte outside the pages of the frames in [F] is unchanged. *)
Definition mem_preserved (F : Z -> Prop) (w w' : bworld) : Prop :=
  forall a, (forall f, F f -> a < ptr_of (self w) f \/ ptr_of (self w) f + 4096 <= a) ->
    mem w' !! a = mem w !! a.

(** No aligned run of [2 ^ order] frames is free. *)
Definition exhausted (L : list (list Z)) (total order : Z) : Prop :=
  forall x, block_ok total x order -> ~ (forall f, covers x order f -> free_frame L f).

Lemma core_counts A L w n f :
  core A L w -> core A L (upd_mon f (upd_self (set_allocated n) w)).
Proof. intros []. by split. Qed.

Lemma fetch_add_small x n : 0 <= x -> 0 <= n -> x + n <= u64_max -> fetch_add x n = x + n.
Proof. intros. unfold fetch_add, wrap. apply Z.mod_small. unfold u64_max in *. lia. Qed.

Lemma fetch_sub_small x n : 0 <= n <= x -> x <= u64_max -> fetch_sub x n = x - n.
Proof. intros. unfold fetch_sub, wrap. apply Z.mod_small. unfold u64_max in *. lia. Qed.

Section alloc.
Context {api : PhysFrameApi} {laws : PhysFrameLaws api}.

(** What an allocation promises. *)
Definition alloc_post (A : gmap Z Z) (L : list (list Z)) (w : bworld) (order : Z)
    (r : option PhysFrame) (w' : bworld) : Prop :=
  match r with
  | Some fr => exists x L',
      start_address fr = base_phys (self w) + x * 4096 /\
      block_ok (total_frames (self w)) x order /\ A !! x = None /\
      (forall f, covers x order f -> free_frame L f) /\
      buddy_inv (<[x := order]> A) L' w' /\
      (forall f, free_frame L' f <-> free_frame L f /\ ~ covers x order f) /\
      same_geometry w w' /\ mem_preserved (free_frame L) w w'
  | None => w' = w /\ exhausted L (total_frames (self w)) order
  end.

Lemma exhausted_by_orders A L w order :
  core A L w -> 0 <= order <= MAX_ORDER ->
  (forall p, order <= p < 11 -> L !! Z.to_nat p = Some []) ->
  exhausted L (total_frames (self w)) order.
Proof.
  intros Hc Ho Hemp x Hok Hall.
  destruct (free_run_in_block _ _ _ Hc (Z.to_nat order) x) as (y & p & Hb & Hp & _).
  - by rewrite Z2Nat.id by lia.
  - by rewrite Z2Nat.id by lia.
  - rewrite Z2Nat.id in Hp by lia. pose proof (blk_order _ _ _ (c_len _ _ _ Hc) Hb).
    destruct Hb as (_ & l & Hl & Hy). rewrite Hemp in Hl by (unfold MAX_ORDER in *; lia).
    injection Hl as <-. set_solver.
Qed.

Lemma used_key_not_free A L w x o p : core A L w -> A !! x = Some p -> blk L x o -> False.
Proof.
  intros Hc Hx Hb. destruct (c_used _ _ _ Hc x p Hx) as (Hp & _). pose proof (pow2_pos p ltac:(lia)).
  eapply (c_fa _ _ _ Hc x); [exists x, o|exists x, p]; (split; [done|]).
  - by eapply core_blk_frame.
  - unfold covers. lia.
Qed.

(** A block taken out of the free lists, with all but its first [2 ^ o] frames given
    back. *)
Lemma taken_frames L L1 L' x k o : blk L x k -> 0 <= o <= k ->
  (forall f, free_frame L1 f <-> free_frame L f /\ ~ covers x k f) ->
  (forall f, free_frame L' f <-> free_frame L1 f \/ (covers x k f /\ ~ covers x o f)) ->
  forall f, free_frame L' f <-> free_frame L f /\ ~ covers x o f.
Proof.
  intros Hb Ho H1 H2 f. rewrite H2, H1. pose proof (pow2_mono o k Ho). unfold covers.
  destruct (decide (x <= f < x + 2 ^ k)) as [Hin|], (decide (x <= f < x + 2 ^ o)); try lia;
    intuition (try lia). by exists x, k.
Qed.

(** Taking the first block of a non-empty list out of the free lists. *)
Lemma pop_in_hand A L w k x l :
  buddy_inv A L w -> 0 <= k <= MAX_ORDER -> L !! Z.to_nat k = Some (x :: l) ->
  wp (pop_free k) (fun r w' => r = Some x /\
    core (<[x := k]> A) (set_list L k l) w' /\ bits_are (free_frame (set_list L k l)) (self w') /\
    (forall f, free_frame (set_list L k l) f <-> free_frame L f /\ ~ covers x k f) /\
    frame_rel (free_frame L) w w') w.
Proof.
  intros (Hc & HB & _) Hk Hl.
  assert (Hbx : blk L x k) by (eapply core_blk_in; [lia|done|set_solver]).
  assert (Hff : forall f, free_frame (set_list L k l) f <-> free_frame L f /\ ~ covers x k f).
  { intros f. by apply (free_frame_remove A L w k [] x l). }
  eapply wp_mono; [by apply (pop_free_spec A L w (free_frame L) k x l)|].
  intros r w' (-> & Hc' & HB' & Hfr). split_and!; [done|..|done|done].
  - apply core_use; [done|rewrite (fr_total _ _ _ Hfr); by apply Hc|].
    intros f Hf. rewrite Hff. split; [tauto|]. intros Hu.
    eapply (c_fa _ _ _ Hc); [|done]. by exists x, k.
  - eapply bits_are_iff; [|done]. intros f _. by rewrite Hff.
Qed.

Lemma allocate_frame_order_wp A L w order :
  buddy_inv A L w -> 0 <= order <= MAX_ORDER ->
  wp (allocate_frame_order order) (alloc_post A L w order) w.
Proof.
  intros Hinv Ho. destruct Hinv as (Hc & HB & Hcnt & Hmon) eqn:E; clear E.
  unfold allocate_frame_order. rewrite (proj2 (Z.ltb_ge _ _)) by lia.
  destruct (find_order_spec A L w Hc 11 order) as (k & Hk & Hkr & Hemp & Hsome);
    [unfold MAX_ORDER in Ho; lia..|].
  wp_steps. rewrite Hk. wp_steps.
  destruct (Z.ltb_spec MAX_ORDER k) as [Hgt|Hle].
  { wp_steps. split; [done|]. apply (exhausted_by_orders A); [done..|].
    intros p Hp. apply Hemp. unfold MAX_ORDER in Hgt. lia. }
  destruct (Hsome Hle) as (x & l & Hl).
  assert (Hbx : blk L x k) by (eapply core_blk_in; [lia|done|set_solver]).
  pose proof (c_blk _ _ _ Hc x k Hbx) as (_ & Hx & Hxt & Hal).
  pose proof (pow2_pos order ltac:(lia)). pose proof (pow2_mono order k ltac:(lia)).
  pose proof (c_addr _ _ _ Hc) as (Ht & Hb0 & Hb4 & _ & _ & Hb52 & _).
  assert (HAx : A !! x = None).
  { destruct (A !! x) as [p|] eqn:HA; [|done]. exfalso. by eapply (used_key_not_free A L w x k p). }
  wp_steps. eapply wp_mono; [apply (pop_in_hand A L w k x l); [done|lia|done]|].
  intros r w1 (-> & Hc1 & HB1 & Hff1 & Hfr1). wp_steps.
  eapply wp_mono; [apply (split_down_spec x _ _ _ w1 k Hc1 HB1); [by rewrite lookup_insert_eq|lia]|].
  intros [] w2 (L' & Hc2 & HB2 & Hff2 & Hfr2). cbn zeta in *.
  replace (k - Z.of_nat (Z.to_nat (k - order))) with order in * by lia.
  rewrite insert_insert_eq in Hc2.
  assert (Hfr : frame_rel (free_frame L) w w2).
  { eapply frame_rel_trans; [exact Hfr1|exact Hfr2|done|].
    intros f [Hf|Hf]; [by apply Hff1 in Hf as [? _]|by exists x, k]. }
  pose proof (taken_frames _ _ _ _ _ order Hbx ltac:(lia) Hff1 Hff2) as Hff.
  pose proof (frames_in_use_bound _ _ _ Hc2) as Hbnd.
  rewrite frames_in_use_insert, (fr_total _ _ _ Hfr) in Hbnd by done.
  assert (Hb2 : 0 <= frames_in_use A) by (eapply frames_in_use_bound; done).
  unfold MAX_TRACKED_FRAMES in Ht.
  assert (Hadd : allocated_count (self w2) + 2 ^ order <= u64_max)
    by (rewrite (fr_count _ _ _ Hfr), Hcnt; unfold u64_max; lia).
  rewrite chk_shl1_ret by (unfold MAX_ORDER in Ho; lia).
  wp_steps. rewrite idx_to_phys_ret by (apply Hc2 || (rewrite (fr_total _ _ _ Hfr); lia)).
  wp_steps. rewrite (fr_base _ _ _ Hfr).
  assert (Hret : returns (containing_address (base_phys (self w) + x * 4096))
    (fun f => start_address f = base_phys (self w) + x * 4096)).
  { apply containing_address_spec; [lia|]. by rewrite Z.mod_add. }
  destruct (returns_elim _ _ Hret) as (fr & -> & Hsa). wp_steps. exists x, L'. split_and!; try done.
  - split_and!; [lia..|]. eapply Z.divide_trans; [|done]. apply pow2_divide. lia.
  - intros f Hf. exists x, k. split; [done|]. unfold covers in *. lia.
  - split_and!.
    + by apply core_counts.
    + done.
    + cbn. rewrite (fr_count _ _ _ Hfr), Hcnt, frames_in_use_insert by done. done.
    + cbn. rewrite (fr_mon _ _ _ Hfr), Hmon, frames_in_use_insert by done.
      apply fetch_add_small; unfold u64_max; lia.
  - split_and!; apply Hfr.
  - exact (fr_mem _ _ _ Hfr).
Qed.

(** ** Coalescing *)

(** A buddy whose frames are all free, next to a block in use, is one free block
    of the same order. *)
Lemma free_buddy_is_block A L w x o :
  core A L w -> A !! x = Some o -> o < MAX_ORDER ->
  let y := Z.lxor x (2 ^ o) in
  y + 2 ^ o <= total_frames (self w) ->
  (forall f, covers y o f -> free_frame L f) -> blk L y o.
Proof.
  intros Hc Hx Hom y Hyt Hall. destruct (c_used _ _ _ Hc x o Hx) as (Ho & Hx0 & Hxt & Hal).
  pose proof (pow2_pos o ltac:(lia)) as Hp.
  assert (Hy : 0 <= y /\ (2 ^ o | y) /\ exists z, (2 ^ (o + 1) | z) /\ z = Z.min x y /\ z + 2 ^ o = Z.max x y).
  { unfold y. destruct (lxor_buddy x o Hx0 ltac:(lia) Hal) as [[Hd ->]|(Hd & Hle & ->)].
    - split_and!; [lia|by apply Z.divide_add_r; [|apply Z.divide_refl]|]. exists x. split_and!; [done|lia..].
    - split_and!; [lia|by apply Z.divide_sub_r; [|apply Z.divide_refl]|].
      exists (x - 2 ^ o). split_and!; [done|lia..]. }
  destruct Hy as (Hy0 & Haly & z & Hzal & Hzmin & Hzmax).
  destruct (free_run_in_block _ _ _ Hc (Z.to_nat o) y) as (u & p & Hb & Hop & Hu & Hue).
  { rewrite Z2Nat.id by lia. by split_and!; [lia..|]. }
  { by rewrite Z2Nat.id by lia. }
  rewrite Z2Nat.id in * by lia.
  destruct (decide (p = o)) as [->|Hne]; [by replace y with u by lia|]. exfalso.
  destruct (c_blk _ _ _ Hc u p Hb) as (Hpr & Hu0 & Hut & Hual).
  pose proof (pow2_S o ltac:(lia)).
  destruct (laminar z (o + 1) u p y) as [Hz1 Hz2]; [lia|done|done|unfold covers; lia..|].
  eapply (c_fa _ _ _ Hc x); [exists u, p|exists x, o]; (split; [done|unfold covers; lia]).
Qed.

(** Merging the block in hand with its free buddy. *)
Lemma merge_step A L w x o l1 l2 :
  core A L w -> bits_are (free_frame L) (self w) -> A !! x = Some o -> o < MAX_ORDER ->
  let y := Z.lxor x (2 ^ o) in
  L !! Z.to_nat o = Some (l1 ++ y :: l2) ->
  wp (remove_free y o ≫= fun _ => mark_range_allocated y (2 ^ o)) (fun _ w' =>
    let A' := <[Z.min x y := o + 1]> (delete x A) in
    let L' := set_list L o (l1 ++ l2) in
    core A' L' w' /\ bits_are (free_frame L') (self w') /\
    (forall f, free_frame L' f \/ covers (Z.min x y) (o + 1) f <-> free_frame L f \/ covers x o f) /\
    frame_rel (free_frame L) w w') w.
Proof.
  intros Hc HB Hx Hom y Hl. destruct (c_used _ _ _ Hc x o Hx) as (Ho & Hx0 & Hxt & Hal).
  pose proof (pow2_pos o ltac:(lia)) as Hp. pose proof (pow2_S o ltac:(lia)) as HpS.
  assert (Hby : blk L y o) by (eapply core_blk_in; [lia|done|set_solver]).
  destruct (c_blk _ _ _ Hc y o Hby) as (_ & Hy0 & Hyt & Haly).
  pose proof (c_addr _ _ _ Hc) as (Htot & _).
  assert (Hmin : (2 ^ (o + 1) | Z.min x y) /\ Z.max x y = Z.min x y + 2 ^ o).
  { unfold y in *. destruct (lxor_buddy x o Hx0 ltac:(lia) Hal) as [[Hd ->]|(Hd & Hle & ->)].
    - rewrite Z.min_l, Z.max_r by lia. done.
    - rewrite Z.min_r, Z.max_l by lia. split; [done|lia]. }
  destruct Hmin as [Hmal Hmax].
  assert (Hcv : forall f, covers (Z.min x y) (o + 1) f <-> covers x o f \/ covers y o f)
    by (intros f; unfold covers; rewrite HpS; lia).
  pose proof (free_frame_remove A L w o l1 y l2) as Hff.
  wp_steps. eapply wp_mono; [apply (remove_free_spec A L w (free_frame L) o l1 y l2); [done..|lia|done]|].
  intros [] w1 (Hc1 & HB1 & Hfr1).
  eapply wp_marks; [apply mark_range_allocated_spec; lia|apply Hc1|].
  intros bm Hbm Hbits. cbn zeta. split_and!.
  - apply core_with_bitmap; [done|]. apply core_use; [by apply core_unuse|..].
    + rewrite (fr_total _ _ _ Hfr1). split_and!; [lia..|done].
    + intros f [Hf|Hf]%Hcv; split.
      * rewrite Hff by (done || lia). intros [Hfree _]. eapply (c_fa _ _ _ Hc); [done|]. by exists x, o.
      * intros (z & q & [Hne Hz]%lookup_delete_Some & Hcz). apply Hne. by eapply (c_aa _ _ _ Hc).
      * rewrite Hff by (done || lia). tauto.
      * intros (z & q & [Hne Hz]%lookup_delete_Some & Hcz).
        eapply (c_fa _ _ _ Hc); [|by exists z, q]. by exists y, o.
  - pose proof (bits_are_range _ _ bm y (y + 2 ^ o) false HB1 Hy0 Hbits) as HB2.
    eapply bits_are_iff; [|exact HB2]. intros f _. rewrite Hff by (done || lia). done.
  - intros f. rewrite Hff, Hcv by (done || lia).
    destruct (decide (y <= f < y + 2 ^ o)) as [Hin|Hout]; unfold covers; intuition (try lia).
    left. by exists y, o.
  - destruct Hfr1. by split.
Qed.

Lemma coalesce_spec fuel : forall A L w x o,
  core A L w -> bits_are (free_frame L) (self w) -> A !! x = Some o ->
  MAX_ORDER <= o + Z.of_nat fuel ->
  wp (coalesce fuel x o) (fun r w' => exists A' L', let '(i, p) := r : Z * Z in
    core A' L' w' /\ bits_are (free_frame L') (self w') /\ A' !! i = Some p /\
    delete i A' = delete x A /\
    (forall f, free_frame L' f \/ covers i p f <-> free_frame L f \/ covers x o f) /\
    (p < MAX_ORDER -> ~ blk L' (Z.lxor i (2 ^ p)) p) /\
    frame_rel (fun f => free_frame L f \/ covers x o f) w w') w.
Proof.
  induction fuel as [|fuel IH]; intros A L w x o Hc HB Hx Hf; cbn [coalesce].
  all: destruct (Z.leb_spec MAX_ORDER o) as [Hge|Hlt];
    [apply wp_ret; exists A, L; split_and!; [done..|lia|apply frame_rel_refl]|].
  - lia.
  - destruct (c_used _ _ _ Hc x o Hx) as (Ho & Hx0 & Hxt & Hal).
    pose proof (pow2_pos o ltac:(lia)) as Hp. pose proof (c_addr _ _ _ Hc) as (Htot & _).
    unfold MAX_ORDER in Hlt. rewrite chk_shl1_ret by lia. wp_steps.
    set (y := Z.lxor x (2 ^ o)).
    assert (Hy0 : 0 <= y) by (unfold y; apply Z.lxor_nonneg; lia).
    assert (Hstop : ~ blk L y o -> exists A' L', core A' L' w /\ bits_are (free_frame L') (self w) /\
      A' !! x = Some o /\ delete x A' = delete x A /\
      (forall f, free_frame L' f \/ covers x o f <-> free_frame L f \/ covers x o f) /\
      (o < MAX_ORDER -> ~ blk L' (Z.lxor x (2 ^ o)) o) /\
      frame_rel (fun f => free_frame L f \/ covers x o f) w w).
    { intros Hnb. exists A, L. split_and!; [done..|apply frame_rel_refl]. }
    destruct (Z.leb_spec (total_frames (self w)) y) as [Hge|Hyt].
    { wp_steps. apply Hstop. intros Hb. apply (core_blk_frame Hc) in Hb. lia. }
    destruct (is_range_free_spec (self w) y (2 ^ o)) as (r & Hr & Hrt);
      [apply Hc|done|lia| |done|].
    { pose proof (pow2_mono o 10 ltac:(lia)). unfold MAX_TRACKED_FRAMES in Htot.
      change (2 ^ 10) with 1024 in *. unfold u64_max. lia. }
    wp_steps. rewrite Hr. wp_steps. destruct r.
    + destruct Hrt as [Hrt _]. destruct (Hrt eq_refl) as [Hye Hbits].
      assert (Hby : blk L y o).
      { apply (free_buddy_is_block A L w x o); [done..|].
        intros f Hfc. apply HB; [unfold covers in Hfc; lia|]. by apply Hbits. }
      pose proof Hby as (_ & l & Hl & Hyl).
      apply list_elem_of_split in Hyl as (l1 & l2 & ->).
      apply wp_bind_assoc. eapply wp_mono; [by apply (merge_step A L w x o l1 l2)|].
      intros [] w1 (Hc1 & HB1 & Hff1 & Hfr1). cbn zeta in *. fold y in Hc1, HB1, Hff1.
      eapply wp_mono; [apply (IH _ _ w1 (Z.min x y) (o + 1) Hc1 HB1); [by rewrite lookup_insert_eq|lia]|].
      intros [i p] w2 (A' & L' & Hc2 & HB2 & Hi & Hdel & Hff2 & Hmax & Hfr2).
      exists A', L'. split_and!; try done.
      * rewrite Hdel, delete_insert_eq. destruct (decide (Z.min x y = x)) as [->|Hne].
        -- by rewrite delete_delete_eq.
        -- rewrite delete_id; [done|]. rewrite lookup_delete_ne by done.
           replace (Z.min x y) with y by lia. destruct (A !! y) as [q|] eqn:HA; [|done].
           exfalso. by eapply (used_key_not_free A L w y o q).
      * intros f. by rewrite Hff2, Hff1.
      * eapply frame_rel_trans; [exact Hfr1|exact Hfr2|by left|]. intros f. by rewrite Hff1.
    + wp_steps. apply Hstop. intros Hb. destruct Hrt as [_ Hrt]. apply diff_false_true, Hrt.
      split; [by apply (c_blk _ _ _ Hc y o Hb)|]. intros g Hg. apply HB; [|by exists y, o].
      apply (c_blk _ _ _ Hc) in Hb as (_ & ? & ? & _). lia.
Qed.

(** ** Deallocation *)

Definition dealloc_post (A : gmap Z Z) (L : list (list Z)) (w : bworld) (x order : Z)
    (w' : bworld) : Prop :=
  exists L', buddy_inv (delete x A) L' w' /\
    (forall f, free_frame L' f <-> free_frame L f \/ covers x order f) /\
    same_geometry w w' /\
    mem_preserved (fun f => free_frame L f \/ covers x order f) w w'.

Lemma deallocate_frame_order_wp A L w fr x order :
  buddy_inv A L w -> A !! x = Some order ->
  start_address fr = base_phys (self w) + x * 4096 ->
  wp (deallocate_frame_order fr order) (fun _ w' => dealloc_post A L w x order w') w.
Proof.
  intros (Hc & HB & Hcnt & Hmon) Hx Hfr.
  destruct (c_used _ _ _ Hc x order Hx) as (Ho & Hx0 & Hxt & Hal).
  pose proof (pow2_pos order ltac:(lia)) as Hp. pose proof (c_addr _ _ _ Hc) as (Htot & _).
  pose proof (frames_in_use_bound _ _ _ (core_unuse _ _ _ x Hc)) as Hbd.
  rewrite (frames_in_use_delete _ _ _ Hx) in Hbd.
  pose proof (frames_in_use_bound _ _ _ Hc) as Hbd2. unfold MAX_TRACKED_FRAMES in Htot.
  unfold deallocate_frame_order. rewrite (proj2 (Z.ltb_ge _ _)) by lia.
  rewrite chk_shl1_ret by (unfold MAX_ORDER in Ho; lia). wp_steps.
  unfold phys_to_idx. rewrite Hfr. wp_steps.
  replace (base_phys (self w) + x * 4096 - base_phys (self w)) with (x * 4096) by lia.
  rewrite Z.div_mul by lia.
  set (w0 := upd_mon _ _). assert (Hc0 : core A L w0) by by apply core_counts.
  eapply wp_mono; [apply (coalesce_spec 11 A L w0 x order Hc0 HB Hx); unfold MAX_ORDER; lia|].
  intros [i p] w1 (A' & L' & Hc1 & HB1 & Hi & Hdel & Hff & Hmax & Hfr1). cbn [fst snd].
  destruct (c_used _ _ _ Hc1 i p Hi) as (Hpo & _).
  eapply wp_mono; [apply (insert_free_spec (delete i A') L' w1 (free_frame L')); try done|].
  - by apply core_unuse.
  - by apply (c_used _ _ _ Hc1).
  - intros f Hf. split; [intros Hfree|intros (z & q & [Hne Hz]%lookup_delete_Some & Hcz)].
    + eapply (c_fa _ _ _ Hc1); [done|]. by exists i, p.
    + apply Hne. by eapply (c_aa _ _ _ Hc1).
  - intros [] w2 (Hc2 & HB2 & Hfr2). rewrite Hdel in Hc2.
    assert (Hff2 : forall f, free_frame (push L' p i) f <-> free_frame L f \/ covers x order f).
    { intros f. rewrite free_frame_push by (done || apply Hc1). apply Hff. }
    assert (Hfrx : frame_rel (fun f => free_frame L f \/ covers x order f) w0 w2).
    { eapply frame_rel_trans; [exact Hfr1|exact Hfr2|done|]. intros f Hf. apply Hff.
      destruct Hf as [?| ->]; [by left|right]. pose proof (pow2_pos p ltac:(lia)). unfold covers. lia. }
    exists (push L' p i). split_and!; [split_and!|..].
    + done.
    + eapply bits_are_iff; [|done]. intros f _. rewrite free_frame_push by (done || apply Hc1). done.
    + rewrite (fr_count _ _ _ Hfrx). cbn. rewrite (frames_in_use_delete _ _ _ Hx). lia.
    + rewrite (fr_mon _ _ _ Hfrx). cbn. rewrite Hmon, (frames_in_use_delete _ _ _ Hx).
      apply fetch_sub_small; unfold u64_max; lia.
    + done.
    + split_and!; apply Hfrx.
    + exact (fr_mem _ _ _ Hfrx).
Qed.
End alloc.
