(* ===== verification/BuddyNew.v ===== *)
(** * Buddy frame allocator: construction

    [BuddyAllocator::new] of [memory/buddy.rs]: the three passes over the memory
    map establish the invariant, with exactly the tracked usable frames free. *)

From S2P Require Import Prelude Memory Monitor Dll Buddy BuddyInv BuddyOps BuddyAlloc.
Local Open Scope rust_scope.

(** ** What the constructor assumes of the memory map *)

Definition region_ok (r : MemoryRegion) : Prop :=
  0 <= region_start r < region_end r /\ region_end r <= 2 ^ 52 /\
  (4096 | region_start r) /\ (4096 | region_end r).

(** Two usable regions neither overlap nor touch. *)
Definition apart (r s : MemoryRegion) : Prop :=
  region_end r < region_start s \/ region_end s < region_start r.

Fixpoint separated (rs : list MemoryRegion) : Prop :=
  match rs with
  | [] => True
  | r :: rs' => Forall (apart r) rs' /\ separated rs'
  end.

Definition map_ok (regions : list MemoryRegion) (offset : Z) : Prop :=
  let rs := usable_regions regions in
  rs <> [] /\ Forall region_ok rs /\ separated rs /\
  0 <= offset <= u64_max - 2 ^ 52 /\ offset mod 8 = 0.

Lemma separated_mid rs1 r rs2 s : separated (rs1 ++ r :: rs2) -> s ∈ rs1 -> apart s r.
Proof.
  induction rs1 as [|t rs1 IH]; simpl; [set_solver|]. intros [Ht Hs] [->|Hin]%elem_of_cons; [|auto].
  rewrite Forall_forall in Ht. apply Ht. set_solver.
Qed.

(** ** First pass: bounds *)

Lemma scan_regions_spec rs : rs <> [] ->
  let '(base, last_end, found) := scan_regions rs in
  found = true /\
  (forall r, r ∈ rs -> base <= region_start r /\ region_end r <= last_end) /\
  (Forall region_ok rs -> exists r s, r ∈ rs /\ s ∈ rs /\ base = region_start r /\ last_end = region_end s).
Proof.
  assert (Hgen : forall rs b0 e0 f0,
    let '(b, e, f) := fold_left (fun '(base, last_end, _) r =>
      (Z.min base (region_start r), Z.max last_end (region_end r), true)) rs (b0, e0, f0) in
    (rs <> [] -> f = true) /\ b <= b0 /\ e0 <= e /\
    (forall r, r ∈ rs -> b <= region_start r /\ region_end r <= e) /\
    (b = b0 \/ exists r, r ∈ rs /\ b = region_start r) /\
    (e = e0 \/ exists s, s ∈ rs /\ e = region_end s)).
  { clear rs. induction rs as [|r rs IH]; intros b0 e0 f0; simpl.
    - split_and!; [done|lia..|set_solver|by left|by left].
    - specialize (IH (Z.min b0 (region_start r)) (Z.max e0 (region_end r)) true).
      destruct (fold_left _ rs _) as [[b e] f] eqn:Hf.
      destruct IH as (Hft & Hb & He & Hall & Hbx & Hex). split_and!.
      + intros _. destruct rs; [|by apply Hft]. simpl in Hf. by injection Hf.
      + lia.
      + lia.
      + intros s [->|Hs]%elem_of_cons; [lia|by apply Hall].
      + destruct Hbx as [->|(s & Hs & ->)]; [|right; exists s; set_solver].
        destruct (Z.min_dec b0 (region_start r)) as [->| ->]; [by left|right; exists r; set_solver].
      + destruct Hex as [->|(s & Hs & ->)]; [|right; exists s; set_solver].
        destruct (Z.max_dec e0 (region_end r)) as [->| ->]; [by left|right; exists r; set_solver]. }
  intros Hne. specialize (Hgen rs u64_max 0 false). unfold scan_regions.
  destruct (fold_left _ rs _) as [[b e] f]. destruct Hgen as (Hf & Hb & He & Hall & Hbx & Hex).
  split_and!; [by apply Hf|done|]. intros Hok. rewrite Forall_forall in Hok.
  destruct rs as [|r0 rs]; [done|].
  destruct (Hok r0 ltac:(set_solver)) as (H1 & H2 & _).
  destruct (Hall r0 ltac:(set_solver)) as [H3 H4].
  destruct Hbx as [->|(r & Hr & ->)]; [exfalso; unfold u64_max in *; simpl in H2; lia|].
  destruct Hex as [->|(s & Hs & ->)]; [exfalso; lia|]. by exists r, s.
Qed.

(** ** Frames of a region *)

Definition first_frame (base : Z) (r : MemoryRegion) : Z := (region_start r - base) / 4096.
Definition end_frame (base : Z) (r : MemoryRegion) : Z := (region_end r - base) / 4096.

(** The tracked usable frames of a list of regions. *)
Definition usable_frame (base total : Z) (rs : list MemoryRegion) (f : Z) : Prop :=
  f < total /\ exists r, r ∈ rs /\ first_frame base r <= f < end_frame base r.

Lemma region_frames_exact base r :
  region_ok r -> (4096 | base) -> base <= region_start r ->
  region_start r = base + 4096 * first_frame base r /\
  region_end r = base + 4096 * end_frame base r /\ 0 <= first_frame base r < end_frame base r.
Proof.
  intros ((H0 & Hlt) & _ & [a Ha] & [c Hc]) [d Hd] Hb. unfold first_frame, end_frame.
  rewrite Ha, Hc, Hd. replace (a * 4096 - d * 4096) with ((a - d) * 4096) by lia.
  replace (c * 4096 - d * 4096) with ((c - d) * 4096) by lia. rewrite !Z.div_mul by lia. lia.
Qed.

Lemma region_frames_ret b r :
  region_ok r -> base_phys b <= region_start r ->
  region_frames b r = Ret (first_frame (base_phys b) r, end_frame (base_phys b) r).
Proof.
  intros (H0 & _) Hb. unfold region_frames, chk_sub.
  rewrite !(proj2 (Z.leb_le _ _)) by lia. done.
Qed.

(** ** Second pass: the bitmap *)

Lemma mark_region_spec w r :
  bm_ok (bitmap (self w)) -> 0 <= total_frames (self w) <= MAX_TRACKED_FRAMES ->
  region_ok r -> (4096 | base_phys (self w)) -> base_phys (self w) <= region_start r ->
  wp (mark_region r) (fun _ w' => exists bm, w' = with_bitmap bm w /\ bm_ok bm /\
    forall g, 0 <= g -> bit_at bm g = true <->
      bit_at (bitmap (self w)) g = true \/ usable_frame (base_phys (self w)) (total_frames (self w)) [r] g) w.
Proof.
  intros Hbm Ht Hr Hal Hb. destruct (region_frames_exact _ _ Hr Hal Hb) as (_ & _ & Hff).
  unfold mark_region. wp_steps. rewrite region_frames_ret by done. wp_steps.
  set (s := first_frame _ r) in *. set (e := end_frame _ r) in *.
  eapply wp_mono.
  - apply (wp_for_range (fun i w' => exists bm, w' = with_bitmap bm w /\ bm_ok bm /\
      forall g, 0 <= g -> bit_at bm g = true <->
        bit_at (bitmap (self w)) g = true \/ (g < total_frames (self w) /\ s <= g < i))).
    + intros i w1 Hi (bm & -> & Hok & Hbits).
      destruct (Z.ltb_spec i (total_frames (self w))) as [Hlt|Hge].
      * eapply wp_mono; [apply (mark_one i true (with_bitmap bm w)); [done|lia]|].
        intros [] w2 (bm2 & -> & Hok2 & Hb2). exists bm2. split_and!; [done..|].
        intros g Hg. rewrite Hb2 by done. cbn [bitmap self with_bitmap upd_self set_bitmap].
        destruct (Z.eqb_spec g i) as [->|]; [intuition lia|]. rewrite Hbits by done. intuition lia.
      * apply wp_ret. exists bm. split_and!; [done..|]. intros g Hg. rewrite Hbits by done.
        intuition lia.
    + exists (bitmap (self w)). split_and!; [by destruct w as [[] ? ?]|done|].
      intros g Hg. intuition lia.
  - intros [] w' (bm & -> & Hok & Hbits). exists bm. split_and!; [done..|]. intros g Hg.
    rewrite Hbits by done. rewrite Z2Nat.id by lia. unfold usable_frame.
    setoid_rewrite list_elem_of_singleton. split.
    + intros [?|[? ?]]; [by left|right]. split; [done|]. exists r. split; [done|]. unfold s, e in *. lia.
    + intros [?|(? & ? & -> & ?)]; [by left|right]. unfold s, e in *. lia.
Qed.

Lemma usable_frame_app base total rs1 rs2 f :
  usable_frame base total (rs1 ++ rs2) f <->
  usable_frame base total rs1 f \/ usable_frame base total rs2 f.
Proof.
  unfold usable_frame. setoid_rewrite elem_of_app. naive_solver.
Qed.

Lemma mark_regions_spec w rs :
  bm_ok (bitmap (self w)) -> (forall g, bit_at (bitmap (self w)) g = false) ->
  0 <= total_frames (self w) <= MAX_TRACKED_FRAMES -> (4096 | base_phys (self w)) ->
  (forall r, r ∈ rs -> region_ok r /\ base_phys (self w) <= region_start r) ->
  wp (for_each rs mark_region) (fun _ w' => exists bm, w' = with_bitmap bm w /\ bm_ok bm /\
    forall g, 0 <= g -> bit_at bm g = true <->
      usable_frame (base_phys (self w)) (total_frames (self w)) rs g) w.
Proof.
  intros Hbm Hz Ht Hal Hr.
  apply (wp_for_each (fun pre w' => exists bm, w' = with_bitmap bm w /\ bm_ok bm /\
    forall g, 0 <= g -> bit_at bm g = true <->
      usable_frame (base_phys (self w)) (total_frames (self w)) pre g) mark_region rs []).
  - intros pre r post w1 Heq (bm & -> & Hok & Hbits). simpl in Heq.
    destruct (Hr r ltac:(set_solver)) as [Hrok Hrb].
    eapply wp_mono; [by apply (mark_region_spec (with_bitmap bm w) r)|].
    intros [] w2 (bm2 & -> & Hok2 & Hb2). exists bm2. split_and!; [done..|]. intros g Hg.
    rewrite Hb2, usable_frame_app by done. cbn [bitmap self with_bitmap upd_self set_bitmap].
    by rewrite Hbits.
  - exists (bitmap (self w)). split_and!; [by destruct w as [[] ? ?]|done|].
    intros g Hg. rewrite Hz. split; [done|]. intros (_ & r & Hin & _). set_solver.
Qed.

(** ** Third pass: carving a region into blocks *)

Lemma largest_aligned_spec pos k :
  let o := largest_aligned pos k in
  (o <= k)%nat /\ (2 ^ Z.of_nat o | pos) /\
  forall p, (o < p <= k)%nat -> ~ (2 ^ Z.of_nat p | pos).
Proof.
  cbn zeta. induction k as [|k IH]; cbn [largest_aligned].
  - split_and!; [done|apply Z.divide_1_l|lia].
  - destruct (Z.land pos (2 ^ Z.of_nat (S k) - 1) =? 0) eqn:Ha.
    + apply land_mask_divide in Ha; [|lia]. split_and!; [done..|lia].
    + destruct IH as (Hle & Hd & Hmax). split_and!; [lia|done|]. intros p Hp.
      destruct (decide (p = S k)) as [->|]; [|apply Hmax; lia].
      intros Hd'. apply land_mask_divide in Hd'; [congruence|lia].
Qed.

Lemma floor_log2_log2 x : 0 < x -> floor_log2 x = Z.log2 x.
Proof.
  intros Hx. unfold floor_log2, leading_zeros.
  rewrite (proj2 (Z.eqb_neq _ _)) by lia. lia.
Qed.

(** The order the loop picks: the largest one, at most [MAX_ORDER], that is
    aligned and fits. *)
Definition carve_order (pos end_ : Z) : Z :=
  Z.of_nat (largest_aligned pos (Z.to_nat (Z.min MAX_ORDER (floor_log2 (end_ - pos))))).

Lemma carve_order_spec pos e :
  pos < e -> let o := carve_order pos e in
  0 <= o <= MAX_ORDER /\ (2 ^ o | pos) /\ pos + 2 ^ o <= e /\
  (o < MAX_ORDER -> (2 ^ (o + 1) | pos) -> e < pos + 2 ^ (o + 1)).
Proof.
  intros Hlt. cbn zeta. unfold carve_order. rewrite floor_log2_log2 by lia.
  pose proof (Z.log2_nonneg (e - pos)) as Hl0.
  destruct (Z.log2_spec (e - pos)) as [Hl1 Hl2]; [lia|].
  set (k := Z.to_nat (Z.min MAX_ORDER (Z.log2 (e - pos)))).
  destruct (largest_aligned_spec pos k) as (Hle & Hd & Hmax). cbn zeta in *.
  set (o := largest_aligned pos k) in *. unfold MAX_ORDER in *.
  assert (Z.of_nat k = Z.min 10 (Z.log2 (e - pos))) as Hk by (unfold k; lia).
  split_and!; [lia..|done| |].
  - pose proof (pow2_mono (Z.of_nat o) (Z.log2 (e - pos)) ltac:(lia)). lia.
  - intros Ho Hd'. destruct (decide (Z.of_nat o + 1 <= Z.log2 (e - pos))) as [Hfit|Hnofit].
    + exfalso. apply (Hmax (S o)); [lia|]. by replace (Z.of_nat (S o)) with (Z.of_nat o + 1) by lia.
    + pose proof (pow2_mono (Z.succ (Z.log2 (e - pos))) (Z.of_nat o + 1) ltac:(lia)). lia.
Qed.

(** A left buddy inside the region sticks out of it when paired. *)
Definition tight (L : list (list Z)) (s e : Z) : Prop :=
  forall y p, blk L y p -> s <= y < e -> p < MAX_ORDER -> (2 ^ (p + 1) | y) -> e < y + 2 ^ (p + 1).

Lemma carve_spec B s e fuel : forall pos L w,
  core ∅ L w -> bits_are B (self w) ->
  0 <= s <= pos -> pos <= e <= total_frames (self w) -> e - pos <= Z.of_nat fuel ->
  (forall f, pos <= f < e -> B f /\ ~ free_frame L f) -> (forall f, free_frame L f -> B f) ->
  ~ free_frame L (s - 1) -> ~ free_frame L e -> tight L s e ->
  wp (carve fuel pos e) (fun _ w' => exists L',
    core ∅ L' w' /\ bits_are B (self w') /\
    (forall f, free_frame L' f <-> free_frame L f \/ pos <= f < e) /\
    frame_rel B w w') w.
Proof.
  induction fuel as [|fuel IH]; intros pos L w Hc HB Hs He Hf Hfree Hsub Hlo Hhi Htight; cbn [carve].
  all: destruct (Z.leb_spec e pos) as [Hge|Hlt];
    [apply wp_ret; exists L; split_and!; [done..|intuition lia|apply frame_rel_refl]|].
  - lia.
  - fold (carve_order pos e). destruct (carve_order_spec pos e Hlt) as (Ho & Hal & Hfit & Hmax).
    cbn zeta in *. set (o := carve_order pos e) in *.
    pose proof (pow2_pos o ltac:(lia)) as Hp. pose proof (pow2_S o ltac:(lia)) as HpS.
    pose proof (c_addr _ _ _ Hc) as (Htot & _). pose proof (c_len _ _ _ Hc) as Hlen.
    wp_steps. rewrite is_free_bit by (apply Hc || lia).
    rewrite (proj2 (HB pos ltac:(lia))) by (apply Hfree; lia). wp_steps.
    eapply wp_mono; [apply (insert_free_spec ∅ L w B pos o); try done|].
    + split_and!; [lia..|done].
    + intros f Hcf. split; [apply Hfree; unfold covers in Hcf; lia|].
      intros (? & ? & Hemp & _). by rewrite lookup_empty in Hemp.
    + intros Hom Hb. destruct (lxor_buddy pos o ltac:(lia) ltac:(lia) Hal) as [[Hd Hx]|(Hd & Hle & Hx)];
        rewrite Hx in Hb.
      * apply Hhi. exists (pos + 2 ^ o), o. split; [done|]. specialize (Hmax Hom Hd). unfold covers. lia.
      * destruct (decide (s <= pos - 2 ^ o)) as [Hin|Hout].
        -- pose proof (Htight (pos - 2 ^ o) o Hb ltac:(lia) Hom Hd). lia.
        -- apply Hlo. exists (pos - 2 ^ o), o. split; [done|]. unfold covers. lia.
    + intros [] w1 (Hc1 & HB1 & Hfr1). rewrite chk_shl1_ret by (unfold MAX_ORDER in Ho; lia).
      unfold MAX_TRACKED_FRAMES in Htot. wp_steps; [unfold u64_max; lia|].
      assert (Hff : forall f, free_frame (push L o pos) f <-> free_frame L f \/ covers pos o f)
        by (intros; by apply free_frame_push).
      eapply wp_mono; [apply (IH (pos + 2 ^ o) (push L o pos) w1 Hc1)|].
      * eapply bits_are_iff; [|done]. intros f _. split; [|by left].
        intros [?|Hcf]; [done|]. apply Hfree. unfold covers in Hcf. lia.
      * lia.
      * rewrite (fr_total _ _ _ Hfr1). lia.
      * lia.
      * intros f Hr. rewrite Hff. split; [apply Hfree; lia|].
        intros [Hx|Hx]; [by apply (Hfree f); [lia|]|unfold covers in Hx; lia].
      * intros f [Hx|Hx]%Hff; [by apply Hsub|]. apply Hfree. unfold covers in Hx. lia.
      * rewrite Hff. unfold covers. intuition lia.
      * rewrite Hff. unfold covers. intuition lia.
      * intros y p Hb Hy Hpm Hd. apply blk_push in Hb as [[-> ->]|Hb]; [by apply Hmax| |done..].
        by eapply Htight.
      * intros [] w2 (L' & Hc2 & HB2 & Hff2 & Hfr2). exists L'. split_and!; [done..| |].
        -- intros f. rewrite Hff2, Hff. unfold covers. intuition lia.
        -- eapply frame_rel_trans; [exact Hfr1|exact Hfr2| |done].
           intros f [Hx| ->]; [by apply Hsub|apply Hfree; lia].
Qed.

(** ** The three passes together *)

(** Frames next to a region, or in it, are free for no region apart from it. *)
Lemma apart_frames base total pre r f :
  (4096 | base) -> region_ok r -> base <= region_start r ->
  (forall s, s ∈ pre -> apart s r /\ region_ok s /\ base <= region_start s) ->
  usable_frame base total pre f ->
  first_frame base r - 1 <= f -> f <= end_frame base r -> False.
Proof.
  intros Hal Hr Hrb Hpre (Hft & s & Hs & Hsf) H1 H2.
  destruct (Hpre s Hs) as (Hap & Hsok & Hsb).
  destruct (region_frames_exact _ _ Hr Hal Hrb) as (Er1 & Er2 & Er3).
  destruct (region_frames_exact _ _ Hsok Hal Hsb) as (Es1 & Es2 & Es3).
  unfold apart in Hap. lia.
Qed.

Lemma usable_frame_snoc base total pre r f :
  usable_frame base total (pre ++ [r]) f <->
  usable_frame base total pre f \/ (f < total /\ first_frame base r <= f < end_frame base r).
Proof.
  rewrite usable_frame_app. unfold usable_frame at 2. setoid_rewrite list_elem_of_singleton. split.
  - intros [?|(? & ? & -> & ?)]; [by left|by right].
  - intros [?|[? ?]]; [by left|right]. split; [done|]. by exists r.
Qed.

Lemma carve_regions_spec w rs L0 :
  core ∅ L0 w -> (forall f, ~ free_frame L0 f) -> (4096 | base_phys (self w)) ->
  bits_are (usable_frame (base_phys (self w)) (total_frames (self w)) rs) (self w) ->
  (forall r, r ∈ rs -> region_ok r /\ base_phys (self w) <= region_start r) -> separated rs ->
  wp (for_each rs carve_region) (fun _ w' => exists L,
    core ∅ L w' /\
    bits_are (usable_frame (base_phys (self w)) (total_frames (self w)) rs) (self w') /\
    (forall f, free_frame L f <-> usable_frame (base_phys (self w)) (total_frames (self w)) rs f) /\
    frame_rel (usable_frame (base_phys (self w)) (total_frames (self w)) rs) w w') w.
Proof.
  intros Hc0 Hno Hal HB Hr Hsep.
  set (base := base_phys (self w)) in *. set (total := total_frames (self w)) in *.
  set (B := usable_frame base total rs) in *.
  apply (wp_for_each (fun pre w' => exists L, core ∅ L w' /\ bits_are B (self w') /\
    (forall f, free_frame L f <-> usable_frame base total pre f) /\
    frame_rel B w w') carve_region rs []).
  - intros pre r post w1 Heq (L & Hc & HB1 & Hff & Hfr). simpl in Heq.
    destruct (Hr r ltac:(set_solver)) as [Hrok Hrb].
    destruct (region_frames_exact _ _ Hrok Hal Hrb) as (_ & _ & Hrf).
    assert (Hpre : forall s, s ∈ pre -> apart s r /\ region_ok s /\ base <= region_start s).
    { intros s Hs. split; [|apply Hr; set_solver]. rewrite Heq in Hsep. by eapply separated_mid. }
    pose proof (fr_base _ _ _ Hfr) as Eb. pose proof (fr_total _ _ _ Hfr) as Et.
    fold base in Eb. fold total in Et.
    unfold carve_region. wp_steps. rewrite region_frames_ret, Eb, Et by (done || by rewrite Eb).
    wp_steps. set (s := first_frame base r) in *. set (e := end_frame base r) in *.
    pose proof (usable_frame_snoc base total pre r) as Hone. fold s e in Hone.
    destruct (Z.leb_spec total s) as [Hge|Hlt].
    { wp_steps. exists L. split_and!; [done..| |done]. intros f. rewrite Hff, Hone. intuition lia. }
    set (e' := if total <? e then total else e).
    assert (He' : s < e' <= total /\ e' <= e /\ (forall f, f < total /\ s <= f < e <-> s <= f < e')).
    { unfold e'. destruct (Z.ltb_spec total e); intuition lia. }
    destruct He' as (He1 & He2 & He3).
    assert (Hnf : forall f, s - 1 <= f <= e' -> ~ free_frame L f).
    { intros f Hf Hfree%Hff. eapply (apart_frames base total pre r f); try done; unfold s, e in *; lia. }
    eapply wp_mono; [apply (carve_spec B s e' _ s L w1 Hc HB1)|].
    + lia.
    + rewrite Et. lia.
    + lia.
    + intros f Hf. split; [|apply Hnf; lia]. unfold B. rewrite Heq.
      replace (pre ++ r :: post) with ((pre ++ [r]) ++ post) by by rewrite <- app_assoc.
      apply usable_frame_app. left. apply Hone. right. apply He3. lia.
    + intros f Hf%Hff. unfold B. rewrite Heq. apply usable_frame_app. by left.
    + apply Hnf. lia.
    + apply Hnf. lia.
    + intros y p Hb Hy. exfalso. apply (Hnf y); [lia|]. exists y, p. split; [done|].
      by eapply core_blk_frame.
    + intros [] w2 (L2 & Hc2 & HB2 & Hff2 & Hfr2). exists L2. split_and!; [done..| |].
      * intros f. by rewrite Hff2, Hff, Hone, He3.
      * by eapply frame_rel_trans.
  - exists L0. split_and!; [done..| |apply frame_rel_refl]. intros f.
    split; [intros Hf; by destruct (Hno f)|]. intros (_ & r & Hin & _). set_solver.
Qed.

Lemma core_empty w :
  free_lists (self w) = replicate 11 None -> bm_ok (bitmap (self w)) -> addr_ok (self w) ->
  core ∅ (replicate 11 []) w.
Proof.
  intros Hfl Hbm Haddr.
  assert (Hnb : forall x o, ~ blk (replicate 11 []) x o).
  { intros x o (_ & l & Hl & Hx). apply lookup_replicate in Hl as [-> _]. set_solver. }
  split; try done; try (intros x o; intros; by destruct (Hnb x o)).
  - intros o l [-> _]%lookup_replicate. constructor.
  - intros f (x & o & Hb & _). by destruct (Hnb x o).
  - by intros o l [-> _]%lookup_replicate.
Qed.

Definition total_of (regions : list MemoryRegion) : Z * Z :=
  let '(base, last_end, _) := scan_regions (usable_regions regions) in
  (base, Z.min MAX_TRACKED_FRAMES ((last_end - base) / 4096)).

(** The bitmap of a new allocator. *)
Lemma zero_bitmap_ok : bm_ok (replicate (Z.to_nat BITMAP_U64_LEN) 0).
Proof. split; [exact (length_replicate _ _)|]. apply Forall_replicate. unfold in_u64, u64_max. lia. Qed.

Lemma zero_bitmap_bit g : bit_at (replicate (Z.to_nat BITMAP_U64_LEN) 0) g = false.
Proof.
  unfold bit_at. destruct (replicate _ 0 !! _) as [x|] eqn:Hx; [|done].
  apply lookup_replicate in Hx as [-> _]. apply Z.testbit_0_l.
Qed.

(** [a] is in none of the pages of the frames in [F]. *)
Definition outside_pages (F : Z -> Prop) (base offset a : Z) : Prop :=
  forall f, F f -> a < base + f * 4096 + offset \/ base + f * 4096 + offset + 4096 <= a.

Lemma new_wp regions offset w :
  map_ok regions offset -> allocated_frames (mon w) = 0 ->
  let '(base, total) := total_of regions in
  wp (new regions offset) (fun _ w' => exists L,
    buddy_inv ∅ L w' /\ base_phys (self w') = base /\ total_frames (self w') = total /\
    phys_mem_offset (self w') = offset /\ mon_total_frames (mon w') = total /\
    (forall f, free_frame L f <-> usable_frame base total (usable_regions regions) f) /\
    forall a, outside_pages (usable_frame base total (usable_regions regions)) base offset a ->
      mem w' !! a = mem w !! a) w.
Proof.
  intros (Hne & Hok & Hsep & Hoff & Hoff8) Hmon. unfold total_of, new.
  pose proof (scan_regions_spec _ Hne) as Hscan.
  destruct (scan_regions (usable_regions regions)) as [[base last_end] found].
  destruct Hscan as (-> & Hall & Hex). destruct (Hex Hok) as (r0 & s0 & Hr0 & Hs0 & Eb & Ee).
  rewrite Forall_forall in Hok.
  destruct (Hok r0 Hr0) as (Hr1 & Hr2 & Hr3 & _). destruct (Hok s0 Hs0) as (Hs1 & Hs2 & _).
  destruct (Hall s0 Hs0) as [Hsb _]. destruct (Hall r0 Hr0) as [_ Hre].
  set (rs := usable_regions regions) in *.
  wp_steps. apply wp_guard; [done|]. wp_steps.
  set (total := if MAX_TRACKED_FRAMES <? (last_end - base) / 4096 then _ else _).
  assert (Htot : total = Z.min MAX_TRACKED_FRAMES ((last_end - base) / 4096)).
  { unfold total. case_test Ht; lia. }
  rewrite <- Htot. assert (0 <= (last_end - base) / 4096) as Hnn by (apply Z.div_pos; lia).
  assert (Hspan : total * 4096 <= last_end - base).
  { pose proof (Z.mul_div_le (last_end - base) 4096). lia. }
  set (w1 := upd_mon _ _).
  pose proof zero_bitmap_ok as Hbm. pose proof zero_bitmap_bit as Hz.
  change (replicate (Z.to_nat BITMAP_U64_LEN) 0) with (bitmap (self w1)) in Hbm, Hz.
  assert (Haddr : addr_ok (self w1)).
  { unfold addr_ok. cbn -[Z.pow]. unfold MAX_TRACKED_FRAMES in *.
    change (2 ^ 52) with 4503599627370496 in *.
    split_and!; try lia. apply Z.mod_divide; [lia|]. by rewrite Eb. }
  assert (Hreg : forall r, r ∈ rs -> region_ok r /\ base_phys (self w1) <= region_start r).
  { intros r Hr. split; [by apply Hok|]. by apply Hall. }
  assert (Hal : (4096 | base_phys (self w1))) by (cbn; by rewrite Eb).
  eapply wp_mono; [apply (mark_regions_spec w1 rs); try done; apply Haddr|].
  intros [] w2 (bm & -> & Hbm2 & Hbits).
  eapply wp_mono; [apply (carve_regions_spec (with_bitmap bm w1) rs (replicate 11 []))|].
  - by apply core_empty.
  - intros f (x & o & (_ & l & Hl & Hx) & _). apply lookup_replicate in Hl as [-> _].
    by apply not_elem_of_nil in Hx.
  - done.
  - intros f Hf. by rewrite Hbits by lia.
  - done.
  - done.
  - intros [] w3 (L & Hc & HB & Hff & Hfr). exists L. split_and!; [split_and!| | | | | |].
    + done.
    + eapply bits_are_iff; [|done]. intros f _. by rewrite Hff.
    + by rewrite (fr_count _ _ _ Hfr).
    + rewrite (fr_mon _ _ _ Hfr). exact Hmon.
    + by rewrite (fr_base _ _ _ Hfr).
    + by rewrite (fr_total _ _ _ Hfr).
    + by rewrite (fr_off _ _ _ Hfr).
    + by rewrite (fr_mon _ _ _ Hfr).
    + exact Hff.
    + intros a Ha. by apply (fr_mem _ _ _ Hfr).
Qed.
