(* ===== verification/BuddySpec.v ===== *)
(** * Buddy frame allocator: what it promises

    The properties of [memory/buddy.rs], stated on its operations: the
    constructor establishes the invariant, allocation and deallocation are total
    and exact, freeing undoes allocating, and a client that only frees what it
    holds and only writes to frames it holds can never break the allocator. *)

From S2P Require Import Prelude Memory Monitor Dll Buddy BuddyInv BuddyOps BuddyAlloc BuddyNew.
Local Open Scope rust_scope.

(** ** A client of the allocator *)

Section client.
Context {api : PhysFrameApi}.

(** [(A, w)]: the blocks handed out and not yet given back, and the world. The
    client allocates, frees a block it holds, and writes anything into the
    pages of the frames it holds. *)
Inductive bstep : gmap Z Z * bworld -> gmap Z Z * bworld -> Prop :=
  | step_alloc A w order fr w' x :
      0 <= order -> allocate_frame_order order w = Ret (Some fr, w') ->
      start_address fr = base_phys (self w) + x * 4096 ->
      bstep (A, w) (<[x := order]> A, w')
  | step_alloc_none A w order w' :
      0 <= order -> allocate_frame_order order w = Ret (None, w') -> bstep (A, w) (A, w')
  | step_dealloc A w fr x order w' :
      A !! x = Some order -> start_address fr = base_phys (self w) + x * 4096 ->
      deallocate_frame_order fr order w = Ret (tt, w') -> bstep (A, w) (delete x A, w')
  | step_client A w m :
      (forall a, (forall f, used_frame A f -> a < ptr_of (self w) f \/ ptr_of (self w) f + 4096 <= a) ->
         m !! a = mem w !! a) ->
      bstep (A, w) (A, set_mem m w).
End client.

(** ** The instance used by the witnesses *)

#[global] Instance addr_frames : PhysFrameApi := {|
  PhysFrame := Z;
  containing_address p := if p <? 2 ^ 52 then Ret (p / 4096 * 4096) else Crash (Panic "PhysAddr::new");
  start_address f := f
|}.

#[global] Instance addr_frames_laws : PhysFrameLaws addr_frames.
Proof.
  intros p Hp Hm. cbn -[Z.pow]. rewrite (proj2 (Z.ltb_lt _ _)) by lia. simpl.
  rewrite (Z.div_mod p 4096) at 2 by lia. lia.
Qed.

Definition demo_map : list MemoryRegion :=
  [mkRegion 0 4096 Bootloader; mkRegion 1048576 1310720 Usable; mkRegion 1572864 1589248 Usable].
Definition blank : bworld := mkWorld (mkBuddy [] [] 0 0 0 0) ∅ MonitorData_new.
Definition demo_world : bworld :=
  match new demo_map 4398046511104 blank with Ret (_, w) => w | Crash _ => blank end.

Lemma demo_map_ok : map_ok demo_map 4398046511104.
Proof.
  split_and!; try done.
  - repeat (apply Forall_cons; split; [split_and!; simpl; try lia;
      match goal with |- (4096 | ?z) => exists (z / 4096); reflexivity end|]). apply Forall_nil. done.
  - repeat constructor; simpl; lia.
Qed.

Lemma demo_inv : exists L, buddy_inv ∅ L demo_world.
Proof.
  pose proof (new_wp demo_map 4398046511104 blank demo_map_ok eq_refl) as H.
  cbn [total_of] in H. destruct (total_of demo_map) as [base total].
  apply wp_elim in H as ([] & w' & Hrun & L & Hinv & _).
  exists L. unfold demo_world. by rewrite Hrun.
Qed.

(** ** Construction *)

(** C29: on a memory map whose usable regions are page-aligned, within the 52-bit
    physical space and pairwise apart, [BuddyAllocator::new] returns (no panic,
    no undefined behaviour), establishes the allocator's invariant with nothing
    allocated, and the free frames are exactly the usable frames it tracks. It
    writes nowhere but in the pages of those frames. *)
Theorem buddy_new_establishes_invariant regions offset w :
  map_ok regions offset -> allocated_frames (mon w) = 0 ->
  exists w' L, new regions offset w = Ret (tt, w') /\ buddy_inv ∅ L w' /\
    base_phys (self w') = fst (total_of regions) /\
    total_frames (self w') = snd (total_of regions) /\
    free_frames (self w') = Ret (snd (total_of regions)) /\
    let U := usable_frame (fst (total_of regions)) (snd (total_of regions)) (usable_regions regions) in
    (forall f, free_frame L f <-> U f) /\
    forall a, outside_pages U (fst (total_of regions)) offset a -> mem w' !! a = mem w !! a.
Proof.
  intros Hmap Hmon. pose proof (new_wp regions offset w Hmap Hmon) as H.
  destruct (total_of regions) as [base total].
  apply wp_elim in H as ([] & w' & Hrun & L & Hinv & Hb & Ht & _ & _ & Hff & Hmem).
  exists w', L. split_and!; try done. unfold free_frames, chk_sub.
  destruct Hinv as (Hc & _ & Hcnt & _). rewrite Hcnt, Ht.
  pose proof (c_addr _ _ _ Hc) as (Hr & _). change (frames_in_use ∅) with 0.
  rewrite (proj2 (Z.leb_le _ _)) by lia. f_equal. simpl. lia.
Qed.

Lemma buddy_new_witness : exists w' L,
  new demo_map 4398046511104 blank = Ret (tt, w') /\ buddy_inv ∅ L w'.
Proof.
  destruct (buddy_new_establishes_invariant demo_map 4398046511104 blank) as (w' & L & H1 & H2 & _).
  - apply demo_map_ok.
  - reflexivity.
  - exists w', L. split; assumption.
Defined.

Section properties.
Context {api : PhysFrameApi} {laws : PhysFrameLaws api}.

(** C17: [allocate_frame_order] always returns. A frame it returns heads an
    aligned block of [2^order] frames that were all free and are now removed
    from the free frames (and nothing else is), the invariant is kept with the
    block added to those in use, and no byte outside free pages is written. It
    returns [None] only when no aligned run of [2^order] frames is free (or the
    order exceeds [MAX_ORDER]), leaving everything unchanged. *)
Theorem buddy_allocate_exact A L w order :
  buddy_inv A L w -> 0 <= order ->
  exists r w', allocate_frame_order order w = Ret (r, w') /\
    if MAX_ORDER <? order then r = None /\ w' = w else alloc_post A L w order r w'.
Proof.
  intros Hinv Ho. destruct (Z.ltb_spec MAX_ORDER order) as [Hgt|Hle].
  - exists None, w. split; [|done]. unfold allocate_frame_order.
    by rewrite (proj2 (Z.ltb_lt _ _)).
  - by apply wp_elim, allocate_frame_order_wp.
Qed.

(** C18: [deallocate_frame_order] of a block in use returns, keeps the invariant
    with the block no longer in use, frees exactly its frames (merging buddies
    on the way), and writes no byte outside free pages and the block's own. *)
Theorem buddy_deallocate_exact A L w fr x order :
  buddy_inv A L w -> A !! x = Some order ->
  start_address fr = base_phys (self w) + x * 4096 ->
  exists w', deallocate_frame_order fr order w = Ret (tt, w') /\ dealloc_post A L w x order w'.
Proof.
  intros Hinv Hx Hfr.
  destruct (wp_elim _ _ _ (deallocate_frame_order_wp A L w fr x order Hinv Hx Hfr)) as ([] & w' & ? & ?).
  by exists w'.
Qed.

(** Freeing what was just allocated restores the free lists: the same free
    blocks, of the same orders, whatever was split to serve the request. *)
Theorem buddy_alloc_dealloc_roundtrip A L w order fr w1 :
  buddy_inv A L w -> 0 <= order <= MAX_ORDER ->
  allocate_frame_order order w = Ret (Some fr, w1) ->
  exists w2 L2, deallocate_frame_order fr order w1 = Ret (tt, w2) /\
    buddy_inv A L2 w2 /\ forall x o, blk L2 x o <-> blk L x o.
Proof.
  intros Hinv Ho Hrun.
  destruct (wp_elim _ _ _ (allocate_frame_order_wp A L w order Hinv Ho)) as (r & w1' & Hr & Hpost).
  rewrite Hrun in Hr. injection Hr as <- <-.
  destruct Hpost as (x & L1 & Hsa & Hok & HA & Hfr & Hinv1 & Hff1 & (Ht & Hb & _) & _).
  destruct (wp_elim _ _ _ (deallocate_frame_order_wp _ L1 w1 fr x order Hinv1
    (lookup_insert_eq _ _ _) ltac:(by rewrite Hb))) as ([] & w2 & Hrun2 & L2 & Hinv2 & Hff2 & (Ht2 & _) & _).
  exists w2, L2. rewrite delete_insert_id in Hinv2 by done. split_and!; [done..|].
  assert (Hsame : forall f, free_frame L2 f <-> free_frame L f).
  { intros f. rewrite Hff2, Hff1. destruct (decide (x <= f < x + 2 ^ order)); unfold covers; [|tauto].
    specialize (Hfr f). unfold covers in Hfr. tauto. }
  intros y o. destruct Hinv as (Hc & _), Hinv2 as (Hc2 & _).
  split; eapply blocks_canonical; try done; try congruence.
Qed.

(** The frames of the memory map are at any time free or in use. *)
Definition conserves (U : Z -> Prop) (L : list (list Z)) (A : gmap Z Z) : Prop :=
  forall f, U f <-> free_frame L f \/ used_frame A f.

Definition disjoint_blocks (A : gmap Z Z) : Prop :=
  forall x o y p f, A !! x = Some o -> A !! y = Some p -> covers x o f -> covers y p f -> x = y.

(** What the proof carries along a run of the client. *)
Definition client_inv (U : Z -> Prop) (total : Z) (A : gmap Z Z) (w : bworld) : Prop :=
  exists L, buddy_inv A L w /\ conserves U L A /\ total_frames (self w) = total.

Lemma used_frame_insert A x o f :
  A !! x = None -> used_frame (<[x := o]> A) f <-> used_frame A f \/ covers x o f.
Proof.
  intros Hx. split.
  - intros (y & p & [[<- <-]|[? Hy]]%lookup_insert_Some & Hcv); [by right|]. left. by exists y, p.
  - intros [(y & p & Hy & Hcv)|Hcv]; [exists y, p|exists x, o]; (split; [|done]).
    + rewrite lookup_insert_ne; [done|]. intros ->. congruence.
    + apply lookup_insert_eq.
Qed.

Lemma allocate_run A L w order r w' :
  buddy_inv A L w -> 0 <= order -> allocate_frame_order order w = Ret (r, w') ->
  (r = None /\ w' = w) \/ (is_Some r /\ alloc_post A L w order r w').
Proof.
  intros Hinv Ho Hrun. destruct (Z.ltb_spec MAX_ORDER order) as [Hgt|Hle].
  { unfold allocate_frame_order in Hrun. rewrite (proj2 (Z.ltb_lt _ _)) in Hrun by done.
    injection Hrun as <- <-. by left. }
  destruct (wp_elim _ _ _ (allocate_frame_order_wp A L w order Hinv ltac:(done)))
    as (r' & w1 & Hr & Hpost). rewrite Hrun in Hr. injection Hr as <- <-.
  destruct r; [right; by split; [eexists|]|]. left. by destruct Hpost as [-> _].
Qed.

Lemma allocate_preserves U total A w order r w' :
  client_inv U total A w -> 0 <= order -> allocate_frame_order order w = Ret (r, w') ->
  match r with
  | None => client_inv U total A w'
  | Some fr => forall x, start_address fr = base_phys (self w) + x * 4096 ->
      client_inv U total (<[x := order]> A) w'
  end.
Proof.
  intros (L & Hinv & HU & Ht) Ho Hrun.
  destruct (allocate_run _ _ _ _ _ _ Hinv Ho Hrun) as [[-> ->]|[[fr ->] Hpost]]; [by exists L|].
  intros x Hsa. destruct Hpost as (y & L1 & Hsa' & _ & HA & Hfr & Hinv1 & Hff & (Ht1 & _) & _).
  assert (x = y) as -> by lia. exists L1. split_and!; [done| |congruence]. intros f.
  rewrite (HU f), Hff, used_frame_insert by done. specialize (Hfr f). unfold covers in *.
  destruct (decide (y <= f < y + 2 ^ order)); tauto.
Qed.

Lemma deallocate_preserves U total A w fr x order w' :
  client_inv U total A w -> A !! x = Some order ->
  start_address fr = base_phys (self w) + x * 4096 ->
  deallocate_frame_order fr order w = Ret (tt, w') -> client_inv U total (delete x A) w'.
Proof.
  intros (L & Hinv & HU & Ht) Hx Hsa Hrun.
  destruct (wp_elim _ _ _ (deallocate_frame_order_wp A L w fr x order Hinv Hx Hsa))
    as ([] & w1 & Hr & L1 & Hinv1 & Hff & (Ht1 & _) & _). rewrite Hrun in Hr. injection Hr as <-.
  exists L1. split_and!; [done| |congruence]. intros f. rewrite (HU f), Hff.
  rewrite <- (insert_delete_id A x order Hx) at 1.
  rewrite used_frame_insert by apply lookup_delete_eq. tauto.
Qed.

Lemma client_write_preserves U total A w m :
  client_inv U total A w ->
  (forall a, (forall f, used_frame A f -> a < ptr_of (self w) f \/ ptr_of (self w) f + 4096 <= a) ->
     m !! a = mem w !! a) ->
  client_inv U total A (set_mem m w).
Proof.
  intros (L & (Hc & HB & Hcnt & Hmon) & HU & Ht) Hm. exists L. split; [|done].
  split_and!; try done. pose proof Hc as [Hlen Hh Hbm Had Hbk Hus Hnd Hff Hfa Haa Hmx Hlk]. split; try done. intros o l Hl.
  eapply seg_ext; [|by apply (Hlk o l Hl)]. intros y Hy.
  assert (Hpage : forall a, ptr_of (self w) y <= a < ptr_of (self w) y + 4096 -> m !! a = mem w !! a).
  { intros a Ha. apply Hm. intros f Hf. destruct (decide (f = y)) as [->|Hne]; [|unfold ptr_of in *; lia].
    exfalso. eapply Hfa; [|done]. exists y, (Z.of_nat o).
    assert (Hb : blk L y (Z.of_nat o)) by by eapply core_lookup_blk.
    split; [done|]. pose proof (pow2_pos (Z.of_nat o) ltac:(lia)). unfold covers. lia. }
  split; unfold nxt, prv; apply load_ext; intros a Ha; apply Hpage; lia.
Qed.

Lemma bstep_preserves U total A w A' w' :
  bstep (A, w) (A', w') -> client_inv U total A w -> client_inv U total A' w'.
Proof.
  intros Hst Hinv. inversion Hst as [? ? order fr ? x Ho Hrun Hsa|? ? order ? Ho Hrun
    |? ? fr x order ? Hx Hsa Hrun|? ? m Hm]; subst.
  - exact (allocate_preserves _ _ _ _ _ _ _ Hinv Ho Hrun x Hsa).
  - exact (allocate_preserves _ _ _ _ _ _ _ Hinv Ho Hrun).
  - by eapply deallocate_preserves.
  - by apply client_write_preserves.
Qed.

Lemma bsteps_preserve U total s s' :
  rtc bstep s s' -> client_inv U total s.1 s.2 -> client_inv U total s'.1 s'.2.
Proof.
  induction 1 as [|[A w] [A' w'] s3 Hst _ IH]; [done|]. intros Hi.
  by apply IH, (bstep_preserves _ _ _ _ _ _ Hst).
Qed.

(** C1: on a memory map whose usable regions are page-aligned, below [2^52] and neither
    overlap nor touch, with the metric of allocated frames at zero: in every state a
    well-behaved client can reach from [new], the blocks held are aligned, inside the
    usable memory and pairwise disjoint; no usable frame has been lost; and the next
    allocation, or the next release of a block held, returns without panicking and
    without undefined behaviour. *)
Theorem buddy_client_safety regions offset w w0 A w' :
  map_ok regions offset -> allocated_frames (mon w) = 0 -> new regions offset w = Ret (tt, w0) ->
  rtc bstep (∅, w0) (A, w') ->
  let '(base, total) := total_of regions in
  let U := usable_frame base total (usable_regions regions) in
  (forall x o, A !! x = Some o -> block_ok total x o /\ forall f, covers x o f -> U f) /\
  disjoint_blocks A /\
  (exists L, buddy_inv A L w' /\ conserves U L A) /\
  (forall order, 0 <= order -> exists r w2, allocate_frame_order order w' = Ret (r, w2)) /\
  (forall fr x order, A !! x = Some order -> start_address fr = base_phys (self w') + x * 4096 ->
     exists w2, deallocate_frame_order fr order w' = Ret (tt, w2)).
Proof.
  intros Hmap Hmon Hnew Hreach. pose proof (new_wp regions offset w Hmap Hmon) as H0.
  destruct (total_of regions) as [base total]. cbn zeta.
  set (U := usable_frame base total (usable_regions regions)).
  apply wp_elim in H0 as ([] & w1 & Hrun & L0 & Hinv0 & _ & Ht & _ & _ & Hff0 & _).
  rewrite Hnew in Hrun. injection Hrun as <-.
  destruct (bsteps_preserve U total _ _ Hreach) as (L & Hinv & HU & Htot); simpl in *.
  { exists L0. split_and!; [done| |done]. intros f. unfold U. rewrite <- (Hff0 f).
    split; [by left|]. intros [?|(? & ? & He & _)]; [done|]. by rewrite lookup_empty in He. }
  pose proof (proj1 Hinv) as Hc. split_and!.
  - intros x o Hx. split; [rewrite <- Htot; by apply (c_used _ _ _ Hc)|].
    intros f Hcv. apply HU. right. by exists x, o.
  - exact (c_aa _ _ _ Hc).
  - by exists L.
  - intros order Ho. destruct (Z.ltb_spec MAX_ORDER order) as [Hgt|Hle].
    + exists None, w'. unfold allocate_frame_order. by rewrite (proj2 (Z.ltb_lt _ _)).
    + destruct (wp_elim _ _ _ (allocate_frame_order_wp A L w' order Hinv ltac:(done)))
        as (r & w2 & Hr & _). by exists r, w2.
  - intros fr x order Hx Hs. destruct (wp_elim _ _ _ (deallocate_frame_order_wp A L w' fr x order Hinv Hx Hs))
      as ([] & w2 & Hr & _). by exists w2.
Qed.
End properties.

(** ** Witnesses *)

Lemma buddy_allocate_witness : exists L, buddy_inv ∅ L demo_world /\
  exists r w', allocate_frame_order 3 demo_world = Ret (r, w') /\ alloc_post ∅ L demo_world 3 r w'.
Proof.
  destruct demo_inv as [L HL]. exists L. split; [exact HL|].
  exact (buddy_allocate_exact ∅ L demo_world 3 HL ltac:(lia)).
Defined.

Definition demo_alloc3 : option Z * bworld :=
  match allocate_frame_order 3 demo_world with Ret rw => rw | Crash _ => (None, blank) end.

Lemma demo_alloc3_run : allocate_frame_order 3 demo_world = Ret (Some 1048576, demo_alloc3.2).
Proof. vm_compute. reflexivity. Qed.

Lemma demo_inv3 : exists L, buddy_inv (<[0 := 3]> ∅) L demo_alloc3.2 /\
  base_phys (self demo_alloc3.2) = 1048576.
Proof.
  destruct demo_inv as [L HL].
  destruct (allocate_run _ _ _ _ _ _ HL (proj1 (Z.leb_le 0 3) eq_refl) demo_alloc3_run)
    as [[[=] _]|[_ (x & L' & Hsa & _ & _ & _ & Hi & _)]].
  exists L'. assert (base_phys (self demo_world) = 1048576) as Hb by (vm_compute; reflexivity).
  rewrite Hb in Hsa. cbn [start_address addr_frames] in Hsa. assert (x = 0) as -> by lia.
  split; [exact Hi|]. vm_compute. reflexivity.
Qed.

Lemma buddy_deallocate_witness : exists L w',
  deallocate_frame_order (1048576 : PhysFrame) 3 demo_alloc3.2 = Ret (tt, w') /\
  dealloc_post (<[0 := 3]> ∅) L demo_alloc3.2 0 3 w'.
Proof.
  destruct demo_inv3 as (L & HL & Hb). exists L.
  apply (buddy_deallocate_exact (api := addr_frames) _ L demo_alloc3.2 1048576 0 3 HL).
  - apply lookup_insert_eq.
  - rewrite Hb. reflexivity.
Defined.

Lemma buddy_roundtrip_witness : exists w2 L L2,
  deallocate_frame_order (1048576 : PhysFrame) 3 demo_alloc3.2 = Ret (tt, w2) /\
  buddy_inv ∅ L2 w2 /\ forall x o, blk L2 x o <-> blk L x o.
Proof.
  destruct demo_inv as [L HL].
  destruct (buddy_alloc_dealloc_roundtrip (api := addr_frames) ∅ L demo_world 3 1048576 demo_alloc3.2 HL)
    as (w2 & L2 & H).
  - unfold MAX_ORDER. lia.
  - exact demo_alloc3_run.
  - exists w2, L, L2. exact H.
Defined.

Lemma buddy_client_witness : disjoint_blocks (<[0 := 3]> ∅).
Proof.
  pose proof (buddy_client_safety (api := addr_frames) demo_map 4398046511104 blank demo_world (<[0 := 3]> ∅) demo_alloc3.2
    demo_map_ok eq_refl) as H.
  destruct (total_of demo_map). apply H.
  - vm_compute. reflexivity.
  - eapply rtc_once. eapply (step_alloc (api := addr_frames) ∅ demo_world 3 1048576).
    + lia.
    + exact demo_alloc3_run.
    + vm_compute. reflexivity.
Defined.

(** ** What happens on adjacent usable regions *)

(** Three usable regions that touch: [4096, 8192), [8192, 12288), [12288, 20480). *)
Definition touching_map : list MemoryRegion :=
  [mkRegion 4096 8192 Usable; mkRegion 8192 12288 Usable; mkRegion 12288 20480 Usable].

Definition touching_run : M bworld (option PhysFrame * option PhysFrame) :=
  new touching_map 0;;
  a ← allocate_frame_order 1;
  (match a with Some f => deallocate_frame_order f 1 | None => mret tt end);;
  b ← allocate_frame_order 0;
  c ← allocate_frame_order 2;
  mret (b, c).

(** Why the regions of a well-formed map must not touch: [new] seeds the free lists
    region by region, so frames of touching regions are free without being merged. [deallocate_frame_order] decides to
    merge from the bitmap alone and then unlinks a block that is not on the list:
    allocating and freeing one block of order 1 is enough for the two following
    allocations to return the frame at 8192 and the four frames from 4096 on,
    which contain it. *)
Lemma buddy_touching_regions_double_allocation :
  exists w', touching_run blank = Ret ((Some 8192, Some 4096), w').
Proof. eexists. vm_compute. reflexivity. Qed.
