(* ===== verification/Queue.v ===== *)
(** * The bounded queue and the once cell

    [array_queue.rs] ([Module ArrayQueue]) and [once_cell.rs] ([Module OnceCell]).
    Both run their critical sections inside [without_interrupts] on a single core,
    so each operation is one atomic step. The queue is related to the list of its
    elements by [rep]; the indices run freely modulo [2^64], as in the code. *)

From S2P Require Import Prelude.

Module ArrayQueue.

(** A slot is [MaybeUninit<T>]: [None] until its first write. *)
Record ArrayQueue (T : Type) := mkQueue {
  head : Z;
  tail : Z;
  buffer : list (option T)
}.
Arguments mkQueue {T}.
Arguments head {T}.
Arguments tail {T}.
Arguments buffer {T}.

Inductive PopError := mkPopError.

Section ops.
Context {T : Type}.
Implicit Types (q : ArrayQueue T) (v : T) (l : list T).

Definition len q : Z := Z.of_nat (length (buffer q)).

Definition new (capacity : Z) : outcome (ArrayQueue T) :=
  if 0 <? capacity then Ret (mkQueue 0 0 (replicate (Z.to_nat capacity) None))
  else Crash (Panic "ArrayQueue capacity must be > 0").

(** [x % len]: division by zero panics. *)
Definition slot_index q (x : Z) : outcome Z :=
  if len q =? 0 then Crash (Panic "attempt to calculate the remainder with a divisor of zero")
  else Ret (x mod len q).

Definition push v : M (ArrayQueue T) (result unit T) :=
  q ← get;
  let next_tail := wrap 64 (tail q + 1) in
  if len q <? wrap 64 (next_tail - head q) then mret (Err v)
  else
    idx ← lift (slot_index q (tail q));
    buf ← lift (store_index (buffer q) idx (Some v));
    _ ← modify (fun q => mkQueue (head q) next_tail buf);
    mret (Ok tt).

Definition pop : M (ArrayQueue T) (result T PopError) :=
  q ← get;
  if head q =? tail q then mret (Err mkPopError)
  else
    idx ← lift (slot_index q (head q));
    slot ← lift (index (buffer q) idx);
    value ← lift (match slot with
                  | Some v => Ret v
                  | None => Crash (UB "assume_init_read of an uninitialised slot")
                  end);
    _ ← modify (fun q => mkQueue (wrap 64 (head q + 1)) (tail q) (buffer q));
    mret (Ok value).

Definition is_empty q : bool := head q =? tail q.

(** ** The list a queue stands for

    [h] and [h + length l] are the numbers of elements ever removed and ever
    added; the atomics hold them modulo [2^64]. *)

(** Slot numbers stay consistent across the wrap of the indices when the capacity
    divides [2^64], and otherwise as long as the indices have not wrapped. *)
Definition no_skew (cap t : Z) : Prop := (cap | 2 ^ 64) \/ t < 2 ^ 64.

Definition rep_at (h cap : Z) q l : Prop :=
  0 <= h /\ 0 < cap < 2 ^ 63 /\ len q = cap /\ Z.of_nat (length l) <= cap /\
  head q = wrap 64 h /\ tail q = wrap 64 (h + Z.of_nat (length l)) /\
  no_skew cap (h + Z.of_nat (length l)) /\
  forall i v, l !! i = Some v ->
    buffer q !! Z.to_nat ((h + Z.of_nat i) mod cap) = Some (Some v).

Lemma wrap_mod_cap cap x t :
  0 < cap -> 0 <= x <= t -> no_skew cap t -> wrap 64 x mod cap = x mod cap.
Proof.
  intros Hc Hx [Hd|Ht]; unfold wrap.
  - by apply Z.mod_mod_divide.
  - by rewrite (Z.mod_small x (2 ^ 64)) by lia.
Qed.

(** Distinct live slots are distinct cells. *)
Lemma slots_differ cap x y : 0 < cap -> x < y < x + cap -> x mod cap <> y mod cap.
Proof.
  intros Hc Hy He.
  assert ((y - x) mod cap = 0) as H0.
  { rewrite Zminus_mod, He, Z.sub_diag. apply Zmod_0_l. }
  rewrite Z.mod_small in H0 by lia. lia.
Qed.

Lemma wrap_sub cap h n : 0 <= n <= cap + 1 -> 0 < cap < 2 ^ 63 ->
  wrap 64 (wrap 64 (wrap 64 (h + n) + 1) - wrap 64 h) = n + 1.
Proof.
  intros Hn Hc. unfold wrap. rewrite Zplus_mod_idemp_l, <- Zminus_mod.
  replace (h + n + 1 - h) with (n + 1) by lia. apply Z.mod_small. lia.
Qed.

Lemma new_rep cap : 0 < cap < 2 ^ 63 -> exists q, new cap = Ret q /\ rep_at 0 cap q [].
Proof.
  intros Hc. unfold new. rewrite (proj2 (Z.ltb_lt _ _)) by lia. eexists. split; [done|].
  unfold rep_at, len. simpl. rewrite length_replicate.
  split_and!; try lia; try done. right. lia.
Qed.

Lemma slot_index_ok q cap x : len q = cap -> 0 < cap ->
  slot_index q x = Ret (x mod cap).
Proof. intros <- Hc. unfold slot_index. by rewrite (proj2 (Z.eqb_neq _ _)) by lia. Qed.

Lemma push_ok h cap q l v :
  rep_at h cap q l -> Z.of_nat (length l) < cap -> no_skew cap (h + Z.of_nat (length l) + 1) ->
  exists q', push v q = Ret (Ok tt, q') /\ rep_at h cap q' (l ++ [v]).
Proof.
  intros (Hh & Hcap & Hlen & Hle & Hhd & Htl & Hsk & Hbuf) Hroom Hsk'.
  set (t := h + Z.of_nat (length l)) in *.
  assert (Hidx : tail q mod cap = t mod cap) by (rewrite Htl; apply (wrap_mod_cap cap t t); lia || done).
  pose proof (Z.mod_pos_bound t cap ltac:(lia)) as Hb.
  eexists. split.
  - unfold push, mbind, M_bind, get, lift, mret, M_ret, modify. cbv beta iota zeta.
    rewrite Htl, Hhd. unfold t. rewrite (wrap_sub cap) by lia. fold t.
    rewrite Hlen, (proj2 (Z.ltb_ge _ _)) by lia.
    rewrite (slot_index_ok q cap _ Hlen) by lia. rewrite <- Htl, Hidx.
    unfold store_index. rewrite (proj2 (Z.leb_le _ _)), (proj2 (Z.ltb_lt _ _)) by (fold (len q); lia).
    reflexivity.
  - unfold rep_at, len. cbn [head tail buffer]. rewrite length_insert, length_app. fold (len q).
    rewrite Nat2Z.inj_add. simpl Z.of_nat. fold t.
    split_and!; try done; try lia.
    + rewrite Htl. unfold wrap. rewrite Zplus_mod_idemp_l. f_equal. lia.
    + by rewrite Z.add_assoc.
    + intros i u Hi. apply lookup_app_Some in Hi as [Hi|[Hi Hu]].
      * rewrite list_lookup_insert_ne; [by apply Hbuf|].
        apply lookup_lt_Some in Hi. pose proof (Z.mod_pos_bound (h + Z.of_nat i) cap ltac:(lia)).
        pose proof (slots_differ cap (h + Z.of_nat i) t ltac:(lia) ltac:(lia)). lia.
      * destruct (i - length l)%nat eqn:E; [|done]. injection Hu as <-.
        replace (h + Z.of_nat i) with t by lia. apply list_lookup_insert_eq. unfold len in *. lia.
Qed.

Lemma push_full h cap q l v :
  rep_at h cap q l -> Z.of_nat (length l) = cap -> push v q = Ret (Err v, q).
Proof.
  intros (Hh & Hcap & Hlen & Hle & Hhd & Htl & _) Hfull.
  unfold push, mbind, M_bind, get, mret, M_ret. cbv beta iota zeta.
  rewrite Htl, Hhd, (wrap_sub cap) by lia. by rewrite Hlen, (proj2 (Z.ltb_lt _ _)) by lia.
Qed.

Lemma pop_ok h cap q v l :
  rep_at h cap q (v :: l) ->
  exists q', pop q = Ret (Ok v, q') /\ rep_at (h + 1) cap q' l.
Proof.
  intros (Hh & Hcap & Hlen & Hle & Hhd & Htl & Hsk & Hbuf). cbn [length] in *.
  rewrite Nat2Z.inj_succ in *.
  assert (Hidx : head q mod cap = h mod cap).
  { rewrite Hhd. apply (wrap_mod_cap cap h (h + Z.succ (Z.of_nat (length l)))); lia || done. }
  pose proof (Z.mod_pos_bound h cap ltac:(lia)) as Hb.
  assert (Hne : head q <> tail q).
  { rewrite Hhd, Htl. unfold wrap.
    apply (slots_differ (2 ^ 64)); lia. }
  eexists. split.
  - unfold pop, mbind, M_bind, get, lift, mret, M_ret, modify. cbv beta iota zeta.
    rewrite (proj2 (Z.eqb_neq _ _) Hne), (slot_index_ok q cap _ Hlen) by lia.
    rewrite Hidx. unfold index. rewrite (proj2 (Z.ltb_ge _ _)) by lia.
    pose proof (Hbuf 0%nat v eq_refl) as H0. rewrite Z.add_0_r in H0. rewrite H0. reflexivity.
  - unfold rep_at, len. cbn [head tail buffer]. fold (len q).
    replace (h + 1 + Z.of_nat (length l)) with (h + Z.succ (Z.of_nat (length l))) by lia.
    split_and!; try done; try lia.
    + rewrite Hhd. unfold wrap. by rewrite Zplus_mod_idemp_l.
    + intros i u Hi. rewrite <- (Hbuf (S i) u Hi). f_equal. f_equal. f_equal. lia.
Qed.

Lemma pop_empty h cap q : rep_at h cap q [] -> pop q = Ret (Err mkPopError, q).
Proof.
  intros (Hh & Hcap & Hlen & Hle & Hhd & Htl & _). cbn [length Z.of_nat] in *. rewrite Z.add_0_r in Htl.
  unfold pop, mbind, M_bind, get, mret, M_ret. cbv beta iota.
  by rewrite Hhd, Htl, Z.eqb_refl.
Qed.

Lemma is_empty_rep h cap q l : rep_at h cap q l -> is_empty q = true <-> l = [].
Proof.
  intros (Hh & Hcap & Hlen & Hle & Hhd & Htl & _). unfold is_empty. rewrite Z.eqb_eq, Hhd, Htl.
  destruct l as [|v l]; cbn [length]; [by rewrite Z.add_0_r|].
  rewrite Nat2Z.inj_succ. split; [|done]. intros He. cbn [length] in Hle.
  exfalso. apply (slots_differ (2 ^ 64) h (h + Z.succ (Z.of_nat (length l)))); [lia|lia|done].
Qed.
End ops.

(** ** The promise: a FIFO of bounded capacity *)

(** One call of the queue's interface, with its result. *)
Inductive qcall (T : Type) :=
  | CPush (v : T) (r : result unit T)
  | CPop (r : result T PopError)
  | CIsEmpty (b : bool).
Arguments CPush {T}.
Arguments CPop {T}.
Arguments CIsEmpty {T}.

Inductive qstep {T} : ArrayQueue T -> qcall T -> ArrayQueue T -> Prop :=
  | qs_push v r q q' : push v q = Ret (r, q') -> qstep q (CPush v r) q'
  | qs_pop r q q' : pop q = Ret (r, q') -> qstep q (CPop r) q'
  | qs_empty q : qstep q (CIsEmpty (is_empty q)) q.

(** The specification: a list, appended to at the back, removed at the front. *)
Inductive spec_step {T} (cap : Z) : list T -> qcall T -> list T -> Prop :=
  | ss_push v l : Z.of_nat (length l) < cap -> spec_step cap l (CPush v (Ok tt)) (l ++ [v])
  | ss_full v l : Z.of_nat (length l) = cap -> spec_step cap l (CPush v (Err v)) l
  | ss_pop v l : spec_step cap (v :: l) (CPop (Ok v)) l
  | ss_none : spec_step cap [] (CPop (Err mkPopError)) []
  | ss_empty l : spec_step cap l (CIsEmpty (bool_decide (length l = 0%nat))) l.

Inductive run {S L} (step : S -> L -> S -> Prop) : S -> list L -> S -> Prop :=
  | run_nil s : run step s [] s
  | run_cons s e s1 es s2 : step s e s1 -> run step s1 es s2 -> run step s (e :: es) s2.

Section refinement.
Context {T : Type}.
Implicit Types (q : ArrayQueue T) (l : list T).

Lemma push_total h cap q l v :
  rep_at h cap q l -> no_skew cap (h + Z.of_nat (length l) + 1) ->
  exists r q' l', push v q = Ret (r, q') /\ spec_step cap l (CPush v r) l' /\ rep_at h cap q' l'.
Proof.
  intros Hr Hsk. pose proof Hr as (_ & _ & _ & Hle & _).
  destruct (decide (Z.of_nat (length l) = cap)) as [Hf|Hn].
  - exists (Err v), q, l. split_and!; [by eapply push_full|by constructor|done].
  - destruct (push_ok h cap q l v Hr) as (q' & Hp & Hr'); [lia|done|].
    exists (Ok tt), q', (l ++ [v]). split_and!; [done|constructor; lia|done].
Qed.

Lemma pop_total h cap q l :
  rep_at h cap q l ->
  exists r q' h' l', pop q = Ret (r, q') /\ spec_step cap l (CPop r) l' /\ rep_at h' cap q' l' /\
    h' + Z.of_nat (length l') = h + Z.of_nat (length l).
Proof.
  intros Hr. destruct l as [|v l].
  - exists (Err mkPopError), q, h, []. split_and!; [by eapply pop_empty|constructor|done|done].
  - destruct (pop_ok h cap q v l Hr) as (q' & Hp & Hr').
    exists (Ok v), q', (h + 1), l. split_and!; [done|constructor|done|]. cbn [length]. lia.
Qed.

(** One call: the queue does what the list does, and at most one more element
    has ever been added. *)
Lemma qstep_sim h cap q l e q' :
  rep_at h cap q l -> no_skew cap (h + Z.of_nat (length l) + 1) -> qstep q e q' ->
  exists h' l', spec_step cap l e l' /\ rep_at h' cap q' l' /\
    h' + Z.of_nat (length l') <= h + Z.of_nat (length l) + 1.
Proof.
  intros Hr Hsk Hst. inversion Hst as [v r ? ? Hp|r ? ? Hp|?]; subst.
  - destruct (push_total h cap q l v Hr Hsk) as (r' & q1 & l' & Hp' & Hs & Hr').
    rewrite Hp in Hp'. injection Hp' as <- <-. exists h, l'. split_and!; [done..|].
    inversion Hs; subst; rewrite ?length_app; simpl; lia.
  - destruct (pop_total h cap q l Hr) as (r' & q1 & h' & l' & Hp' & Hs & Hr' & Hn).
    rewrite Hp in Hp'. injection Hp' as <- <-. exists h', l'. split_and!; [done..|lia].
  - exists h, l. split_and!; [|done|lia].
    replace (is_empty q') with (bool_decide (length l = 0%nat)); [constructor|].
    apply Is_true_eq_true || idtac. destruct (is_empty q') eqn:E.
    + apply (is_empty_rep h cap q' l Hr) in E as ->. done.
    + apply bool_decide_eq_false. intros E0%nil_length_inv.
      apply (is_empty_rep h cap q' l Hr) in E0. congruence.
Qed.

Lemma queue_run_sim cap q es q' :
  run qstep q es q' -> forall h l, rep_at h cap q l ->
  no_skew cap (h + Z.of_nat (length l) + Z.of_nat (length es)) ->
  exists h' l', run (spec_step cap) l es l' /\ rep_at h' cap q' l' /\
    h' + Z.of_nat (length l') <= h + Z.of_nat (length l) + Z.of_nat (length es).
Proof.
  assert (Hle : forall a b, a <= b -> no_skew cap b -> no_skew cap a).
  { intros a b ? [?|?]; [by left|right; lia]. }
  induction 1 as [q|q e q1 es q2 Hst _ IH]; intros h l Hr Hsk; cbn [length] in *.
  - exists h, l. split_and!; [constructor|done|lia].
  - destruct (qstep_sim h cap q l e q1 Hr) as (h1 & l1 & Hs1 & Hr1 & Hn1); [|done|].
    { eapply Hle; [|done]. lia. }
    destruct (IH h1 l1 Hr1) as (h2 & l2 & Hs2 & Hr2 & Hn2); [eapply Hle; [|done]; lia|].
    exists h2, l2. split_and!; [by econstructor|done|lia].
Qed.
End refinement.

(** C16: the ring buffer implements a FIFO of its capacity, which is below [2^63]. Any
    sequence of calls
    of [push], [pop] and [is_empty] on a queue made by [new] gives the results the
    list specification gives (in order, nothing lost or duplicated, [push] failing
    and handing the value back exactly when full, [pop] failing exactly when
    empty); and after it the next [push] and the next [pop] return: no index
    out of bounds, no read of an uninitialised slot. When the capacity divides [2^64]
    this is across the wrap-around of the indices; when it does not, for fewer than
    [2^64] calls. *)
Theorem queue_refines_fifo {T : Type} (cap : Z) (q : ArrayQueue T) :
  0 < cap < 2 ^ 63 -> new cap = Ret q ->
  forall es q', run qstep q es q' -> no_skew cap (Z.of_nat (length es) + 1) ->
  exists l, run (spec_step cap) [] es l /\ Z.of_nat (length l) <= cap /\
    (forall v, exists r q2 l2, push v q' = Ret (r, q2) /\ spec_step cap l (CPush v r) l2) /\
    (exists r q2 l2, pop q' = Ret (r, q2) /\ spec_step cap l (CPop r) l2).
Proof.
  intros Hc Hnew es q' Hrun Hsk. destruct (@new_rep T cap Hc) as (q0 & Hq0 & Hr0).
  rewrite Hnew in Hq0. injection Hq0 as <-.
  assert (Hle : forall a, a <= Z.of_nat (length es) + 1 -> no_skew cap a).
  { intros a ?. destruct Hsk; [by left|right; lia]. }
  destruct (queue_run_sim cap q es q' Hrun 0 [] Hr0) as (h & l & Hs & Hr & Hn); [apply Hle; simpl; lia|].
  cbn [length Z.of_nat] in Hn. exists l. split_and!; [done|apply Hr|..].
  - intros v. destruct (push_total h cap q' l v Hr) as (r & q2 & l2 & ? & ? & _); [apply Hle; lia|].
    by exists r, q2, l2.
  - destruct (pop_total h cap q' l Hr) as (r & q2 & h2 & l2 & ? & ? & _). by exists r, q2, l2.
Qed.

Lemma queue_refines_witness : exists l : list Z,
  run (spec_step 2) [] [CPush 7 (Ok tt); CPush 8 (Ok tt); CPush 9 (Err 9); CPop (Ok 7); CIsEmpty false] l /\
  Z.of_nat (length l) <= 2.
Proof.
  destruct (queue_refines_fifo 2 (mkQueue 0 0 [None; None] : ArrayQueue Z)
    ltac:(lia) eq_refl
    [CPush 7 (Ok tt); CPush 8 (Ok tt); CPush 9 (Err 9); CPop (Ok 7); CIsEmpty false]
    (mkQueue 1 2 [Some 7; Some 8])) as (l & H1 & H2 & _).
  - eapply run_cons; [eapply qs_push; vm_compute; reflexivity|]. eapply run_cons; [eapply qs_push; vm_compute; reflexivity|].
    eapply run_cons; [eapply qs_push; vm_compute; reflexivity|]. eapply run_cons; [eapply qs_pop; vm_compute; reflexivity|].
    eapply run_cons; [|apply run_nil]. apply (qs_empty (mkQueue 1 2 [Some 7; Some 8])).
  - left. exists (2 ^ 63). reflexivity.
  - exists l. split; assumption.
Defined.

(** With a capacity that does not divide [2^64], two elements pushed around the
    wrap of [tail] land in the same slot: the first one is lost. *)
Theorem queue_index_wrap_loses_element :
  exists q1 q2, push 7 (mkQueue u64_max u64_max [None; None; None]) = Ret (Ok tt, q1) /\
    push 8 q1 = Ret (Ok tt, q2) /\ fmap fst (pop q2) = Ret (Ok 8).
Proof. exists (mkQueue u64_max 0 [Some 7; None; None]), (mkQueue u64_max 1 [Some 8; None; None]). done. Qed.
End ArrayQueue.

(** ** [once_cell.rs] *)
Module OnceCell.

Record OnceCell (T : Type) := mkCell {
  initialized : bool;
  value : option T
}.
Arguments mkCell {T}.
Arguments initialized {T}.
Arguments value {T}.

Inductive TryGetError := Uninit.
Inductive TryInitError := AlreadyInit.

Section ops.
Context {T : Type}.

Definition uninit : OnceCell T := mkCell false None.

Definition try_get (c : OnceCell T) : outcome (result T TryGetError) :=
  if initialized c then
    match value c with
    | Some v => Ret (Ok v)
    | None => Crash (UB "reference to an uninitialised value")
    end
  else Ret (Err Uninit).

(** [f] is the initialiser; it runs only when the cell is empty. *)
Definition try_init_once (f : unit -> outcome T) : M (OnceCell T) (result unit TryInitError) :=
  c ← get;
  if initialized c then mret (Err AlreadyInit)
  else
    val ← lift (f tt);
    _ ← modify (fun _ => mkCell true (Some val));
    mret (Ok tt).

Definition cell_ok (c : OnceCell T) : Prop := initialized c = true -> is_Some (value c).
End ops.

(** Attempts to initialise, one after the other; the results are dropped. *)
Fixpoint init_all {T} (fs : list (unit -> outcome T)) : M (OnceCell T) unit :=
  match fs with
  | [] => mret tt
  | f :: fs' => _ ← try_init_once f; init_all fs'
  end.

(** a once cell is written at most once. Before any initialisation [try_get]
    reports [Uninit]; after one that succeeds, whatever further initialisers are
    offered, they are refused without being run (even ones that would panic) and
    [try_get] keeps returning the first value. *)
Theorem once_cell_first_value_stays {T} (f : unit -> outcome T) (v : T) fs :
  f tt = Ret v ->
  try_get (uninit : OnceCell T) = Ret (Err Uninit) /\
  exists c, init_all (f :: fs) uninit = Ret (tt, c) /\ try_get c = Ret (Ok v).
Proof.
  intros Hf. split; [done|]. exists (mkCell true (Some v)). split; [|done].
  cbn [init_all]. unfold try_init_once at 1, mbind, M_bind, get, lift, modify, mret, M_ret.
  cbn. rewrite Hf. cbn. induction fs as [|g fs IH]; [done|]. exact IH.
Qed.

Lemma once_cell_witness : exists c : OnceCell Z,
  init_all [(fun _ => Ret 5); (fun _ => Ret 6); (fun _ => Crash (Panic "boom"))] uninit = Ret (tt, c) /\
  try_get c = Ret (Ok 5).
Proof.
  apply (once_cell_first_value_stays (fun _ => Ret 5) 5 [(fun _ => Ret 6); (fun _ => Crash (Panic "boom"))]).
  reflexivity.
Defined.
End OnceCell.
