(* ===== verification/Trace.v ===== *)
(** * Metrics and the execution trace

    The properties of the counters of [monitor.rs] (modelled in [Monitor]) and the
    ring buffer of [trace.rs]. Each trace operation runs inside
    [without_interrupts], so it is one atomic step. The time stamp counter is
    hardware: its reading is an argument of [record]. *)

From S2P Require Import Prelude Monitor.

(** Over a history of heap events in which nothing is freed that is not live,
    [inc_alloc] never panics, [current_allocated] is the number of bytes live,
    [peak_allocated] the largest number ever live, and the two event counters
    count the calls (modulo [2^64]). *)
Theorem monitor_heap_accounting es :
  history_ok es ->
  exists m, heap_run es MonitorData_new = Ret m /\
    current_allocated m = live_of es /\ peak_allocated m = peak_of es /\
    wrap 64 (alloc_count m) = wrap 64 (allocs_of es) /\
    wrap 64 (free_count m) = wrap 64 (Z.of_nat (length es) - allocs_of es).
Proof.
  intros [Hok Hin]. destruct (heap_run_spec es MonitorData_new Hok Hin) as (m & Hr & Hc & Hp & Ha & Hf).
  { simpl. lia. }
  exists m. split_and!; [done|done| |done|done]. rewrite Hp. unfold peak_of. simpl.
  enough (0 <= foldr Z.max 0 (lives 0 es)) by lia. clear. induction (lives 0 es); simpl; lia.
Qed.

Lemma monitor_heap_witness : exists m,
  heap_run [HAlloc 64; HAlloc 16; HFree 64; HAlloc 8] MonitorData_new = Ret m /\
  current_allocated m = 24 /\ peak_allocated m = 80.
Proof.
  destruct (monitor_heap_accounting [HAlloc 64; HAlloc 16; HFree 64; HAlloc 8]) as (m & H1 & H2 & H3 & _).
  - split; repeat constructor; simpl; lia || (vm_compute; intros; discriminate).
  - exists m. split; [exact H1|]. split; [exact H2|exact H3].
Defined.

Definition BUFFER_SIZE : Z := 4096.

Inductive TraceEventId := Alloc | Free | TaskSpawn | TaskComplete | Interrupt | PageFault.

(** [id as u16] *)
Definition event_code (id : TraceEventId) : Z :=
  match id with
  | Alloc => 1 | Free => 2 | TaskSpawn => 10 | TaskComplete => 11 | Interrupt => 20 | PageFault => 30
  end.

Record TraceEntry := mkEntry {
  timestamp : Z;
  event_id : Z;
  arg0 : Z;
  arg1 : Z
}.

Record TraceBuffer := mkTrace {
  entries : list TraceEntry;
  write_idx : Z;
  overflow_count : Z;
  initialized : Z
}.

(** [MaybeUninit::zeroed()] *)
Definition TRACE : TraceBuffer :=
  mkTrace (replicate (Z.to_nat BUFFER_SIZE) (mkEntry 0 0 0 0)) 0 0 0.

Definition init (t : TraceBuffer) : TraceBuffer :=
  mkTrace (entries t) (write_idx t) (overflow_count t) 1.

Definition is_init (t : TraceBuffer) : bool := negb (initialized t =? 0).

(** The two halves [rdtsc] leaves in [eax] and [edx]. *)
Definition read_tsc (low high : Z) : Z := Z.lor (Z.shiftl high 32) low.

Definition record (tsc : Z) (id : TraceEventId) (a0 a1 : Z) : M TraceBuffer unit :=
  t ← get;
  if negb (is_init t) then mret tt
  else
    let idx := write_idx t mod BUFFER_SIZE in
    let over := if idx =? 0 then fetch_add (overflow_count t) 1 else overflow_count t in
    buf ← lift (store_index (entries t) idx (mkEntry tsc (event_code id) a0 a1));
    modify (fun _ => mkTrace buf (fetch_add (write_idx t) 1) over (initialized t)).

Definition event_name (code : Z) : string :=
  if code =? 1 then "ALLOC" else if code =? 2 then "FREE"
  else if code =? 10 then "TASK_SPAWN" else if code =? 11 then "TASK_COMPLETE"
  else if code =? 20 then "IRQ" else if code =? 30 then "PAGE_FAULT" else "UNKNOWN".

(** A line of the dump: time stamp, name, arguments. *)
Definition dump_line (e : TraceEntry) : Z * string * Z * Z :=
  (timestamp e, event_name (event_id e), arg0 e, arg1 e).

Fixpoint dump_from (t : TraceBuffer) (n : nat) (i : Z) : outcome (list (Z * string * Z * Z)) :=
  match n with
  | O => Ret []
  | S n' =>
      entry ← index (entries t) (i mod BUFFER_SIZE);
      rest ← dump_from t n' (i + 1);
      Ret (dump_line entry :: rest)
  end.

(** What [dump_last(n)] prints: the header's numbers and the lines. *)
Definition dump_last (t : TraceBuffer) (n : Z) : outcome (Z * Z * Z * list (Z * string * Z * Z)) :=
  let total := write_idx t in
  let start := saturating_sub total n in
  lines ← dump_from t (Z.to_nat (total - start)) start;
  Ret (total, overflow_count t, n, lines).

(** ** A history of events *)

Record event := mkEvent { ev_tsc : Z; ev_id : TraceEventId; ev_a0 : Z; ev_a1 : Z }.

Definition entry_of (e : event) : TraceEntry :=
  mkEntry (ev_tsc e) (event_code (ev_id e)) (ev_a0 e) (ev_a1 e).

Fixpoint record_all (es : list event) : M TraceBuffer unit :=
  match es with
  | [] => mret tt
  | e :: es' => _ ← record (ev_tsc e) (ev_id e) (ev_a0 e) (ev_a1 e); record_all es'
  end.

(** The buffer holds the last [BUFFER_SIZE] events of the history. *)
Definition trace_holds (es : list event) (t : TraceBuffer) : Prop :=
  initialized t = 1 /\ length (entries t) = Z.to_nat BUFFER_SIZE /\
  write_idx t = Z.of_nat (length es) /\
  overflow_count t = (Z.of_nat (length es) + 4095) / 4096 /\
  forall i e, es !! i = Some e -> Z.of_nat (length es) <= Z.of_nat i + BUFFER_SIZE ->
    entries t !! Z.to_nat (Z.of_nat i mod BUFFER_SIZE) = Some (entry_of e).

Lemma ceil_step n : 0 <= n ->
  (n + 1 + 4095) / 4096 = (n + 4095) / 4096 + (if n mod 4096 =? 0 then 1 else 0).
Proof.
  intros Hn. pose proof (Z.div_mod n 4096 ltac:(lia)) as Hd.
  pose proof (Z.mod_pos_bound n 4096 ltac:(lia)) as Hr.
  destruct (Z.eqb_spec (n mod 4096) 0) as [H0|H0].
  - rewrite Hd, H0.
    replace (4096 * (n / 4096) + 0 + 1 + 4095) with (0 + (n / 4096 + 1) * 4096) by lia.
    replace (4096 * (n / 4096) + 0 + 4095) with (4095 + n / 4096 * 4096) by lia.
    rewrite !Z.div_add, (Z.div_small 0), (Z.div_small 4095) by lia. lia.
  - rewrite Z.add_0_r, Hd. set (q := n / 4096) in *. set (r := n mod 4096) in *.
    replace (4096 * q + r + 1 + 4095) with (r + (q + 1) * 4096) by lia.
    replace (4096 * q + r + 4095) with (r - 1 + (q + 1) * 4096) by lia.
    rewrite !Z.div_add, !Z.div_small by lia. done.
Qed.

Lemma mod_window i n : 0 <= i < n -> n <= i + 4096 - 1 -> i mod 4096 <> n mod 4096.
Proof.
  intros Hi Hn He. assert ((n - i) mod 4096 = 0) as H0.
  { rewrite Zminus_mod, He, Z.sub_diag. done. }
  rewrite Z.mod_small in H0 by lia. lia.
Qed.

Lemma record_holds es t e :
  trace_holds es t -> Z.of_nat (length es) + 1 < 2 ^ 64 ->
  wp (record (ev_tsc e) (ev_id e) (ev_a0 e) (ev_a1 e)) (fun _ t' => trace_holds (es ++ [e]) t') t.
Proof.
  intros (Hi & Hl & Hw & Ho & He) Hlt. unfold record. wp_step. wp_step.
  unfold is_init. rewrite Hi. simpl negb. cbv iota.
  pose proof (Z.mod_pos_bound (write_idx t) BUFFER_SIZE ltac:(done)) as Hb.
  unfold BUFFER_SIZE in *. wp_step. wp_step.
  apply returns_store_index; [rewrite Hl; lia|]. wp_step.
  unfold trace_holds. cbn [initialized entries write_idx overflow_count].
  rewrite length_insert, length_app, Nat2Z.inj_add. change (Z.of_nat (length [e])) with 1.
  split_and!; try done.
  - unfold fetch_add, wrap. rewrite Hw. apply Z.mod_small. lia.
  - rewrite ceil_step, <- Ho, <- Hw by lia. destruct (write_idx t mod 4096 =? 0); [|lia].
    unfold fetch_add, wrap. apply Z.mod_small. rewrite Ho.
    pose proof (Z.div_pos (Z.of_nat (length es) + 4095) 4096 ltac:(lia) ltac:(lia)).
    pose proof (Z.div_lt_upper_bound (Z.of_nat (length es) + 4095) 4096 (2 ^ 60) ltac:(lia) ltac:(lia)). lia.
  - intros i u Hu Hr. unfold BUFFER_SIZE in *. apply lookup_app_Some in Hu as [Hu|[Hge Hu]].
    + pose proof (lookup_lt_Some _ _ _ Hu). rewrite list_lookup_insert_ne; [apply He; [done|lia]|].
      pose proof (Z.mod_pos_bound (Z.of_nat i) 4096 ltac:(lia)).
      pose proof (mod_window (Z.of_nat i) (Z.of_nat (length es)) ltac:(lia) ltac:(lia)).
      rewrite Hw in *. lia.
    + destruct (i - length es)%nat eqn:E; [|done]. injection Hu as <-.
      replace (Z.of_nat i) with (write_idx t) by lia. apply list_lookup_insert_eq. lia.
Qed.

Lemma record_all_holds es : forall es0 t,
  trace_holds es0 t -> Z.of_nat (length es0 + length es) < 2 ^ 64 ->
  wp (record_all es) (fun _ t' => trace_holds (es0 ++ es) t') t.
Proof.
  induction es as [|e es IH]; intros es0 t Ht Hlt; cbn [record_all length] in *.
  - apply wp_ret. by rewrite app_nil_r.
  - apply wp_bind. eapply wp_mono; [apply record_holds; [done|lia]|]. intros [] t' Ht'.
    replace (es0 ++ e :: es) with ((es0 ++ [e]) ++ es) by by rewrite <- app_assoc.
    apply IH; [done|]. rewrite length_app. simpl. lia.
Qed.

Lemma dump_from_holds es t : trace_holds es t -> forall n i,
  i + Z.of_nat n = Z.of_nat (length es) -> 0 <= i -> Z.of_nat n <= BUFFER_SIZE ->
  dump_from t n i = Ret (dump_line ∘ entry_of <$> drop (Z.to_nat i) es).
Proof.
  intros (_ & Hl & _ & _ & He). induction n as [|n IH]; intros i Hi H0 Hn; cbn [dump_from].
  - rewrite drop_ge by lia. done.
  - assert (is_Some (es !! Z.to_nat i)) as [e Hie] by (apply lookup_lt_is_Some; lia).
    pose proof (He _ _ Hie) as Hent. rewrite Z2Nat.id in Hent by lia.
    unfold index. pose proof (Z.mod_pos_bound i BUFFER_SIZE ltac:(done)).
    rewrite (proj2 (Z.ltb_ge _ _)) by lia. rewrite Hent by lia.
    rewrite (drop_S es e (Z.to_nat i) Hie). cbn [mbind outcome_bind].
    rewrite IH by lia. replace (Z.to_nat (i + 1)) with (S (Z.to_nat i)) by lia. done.
Qed.

Lemma init_holds : trace_holds [] (init TRACE).
Proof. split_and!; done. Qed.

(** C34: after [init] and any history of fewer than [2^64] events, recording never
    panics, and [dump_last(n)] with [n] up to the buffer size prints exactly the
    last [n] events (all of them if there are fewer), oldest first, with their
    names and arguments, under a header with the true total. The overflow figure
    it prints is the number of buffers started, the first one included. *)
Theorem trace_dumps_last_events es n :
  Z.of_nat (length es) < 2 ^ 64 -> 0 <= n <= BUFFER_SIZE ->
  exists t, record_all es (init TRACE) = Ret (tt, t) /\
    dump_last t n = Ret (Z.of_nat (length es), (Z.of_nat (length es) + 4095) / 4096, n,
      (fun e => (ev_tsc e, event_name (event_code (ev_id e)), ev_a0 e, ev_a1 e))
        <$> drop (length es - Z.to_nat n) es).
Proof.
  intros Hlt Hn.
  destruct (wp_elim _ _ _ (record_all_holds es [] (init TRACE) init_holds Hlt)) as ([] & t & Hr & Ht).
  exists t. split; [done|]. pose proof Ht as (_ & _ & Hw & Ho & _). simpl in *.
  unfold dump_last, saturating_sub. rewrite Hw, Ho.
  rewrite (dump_from_holds es t Ht) by lia. cbn. do 3 f_equal. f_equal. lia.
Qed.

Lemma trace_dumps_witness : exists t,
  record_all [mkEvent 10 Alloc 64 4096; mkEvent 11 Interrupt 32 0] (init TRACE) = Ret (tt, t) /\
  dump_last t 1 = Ret (2, 1, 1, [(11, "IRQ", 32, 0)])%string.
Proof.
  apply (trace_dumps_last_events [mkEvent 10 Alloc 64 4096; mkEvent 11 Interrupt 32 0] 1).
  - reflexivity.
  - vm_compute. split; discriminate.
Defined.

(** Before [init], recording does nothing. *)
Lemma record_before_init tsc id a0 a1 t : initialized t = 0 -> record tsc id a0 a1 t = Ret (tt, t).
Proof. intros H. unfold record, mbind, M_bind, get, is_init. by rewrite H. Qed.
