(* ===== verification/Tlsf.v ===== *)
(** * TLSF heap allocator: the model of [allocator/tlsf.rs]

    [TlsfAllocator] with its two levels of bitmaps and segregated lists, and the
    heap bytes its raw pointers reach. A block header is two [u32]: at its
    address the size of the previous physical block, four bytes further the
    block's size with two flag bits; a free block holds the links of its list in
    the sixteen bytes after the header. [align_up] is the one of [allocator.rs]. *)

From S2P Require Import Prelude Memory.
Local Open Scope rust_scope.

Definition HEADER_SIZE : Z := 8.
Definition MIN_BLOCK_SIZE : Z := 32.
Definition MIN_FL : Z := 5.
Definition FL_COUNT : Z := 19.
Definition SL_COUNT : Z := 32.
Definition FREE_FLAG : Z := 1.
Definition PREV_FREE_FLAG : Z := 2.

(** [!x] on a [u32]. *)
Definition not_u32 (x : Z) : Z := Z.lxor u32_max x.

(** ** [align_up] *)

Definition is_power_of_two (x : Z) : bool := (0 <? x) && (Z.land x (x - 1) =? 0).

Definition align_up (addr align : Z) : outcome Z :=
  if is_power_of_two align then
    s ← addr +? align;
    t ← s -? 1;
    Ret (Z.land t (Z.lxor u64_max (align - 1)))
  else Crash (Panic "align must be a power of two").

(** ** [BlockHeader]: the word [size_and_flags] *)

Definition size (saf : Z) : Z := Z.land saf (not_u32 3).
Definition is_free (saf : Z) : bool := negb (Z.land saf FREE_FLAG =? 0).
Definition prev_is_free (saf : Z) : bool := negb (Z.land saf PREV_FREE_FLAG =? 0).

Definition pack (size : Z) (free prev_free : bool) : Z :=
  Z.lor (Z.lor (wrap 32 size) (if free then FREE_FLAG else 0))
        (if prev_free then PREV_FREE_FLAG else 0).

Definition with_free (saf : Z) (free : bool) : Z :=
  if free then Z.lor saf FREE_FLAG else Z.land saf (not_u32 FREE_FLAG).
Definition with_prev_free (saf : Z) (prev_free : bool) : Z :=
  if prev_free then Z.lor saf PREV_FREE_FLAG else Z.land saf (not_u32 PREV_FREE_FLAG).

(** ** The allocator and the heap *)

(** A [NonNull] link is the address of a header. *)
Record TlsfAllocator := mkTlsf {
  heap_start : Z;
  heap_end : Z;
  fl_bitmap : Z;
  sl_bitmaps : list Z;
  free_lists : list (list (option Z))
}.

Record tworld := mkTworld {
  tself : TlsfAllocator;
  tmem : memory
}.

Definition new : TlsfAllocator :=
  mkTlsf 0 0 0 (replicate (Z.to_nat FL_COUNT) 0)
    (replicate (Z.to_nat FL_COUNT) (replicate (Z.to_nat SL_COUNT) None)).

Definition set_bounds (s e : Z) (t : TlsfAllocator) : TlsfAllocator :=
  mkTlsf s e (fl_bitmap t) (sl_bitmaps t) (free_lists t).
Definition set_fl (b : Z) (t : TlsfAllocator) : TlsfAllocator :=
  mkTlsf (heap_start t) (heap_end t) b (sl_bitmaps t) (free_lists t).
Definition set_sl (b : list Z) (t : TlsfAllocator) : TlsfAllocator :=
  mkTlsf (heap_start t) (heap_end t) (fl_bitmap t) b (free_lists t).
Definition set_lists (l : list (list (option Z))) (t : TlsfAllocator) : TlsfAllocator :=
  mkTlsf (heap_start t) (heap_end t) (fl_bitmap t) (sl_bitmaps t) l.

Definition upd_tself (f : TlsfAllocator -> TlsfAllocator) (w : tworld) : tworld :=
  mkTworld (f (tself w)) (tmem w).
Definition set_tmem (m : memory) (w : tworld) : tworld := mkTworld (tself w) m.

Definition load32 (p : Z) : M tworld Z := w ← get; lift (read_u32 (tmem w) p).
Definition store32 (p v : Z) : M tworld unit :=
  w ← get; m ← lift (write_u32 (tmem w) p v); modify (set_tmem m).

(** [Option<NonNull<BlockHeader>>] in memory: the null word is [None]. *)
Definition link_word (o : option Z) : Z := match o with Some x => x | None => 0 end.
Definition load_link (p : Z) : M tworld (option Z) :=
  w ← get;
  v ← lift (read_u64 (tmem w) p);
  mret (if v =? 0 then None else Some v).
Definition store_link (p : Z) (o : option Z) : M tworld unit :=
  w ← get; m ← lift (write_u64 (tmem w) p (link_word o)); modify (set_tmem m).

(** [NonNull::new_unchecked] *)
Definition non_null (p : Z) : outcome Z :=
  if p =? 0 then Crash (UB "NonNull::new_unchecked of null") else Ret p.

(** Header accesses through a [*mut BlockHeader]. *)
Definition read_saf (h : Z) : M tworld Z := load32 (h + 4).
Definition header_set (h sz : Z) (free prev_free : bool) : M tworld unit :=
  _ ← guard_or (sz <=? u32_max) (Panic "block size exceeds u32::MAX");
  store32 (h + 4) (pack sz free prev_free).
Definition header_mark_free (h : Z) (free : bool) : M tworld unit :=
  saf ← read_saf h; store32 (h + 4) (with_free saf free).
Definition header_mark_prev_free (h : Z) (prev_free : bool) : M tworld unit :=
  saf ← read_saf h; store32 (h + 4) (with_prev_free saf prev_free).

(** The [FreeNode] after the header: [prev] then [next]. *)
Definition node_prev (h : Z) : Z := h + 8.
Definition node_next (h : Z) : Z := h + 16.

(** ** Internal helpers *)

Definition leading_zeros (x : Z) : Z := if x =? 0 then 64 else 63 - Z.log2 x.

Definition mapping (size : Z) : outcome (Z * Z) :=
  d ← 64 -? leading_zeros size;
  fl ← d -? 1;
  top ← chk_shl1 64 fl;
  p ← Z.lxor size top *? SL_COUNT;
  let sl := Z.shiftr p fl in
  Ret (Z.min (saturating_sub fl MIN_FL) (FL_COUNT - 1), Z.min sl (SL_COUNT - 1)).

(** [u32::trailing_zeros] *)
Fixpoint tz_from (n : nat) (i w : Z) : Z :=
  match n with
  | O => i
  | S n' => if Z.testbit w i then i else tz_from n' (i + 1) w
  end.
Definition trailing_zeros (w : Z) : Z := tz_from 32 0 w.

Definition get_list (fli sl : Z) : M tworld (option Z) :=
  w ← get;
  row ← lift (index (free_lists (tself w)) fli);
  lift (index row sl).
Definition set_list (fli sl : Z) (o : option Z) : M tworld unit :=
  w ← get;
  row ← lift (index (free_lists (tself w)) fli);
  row' ← lift (store_index row sl o);
  ls ← lift (store_index (free_lists (tself w)) fli row');
  modify (upd_tself (set_lists ls)).

(** [self.sl_bitmaps[fli] op= ..] *)
Definition get_sl (fli : Z) : M tworld Z := w ← get; lift (index (sl_bitmaps (tself w)) fli).
Definition put_sl (fli v : Z) : M tworld unit :=
  w ← get;
  bs ← lift (store_index (sl_bitmaps (tself w)) fli v);
  modify (upd_tself (set_sl bs)).
Definition get_fl : M tworld Z := gets (fun w => fl_bitmap (tself w)).
Definition put_fl (v : Z) : M tworld unit := modify (upd_tself (set_fl v)).

Definition insert (block size : Z) : M tworld unit :=
  '(fli, sl) ← lift (mapping size);
  h ← get_list fli sl;
  _ ← (match h with
       | Some head =>
           _ ← store_link (node_prev block) None;
           _ ← store_link (node_next block) (Some head);
           store_link (node_prev head) (Some block)
       | None =>
           _ ← store_link (node_prev block) None;
           store_link (node_next block) None
       end);
  _ ← set_list fli sl (Some block);
  b ← get_sl fli;
  sbit ← lift (chk_shl1 32 sl);
  _ ← put_sl fli (Z.lor b sbit);
  fb ← get_fl;
  fbit ← lift (chk_shl1 32 fli);
  put_fl (Z.lor fb fbit).

Definition remove (block : Z) : M tworld unit :=
  saf ← read_saf block;
  '(fli, sl) ← lift (mapping (size saf));
  prev ← load_link (node_prev block);
  next ← load_link (node_next block);
  match prev, next with
  | None, None =>
      _ ← set_list fli sl None;
      b ← get_sl fli;
      sbit ← lift (chk_shl1 32 sl);
      let b' := Z.land b (not_u32 sbit) in
      _ ← put_sl fli b';
      if b' =? 0 then
        fb ← get_fl;
        fbit ← lift (chk_shl1 32 fli);
        put_fl (Z.land fb (not_u32 fbit))
      else mret tt
  | None, Some n =>
      _ ← set_list fli sl (Some n);
      store_link (node_prev n) None
  | Some p, None => store_link (node_next p) None
  | Some p, Some n =>
      _ ← store_link (node_next p) (Some n);
      store_link (node_prev n) (Some p)
  end.

Definition pop (fli sl : Z) : M tworld Z :=
  h ← get_list fli sl;
  block ← lift (expect h "pop from empty free list");
  _ ← remove block;
  mret block.

(** [!0u32 << n] *)
Definition mask_from (n : Z) : outcome Z :=
  if (0 <=? n) && (n <? 32) then Ret (Z.land (Z.shiftl u32_max n) u32_max)
  else Crash (Panic "attempt to shift left with overflow").

(** [for sl2 in start..SL_COUNT { .. return Some(self.pop(..)) .. }] *)
Fixpoint scan_buckets (n : nat) (fli needed sl2 : Z) : M tworld (option Z) :=
  match n with
  | O => mret None
  | S n' =>
      b ← get_sl fli;
      sbit ← lift (chk_shl1 32 sl2);
      if negb (Z.land b sbit =? 0) then
        h ← get_list fli sl2;
        match h with
        | Some blk =>
            saf ← read_saf blk;
            if needed <=? size saf then p ← pop fli sl2; mret (Some p)
            else scan_buckets n' fli needed (sl2 + 1)
        | None => scan_buckets n' fli needed (sl2 + 1)
        end
      else scan_buckets n' fli needed (sl2 + 1)
  end.

Definition find_block (fli sl needed : Z) : M tworld (option Z) :=
  b ← get_sl fli;
  m ← lift (mask_from sl);
  let sl_map := Z.land b m in
  found ← (if sl_map =? 0 then mret None
           else let start := trailing_zeros sl_map in
                scan_buckets (Z.to_nat (SL_COUNT - start)) fli needed start);
  match found with
  | Some p => mret (Some p)
  | None =>
      fb ← get_fl;
      fm ← lift (mask_from (fli + 1));
      let fl_map := Z.land fb fm in
      if fl_map =? 0 then mret None
      else
        let fl2 := trailing_zeros fl_map in
        b2 ← get_sl fl2;
        p ← pop fl2 (trailing_zeros b2);
        mret (Some p)
  end.

(** The end of a split and of [free]: tell the next physical block, then link. *)
Definition publish (a sz : Z) : M tworld unit :=
  next ← lift (a +? sz);
  _ ← store32 next (wrap 32 sz);
  _ ← header_mark_prev_free next true;
  h ← lift (non_null a);
  insert h sz.

(** [alloc_from]: the two ways of consuming the block. *)
Definition split_block (block total_consumed block_size : Z) : M tworld unit :=
  rem_addr ← lift (block +? total_consumed);
  rem_size ← lift (block_size -? total_consumed);
  saf1 ← read_saf block;
  _ ← header_set block total_consumed false (prev_is_free saf1);
  _ ← store32 rem_addr (wrap 32 total_consumed);
  _ ← header_set rem_addr rem_size true false;
  publish rem_addr rem_size.

Definition take_whole (block block_size : Z) : M tworld unit :=
  _ ← header_mark_free block false;
  next ← lift (block +? block_size);
  header_mark_prev_free next false.

(** A null pointer is the address 0. *)
Definition alloc_from (block user_size align : Z) : M tworld Z :=
  saf ← read_saf block;
  let block_size := size saf in
  user_start ← lift (block +? HEADER_SIZE);
  aligned_start ← lift (align_up user_start align);
  front_padding ← lift (aligned_start -? user_start);
  t1 ← lift (HEADER_SIZE +? front_padding);
  t2 ← lift (t1 +? user_size);
  t3 ← lift (align_up t2 8);
  let total_consumed := Z.max t3 MIN_BLOCK_SIZE in
  if block_size <? total_consumed then
    saf1 ← read_saf block;
    _ ← header_set block block_size true (prev_is_free saf1);
    _ ← insert block block_size;
    mret 0
  else
    lim ← lift (total_consumed +? MIN_BLOCK_SIZE);
    _ ← (if lim <=? block_size then split_block block total_consumed block_size
         else take_whole block block_size);
    mret aligned_start.

(** ** Public interface *)

Definition init (start heap_size : Z) : M tworld unit :=
  end_ ← lift (start +? heap_size);
  _ ← modify (upd_tself (set_bounds start end_));
  _ ← store32 start 0;
  _ ← header_set start heap_size true false;
  sentinel ← lift (start +? heap_size);
  _ ← store32 sentinel (wrap 32 heap_size);
  _ ← header_set sentinel 0 false true;
  node ← lift (non_null start);
  insert node heap_size.

Definition malloc (size align : Z) : M tworld Z :=
  let align := Z.max align HEADER_SIZE in
  let worst_padding := saturating_sub align HEADER_SIZE in
  t1 ← lift (HEADER_SIZE +? worst_padding);
  t2 ← lift (t1 +? size);
  t3 ← lift (align_up t2 8);
  let needed := Z.max t3 MIN_BLOCK_SIZE in
  '(fli0, sl) ← lift (mapping needed);
  let fli := Z.min fli0 (FL_COUNT - 1) in
  found ← find_block fli sl needed;
  match found with
  | Some b => alloc_from b size align
  | None => mret 0
  end.

(** [free]: the forward and the backward coalescing. *)
Definition coalesce_next (header sz next_ptr : Z) : M tworld Z :=
  np ← lift (non_null next_ptr);
  _ ← remove np;
  nsaf ← read_saf next_ptr;
  sz' ← lift (sz +? size nsaf);
  hsaf ← read_saf header;
  _ ← header_set header sz' true (prev_is_free hsaf);
  mret sz'.

Definition coalesce_prev (header sz : Z) : M tworld (Z * Z) :=
  prev_size ← load32 header;
  prev ← lift (header -? prev_size);
  pp ← lift (non_null prev);
  _ ← remove pp;
  sz' ← lift (sz +? prev_size);
  psaf ← read_saf prev;
  _ ← header_set prev sz' true (prev_is_free psaf);
  mret (prev, sz').

Definition free (ptr : Z) : M tworld unit :=
  if ptr =? 0 then mret tt
  else
    header ← lift (ptr -? HEADER_SIZE);
    saf ← read_saf header;
    let sz := size saf in
    _ ← header_mark_free header true;
    next_ptr ← lift (header +? sz);
    e ← gets (fun w => heap_end (tself w));
    nfree ← (if next_ptr <? e then nsaf ← read_saf next_ptr; mret (is_free nsaf) else mret false);
    sz ← (if (nfree : bool) then coalesce_next header sz next_ptr else mret sz);
    hsaf ← read_saf header;
    '(header, sz) ← (if prev_is_free hsaf then coalesce_prev header sz else mret (header, sz));
    publish header sz.
