(* ===== verification/TlsfInv.v ===== *)
(** * TLSF: header words, size classes and the segregated lists

    What the bit manipulation of [allocator/tlsf.rs] computes, the invariant of
    the segregated free lists, and the specifications of [insert], [remove] and
    [pop] against it. *)

From S2P Require Import Prelude Memory Dll Tlsf.
Local Open Scope rust_scope.

(** ** Header words *)

(** Sizes a header can hold with its two low bits left for the flags. *)
Definition size_ok (sz : Z) : Prop := 0 <= sz < 2 ^ 32 /\ (8 | sz).

Lemma size_ok_low sz i : size_ok sz -> 0 <= i < 3 -> Z.testbit sz i = false.
Proof.
  intros [_ [k ->]] Hi. change 8 with (2 ^ 3).
  rewrite Z.mul_pow2_bits_low by lia. done.
Qed.

Lemma size_ok_high sz i : size_ok sz -> 32 <= i -> Z.testbit sz i = false.
Proof.
  intros [Hs _] Hi. destruct (decide (sz = 0)) as [->|]; [apply Z.testbit_0_l|].
  apply Z.bits_above_log2; [lia|]. enough (Z.log2 sz < 32) by lia. apply Z.log2_lt_pow2; lia.
Qed.

Lemma pack_bits sz f p i : size_ok sz -> 0 <= i ->
  Z.testbit (pack sz f p) i = if i =? 0 then f else if i =? 1 then p else Z.testbit sz i.
Proof.
  intros Hs Hi. unfold pack, wrap. rewrite Z.mod_small by apply Hs. rewrite !Z.lor_spec.
  destruct (Z.eqb_spec i 0) as [->|H0]; [|destruct (Z.eqb_spec i 1) as [->|H1]].
  - rewrite size_ok_low by (done || lia). by destruct f, p.
  - rewrite size_ok_low by (done || lia). by destruct f, p.
  - replace (Z.testbit (if f then FREE_FLAG else 0) i) with false.
    2:{ destruct f; [|by rewrite Z.testbit_0_l]. symmetry. apply (Z.bits_above_log2 1); simpl; lia. }
    replace (Z.testbit (if p then PREV_FREE_FLAG else 0) i) with false.
    2:{ destruct p; [|by rewrite Z.testbit_0_l]. symmetry. apply (Z.bits_above_log2 2); simpl; lia. }
    by rewrite !orb_false_r.
Qed.

Lemma not_u32_bits x i : 0 <= i ->
  Z.testbit (not_u32 x) i = xorb (i <? 32) (Z.testbit x i).
Proof.
  intros Hi. unfold not_u32. rewrite Z.lxor_spec. change u32_max with (Z.ones 32).
  f_equal. apply Z.testbit_ones_nonneg; lia.
Qed.

Ltac bool_cases :=
  simpl; repeat match goal with
    | b : bool |- _ => destruct b
    | |- context [Z.testbit ?x ?i] => destruct (Z.testbit x i)
    end; done.

(** Equality of header words, bit by bit. *)
Ltac word_bits Hs :=
  apply Z.bits_inj'; intros i Hi;
  unfold size, with_free, with_prev_free, FREE_FLAG, PREV_FREE_FLAG;
  rewrite ?Z.land_spec, ?Z.lor_spec, ?not_u32_bits by done;
  rewrite ?(pack_bits _ _ _ _ Hs Hi);
  destruct (Z.eqb_spec i 0) as [->|?];
    [rewrite ?(size_ok_low _ 0 Hs) by lia
    |destruct (Z.eqb_spec i 1) as [->|?];
       [rewrite ?(size_ok_low _ 1 Hs) by lia
       |rewrite ?(Z.bits_above_log2 1 i), ?(Z.bits_above_log2 2 i), ?(Z.bits_above_log2 3 i)
          by (simpl; lia);
        destruct (Z.ltb_spec i 32); [|rewrite ?(size_ok_high _ i Hs) by done]]].

Lemma size_pack sz f p : size_ok sz -> size (pack sz f p) = sz.
Proof. intros Hs. word_bits Hs; bool_cases. Qed.

Lemma with_free_pack sz f p b : size_ok sz -> with_free (pack sz f p) b = pack sz b p.
Proof. intros Hs. destruct b; word_bits Hs; bool_cases. Qed.

Lemma with_prev_free_pack sz f p b : size_ok sz -> with_prev_free (pack sz f p) b = pack sz f b.
Proof. intros Hs. destruct b; word_bits Hs; bool_cases. Qed.

Lemma is_free_pack sz f p : size_ok sz -> is_free (pack sz f p) = f.
Proof.
  intros Hs. unfold is_free, FREE_FLAG. change 1 with (2 ^ 0) at 1.
  rewrite land_pow2_test, pack_bits by (done || lia). done.
Qed.

Lemma prev_is_free_pack sz f p : size_ok sz -> prev_is_free (pack sz f p) = p.
Proof.
  intros Hs. unfold prev_is_free, PREV_FREE_FLAG. change 2 with (2 ^ 1) at 1.
  rewrite land_pow2_test, pack_bits by (done || lia). done.
Qed.

Lemma pack_u32 sz f p : size_ok sz -> in_u32 (pack sz f p).
Proof.
  intros Hs. unfold in_u32. change u32_max with (2 ^ 32 - 1).
  enough (0 <= pack sz f p < 2 ^ 32) by lia. unfold pack, wrap. rewrite Z.mod_small by apply Hs.
  apply lor_lt_pow2; [apply lor_lt_pow2|..]; try lia; try exact (proj1 Hs); destruct f, p; unfold FREE_FLAG, PREV_FREE_FLAG; lia.
Qed.

(** ** [align_up] *)

Lemma power_of_two_pow k : 0 <= k -> is_power_of_two (2 ^ k) = true.
Proof.
  intros Hk. unfold is_power_of_two. pose proof (pow2_pos k Hk).
  rewrite (proj2 (Z.ltb_lt _ _)) by done. simpl. apply Z.eqb_eq.
  rewrite land_mask by done. apply Z.mod_same. lia.
Qed.

Lemma land_not_mask x k : in_u64 x -> 0 <= k <= 64 ->
  Z.land x (Z.lxor u64_max (2 ^ k - 1)) = x - x mod 2 ^ k.
Proof.
  intros Hx Hk. apply in_u64_pow in Hx. rewrite <- (land_mask x k) by lia.
  replace (2 ^ k - 1) with (Z.ones k) by (rewrite Z.ones_equiv; lia).
  rewrite Z.sub_nocarry_ldiff.
  - apply Z.bits_inj'. intros i Hi. change u64_max with (Z.ones 64).
    rewrite Z.ldiff_spec, !Z.land_spec, Z.lxor_spec, !Z.testbit_ones_nonneg by lia.
    destruct (Z.ltb_spec i 64).
    + destruct (Z.testbit x i), (i <? k); done.
    + replace (Z.testbit x i) with false; [done|]. symmetry.
      destruct (decide (x = 0)) as [->|]; [apply Z.testbit_0_l|].
      apply Z.bits_above_log2; [lia|]. apply Z.log2_lt_pow2; [lia|].
      pose proof (pow2_mono 64 i ltac:(lia)). lia.
  - apply Z.bits_inj'. intros i Hi. rewrite Z.ldiff_spec, Z.land_spec, Z.testbit_0_l.
    by destruct (Z.testbit x i), (Z.testbit (Z.ones k) i).
Qed.

(** The least multiple of [2^k] not below [addr]. *)
Lemma align_up_spec addr k : 0 <= addr -> 0 <= k < 64 -> addr + 2 ^ k <= u64_max ->
  exists r, align_up addr (2 ^ k) = Ret r /\ (2 ^ k | r) /\ addr <= r < addr + 2 ^ k.
Proof.
  intros Ha Hk Hb. unfold align_up. rewrite power_of_two_pow by lia.
  unfold chk_add, chk_sub. pose proof (pow2_pos k ltac:(lia)) as Hp.
  rewrite (proj2 (Z.leb_le _ _) Hb). cbn [mbind outcome_bind].
  rewrite (proj2 (Z.leb_le _ _)) by lia. cbn [mbind outcome_bind].
  eexists. split; [done|]. rewrite land_not_mask by (unfold in_u64; lia).
  set (t := addr + 2 ^ k - 1). pose proof (Z.div_mod t (2 ^ k) ltac:(lia)) as Hd.
  pose proof (Z.mod_pos_bound t (2 ^ k) Hp).
  split; [exists (t / 2 ^ k); lia|]. lia.
Qed.

Lemma align_up_id addr k : 0 <= addr -> 0 <= k < 64 -> addr + 2 ^ k <= u64_max -> (2 ^ k | addr) ->
  align_up addr (2 ^ k) = Ret addr.
Proof.
  intros Ha Hk Hb [q Hq]. destruct (align_up_spec addr k Ha Hk Hb) as (r & -> & [p Hp] & Hr).
  f_equal. pose proof (pow2_pos k ltac:(lia)). assert (p = q) by nia. congruence.
Qed.

(** ** Size classes *)

Definition fl_of (n : Z) : Z := Z.log2 n - 5.
Definition sl_of (n : Z) : Z := (n - 2 ^ Z.log2 n) * 32 / 2 ^ Z.log2 n.
Definition bucket (n : Z) : Z * Z := (fl_of n, sl_of n).

(** The sizes of the blocks of a heap below 16 MiB. *)
Definition class_ok (n : Z) : Prop := 32 <= n < 2 ^ 24.

Lemma lxor_top n : 0 < n -> Z.lxor n (2 ^ Z.log2 n) = n - 2 ^ Z.log2 n.
Proof.
  intros Hn. pose proof (Z.log2_spec n Hn) as [Hlo Hhi]. pose proof (Z.log2_nonneg n) as H0.
  rewrite Z.pow_succ_r in Hhi by done.
  set (k := Z.log2 n) in *. set (r := n - 2 ^ k).
  assert (Hland : Z.land r (2 ^ k) = 0).
  { apply Z.bits_inj'. intros i Hi. rewrite Z.land_spec, Z.pow2_bits_eqb, Z.testbit_0_l by done.
    destruct (Z.eqb_spec k i) as [<-|]; [|apply andb_false_r]. rewrite andb_true_r.
    destruct (decide (r = 0)) as [->|]; [apply Z.testbit_0_l|].
    apply Z.bits_above_log2; [lia|]. apply Z.log2_lt_pow2; lia. }
  replace n with (r + 2 ^ k) at 1 by lia.
  rewrite Z.add_nocarry_lxor by done.
  by rewrite Z.lxor_assoc, Z.lxor_nilpotent, Z.lxor_0_r.
Qed.

Lemma log2_bounds n k j : 0 <= k -> 2 ^ k <= n < 2 ^ j -> k <= Z.log2 n < j.
Proof.
  intros Hk [H1 H2]. pose proof (pow2_pos k Hk). split; [by apply Z.log2_le_pow2; lia|].
  apply Z.log2_lt_pow2; lia.
Qed.

Lemma sl_range n : 0 < n -> 0 <= sl_of n < 32.
Proof.
  intros Hn. pose proof (Z.log2_spec n Hn) as [Hlo Hhi]. pose proof (Z.log2_nonneg n).
  rewrite Z.pow_succ_r in Hhi by done. pose proof (pow2_pos (Z.log2 n) ltac:(done)). unfold sl_of.
  split; [apply Z.div_pos; lia|apply Z.div_lt_upper_bound; lia].
Qed.

Lemma mapping_spec n : 32 <= n < 2 ^ 59 -> mapping n = Ret (Z.min (fl_of n) 18, sl_of n).
Proof.
  intros Hn. pose proof (log2_bounds n 5 59 ltac:(lia) ltac:(simpl; lia)) as Hl.
  pose proof (Z.log2_spec n ltac:(lia)) as [Hlo Hhi]. rewrite Z.pow_succ_r in Hhi by lia.
  unfold mapping, leading_zeros. rewrite (proj2 (Z.eqb_neq n 0)) by lia.
  unfold chk_sub. rewrite (proj2 (Z.leb_le (63 - Z.log2 n) 64)) by lia. cbn [mbind outcome_bind].
  replace (64 - (63 - Z.log2 n)) with (Z.log2 n + 1) by lia.
  rewrite (proj2 (Z.leb_le 1 _)) by lia. cbn [mbind outcome_bind].
  replace (Z.log2 n + 1 - 1) with (Z.log2 n) by lia.
  unfold chk_shl1. rewrite (proj2 (Z.leb_le 0 _)), (proj2 (Z.ltb_lt _ 64)) by lia. simpl andb. cbv iota.
  cbn [mbind outcome_bind]. rewrite lxor_top by lia. unfold chk_mul, SL_COUNT.
  pose proof (pow2_mono (Z.log2 n) 58 ltac:(lia)).
  rewrite (proj2 (Z.leb_le _ u64_max)) by (unfold u64_max; lia). cbn [mbind outcome_bind].
  rewrite Z.shiftr_div_pow2 by lia. fold (sl_of n). pose proof (sl_range n ltac:(lia)).
  f_equal. f_equal; [|lia]. unfold saturating_sub, MIN_FL, FL_COUNT, fl_of. lia.
Qed.

Lemma class_fl n : class_ok n -> 0 <= fl_of n < 19 /\ 0 <= sl_of n < 32.
Proof.
  intros Hn. unfold class_ok in Hn. pose proof (log2_bounds n 5 24 ltac:(lia) ltac:(simpl; lia)).
  split; [unfold fl_of; lia|]. apply sl_range. lia.
Qed.

Lemma mapping_class n : class_ok n -> mapping n = Ret (bucket n).
Proof.
  intros Hn. rewrite mapping_spec by (unfold class_ok in Hn; lia).
  pose proof (class_fl n Hn). unfold bucket. by rewrite Z.min_l by lia.
Qed.

(** A block of a later class is larger. *)
Lemma later_fl_larger n k : 32 <= n -> 32 <= k -> fl_of n < fl_of k -> n < k.
Proof.
  unfold fl_of. intros Hn Hk H. pose proof (Z.log2_spec n ltac:(lia)) as [_ Hhi].
  pose proof (Z.log2_spec k ltac:(lia)) as [Hlo _].
  pose proof (pow2_mono (Z.succ (Z.log2 n)) (Z.log2 k) ltac:(pose proof (Z.log2_nonneg n); lia)). lia.
Qed.

Lemma later_sl_larger n k : 32 <= n -> 32 <= k -> fl_of n = fl_of k -> sl_of n < sl_of k -> n < k.
Proof.
  unfold fl_of, sl_of. intros Hn Hk Hfl. assert (Z.log2 n = Z.log2 k) as -> by lia. intros Hs.
  pose proof (pow2_pos (Z.log2 k) (Z.log2_nonneg k)).
  destruct (Z.lt_ge_cases n k) as [|Hge]; [done|].
  pose proof (Z.div_le_mono ((k - 2 ^ Z.log2 k) * 32) ((n - 2 ^ Z.log2 k) * 32) (2 ^ Z.log2 k)
    ltac:(lia) ltac:(lia)). lia.
Qed.

(** ** Bit search *)

Lemma tz_from_spec n : forall i w,
  i <= tz_from n i w <= i + Z.of_nat n /\
  (tz_from n i w < i + Z.of_nat n -> Z.testbit w (tz_from n i w) = true) /\
  (forall j, i <= j < tz_from n i w -> Z.testbit w j = false).
Proof.
  induction n as [|n IH]; intros i w; cbn [tz_from]; [split_and!; intros; lia|].
  destruct (Z.testbit w i) eqn:E; [split_and!; intros; lia || done|].
  destruct (IH (i + 1) w) as (H1 & H2 & H3). split_and!; [lia|lia|intros; apply H2; lia|].
  intros j Hj. destruct (decide (j = i)) as [->|]; [done|apply H3; lia].
Qed.

Lemma trailing_zeros_spec w : in_u32 w -> w <> 0 ->
  0 <= trailing_zeros w < 32 /\ Z.testbit w (trailing_zeros w) = true /\
  (forall j, 0 <= j < trailing_zeros w -> Z.testbit w j = false).
Proof.
  intros Hw Hn. destruct (tz_from_spec 32 0 w) as (H1 & H2 & H3). unfold trailing_zeros.
  change (0 + Z.of_nat 32) with 32 in *.
  destruct (Z.lt_ge_cases (tz_from 32 0 w) 32) as [Hlt|Hge]; [split_and!; auto; lia|].
  exfalso. apply Hn, Z.bits_inj'. intros i Hi. rewrite Z.testbit_0_l.
  destruct (Z.lt_ge_cases i 32); [apply H3; lia|].
  apply Z.bits_above_log2; [apply Hw|]. unfold in_u32, u32_max in Hw.
  assert (Z.log2 w < 32) by (apply Z.log2_lt_pow2; lia). lia.
Qed.

Lemma mask_from_spec n : 0 <= n < 32 -> exists m, mask_from n = Ret m /\ 0 <= m /\
  forall i, 0 <= i -> Z.testbit m i = (n <=? i) && (i <? 32).
Proof.
  intros Hn. unfold mask_from. rewrite (proj2 (Z.leb_le _ _)), (proj2 (Z.ltb_lt _ _)) by lia.
  eexists. split; [done|]. split; [apply Z.land_nonneg; right; done|].
  intros i Hi. change u32_max with (Z.ones 32).
  rewrite Z.land_spec, Z.shiftl_spec, (Z.testbit_ones_nonneg 32 i) by lia.
  destruct (Z.leb_spec n i).
  - rewrite Z.testbit_ones_nonneg by lia. destruct (Z.ltb_spec (i - n) 32), (Z.ltb_spec i 32); lia || done.
  - rewrite Z.testbit_neg_r by lia. done.
Qed.
