(* ===== verification/TlsfLists.v ===== *)
(** * TLSF: the segregated lists

    The invariant of the two bitmap levels and of the lists of free blocks, and
    the specifications of [insert], [remove] and [pop]. *)

From S2P Require Import Prelude Memory Dll Tlsf TlsfInv.
Local Open Scope rust_scope.

(** ** The tables: list heads and bitmaps *)

(** [H f l]: the head of list [(f, l)]. *)
Definition upd2 {A} (H : Z -> Z -> A) (f l : Z) (v : A) : Z -> Z -> A :=
  fun f' l' => if decide (f' = f /\ l' = l) then v else H f' l'.

Lemma upd2_eq {A} (H : Z -> Z -> A) f l v : upd2 H f l v f l = v.
Proof. unfold upd2. by rewrite decide_True. Qed.
Lemma upd2_ne {A} (H : Z -> Z -> A) f l v f' l' :
  ~ (f' = f /\ l' = l) -> upd2 H f l v f' l' = H f' l'.
Proof. intros. unfold upd2. by rewrite decide_False. Qed.

Definition in_range (f l : Z) : Prop := 0 <= f < 19 /\ 0 <= l < 32.

Record heads_ok (H : Z -> Z -> option Z) (t : TlsfAllocator) : Prop := {
  h_len : length (free_lists t) = 19%nat;
  h_row : forall f row, free_lists t !! f = Some row -> length row = 32%nat;
  h_at : forall f l, in_range f l ->
    exists row, free_lists t !! Z.to_nat f = Some row /\ row !! Z.to_nat l = Some (H f l)
}.

Record bits_ok (H : Z -> Z -> option Z) (t : TlsfAllocator) : Prop := {
  b_len : length (sl_bitmaps t) = 19%nat;
  b_sl : forall f, 0 <= f < 19 -> exists b, sl_bitmaps t !! Z.to_nat f = Some b /\ in_u32 b /\
    forall l, 0 <= l < 32 -> Z.testbit b l = true <-> H f l <> None;
  b_fl : in_u32 (fl_bitmap t);
  b_fl_bit : forall f, 0 <= f < 32 ->
    Z.testbit (fl_bitmap t) f = true <-> 0 <= f < 19 /\ exists l, 0 <= l < 32 /\ H f l <> None
}.

Definition same_bounds (t t' : TlsfAllocator) : Prop :=
  heap_start t' = heap_start t /\ heap_end t' = heap_end t.

Lemma get_list_wp H w f l (Q : option Z -> tworld -> Prop) :
  heads_ok H (tself w) -> in_range f l -> Q (H f l) w -> wp (get_list f l) Q w.
Proof.
  intros [Hn Hr Ha] Hfl HQ. destruct (Ha f l Hfl) as (row & Hrow & Hat).
  unfold get_list, in_range in *. wp_steps. eapply returns_index; [lia|done|].
  wp_steps. eapply returns_index; [lia|done|done].
Qed.

Lemma get_sl_wp H w f (Q : Z -> tworld -> Prop) :
  bits_ok H (tself w) -> 0 <= f < 19 ->
  (forall b, sl_bitmaps (tself w) !! Z.to_nat f = Some b -> in_u32 b ->
     (forall l, 0 <= l < 32 -> Z.testbit b l = true <-> H f l <> None) -> Q b w) ->
  wp (get_sl f) Q w.
Proof.
  intros [Hn Hs _ _] Hf HQ. destruct (Hs f Hf) as (b & Hb & Hu & Hbit).
  unfold get_sl. wp_steps. eapply returns_index; [lia|done|]. by apply HQ.
Qed.

Lemma put_sl_wp w f v (Q : unit -> tworld -> Prop) :
  length (sl_bitmaps (tself w)) = 19%nat -> 0 <= f < 19 ->
  Q tt (upd_tself (set_sl (<[Z.to_nat f := v]> (sl_bitmaps (tself w)))) w) -> wp (put_sl f v) Q w.
Proof.
  intros Hn Hf HQ. unfold put_sl. wp_steps. apply returns_store_index; [lia|]. by wp_steps.
Qed.

Lemma heads_ok_ext H H' t t' :
  heads_ok H t -> free_lists t' = free_lists t ->
  (forall f l, in_range f l -> H' f l = H f l) -> heads_ok H' t'.
Proof.
  intros [Hn Hr Ha] He Hh. split; rewrite He; try done.
  intros f l Hfl. rewrite Hh by done. by apply Ha.
Qed.

Lemma bits_ok_ext H H' t t' :
  bits_ok H t -> sl_bitmaps t' = sl_bitmaps t -> fl_bitmap t' = fl_bitmap t ->
  (forall f l, in_range f l -> H' f l <> None <-> H f l <> None) -> bits_ok H' t'.
Proof.
  intros [Hn Hs Hu Hb] He Hf Hh. split; rewrite ?He, ?Hf; try done.
  - intros f Hfr. destruct (Hs f Hfr) as (b & ? & ? & Hbit). exists b. split_and!; [done..|].
    intros l Hl. rewrite Hbit by done. symmetry. by apply Hh.
  - intros f Hfr. rewrite Hb by done. split; intros [? (l & ? & ?)]; (split; [done|]); exists l;
      (split; [done|]); by apply Hh.
Qed.

(** Replacing a head. *)
Lemma set_list_wp H w f l o (Q : unit -> tworld -> Prop) :
  heads_ok H (tself w) -> in_range f l ->
  (forall ls, heads_ok (upd2 H f l o) (set_lists ls (tself w)) -> Q tt (upd_tself (set_lists ls) w)) ->
  wp (set_list f l o) Q w.
Proof.
  intros [Hn Hr Ha] Hfl HQ. destruct (Ha f l Hfl) as (row & Hrow & Hat).
  pose proof (Hr _ _ Hrow) as Hrl. unfold in_range in *.
  unfold set_list. wp_step. wp_step. wp_step. wp_step. eapply returns_index; [lia|done|].
  wp_step. wp_step. apply returns_store_index; [lia|]. wp_step. wp_step.
  apply returns_store_index; [lia|]. wp_step. apply HQ. split; cbn [free_lists set_lists].
  - by rewrite length_insert.
  - intros f' row' Hrow'. destruct (decide (f' = Z.to_nat f)) as [->|Hne].
    + rewrite list_lookup_insert_eq in Hrow' by lia. injection Hrow' as <-. by rewrite length_insert.
    + rewrite list_lookup_insert_ne in Hrow' by done. by eapply Hr.
  - intros f' l' [Hf' Hl']. destruct (decide (f' = f)) as [->|Hne].
    + eexists. split; [by rewrite list_lookup_insert_eq by lia|].
      destruct (decide (l' = l)) as [->|Hnl].
      * rewrite upd2_eq, list_lookup_insert_eq by lia. done.
      * rewrite upd2_ne, list_lookup_insert_ne by (tauto || lia).
        destruct (Ha f l' ltac:(done)) as (row2 & Hrow2 & ?). congruence.
    + rewrite upd2_ne by tauto. destruct (Ha f' l' ltac:(done)) as (row2 & Hrow2 & ?).
      exists row2. split; [|done]. rewrite list_lookup_insert_ne by lia. done.
Qed.

Lemma in_u32_pow x : in_u32 x <-> 0 <= x < 2 ^ 32.
Proof. unfold in_u32. change u32_max with (2 ^ 32 - 1). lia. Qed.

Lemma lor_bit b k i : 0 <= k -> 0 <= i ->
  Z.testbit (Z.lor b (2 ^ k)) i = true <-> Z.testbit b i = true \/ i = k.
Proof.
  intros Hk Hi. rewrite Z.lor_spec, Z.pow2_bits_eqb, orb_true_iff, Z.eqb_eq by done. intuition congruence.
Qed.

Lemma clear_bit b k i : 0 <= k -> 0 <= i < 32 ->
  Z.testbit (Z.land b (not_u32 (2 ^ k))) i = true <-> Z.testbit b i = true /\ i <> k.
Proof.
  intros Hk Hi. rewrite Z.land_spec, not_u32_bits, Z.pow2_bits_eqb by lia.
  rewrite (proj2 (Z.ltb_lt i 32)) by lia. rewrite andb_true_iff.
  destruct (Z.eqb_spec k i); simpl; intuition congruence.
Qed.

Lemma lor_u32 b k : in_u32 b -> 0 <= k < 32 -> in_u32 (Z.lor b (2 ^ k)).
Proof.
  rewrite !in_u32_pow. intros. apply lor_lt_pow2; [done| |lia].
  pose proof (pow2_pos k ltac:(lia)). split; [lia|]. apply Z.pow_lt_mono_r; lia.
Qed.

Lemma clear_u32 b k : in_u32 b -> 0 <= k < 32 -> in_u32 (Z.land b (not_u32 (2 ^ k))).
Proof.
  rewrite !in_u32_pow. intros. apply land_lt_pow2; [done| |lia]. apply Z.lxor_nonneg.
  pose proof (pow2_pos k ltac:(lia)). unfold u32_max. lia.
Qed.

Lemma u32_zero b : in_u32 b -> b = 0 <-> forall l, 0 <= l < 32 -> Z.testbit b l = true -> False.
Proof.
  intros Hb. split; [intros -> l _; by rewrite Z.testbit_0_l|].
  intros Hz. destruct (decide (b = 0)) as [|Hne]; [done|].
  destruct (trailing_zeros_spec b Hb Hne) as (Hr & Ht & _). destruct (Hz _ Hr Ht).
Qed.

(** [sl_bitmaps[fli] |= 1 << sl; fl_bitmap |= 1 << fli] *)
Lemma mark_bucket_wp H w f l o (Q : unit -> tworld -> Prop) :
  bits_ok H (tself w) -> in_range f l -> o <> None ->
  (forall t, bits_ok (upd2 H f l o) t -> same_bounds (tself w) t ->
     free_lists t = free_lists (tself w) -> Q tt (mkTworld t (tmem w))) ->
  wp (b ← get_sl f; sbit ← lift (chk_shl1 32 l); _ ← put_sl f (Z.lor b sbit);
      fb ← get_fl; fbit ← lift (chk_shl1 32 f); put_fl (Z.lor fb fbit)) Q w.
Proof.
  intros Hb [Hf Hl] Ho HQ. pose proof Hb as [Hn Hs Hu Hbit].
  wp_step. eapply get_sl_wp; [done|done|]. intros b Hbs Hbu Hbb.
  wp_steps. apply put_sl_wp; [done|done|]. wp_steps. unfold get_fl. wp_steps. unfold put_fl. wp_steps.
  apply HQ; [|done|done]. split; cbn.
  - by rewrite length_insert.
  - intros f' Hf'. destruct (decide (f' = f)) as [->|Hne].
    + eexists. split; [by rewrite list_lookup_insert_eq by lia|]. split; [by apply lor_u32|].
      intros l' Hl'. rewrite lor_bit, Hbb by lia. destruct (decide (l' = l)) as [->|].
      * rewrite upd2_eq. tauto.
      * rewrite upd2_ne by tauto. tauto.
    + rewrite list_lookup_insert_ne by lia. destruct (Hs f' Hf') as (b' & ? & ? & Hb').
      exists b'. split_and!; [done..|]. intros l' Hl'. rewrite upd2_ne by tauto. by apply Hb'.
  - apply lor_u32; [done|lia].
  - intros f' Hf'. rewrite lor_bit, Hbit by lia. split.
    + intros [[Hr (l' & Hl' & Hh)]| ->].
      * split; [done|]. destruct (decide (f' = f /\ l' = l)) as [[-> ->]|Hne].
        -- exists l. by rewrite upd2_eq.
        -- exists l'. by rewrite upd2_ne.
      * split; [done|]. exists l. by rewrite upd2_eq.
    + intros [Hr (l' & Hl' & Hh)]. destruct (decide (f' = f)) as [->|Hne]; [by right|].
      rewrite upd2_ne in Hh by tauto. left. split; [done|]. by exists l'.
Qed.

(** Clearing the bits of a list that became empty. *)
Lemma unmark_bucket_wp H w f l (Q : unit -> tworld -> Prop) :
  bits_ok H (tself w) -> in_range f l ->
  (forall t, bits_ok (upd2 H f l None) t -> same_bounds (tself w) t ->
     free_lists t = free_lists (tself w) -> Q tt (mkTworld t (tmem w))) ->
  wp (b ← get_sl f; sbit ← lift (chk_shl1 32 l);
      let b' := Z.land b (not_u32 sbit) in
      _ ← put_sl f b';
      if b' =? 0 then fb ← get_fl; fbit ← lift (chk_shl1 32 f); put_fl (Z.land fb (not_u32 fbit))
      else mret tt) Q w.
Proof.
  intros Hb [Hf Hl] HQ. pose proof Hb as [Hn Hs Hu Hbit].
  wp_step. eapply get_sl_wp; [done|done|]. intros b Hbs Hbu Hbb.
  wp_steps. cbv zeta. wp_step. apply put_sl_wp; [done|done|].
  assert (Hsl : forall f', 0 <= f' < 19 -> exists c,
    <[Z.to_nat f := Z.land b (not_u32 (2 ^ l))]> (sl_bitmaps (tself w)) !! Z.to_nat f' = Some c /\
    in_u32 c /\ forall l', 0 <= l' < 32 -> Z.testbit c l' = true <-> upd2 H f l None f' l' <> None).
  { intros f' Hf'. destruct (decide (f' = f)) as [->|Hne].
    - eexists. split; [by rewrite list_lookup_insert_eq by lia|]. split; [by apply clear_u32|].
      intros l' Hl'. rewrite clear_bit, Hbb by lia. destruct (decide (l' = l)) as [->|].
      + rewrite upd2_eq. tauto.
      + rewrite upd2_ne by tauto. tauto.
    - rewrite list_lookup_insert_ne by lia. destruct (Hs f' Hf') as (b' & ? & ? & Hb').
      exists b'. split_and!; [done..|]. intros l' Hl'. rewrite upd2_ne by tauto. by apply Hb'. }
  destruct (Hsl f Hf) as (c & Hc & Hcu & Hcb). rewrite list_lookup_insert_eq in Hc by lia.
  injection Hc as <-. destruct (Z.eqb_spec (Z.land b (not_u32 (2 ^ l))) 0) as [Hz|Hnz].
  - wp_steps. unfold get_fl. wp_steps. unfold put_fl. wp_steps. apply HQ; [|done|done]. split; cbn.
    + by rewrite length_insert.
    + done.
    + apply clear_u32; [done|lia].
    + intros f' Hf'. rewrite clear_bit, Hbit by lia. split.
      * intros [[Hr (l' & Hl' & Hh)] Hne]. split; [done|]. exists l'. by rewrite upd2_ne by tauto.
      * intros [Hr (l' & Hl' & Hh)]. destruct (decide (f' = f)) as [->|Hne].
        -- exfalso. apply (proj1 (u32_zero _ Hcu) Hz l' Hl'). by apply Hcb.
        -- rewrite upd2_ne in Hh by tauto. split; [|done]. split; [done|]. by exists l'.
  - wp_steps. unfold upd_tself. apply HQ; [|done|done]. split; cbn; [by rewrite length_insert|done|done|].
    intros f' Hf'. rewrite Hbit by lia. split.
    + intros [Hr (l' & Hl' & Hh)]. split; [done|]. destruct (decide (f' = f)) as [->|Hne].
      * destruct (trailing_zeros_spec _ Hcu Hnz) as (Hr2 & Ht & _).
        eexists. split; [exact Hr2|]. by apply Hcb.
      * exists l'. by rewrite upd2_ne by tauto.
    + intros [Hr (l' & Hl' & Hh)]. split; [done|]. exists l'. split; [done|].
      revert Hh. unfold upd2. by destruct (decide _).
Qed.

(** ** Links *)

Definition nx (m : memory) (x : Z) : option Z := load 8 m (x + 16).
Definition pv (m : memory) (x : Z) : option Z := load 8 m (x + 8).

(** The words of two nodes do not overlap. *)
Definition apart24 (x y : Z) : Prop := y = x \/ y + 24 <= x \/ x + 24 <= y.

Lemma nx_store_next m x y v : apart24 x y -> in_u64 v ->
  nx (store 8 m (x + 16) v) y = if decide (y = x) then Some v else nx m y.
Proof.
  intros Ha Hv. unfold nx. destruct (decide _) as [->|]; [by apply load_u64_eq|].
  apply load_store_ne. unfold apart24 in Ha. lia.
Qed.
Lemma nx_store_prev m x y v : apart24 x y -> nx (store 8 m (x + 8) v) y = nx m y.
Proof. intros Ha. unfold nx. apply load_store_ne. unfold apart24 in Ha. lia. Qed.
Lemma pv_store_prev m x y v : apart24 x y -> in_u64 v ->
  pv (store 8 m (x + 8) v) y = if decide (y = x) then Some v else pv m y.
Proof.
  intros Ha Hv. unfold pv. destruct (decide _) as [->|]; [by apply load_u64_eq|].
  apply load_store_ne. unfold apart24 in Ha. lia.
Qed.
Lemma pv_store_next m x y v : apart24 x y -> pv (store 8 m (x + 16) v) y = pv m y.
Proof. intros Ha. unfold pv. apply load_store_ne. unfold apart24 in Ha. lia. Qed.

(** What [insert] and [remove] do to the heap. *)
Definition push_mem (m : memory) (x : Z) (h : option Z) : memory :=
  let m1 := store 8 (store 8 m (x + 8) 0) (x + 16) (link_word h) in
  match h with Some y => store 8 m1 (y + 8) x | None => m1 end.

Definition unlink_mem (m : memory) (p n : option Z) : memory :=
  let m1 := match p with Some y => store 8 m (y + 16) (link_word n) | None => m end in
  match n with Some y => store 8 m1 (y + 8) (link_word p) | None => m1 end.

Lemma push_mem_links m x h y :
  apart24 x y -> (forall k, h = Some k -> apart24 k y /\ in_u64 k /\ k <> x) -> in_u64 x ->
  nx (push_mem m x h) y = (if decide (y = x) then Some (link_word h) else nx m y) /\
  pv (push_mem m x h) y =
    (if decide (y = x) then Some 0 else if decide (h = Some y) then Some x else pv m y).
Proof.
  intros Hx Hh Hux. assert (in_u64 0) by (unfold in_u64, u64_max; lia). unfold push_mem.
  destruct h as [k|]; simpl link_word.
  - destruct (Hh k eq_refl) as (Hk & Huk & Hkx).
    rewrite nx_store_prev, nx_store_next, nx_store_prev by done.
    rewrite pv_store_prev, pv_store_next, pv_store_prev by done. split; [done|].
    destruct (decide (y = k)) as [->|Hne].
    + rewrite decide_False, decide_True by done. done.
    + rewrite (decide_False (P := Some k = Some y)) by congruence. done.
  - rewrite nx_store_next, nx_store_prev, pv_store_next, pv_store_prev by done. done.
Qed.

Lemma unlink_mem_links m p n y :
  (forall k, p = Some k -> apart24 k y /\ in_u64 k) ->
  (forall k, n = Some k -> apart24 k y /\ in_u64 k) ->
  nx (unlink_mem m p n) y = (if decide (p = Some y) then Some (link_word n) else nx m y) /\
  pv (unlink_mem m p n) y = (if decide (n = Some y) then Some (link_word p) else pv m y).
Proof.
  intros Hp Hn. assert (in_u64 0) by (unfold in_u64, u64_max; lia).
  assert (Hup : in_u64 (link_word p)) by (destruct p; [by apply (Hp z)|done]).
  assert (Hun : in_u64 (link_word n)) by (destruct n; [by apply (Hn z)|done]).
  assert (Hd : forall (k : Z) (A : Type) (a b : A),
    (if decide (y = k) then a else b) = if decide (Some k = Some y) then a else b).
  { intros k A a b. destruct (decide (y = k)) as [->|].
    - by rewrite decide_True.
    - rewrite decide_False; [done|congruence]. }
  unfold unlink_mem. destruct p as [k|], n as [j|].
  - destruct (Hp k eq_refl), (Hn j eq_refl).
    rewrite nx_store_prev, nx_store_next, pv_store_prev, pv_store_next, !Hd by done. done.
  - destruct (Hp k eq_refl). rewrite nx_store_next, pv_store_next, Hd by done. done.
  - destruct (Hn j eq_refl). rewrite nx_store_prev, pv_store_prev, Hd by done. done.
  - done.
Qed.

Lemma push_mem_out m x h a :
  (a < x + 8 \/ x + 24 <= a) -> (forall k, h = Some k -> a < k + 8 \/ k + 24 <= a) ->
  push_mem m x h !! a = m !! a.
Proof.
  intros Hx Hh. unfold push_mem. destruct h as [k|]; [specialize (Hh k eq_refl)|];
    rewrite !store_lookup_out by lia; done.
Qed.

Lemma unlink_mem_out m p n a :
  (forall k, p = Some k -> a < k + 8 \/ k + 24 <= a) ->
  (forall k, n = Some k -> a < k + 8 \/ k + 24 <= a) ->
  unlink_mem m p n !! a = m !! a.
Proof.
  intros Hp Hn. unfold unlink_mem. destruct p as [k|], n as [j|];
    try specialize (Hp _ eq_refl); try specialize (Hn _ eq_refl);
    rewrite ?store_lookup_out by lia; done.
Qed.

Lemma store_link_wp w p o (Q : unit -> tworld -> Prop) :
  (8 | p) -> Q tt (set_tmem (store 8 (tmem w) p (link_word o)) w) -> wp (store_link p o) Q w.
Proof.
  intros Hp HQ. unfold store_link. wp_steps. apply returns_write; [|by wp_steps].
  by apply Z.mod_divide.
Qed.

Lemma load_link_wp w p o (Q : option Z -> tworld -> Prop) :
  (8 | p) -> load 8 (tmem w) p = Some (link_word o) -> o <> Some 0 -> Q o w ->
  wp (load_link p) Q w.
Proof.
  intros Hp Hl Ho HQ. unfold load_link. wp_step. wp_step. wp_step. wp_step.
  eapply returns_read; [by apply Z.mod_divide|done|]. wp_step.
  destruct o as [x|]; simpl; [|done]. destruct (Z.eqb_spec x 0) as [->|]; done.
Qed.

(** ** The invariant of the lists

    [F] maps the address of each block on a list to its size, [L f l] is the list
    of class [(f, l)]. *)
Record lists_ok (F : gmap Z Z) (L : Z -> Z -> list Z) (w : tworld) : Prop := {
  l_node : forall x z, F !! x = Some z -> (8 | x) /\ 0 < x /\ x + z <= u64_max /\ class_ok z;
  l_sep : forall x z y u, F !! x = Some z -> F !! y = Some u -> x < y -> x + z <= y;
  l_mem : forall f l x, x ∈ L f l <-> exists z, F !! x = Some z /\ bucket z = (f, l);
  l_nodup : forall f l, NoDup (L f l);
  l_links : forall f l, dll link_word (nx (tmem w)) (pv (tmem w)) (L f l);
  l_heads : heads_ok (fun f l => head (L f l)) (tself w);
  l_bits : bits_ok (fun f l => head (L f l)) (tself w)
}.

(** Only link words of the blocks of [F] have changed. *)
Definition link_frame (F : gmap Z Z) (w w' : tworld) : Prop :=
  same_bounds (tself w) (tself w') /\
  forall a, (forall x, is_Some (F !! x) -> a < x + 8 \/ x + 24 <= a) -> tmem w' !! a = tmem w !! a.

Section lists_facts.
Context {F : gmap Z Z} {L : Z -> Z -> list Z} {w : tworld} (Hok : lists_ok F L w).

Lemma lists_in_F f l x : x ∈ L f l -> exists z, F !! x = Some z /\ bucket z = (f, l).
Proof. apply Hok. Qed.

Lemma lists_addr x z : F !! x = Some z -> in_u64 x /\ x <> 0 /\ (8 | x).
Proof.
  intros Hx. destruct (l_node _ _ _ Hok x z Hx) as (Hd & H0 & Hu & Hc).
  unfold class_ok in Hc. split_and!; [unfold in_u64; lia|lia|done].
Qed.

Lemma lists_apart x z y u : F !! x = Some z -> F !! y = Some u -> apart24 x y.
Proof.
  intros Hx Hy. pose proof (l_node _ _ _ Hok x z Hx) as (_ & _ & _ & Hcx).
  pose proof (l_node _ _ _ Hok y u Hy) as (_ & _ & _ & Hcy). unfold class_ok in *.
  destruct (Z.lt_trichotomy x y) as [Hlt|[->|Hgt]]; [|by left|].
  - pose proof (l_sep _ _ _ Hok x z y u Hx Hy Hlt). right. right. lia.
  - pose proof (l_sep _ _ _ Hok y u x z Hy Hx Hgt). right. left. lia.
Qed.

Lemma lists_bucket_range f l x : x ∈ L f l -> in_range f l.
Proof.
  intros Hx. destruct (lists_in_F f l x Hx) as (z & Hz & Hb).
  destruct (l_node _ _ _ Hok x z Hz) as (_ & _ & _ & Hc).
  pose proof (class_fl z Hc). injection Hb as <- <-. done.
Qed.

Lemma lists_same_bucket f l f' l' x : x ∈ L f l -> x ∈ L f' l' -> f = f' /\ l = l'.
Proof.
  intros (z & Hz & Hb)%lists_in_F (z' & Hz' & Hb')%lists_in_F. assert (z = z') by congruence. subst.
  rewrite Hb in Hb'. by injection Hb' as <- <-.
Qed.
End lists_facts.

Lemma head_upd2 (L : Z -> Z -> list Z) f l v f' l' :
  head (upd2 L f l v f' l') = upd2 (fun f l => head (L f l)) f l (head v) f' l'.
Proof. unfold upd2. by destruct (decide _). Qed.

(** Each list has the blocks of its class, the new one included. *)
Lemma push_members (F : gmap Z Z) (L : Z -> Z -> list Z) x z f l :
  (forall f l y, y ∈ L f l <-> exists u, F !! y = Some u /\ bucket u = (f, l)) ->
  F !! x = None -> bucket z = (f, l) ->
  forall f' l' y, y ∈ upd2 L f l (x :: L f l) f' l' <-> exists u, <[x := z]> F !! y = Some u /\ bucket u = (f', l').
Proof.
  intros Hmem Hx Hb f' l' y. unfold upd2. destruct (decide _) as [[-> ->]|Hne].
  - rewrite elem_of_cons, Hmem. split.
    + intros [->|(u & Hy & Hbu)]; [exists z; by rewrite lookup_insert_eq|].
      exists u. rewrite lookup_insert_ne by congruence. done.
    + intros (u & [[<- <-]|[_ Hy]]%lookup_insert_Some & Hbu); [by left|]. right. by exists u.
  - rewrite Hmem. split.
    + intros (u & Hy & Hbu). exists u. rewrite lookup_insert_ne by congruence. done.
    + intros (u & [[<- <-]|[_ Hy]]%lookup_insert_Some & Hbu); [|by exists u].
      exfalso. apply Hne. rewrite Hb in Hbu. by injection Hbu as -> ->.
Qed.

(** A new block in front of its list. *)
Lemma lists_ok_push F L w x z t :
  lists_ok F L w -> F !! x = None -> (8 | x) -> 0 < x -> x + z <= u64_max -> class_ok z ->
  (forall y u, F !! y = Some u -> y + u <= x \/ x + z <= y) ->
  let '(f, l) := bucket z in
  heads_ok (upd2 (fun f l => head (L f l)) f l (Some x)) t ->
  bits_ok (upd2 (fun f l => head (L f l)) f l (Some x)) t ->
  lists_ok (<[x := z]> F) (upd2 L f l (x :: L f l)) (mkTworld t (push_mem (tmem w) x (head (L f l)))).
Proof.
  intros Hok Hx Hd H0 Hu Hc Hsep. destruct (bucket z) as [f l] eqn:Hb. intros Hh Hbt.
  assert (Hux : in_u64 x) by (unfold in_u64, class_ok in *; lia).
  assert (Hap : forall y u, F !! y = Some u -> y <> x /\ apart24 x y).
  { intros y u Hy. split; [congruence|]. pose proof (l_node _ _ _ Hok y u Hy) as (_ & _ & _ & Hcy).
    unfold apart24, class_ok in *. destruct (Hsep y u Hy); lia. }
  assert (Hlinks : forall y u, F !! y = Some u ->
    nx (push_mem (tmem w) x (head (L f l))) y = nx (tmem w) y /\
    pv (push_mem (tmem w) x (head (L f l))) y =
      if decide (head (L f l) = Some y) then Some x else pv (tmem w) y).
  { intros y u Hy. destruct (Hap y u Hy) as [Hne Ha].
    destruct (push_mem_links (tmem w) x (head (L f l)) y Ha) as [-> ->]; [|done|].
    - intros k Hk%head_elem. destruct (lists_in_F Hok _ _ _ Hk) as (zk & Hzk & _).
      split_and!; [by eapply lists_apart|by eapply lists_addr|]. by eapply Hap.
    - by rewrite !(decide_False (P := y = x)). }
  assert (HxL : x ∉ L f l) by (intros (? & ? & _)%(lists_in_F Hok); congruence).
  split; cbn [tself tmem].
  - intros y u [[<- <-]|[_ Hy]]%lookup_insert_Some; [done|]. by apply Hok.
  - intros y u y' u' [[<- <-]|[_ Hy]]%lookup_insert_Some [[<- <-]|[_ Hy']]%lookup_insert_Some Hlt; try lia.
    + pose proof (l_node _ _ _ Hok y' u' Hy') as (_ & _ & _ & Hcy). unfold class_ok in *.
      destruct (Hsep y' u' Hy'); lia.
    + unfold class_ok in *. destruct (Hsep y u Hy); lia.
    + by eapply (l_sep _ _ _ Hok).
  - apply push_members; [apply Hok|done..].
  - intros f' l'. unfold upd2. destruct (decide _); [|apply Hok]. apply NoDup_cons. split; [done|apply Hok].
  - intros f' l'. unfold upd2. destruct (decide _) as [[-> ->]|Hne].
    + destruct (push_mem_links (tmem w) x (head (L f l)) x) as [Hnx Hpx]; [by left| |done|].
      { intros k Hk%head_elem. destruct (lists_in_F Hok _ _ _ Hk) as (zk & Hzk & _).
        split_and!; [|by eapply lists_addr|by eapply Hap].
        destruct (Hap k zk Hzk) as [_ Ha]. unfold apart24 in *. lia. }
      rewrite decide_True in Hnx, Hpx by done.
      eapply dll_push; [by apply Hok|by apply Hok|done|done|..].
      * intros h Hh'. destruct (lists_in_F Hok _ _ _ (head_elem _ _ Hh')) as (u & Hy & _).
        destruct (Hlinks h u Hy) as [-> ->]. by rewrite decide_True.
      * intros y Hy Hhy. destruct (lists_in_F Hok _ _ _ Hy) as (u & Hyu & _).
        destruct (Hlinks y u Hyu) as [-> ->]. by rewrite decide_False.
    + eapply seg_ext; [|by apply Hok]. intros y Hy.
      destruct (lists_in_F Hok _ _ _ Hy) as (u & Hyu & _).
      destruct (Hlinks y u Hyu) as [-> ->]. rewrite decide_False; [done|].
      intros Hhy%head_elem. apply Hne. by eapply (lists_same_bucket Hok).
  - eapply heads_ok_ext; [exact Hh|done|]. intros f' l' _. apply (head_upd2 L).
  - eapply bits_ok_ext; [exact Hbt|done|done|]. intros f' l' _. by rewrite (head_upd2 L).
Qed.

Lemma insert_wp F L w x z :
  lists_ok F L w -> F !! x = None -> (8 | x) -> 0 < x -> x + z <= u64_max -> class_ok z ->
  (forall y u, F !! y = Some u -> y + u <= x \/ x + z <= y) ->
  wp (insert x z) (fun _ w' =>
    exists L', lists_ok (<[x := z]> F) L' w' /\ link_frame (<[x := z]> F) w w') w.
Proof.
  intros Hok Hx Hd H0 Hu Hc Hsep.
  pose proof (lists_ok_push F L w x z) as Hpush. pose proof (class_fl z Hc) as Hr.
  unfold insert. wp_step. wp_step. rewrite mapping_class by done. wp_step.
  destruct (bucket z) as [f l] eqn:Hb. assert (Hfl : in_range f l) by by injection Hb as <- <-.
  wp_step. eapply get_list_wp; [by apply Hok|done|].
  assert (Hd8 : (8 | x + 8)) by by apply Z.divide_add_r; [|exists 1].
  assert (Hd16 : (8 | x + 16)) by by apply Z.divide_add_r; [|exists 2].
  wp_step. apply (wp_mono _ (fun _ w1 => w1 = set_tmem (push_mem (tmem w) x (head (L f l))) w)).
  { destruct (head (L f l)) as [h|] eqn:Eh.
    - destruct (lists_in_F Hok _ _ _ (head_elem _ _ Eh)) as (u & Hy & _).
      destruct (lists_addr Hok h u Hy) as (_ & _ & Hdh).
      wp_step. apply store_link_wp; [done|]. wp_step. apply store_link_wp; [done|].
      apply store_link_wp; [|done]. apply Z.divide_add_r; [done|]. by exists 1.
    - wp_step. apply store_link_wp; [done|]. by apply store_link_wp. }
  intros [] w1 ->. wp_step. eapply set_list_wp; [by apply Hok|done|]. intros ls Hls.
  apply (mark_bucket_wp (fun f l => head (L f l)) _ f l (Some x));
    [by eapply bits_ok_ext; [apply Hok|..]|done|done|].
  intros t Ht [Hb1 Hb2] Hfls. eexists. split.
  - apply (Hpush t); try done.
    eapply heads_ok_ext; [exact Hls|by rewrite Hfls|done].
  - split; [done|]. intros a Ha. cbn [tmem]. apply push_mem_out.
    + apply (Ha x). rewrite lookup_insert_eq. by eexists.
    + intros k Hk%head_elem. destruct (lists_in_F Hok _ _ _ Hk) as (u & Hy & _). apply (Ha k).
      rewrite lookup_insert_ne by congruence. by eexists.
Qed.

(** A block taken off its list. *)
Section removal.
Context {F : gmap Z Z} {L : Z -> Z -> list Z} {w : tworld} (Hok : lists_ok F L w).
Context {f l x : Z} {l1 l2 : list Z} (Hl : L f l = l1 ++ x :: l2).

Lemma removal_neighbour k : last l1 = Some k \/ head l2 = Some k -> k ∈ L f l /\ k <> x.
Proof.
  pose proof (l_nodup _ _ _ Hok f l) as Hnd. rewrite Hl in *.
  apply NoDup_app in Hnd as (_ & Hd & [Hx2 _]%NoDup_cons).
  intros [Hk%last_elem|Hk%head_elem]; split; try set_solver.
Qed.

Lemma removal_links y u : F !! y = Some u ->
  nx (unlink_mem (tmem w) (last l1) (head l2)) y =
    (if decide (last l1 = Some y) then Some (link_word (head l2)) else nx (tmem w) y) /\
  pv (unlink_mem (tmem w) (last l1) (head l2)) y =
    (if decide (head l2 = Some y) then Some (link_word (last l1)) else pv (tmem w) y).
Proof.
  intros Hy.
  assert (Hn : forall k, last l1 = Some k \/ head l2 = Some k -> apart24 k y /\ in_u64 k).
  { intros k [Hk _]%removal_neighbour. destruct (lists_in_F Hok _ _ _ Hk) as (uk & Huk & _).
    split; [by eapply (lists_apart Hok)|by eapply (lists_addr Hok)]. }
  apply unlink_mem_links; intros k Hk; apply Hn; auto.
Qed.

Lemma removal_dll f' l' :
  dll link_word (nx (unlink_mem (tmem w) (last l1) (head l2)))
    (pv (unlink_mem (tmem w) (last l1) (head l2))) (upd2 L f l (l1 ++ l2) f' l').
Proof.
  pose proof (l_nodup _ _ _ Hok f l) as Hnd. pose proof (l_links _ _ _ Hok f l) as Hd.
  rewrite Hl in Hnd, Hd. assert (Hdis : forall k, last l1 = Some k -> head l2 = Some k -> False).
  { intros k Hk%last_elem Hk'%head_elem. apply NoDup_app in Hnd as (_ & Hdd & _). set_solver. }
  unfold upd2. destruct (decide _) as [[-> ->]|Hne].
  - assert (HF : forall k, k ∈ l1 ++ l2 -> exists u, F !! k = Some u).
    { intros k Hk. assert (k ∈ L f l) as (u & ? & _)%(lists_in_F Hok) by (rewrite Hl; set_solver). by exists u. }
    eapply dll_remove; [exact Hd|exact Hnd|..].
    + intros k Hk. destruct (HF k) as [u Hu]; [apply last_elem in Hk; set_solver|].
      destruct (removal_links k u Hu) as [-> ->]. rewrite decide_True by done.
      rewrite decide_False; [done|]. intros ?. by eapply Hdis.
    + intros k Hk. destruct (HF k) as [u Hu]; [apply head_elem in Hk; set_solver|].
      destruct (removal_links k u Hu) as [-> ->]. rewrite (decide_True (P := head l2 = _)) by done.
      rewrite decide_False; [done|]. intros ?. by eapply Hdis.
    + intros k Hk H1 H2. destruct (HF k Hk) as [u Hu].
      destruct (removal_links k u Hu) as [-> ->]. by rewrite !decide_False.
  - eapply seg_ext; [|by apply Hok]. intros y Hy. destruct (lists_in_F Hok _ _ _ Hy) as (u & Hu & _).
    destruct (removal_links y u Hu) as [-> ->].
    assert (Hno : ~ (last l1 = Some y \/ head l2 = Some y)).
    { intros [Hy' _]%removal_neighbour. apply Hne. by eapply (lists_same_bucket Hok). }
    rewrite !decide_False by tauto. done.
Qed.

Lemma lists_ok_removed z t :
  F !! x = Some z ->
  heads_ok (upd2 (fun f l => head (L f l)) f l (head (l1 ++ l2))) t ->
  bits_ok (upd2 (fun f l => head (L f l)) f l (head (l1 ++ l2))) t ->
  lists_ok (delete x F) (upd2 L f l (l1 ++ l2))
    (mkTworld t (unlink_mem (tmem w) (last l1) (head l2))).
Proof.
  intros Hx Hh Hb. pose proof (l_nodup _ _ _ Hok f l) as Hnd. rewrite Hl in Hnd.
  assert (Hxb : bucket z = (f, l)).
  { assert (x ∈ L f l) as (u & Hu & ?)%(lists_in_F Hok) by (rewrite Hl; set_solver). congruence. }
  split; cbn [tself tmem].
  - intros y u [_ Hy]%lookup_delete_Some. by apply Hok.
  - intros y u y' u' [_ Hy]%lookup_delete_Some [_ Hy']%lookup_delete_Some.
    by apply (l_sep _ _ _ Hok y u y' u').
  - intros f' l' y. unfold upd2. destruct (decide _) as [[-> ->]|Hne].
    + assert (Hmem : y ∈ l1 ++ l2 <-> y ∈ L f l /\ y <> x).
      { apply NoDup_app in Hnd as (_ & Hd & [Hx2 _]%NoDup_cons). rewrite Hl. set_solver. }
      rewrite Hmem, (l_mem _ _ _ Hok). split.
      * intros [(u & Hu & ?) ?]. exists u. by rewrite lookup_delete_ne.
      * intros (u & [? Hu]%lookup_delete_Some & ?). split; [by exists u|done].
    + rewrite (l_mem _ _ _ Hok). split.
      * intros (u & Hu & Hbu). exists u. rewrite lookup_delete_ne; [done|]. intros <-.
        apply Hne. assert (u = z) by congruence. subst u. rewrite Hxb in Hbu. by injection Hbu as -> ->.
      * intros (u & [? Hu]%lookup_delete_Some & ?). by exists u.
  - intros f' l'. unfold upd2. destruct (decide _); [|apply Hok].
    apply NoDup_app in Hnd as (? & Hd & [? ?]%NoDup_cons). apply NoDup_app. split_and!; [done| |done].
    intros k Hk1 Hk2. apply (Hd k Hk1). set_solver.
  - apply removal_dll.
  - eapply heads_ok_ext; [exact Hh|done|]. intros f' l' _. apply (head_upd2 L).
  - eapply bits_ok_ext; [exact Hb|done|done|]. intros f' l' _. by rewrite (head_upd2 L).
Qed.
End removal.

(** What [remove] does, on the head table and in memory. *)
Lemma remove_tables_wp F L w f l x l1 l2 (Q : unit -> tworld -> Prop) :
  lists_ok F L w -> in_range f l -> L f l = l1 ++ x :: l2 ->
  (forall t, heads_ok (upd2 (fun f l => head (L f l)) f l (head (l1 ++ l2))) t ->
     bits_ok (upd2 (fun f l => head (L f l)) f l (head (l1 ++ l2))) t ->
     same_bounds (tself w) t -> Q tt (mkTworld t (unlink_mem (tmem w) (last l1) (head l2)))) ->
  wp (match last l1, head l2 with
      | None, None =>
          _ ← set_list f l None;
          b ← get_sl f;
          sbit ← lift (chk_shl1 32 l);
          let b' := Z.land b (not_u32 sbit) in
          _ ← put_sl f b';
          if b' =? 0 then
            fb ← get_fl; fbit ← lift (chk_shl1 32 f); put_fl (Z.land fb (not_u32 fbit))
          else mret tt
      | None, Some n => _ ← set_list f l (Some n); store_link (node_prev n) None
      | Some p, None => store_link (node_next p) None
      | Some p, Some n => _ ← store_link (node_next p) (Some n); store_link (node_prev n) (Some p)
      end) Q w.
Proof.
  intros Hok Hfl Hl HQ.
  assert (H8 : forall k, last l1 = Some k \/ head l2 = Some k -> (8 | node_prev k) /\ (8 | node_next k)).
  { intros k [Hk _]%(removal_neighbour Hok Hl). destruct (lists_in_F Hok _ _ _ Hk) as (u & Hu & _).
    destruct (lists_addr Hok k u Hu) as (_ & _ & Hd).
    split; (apply Z.divide_add_r; [done|]); [by exists 1|by exists 2]. }
  assert (Hsame : forall v, v <> None -> head (L f l) <> None ->
    bits_ok (upd2 (fun f l => head (L f l)) f l v) (tself w)).
  { intros v Hv Hn. eapply bits_ok_ext; [by apply Hok|done|done|]. intros f' l' _. unfold upd2.
    destruct (decide _) as [[-> ->]|]; done. }
  destruct (last l1) as [p|] eqn:E1.
  - assert (Hhd : head (l1 ++ l2) = head (L f l)) by (rewrite Hl; by destruct l1).
    assert (Hhe : heads_ok (upd2 (fun f l => head (L f l)) f l (head (l1 ++ l2))) (tself w)).
    { eapply heads_ok_ext; [by apply Hok|done|]. intros f' l' _. unfold upd2.
      destruct (decide _) as [[-> ->]|]; done. }
    assert (Hn0 : head (L f l) <> None) by (rewrite Hl; by destruct l1).
    destruct (H8 p ltac:(by left)) as [_ Hp8]. destruct (head l2) as [n|] eqn:E2.
    + wp_step. apply store_link_wp; [done|]. apply store_link_wp; [by apply H8; right|].
      apply HQ; [done|apply Hsame; congruence|done].
    + apply store_link_wp; [done|]. apply HQ; [done|apply Hsame; congruence|done].
  - apply last_None in E1 as ->. destruct (head l2) as [n|] eqn:E2.
    + wp_step. eapply set_list_wp; [by apply Hok|done|]. intros ls Hls.
      apply store_link_wp; [by apply H8; right|].
      apply HQ; [by rewrite app_nil_l, E2| |done]. rewrite app_nil_l, E2.
      eapply bits_ok_ext; [apply (Hsame (Some n)); [done|by rewrite Hl]|done..].
    + wp_step. eapply set_list_wp; [by apply Hok|done|]. intros ls Hls.
      apply (unmark_bucket_wp (fun f l => head (L f l)) _ f l);
        [by eapply bits_ok_ext; [apply Hok|..]|done|].
      intros t Ht Hb Hf. apply HQ; rewrite ?app_nil_l, ?E2; [|done|done].
      eapply heads_ok_ext; [exact Hls|by rewrite Hf|done].
Qed.

Lemma remove_wp F L w x z saf :
  lists_ok F L w -> F !! x = Some z -> load 4 (tmem w) (x + 4) = Some saf -> size saf = z ->
  wp (remove x) (fun _ w' =>
    exists L', lists_ok (delete x F) L' w' /\ link_frame (delete x F) w w') w.
Proof.
  intros Hok Hx Hsaf Hsz. destruct (l_node _ _ _ Hok x z Hx) as (Hd & H0 & Hu & Hc).
  destruct (bucket z) as [f l] eqn:Hb.
  assert (HxL : x ∈ L f l) by (apply (l_mem _ _ _ Hok); by exists z).
  pose proof (lists_bucket_range Hok _ _ _ HxL) as Hfl.
  apply list_elem_of_split in HxL as (l1 & l2 & Hl).
  assert (H4 : (x + 4) mod 4 = 0).
  { apply Z.mod_divide; [lia|]. apply Z.divide_add_r; [|by exists 1].
    apply (Z.divide_trans 4 8); [by exists 2|done]. }
  pose proof (l_links _ _ _ Hok f l) as Hdll. rewrite Hl in Hdll. apply dll_at in Hdll as [Hn Hp].
  assert (Hnz : last l1 <> Some 0 /\ head l2 <> Some 0).
  { split; intros Hk; (destruct (removal_neighbour Hok Hl 0) as [Hk' _]; [auto|]);
      destruct (lists_in_F Hok _ _ _ Hk') as (u & Hu' & _);
      by destruct (lists_addr Hok 0 u Hu') as (_ & ? & _). }
  unfold remove, read_saf, load32. wp_step. wp_steps. eapply returns_read; [done|done|].
  rewrite Hsz, mapping_class, Hb by done. wp_steps.
  eapply load_link_wp; [by apply Z.divide_add_r; [|exists 1]|exact Hp|apply Hnz|].
  wp_step. eapply load_link_wp; [by apply Z.divide_add_r; [|exists 2]|exact Hn|apply Hnz|].
  eapply remove_tables_wp; [done|done|done|]. intros t Hh Hbt Hsb.
  exists (upd2 L f l (l1 ++ l2)). split; [by eapply lists_ok_removed|]. split; [done|].
  intros a Ha. cbn [tmem]. apply unlink_mem_out; intros k Hk;
    (destruct (removal_neighbour Hok Hl k) as [Hk' Hkx]; [auto|]);
    destruct (lists_in_F Hok _ _ _ Hk') as (u & Hu' & _);
    apply (Ha k); rewrite lookup_delete_ne by done; by eexists.
Qed.
