(* ===== verification/TlsfPhys.v ===== *)
(** * TLSF: the physical blocks

    The heap is tiled by blocks, each behind its header, up to the sentinel at
    [heap_end]. This file relates that sequence to the header words in memory
    and to the lists, and says what the header writes of [malloc] and [free] do. *)

From S2P Require Import Prelude Memory Dll Tlsf TlsfInv TlsfLists.
Local Open Scope rust_scope.

Record block := Blk { bsize : Z; bfree : bool }.

Definition sentinel : block := Blk 0 false.

Fixpoint total (P : list block) : Z :=
  match P with [] => 0 | b :: P' => bsize b + total P' end.

(** What a block tells its successor: its size, when free. *)
Definition tag (b : block) : option Z := if bfree b then Some (bsize b) else None.
Definition last_tag (pv : option Z) (P : list block) : option Z :=
  match last P with Some b => tag b | None => pv end.

Definition flag (pv : option Z) : bool := match pv with Some _ => true | None => false end.

(** The header of [b] at [a], after a block with tag [pv]. *)
Definition hdr (m : memory) (a : Z) (b : block) (pv : option Z) : Prop :=
  load 4 m (a + 4) = Some (pack (bsize b) (bfree b) (flag pv)) /\
  (forall p, pv = Some p -> load 4 m a = Some p).

Fixpoint hdrs (m : memory) (a : Z) (pv : option Z) (P : list block) : Prop :=
  match P with
  | [] => True
  | b :: P' => hdr m a b pv /\ hdrs m (a + bsize b) (tag b) P'
  end.

(** The free ([p = true]) or used blocks by address. *)
Fixpoint bmap (p : bool) (a : Z) (P : list block) : gmap Z Z :=
  match P with
  | [] => ∅
  | b :: P' =>
      let r := bmap p (a + bsize b) P' in
      if eqb (bfree b) p then <[a := bsize b]> r else r
  end.

Definition wf_block (b : block) : Prop := 32 <= bsize b /\ (8 | bsize b).
Definition wf (P : list block) : Prop := Forall wf_block P.

Lemma total_app P1 P2 : total (P1 ++ P2) = total P1 + total P2.
Proof. induction P1 as [|b P1 IH]; simpl; [done|]. rewrite IH. lia. Qed.

Lemma wf_total P : wf P -> 0 <= total P /\ (8 | total P).
Proof.
  induction 1 as [|b P [Hb Hd] _ [IH1 IH2]]; simpl; [split; [lia|by exists 0]|].
  split; [lia|by apply Z.divide_add_r].
Qed.

Lemma last_tag_app pv P1 b : last_tag pv (P1 ++ [b]) = tag b.
Proof. unfold last_tag. by rewrite last_snoc. Qed.

Lemma hdrs_app m P2 : forall P1 a pv,
  hdrs m a pv (P1 ++ P2) <-> hdrs m a pv P1 /\ hdrs m (a + total P1) (last_tag pv P1) P2.
Proof.
  induction P1 as [|b P1 IH]; intros a pv; simpl.
  - rewrite Z.add_0_r. unfold last_tag. simpl. tauto.
  - rewrite IH, Z.add_assoc. unfold last_tag. rewrite last_cons.
    destruct (last P1); tauto.
Qed.

(** ** Which writes leave headers alone *)

(** The header addresses of [P] placed at [a]. *)
Fixpoint haddrs (a : Z) (P : list block) : list Z :=
  match P with [] => [] | b :: P' => a :: haddrs (a + bsize b) P' end.

Lemma hdrs_ext m m' : forall P a pv,
  (forall h i, h ∈ haddrs a P -> h <= i < h + 8 -> m' !! i = m !! i) ->
  hdrs m a pv P -> hdrs m' a pv P.
Proof.
  induction P as [|b P IH]; intros a pv Hx; simpl; [done|]. intros [[H1 H2] H3].
  split; [split|].
  - rewrite <- H1. apply load_ext. intros i Hi. apply (Hx a); [set_solver|lia].
  - intros p Hp. rewrite <- (H2 p Hp). apply load_ext. intros i Hi. apply (Hx a); [set_solver|lia].
  - apply IH; [|done]. intros h i Hh. apply Hx. set_solver.
Qed.

Lemma haddrs_app P2 : forall P1 a, haddrs a (P1 ++ P2) = haddrs a P1 ++ haddrs (a + total P1) P2.
Proof.
  induction P1 as [|b P1 IH]; intros a; simpl; [by rewrite Z.add_0_r|]. by rewrite IH, Z.add_assoc.
Qed.

Lemma haddrs_wf P : wf P -> forall a h, h ∈ haddrs a P -> a <= h /\ h + 32 <= a + total P.
Proof.
  induction 1 as [|b P [Hb _] HP IH]; intros a h; simpl; [by intros ?%not_elem_of_nil|].
  intros [->|Hh]%elem_of_cons.
  - pose proof (wf_total P HP). lia.
  - specialize (IH _ _ Hh). lia.
Qed.

(** A suffix of the heap, the sentinel included. *)
Lemma haddrs_suffix P : wf P -> forall a h, h ∈ haddrs a (P ++ [sentinel]) -> a <= h <= a + total P.
Proof.
  intros HP a h. rewrite haddrs_app. intros [Hh|Hh]%elem_of_app.
  - apply haddrs_wf in Hh; [lia|done].
  - simpl in Hh. apply list_elem_of_singleton in Hh. pose proof (wf_total P HP). lia.
Qed.

Lemma hdrs_store_above n m a pv P y v : wf P -> a + total P <= y ->
  hdrs m a pv P -> hdrs (store n m y v) a pv P.
Proof.
  intros HP Hy. apply hdrs_ext. intros h i Hh Hi. apply haddrs_wf in Hh; [|done].
  apply store_lookup_out. lia.
Qed.

Lemma hdrs_store_below n m a pv P y v : wf P -> y + Z.of_nat n <= a ->
  hdrs m a pv (P ++ [sentinel]) -> hdrs (store n m y v) a pv (P ++ [sentinel]).
Proof.
  intros HP Hy. apply hdrs_ext. intros h i Hh Hi. apply haddrs_suffix in Hh; [|done].
  apply store_lookup_out. lia.
Qed.

(** ** The map of the blocks *)

Lemma bmap_app p P2 : forall P1 a,
  bmap p a (P1 ++ P2) = bmap p a P1 ∪ bmap p (a + total P1) P2.
Proof.
  induction P1 as [|b P1 IH]; intros a; simpl.
  - by rewrite (left_id_L ∅ (∪)), Z.add_0_r.
  - rewrite IH, Z.add_assoc. destruct (eqb _ _); [|done]. by rewrite insert_union_l.
Qed.

Lemma bmap_lookup p P : wf P -> forall a x z, bmap p a P !! x = Some z ->
  a <= x /\ x + z <= a + total P /\ 32 <= z /\ (8 | z) /\ (8 | x - a).
Proof.
  induction 1 as [|b P [Hb Hd] HP IH]; intros a x z; simpl; [done|].
  pose proof (wf_total P HP) as [Ht _].
  assert (Hrec : bmap p (a + bsize b) P !! x = Some z ->
    a <= x /\ x + z <= a + (bsize b + total P) /\ 32 <= z /\ (8 | z) /\ (8 | x - a)).
  { intros (H1 & H2 & H3 & H4 & H5)%IH. split_and!; [lia|lia|lia|done|].
    replace (x - a) with (x - (a + bsize b) + bsize b) by lia. by apply Z.divide_add_r. }
  destruct (eqb _ _); [|exact Hrec]. intros [[<- <-]|[_ Hx]]%lookup_insert_Some; [|by apply Hrec].
  split_and!; [lia|lia|lia|done|]. rewrite Z.sub_diag. by exists 0.
Qed.

Lemma bmap_none p P a x : wf P -> x < a \/ a + total P <= x -> bmap p a P !! x = None.
Proof.
  intros HP Hx. destruct (bmap p a P !! x) eqn:E; [|done].
  apply (bmap_lookup p P HP) in E. lia.
Qed.

Lemma bmap_split p a P1 z q P2 x :
  wf P1 -> wf P2 -> 32 <= z -> x = a + total P1 ->
  bmap p a (P1 ++ Blk z q :: P2) =
    (if eqb q p then <[x := z]> (bmap p a P1 ∪ bmap p (x + z) P2)
     else bmap p a P1 ∪ bmap p (x + z) P2) /\
  (bmap p a P1 ∪ bmap p (x + z) P2) !! x = None.
Proof.
  intros H1 H2 Hz ->. rewrite bmap_app. simpl.
  assert (Hn : bmap p a P1 !! (a + total P1) = None) by (apply bmap_none; [done|lia]).
  split.
  - destruct (eqb q p); [|done]. by rewrite insert_union_r.
  - apply lookup_union_None. split; [done|]. apply bmap_none; [done|lia].
Qed.

(** Blocks of the map lie between boundaries. *)
Lemma bmap_boundary p P : wf P -> forall a x z h, bmap p a P !! x = Some z ->
  (h ∈ haddrs a P \/ h <= a \/ a + total P <= h) -> h <= x \/ x + z <= h.
Proof.
  induction 1 as [|b P [Hb _] HP IH]; intros a x z h; simpl; [done|].
  pose proof (wf_total P HP) as [Ht _]. intros Hx Hh. rewrite elem_of_cons in Hh.
  assert (Hrest : bmap p (a + bsize b) P !! x = Some z -> h <= x \/ x + z <= h).
  { intros Hr. apply (IH _ _ _ _ Hr).
    destruct Hh as [[->|Hh]|[Hh|Hh]]; [right; left; lia|by left|right; left; lia|right; right; lia]. }
  destruct (eqb _ _); [|by apply Hrest].
  apply lookup_insert_Some in Hx as [[<- <-]|[_ Hx]]; [|by apply Hrest].
  destruct Hh as [[->|Hh]|[Hh|Hh]]; [lia| |lia|lia].
  apply haddrs_wf in Hh; [lia|done].
Qed.

(** A free and a used block do not overlap. *)
Lemma bmap_disjoint P : wf P -> forall a x z y u,
  bmap true a P !! x = Some z -> bmap false a P !! y = Some u -> x + z <= y \/ y + u <= x.
Proof.
  induction 1 as [|b P [Hb _] HP IH]; intros a x z y u; simpl; [done|].
  destruct (bfree b); simpl; intros Hx Hy.
  - apply lookup_insert_Some in Hx as [[<- <-]|[_ Hx]]; [|by eapply IH].
    apply (bmap_lookup false P HP) in Hy. lia.
  - apply lookup_insert_Some in Hy as [[<- <-]|[_ Hy]]; [|by eapply IH].
    apply (bmap_lookup true P HP) in Hx. lia.
Qed.

Lemma bmap_sep p P : wf P -> forall a x z y u,
  bmap p a P !! x = Some z -> bmap p a P !! y = Some u -> x < y -> x + z <= y.
Proof.
  induction 1 as [|b P [Hb _] HP IH]; intros a x z y u; simpl; [done|].
  destruct (eqb _ _); [|by apply IH].
  intros [[<- <-]|[_ Hx]]%lookup_insert_Some [[<- <-]|[_ Hy]]%lookup_insert_Some; [lia| | |by eapply IH].
  - apply (bmap_lookup p P HP) in Hy. lia.
  - apply (bmap_lookup p P HP) in Hx. lia.
Qed.

(** ** What the list operations and the header writes leave alone *)

(** The payloads of the blocks of [U] are unchanged. *)
Definition kept (U : gmap Z Z) (m m' : memory) : Prop :=
  forall y u i, U !! y = Some u -> y + 8 <= i < y + u -> m' !! i = m !! i.

Lemma kept_refl U m : kept U m m.
Proof. done. Qed.

Lemma kept_trans U m m1 m2 : kept U m m1 -> kept U m1 m2 -> kept U m m2.
Proof. intros H1 H2 y u i Hy Hi. by rewrite (H2 y u i Hy Hi), (H1 y u i Hy Hi). Qed.

(** A header position of the heap, as seen from a map of its blocks. *)
Definition outside (F : gmap Z Z) (h : Z) : Prop :=
  forall x z, F !! x = Some z -> h <= x \/ x + z <= h.

Lemma kept_store U m h o v : outside U h -> 0 <= o <= 4 -> kept U m (store 4 m (h + o) v).
Proof.
  intros Ho Hr y u i Hy Hi. apply store_lookup_out. destruct (Ho y u Hy); lia.
Qed.

Lemma kept_store0 U m h v : outside U h -> kept U m (store 4 m h v).
Proof. intros Ho. rewrite <- (Z.add_0_r h) at 1. by apply kept_store. Qed.

Lemma lists_ok_store F L w h o v : lists_ok F L w -> outside F h -> 0 <= o <= 4 ->
  lists_ok F L (set_tmem (store 4 (tmem w) (h + o) v) w).
Proof.
  intros Hok Ho Hr. destruct Hok as [Hn Hs Hm Hd Hl Hh Hb] eqn:E; clear E.
  split; try done. intros f l. eapply seg_ext; [|by apply Hl]. intros x Hx.
  apply Hm in Hx as (z & Hx & _). destruct (Hn x z Hx) as (_ & _ & _ & Hc). unfold class_ok in Hc.
  unfold nx, pv. destruct (Ho x z Hx); split; apply load_store_ne; lia.
Qed.

Lemma link_frame_hdrs F w w' P a pv :
  link_frame F w w' -> (forall x z, F !! x = Some z -> 32 <= z) ->
  (forall h, h ∈ haddrs a P -> outside F h) ->
  hdrs (tmem w) a pv P -> hdrs (tmem w') a pv P.
Proof.
  intros [_ Hf] Hz Ho. apply hdrs_ext. intros h i Hh Hi. apply Hf. intros x [z Hx].
  pose proof (Hz x z Hx). destruct (Ho h Hh x z Hx); lia.
Qed.

Lemma link_frame_kept F U w w' :
  link_frame F w w' -> (forall x z, F !! x = Some z -> 32 <= z) ->
  (forall x z y u, F !! x = Some z -> U !! y = Some u -> x + z <= y \/ y + u <= x) ->
  kept U (tmem w) (tmem w').
Proof.
  intros [_ Hf] Hz Hd y u i Hy Hi. apply Hf. intros x [z Hx].
  pose proof (Hz x z Hx). destruct (Hd x z y u Hx Hy); lia.
Qed.

Lemma link_frame_load F w w' h o :
  link_frame F w w' -> (forall x z, F !! x = Some z -> 32 <= z) -> outside F h -> 0 <= o <= 4 ->
  load 4 (tmem w') (h + o) = load 4 (tmem w) (h + o).
Proof.
  intros [_ Hf] Hz Ho Hr. apply load_ext. intros i Hi. apply Hf. intros x [z Hx].
  pose proof (Hz x z Hx). destruct (Ho x z Hx); lia.
Qed.

(** ** Header accesses *)

Lemma load32_wp w p v (Q : Z -> tworld -> Prop) :
  (4 | p) -> load 4 (tmem w) p = Some v -> Q v w -> wp (load32 p) Q w.
Proof.
  intros Hp Hl HQ. unfold load32. wp_steps. eapply returns_read; [by apply Z.mod_divide|done|done].
Qed.

Lemma store32_wp w p v (Q : unit -> tworld -> Prop) :
  (4 | p) -> Q tt (set_tmem (store 4 (tmem w) p v) w) -> wp (store32 p v) Q w.
Proof.
  intros Hp HQ. unfold store32. wp_steps. apply returns_write; [by apply Z.mod_divide|]. by wp_steps.
Qed.

Lemma header_set_wp w h sz f p (Q : unit -> tworld -> Prop) :
  (4 | h) -> sz <= u32_max -> Q tt (set_tmem (store 4 (tmem w) (h + 4) (pack sz f p)) w) ->
  wp (header_set h sz f p) Q w.
Proof.
  intros Hh Hs HQ. unfold header_set. wp_step. apply wp_guard; [by apply Z.leb_le|].
  apply store32_wp; [|done]. apply Z.divide_add_r; [done|by exists 1].
Qed.

Lemma read_saf_wp w h v (Q : Z -> tworld -> Prop) :
  (4 | h) -> load 4 (tmem w) (h + 4) = Some v -> Q v w -> wp (read_saf h) Q w.
Proof. intros Hh Hl HQ. eapply load32_wp; [apply Z.divide_add_r; [done|by exists 1]|done|done]. Qed.

Lemma header_mark_free_wp w h sz f p b (Q : unit -> tworld -> Prop) :
  (4 | h) -> size_ok sz -> load 4 (tmem w) (h + 4) = Some (pack sz f p) ->
  Q tt (set_tmem (store 4 (tmem w) (h + 4) (pack sz b p)) w) -> wp (header_mark_free h b) Q w.
Proof.
  intros Hh Hs Hl HQ. unfold header_mark_free. wp_step. eapply read_saf_wp; [done|done|].
  rewrite with_free_pack by done. apply store32_wp; [apply Z.divide_add_r; [done|by exists 1]|done].
Qed.

Lemma header_mark_prev_free_wp w h sz f p b (Q : unit -> tworld -> Prop) :
  (4 | h) -> size_ok sz -> load 4 (tmem w) (h + 4) = Some (pack sz f p) ->
  Q tt (set_tmem (store 4 (tmem w) (h + 4) (pack sz f b)) w) -> wp (header_mark_prev_free h b) Q w.
Proof.
  intros Hh Hs Hl HQ. unfold header_mark_prev_free. wp_step. eapply read_saf_wp; [done|done|].
  rewrite with_prev_free_pack by done. apply store32_wp; [apply Z.divide_add_r; [done|by exists 1]|done].
Qed.
