(* ===== verification/TlsfAlloc.v ===== *)
(** * TLSF: the invariant of the heap and the steps of [malloc] and [free] *)

From S2P Require Import Prelude Memory Dll Tlsf TlsfInv TlsfLists TlsfPhys.
Local Open Scope rust_scope.

(** No two free blocks are neighbours. *)
Fixpoint no_adj (P : list block) : Prop :=
  match P with
  | b :: (c :: _) as P' => (bfree b = false \/ bfree c = false) /\ no_adj P'
  | _ => True
  end.

(** The heap [B] tiles: where it lies, and that its size fields fit. *)
Record geometry (B : list block) (w : tworld) : Prop := {
  g_start : 0 < heap_start (tself w) /\ (8 | heap_start (tself w));
  g_top : heap_start (tself w) + total B + 8 <= u64_max;
  g_small : total B < 2 ^ 24;
  g_end : heap_end (tself w) = heap_start (tself w) + total B;
  g_wf : wf B
}.

Record tlsf_inv (B : list block) (w : tworld) : Prop := {
  i_geo : geometry B w;
  i_adj : no_adj B;
  i_hdrs : hdrs (tmem w) (heap_start (tself w)) None (B ++ [sentinel]);
  i_lists : exists L, lists_ok (bmap true (heap_start (tself w)) B) L w
}.

(** Between [B1] and [B2] lies a block of size [sz] whose header already says it
    is free, but which is on no list and unknown to its successor. *)
Record loose (B1 : list block) (sz : Z) (B2 : list block) (w : tworld) : Prop := {
  lo_geo : geometry (B1 ++ Blk sz false :: B2) w;
  lo_pre : hdrs (tmem w) (heap_start (tself w)) None B1;
  lo_hdr : hdr (tmem w) (heap_start (tself w) + total B1) (Blk sz true) (last_tag None B1);
  lo_post : exists pv, hdrs (tmem w) (heap_start (tself w) + total B1 + sz) pv (B2 ++ [sentinel]);
  lo_lists : exists L, lists_ok (bmap true (heap_start (tself w)) (B1 ++ Blk sz false :: B2)) L w
}.

(** Two ways of cutting a list; the length of a cut. *)
Ltac list_eq := rewrite <- ?app_assoc; reflexivity.
Ltac tot_eq := rewrite ?total_app; simpl; lia.

(** ** Geometry *)

Lemma wf_app P1 P2 : wf (P1 ++ P2) <-> wf P1 /\ wf P2.
Proof. apply Forall_app. Qed.

Lemma wf_cons b P : wf (b :: P) <-> wf_block b /\ wf P.
Proof. apply Forall_cons. Qed.

Lemma geometry_same B B' w w' :
  geometry B w -> same_bounds (tself w) (tself w') -> wf B' -> total B' = total B -> geometry B' w'.
Proof. intros [? ? ? ? ?] [Hs He] Hw Ht. split; rewrite ?Hs, ?He, ?Ht; done. Qed.

Lemma geometry_size_ok B b w : geometry B w -> b ∈ B -> size_ok (bsize b) /\ class_ok (bsize b).
Proof.
  intros [_ _ Hs _ Hw] Hb. apply list_elem_of_split in Hb as (P1 & P2 & ->).
  apply wf_app in Hw as [Hw1 [[Hb Hd] Hw2]%wf_cons].
  rewrite total_app in Hs. simpl in Hs.
  pose proof (wf_total P1 Hw1). pose proof (wf_total P2 Hw2).
  unfold size_ok, class_ok. split; [split; [lia|done]|lia].
Qed.

Lemma sentinel_size_ok : size_ok (bsize sentinel).
Proof. split; [simpl; lia|by exists 0]. Qed.

(** Boundaries of the tiling, aligned and never inside a block. *)
Lemma boundary_outside p B1 B2 a : wf (B1 ++ B2) -> outside (bmap p a (B1 ++ B2)) (a + total B1).
Proof.
  intros Hw x z Hx. apply (bmap_boundary p _ Hw a x z _ Hx). destruct B2 as [|b B2].
  - right. right. rewrite total_app. simpl. lia.
  - left. rewrite haddrs_app. apply elem_of_app. right. simpl. apply elem_of_cons. by left.
Qed.

Lemma boundary_aligned B B1 B2 w a :
  geometry B w -> B = B1 ++ B2 -> a = heap_start (tself w) + total B1 ->
  (4 | a) /\ (8 | a) /\ 0 < a /\ a + total B2 + 8 <= u64_max.
Proof.
  intros [[H0 Hd] Ht _ _ Hw] -> ->. apply wf_app in Hw as [[Ht1 Hd1]%wf_total [Ht2 _]%wf_total].
  assert (H8 : (8 | heap_start (tself w) + total B1)) by by apply Z.divide_add_r.
  rewrite total_app in Ht. split_and!; [|done|lia|lia].
  apply (Z.divide_trans 4 8); [by exists 2|done].
Qed.

Lemma bmap_ge32 p B a x z : wf B -> bmap p a B !! x = Some z -> 32 <= z.
Proof. intros Hw Hx. by destruct (bmap_lookup p B Hw a x z Hx) as (_ & _ & ? & _). Qed.

Lemma haddrs_outside p B a h : wf B -> h ∈ haddrs a (B ++ [sentinel]) -> outside (bmap p a B) h.
Proof.
  intros Hw Hh x z Hx. apply (bmap_boundary p B Hw a x z h Hx). rewrite haddrs_app in Hh.
  apply elem_of_app in Hh as [Hh|Hh]; [by left|]. simpl in Hh.
  apply list_elem_of_singleton in Hh as ->. right. right. lia.
Qed.

(** Two neighbours of the other kind count as one. *)
Lemma bmap_merge p a P1 z n q P2 : eqb q p = false ->
  bmap p a (P1 ++ Blk z q :: Blk n q :: P2) = bmap p a (P1 ++ Blk (z + n) q :: P2).
Proof. intros Hq. rewrite !bmap_app. simpl. by rewrite Hq, Z.add_assoc. Qed.

Lemma bmap_cons_other p a P1 z P2 :
  bmap p a (P1 ++ Blk z (negb p) :: P2) = bmap p a P1 ∪ bmap p (a + total P1 + z) P2.
Proof. rewrite bmap_app. simpl. by destruct p. Qed.

Lemma bmap_flip p a P1 z P2 : wf P1 -> wf P2 -> 32 <= z ->
  bmap p a (P1 ++ Blk z p :: P2) = <[a + total P1 := z]> (bmap p a (P1 ++ Blk z (negb p) :: P2)) /\
  bmap p a (P1 ++ Blk z (negb p) :: P2) !! (a + total P1) = None.
Proof.
  intros H1 H2 Hz. destruct (bmap_split p a P1 z p P2 _ H1 H2 Hz eq_refl) as [-> Hn].
  rewrite bmap_cons_other, eqb_reflx. done.
Qed.

Lemma bmap_take p a P1 z P2 : wf P1 -> wf P2 -> 32 <= z ->
  delete (a + total P1) (bmap p a (P1 ++ Blk z p :: P2)) = bmap p a (P1 ++ Blk z (negb p) :: P2).
Proof.
  intros H1 H2 Hz. destruct (bmap_flip p a P1 z P2 H1 H2 Hz) as [-> Hn].
  by apply delete_insert_id.
Qed.

(** ** Handing a loose block to the lists *)

Lemma hdrs_prefix m a pv B1 b B2 :
  hdrs m a pv (B1 ++ b :: B2) <->
  hdrs m a pv B1 /\ hdr m (a + total B1) b (last_tag pv B1) /\
  hdrs m (a + total B1 + bsize b) (tag b) B2.
Proof. rewrite hdrs_app. done. Qed.

Lemma geometry_mid B1 z q B2 w : geometry (B1 ++ Blk z q :: B2) w ->
  wf B1 /\ wf B2 /\ 32 <= z /\ (8 | z) /\ size_ok z /\ class_ok z /\ 0 <= total B1 /\ 0 <= total B2.
Proof.
  intros Hg. pose proof (g_wf _ _ Hg) as [Hw1 [[Hz Hd] Hw2]%wf_cons]%wf_app.
  destruct (geometry_size_ok _ (Blk z q) w Hg) as [? ?]; [set_solver|].
  pose proof (wf_total B1 Hw1). pose proof (wf_total B2 Hw2). split_and!; try done; lia.
Qed.

(** ** Telling the successor *)

(** The first header of a suffix, and the rest of it. *)
Lemma hdrs_suffix m e pv B2 :
  wf B2 -> Forall (fun b => size_ok (bsize b)) B2 -> hdrs m e pv (B2 ++ [sentinel]) ->
  exists c, load 4 m (e + 4) = Some (pack (bsize c) (bfree c) (flag pv)) /\ size_ok (bsize c) /\
    (bfree c = true -> exists B2', B2 = c :: B2') /\
    (forall B2', B2 = c :: B2' -> hdrs m (e + bsize c) (tag c) (B2' ++ [sentinel])) /\
    (B2 = [] -> bfree c = false) /\
    forall m' pv', (forall i, e + 8 <= i -> m' !! i = m !! i) -> hdr m' e c pv' ->
      hdrs m' e pv' (B2 ++ [sentinel]).
Proof.
  intros Hw Hs Hh. destruct B2 as [|c B2]; simpl in Hh.
  - exists sentinel. destruct Hh as [[Hl _] _]. split; [done|].
    split; [apply sentinel_size_ok|]. split_and!; try done.
  - exists c. destruct Hh as [[Hl Hp] Hr]. apply wf_cons in Hw as [[Hc _] Hw].
    apply Forall_cons in Hs as [Hsc _]. split; [done|]. split; [done|].
    split; [by exists B2|]. split; [by intros ? [= <-]|]. split; [done|].
    intros m' pv' Hm Hh'. split; [done|]. eapply hdrs_ext; [|exact Hr].
    intros h i Hi Hr'. apply haddrs_suffix in Hi; [|done]. apply Hm. lia.
Qed.

Lemma geometry_suffix_sizes B1 b B2 w :
  geometry (B1 ++ b :: B2) w -> Forall (fun b => size_ok (bsize b)) B2.
Proof.
  intros Hg. apply Forall_forall. intros c Hc. eapply geometry_size_ok; [done|set_solver].
Qed.

(** What it writes at the successor [c] at [e]. *)
Definition inform (m : memory) (e sz : Z) (c : block) : memory :=
  store 4 (store 4 m e (wrap 32 sz)) (e + 4) (pack (bsize c) (bfree c) true).

Lemma inform_hdrs m s B1 sz B2 pv :
  wf B1 -> wf B2 -> size_ok sz -> 32 <= sz -> Forall (fun b => size_ok (bsize b)) B2 ->
  hdrs m s None B1 -> hdr m (s + total B1) (Blk sz true) (last_tag None B1) ->
  hdrs m (s + total B1 + sz) pv (B2 ++ [sentinel]) ->
  exists c, load 4 m (s + total B1 + sz + 4) = Some (pack (bsize c) (bfree c) (flag pv)) /\
    size_ok (bsize c) /\
    hdrs (inform m (s + total B1 + sz) sz c) s None (B1 ++ Blk sz true :: B2 ++ [sentinel]).
Proof.
  intros Hw1 Hw2 Hsz Hz Hs2 Hpre [Hl Hp] Hpost. set (a := s + total B1) in *.
  destruct (hdrs_suffix _ _ _ _ Hw2 Hs2 Hpost) as (c & Hlc & Hsc & _ & _ & _ & Hretag).
  exists c. split; [done|]. split; [done|]. unfold inform. apply hdrs_prefix. fold a. split_and!.
  - do 2 (apply hdrs_store_above; [done|lia|]). done.
  - split; [|intros p Hpp; specialize (Hp p Hpp)]; rewrite !load_store_ne by lia; done.
  - apply Hretag; [intros i Hi; by rewrite !store_lookup_out by lia|]. split.
    + apply load_u32_eq. by apply pack_u32.
    + intros p [= <-]. simpl bsize. rewrite load_store_ne by lia. unfold wrap.
      rewrite Z.mod_small by apply Hsz. apply load_u32_eq. apply in_u32_pow, Hsz.
Qed.

(** The end of the middle block is a boundary, whatever kind the block has. *)
Lemma end_outside p B1 sz q B2 s :
  wf B1 -> wf B2 -> wf_block (Blk sz q) ->
  outside (bmap p s (B1 ++ Blk sz q :: B2)) (s + total B1 + sz).
Proof.
  intros H1 H2 Hb. rewrite <- Z.add_assoc.
  replace (total B1 + sz) with (total (B1 ++ [Blk sz q])) by (rewrite total_app; simpl; lia).
  rewrite cons_middle, app_assoc. apply boundary_outside.
  rewrite <- app_assoc. apply wf_app. split; [done|]. by apply wf_cons.
Qed.

(** A block of the other kind leaves a hole in the map. *)
Lemma hole_outside p B1 sz B2 s y u : wf B1 -> wf B2 ->
  bmap p s (B1 ++ Blk sz (negb p) :: B2) !! y = Some u ->
  y + u <= s + total B1 \/ s + total B1 + sz <= y.
Proof.
  intros H1 H2. rewrite bmap_cons_other. intros [Hy|[_ Hy]]%lookup_union_Some_raw.
  - apply (bmap_lookup p B1 H1) in Hy. lia.
  - apply (bmap_lookup p B2 H2) in Hy. lia.
Qed.

Lemma hole_disjoint B1 k B2 s x z y u : wf B1 -> wf B2 -> 32 <= k ->
  bmap true s (B1 ++ Blk k false :: B2) !! x = Some z ->
  bmap false s (B1 ++ Blk k true :: B2) !! y = Some u -> x + z <= y \/ y + u <= x.
Proof.
  intros H1 H2 Hk. rewrite (bmap_cons_other true), (bmap_cons_other false), !lookup_union_Some_raw.
  intros [Hx|[_ Hx]] [Hy|[_ Hy]].
  - exact (bmap_disjoint B1 H1 _ _ _ _ _ Hx Hy).
  - apply (bmap_lookup true B1 H1) in Hx. apply (bmap_lookup false B2 H2) in Hy. lia.
  - apply (bmap_lookup true B2 H2) in Hx. apply (bmap_lookup false B1 H1) in Hy. lia.
  - exact (bmap_disjoint B2 H2 _ _ _ _ _ Hx Hy).
Qed.

Lemma inform_kept U m e sz c : outside U e -> kept U m (inform m e sz c).
Proof.
  intros Ho. eapply kept_trans; [|apply kept_store; [done|lia]].
  by apply kept_store0.
Qed.

Lemma inform_lists F L w e sz c : lists_ok F L w -> outside F e ->
  lists_ok F L (set_tmem (inform (tmem w) e sz c) w).
Proof.
  intros HL Ho. pose proof (lists_ok_store F L w e 0 (wrap 32 sz) HL Ho ltac:(lia)) as HL1.
  rewrite Z.add_0_r in HL1. apply (lists_ok_store F L _ e 4 _ HL1 Ho). lia.
Qed.

(** A block of the heap goes on a list: headers and payloads stay. *)
Lemma insert_block_wp B1 sz B2 w L :
  geometry (B1 ++ Blk sz false :: B2) w ->
  lists_ok (bmap true (heap_start (tself w)) (B1 ++ Blk sz false :: B2)) L w ->
  hdrs (tmem w) (heap_start (tself w)) None (B1 ++ Blk sz true :: B2 ++ [sentinel]) ->
  no_adj (B1 ++ Blk sz true :: B2) ->
  wp (insert (heap_start (tself w) + total B1) sz)
    (fun _ w' => tlsf_inv (B1 ++ Blk sz true :: B2) w' /\ same_bounds (tself w) (tself w') /\
       kept (bmap false (heap_start (tself w)) (B1 ++ Blk sz true :: B2)) (tmem w) (tmem w')) w.
Proof.
  intros Hg HL Hh Hadj. set (s := heap_start (tself w)) in *.
  pose proof (geometry_mid _ _ _ _ _ Hg) as (Hw1 & Hw2 & Hz & Hdz & Hsz & Hcz & Ht1 & Ht2).
  destruct (boundary_aligned _ B1 (Blk sz false :: B2) w _ Hg eq_refl eq_refl) as (_ & H8 & Hpos & Htop).
  fold s in H8, Hpos, Htop. simpl in Htop.
  destruct (bmap_flip true s B1 sz B2 Hw1 Hw2 Hz) as [Hflip Hnone]. simpl negb in *.
  assert (Hw' : wf (B1 ++ Blk sz true :: B2)) by (apply wf_app; split; [done|]; by apply wf_cons).
  eapply wp_mono.
  { apply (insert_wp (bmap true s (B1 ++ Blk sz false :: B2)) L); try done; [lia|].
    intros y u. by apply (hole_outside true). }
  intros [] w' (L' & HL' & Hfr). rewrite <- Hflip in HL', Hfr.
  pose proof (proj1 Hfr) as [Hs He]. fold s in Hs. split_and!; [split|done..|].
  - eapply geometry_same; [exact Hg|exact (proj1 Hfr)|done|]. by rewrite !total_app.
  - done.
  - rewrite Hs. replace ((B1 ++ Blk sz true :: B2) ++ [sentinel]) with (B1 ++ Blk sz true :: B2 ++ [sentinel])
      by by rewrite <- app_assoc.
    eapply link_frame_hdrs; [exact Hfr|intros x z; by apply bmap_ge32| |exact Hh].
    intros h Hin. apply haddrs_outside; [done|]. by rewrite <- app_assoc.
  - rewrite Hs. by exists L'.
  - eapply link_frame_kept; [exact Hfr|intros x z; by apply bmap_ge32|].
    intros x z y u. by apply bmap_disjoint.
Qed.

(** A loose block, its successor informed, joins the lists. *)
Lemma publish_wp B1 sz B2 w : loose B1 sz B2 w -> no_adj (B1 ++ Blk sz true :: B2) ->
  wp (publish (heap_start (tself w) + total B1) sz)
    (fun _ w' => tlsf_inv (B1 ++ Blk sz true :: B2) w' /\ same_bounds (tself w) (tself w') /\
       kept (bmap false (heap_start (tself w)) (B1 ++ Blk sz true :: B2)) (tmem w) (tmem w')) w.
Proof.
  intros [Hg Hpre Hh [pv Hpost] [L HL]] Hadj.
  pose proof (geometry_mid _ _ _ _ _ Hg) as (Hw1 & Hw2 & Hz & Hdz & Hsz & Hcz & Ht1 & Ht2).
  destruct (boundary_aligned _ B1 (Blk sz false :: B2) w _ Hg eq_refl eq_refl) as (_ & _ & Hpos & Htop).
  simpl in Htop.
  destruct (boundary_aligned _ (B1 ++ [Blk sz false]) B2 w (heap_start (tself w) + total B1 + sz) Hg)
    as (H4n & _); [by list_eq|by tot_eq|].
  destruct (inform_hdrs _ _ _ _ _ _ Hw1 Hw2 Hsz Hz (geometry_suffix_sizes _ _ _ _ Hg) Hpre Hh Hpost)
    as (c & Hlc & Hsc & Hinf).
  unfold publish. wp_step. wp_step. wp_step. wp_step. apply store32_wp; [done|].
  wp_step. eapply (header_mark_prev_free_wp _ _ (bsize c) (bfree c) (flag pv)); [done|done| |].
  { cbn [tmem set_tmem]. rewrite <- Hlc. apply load_store_ne. lia. }
  cbn [tmem set_tmem]. fold (inform (tmem w) (heap_start (tself w) + total B1 + sz) sz c).
  wp_step. wp_step. unfold non_null. rewrite (proj2 (Z.eqb_neq _ 0)) by lia. wp_step.
  eapply wp_mono; [apply (insert_block_wp B1 sz B2 (set_tmem _ w) L)|].
  - eapply geometry_same; [exact Hg|done|apply (g_wf _ _ Hg)|done].
  - apply (inform_lists _ L w); [done|]. by apply end_outside.
  - exact Hinf.
  - done.
  - intros [] w' (Hi & Hb & Hk). split_and!; [done|apply Hb..|].
    eapply kept_trans; [|exact Hk]. apply inform_kept. by apply end_outside.
Qed.

(** ** Taking a block off its list *)

Lemma remove_block_wp D C1 n C2 pf w L a :
  geometry D w -> D = C1 ++ Blk n true :: C2 -> a = heap_start (tself w) + total C1 ->
  lists_ok (bmap true (heap_start (tself w)) D) L w ->
  load 4 (tmem w) (a + 4) = Some (pack n true pf) ->
  wp (remove a) (fun _ w' => exists L',
    lists_ok (bmap true (heap_start (tself w)) (C1 ++ Blk n false :: C2)) L' w' /\
    link_frame (bmap true (heap_start (tself w)) (C1 ++ Blk n false :: C2)) w w') w.
Proof.
  intros Hg -> -> HL Hl.
  pose proof (geometry_mid _ _ _ _ _ Hg) as (Hw1 & Hw2 & Hz & _ & Hsz & _).
  eapply wp_mono.
  { eapply (remove_wp _ L w _ n); [exact HL| |exact Hl|by apply size_pack].
    destruct (bmap_flip true (heap_start (tself w)) C1 n C2 Hw1 Hw2 Hz) as [-> _]. apply lookup_insert_eq. }
  intros [] w' (L' & HL' & Hf). rewrite (bmap_take true _ C1 n C2 Hw1 Hw2 Hz) in HL', Hf.
  by exists L'.
Qed.

(** List operations on the blocks of [D] keep the headers of its parts. *)
Lemma link_frame_sub D w w' s a pv P :
  wf D -> link_frame (bmap true s D) w w' -> haddrs a P ⊆ haddrs s (D ++ [sentinel]) ->
  hdrs (tmem w) a pv P -> hdrs (tmem w') a pv P.
Proof.
  intros Hw Hf Hsub. eapply link_frame_hdrs; [exact Hf|intros x z; by apply bmap_ge32|].
  intros h Hh. apply haddrs_outside; [done|]. by apply Hsub.
Qed.

Lemma link_frame_hdr D w w' s a b pv :
  wf D -> link_frame (bmap true s D) w w' -> a ∈ haddrs s (D ++ [sentinel]) ->
  hdr (tmem w) a b pv -> hdr (tmem w') a b pv.
Proof.
  intros Hw Hf Ha Hh. refine (proj1 (link_frame_sub D w w' s a pv [b] Hw Hf _ (conj Hh I))).
  simpl. set_solver.
Qed.

Lemma haddrs_mid s B1 b B2 : s + total B1 ∈ haddrs s (B1 ++ b :: B2).
Proof. rewrite haddrs_app. simpl. set_solver. Qed.

Lemma haddrs_l s B1 B2 : haddrs s B1 ⊆ haddrs s (B1 ++ B2).
Proof. rewrite haddrs_app. set_solver. Qed.

Lemma haddrs_r s B1 B2 a : a = s + total B1 -> haddrs a B2 ⊆ haddrs s (B1 ++ B2).
Proof. intros ->. rewrite haddrs_app. set_solver. Qed.

(** Equal sizes, equal header addresses. *)
Lemma haddrs_sizes a P Q : bsize <$> P = bsize <$> Q -> haddrs a P = haddrs a Q.
Proof.
  revert a Q. induction P as [|b P IH]; intros a [|c Q] He; simpl in *; try done.
  injection He as Hb He. rewrite Hb. f_equal. by apply IH.
Qed.

Ltac sizes_eq :=
  apply haddrs_sizes; rewrite <- ?app_assoc; cbn [app];
  repeat (rewrite fmap_app || rewrite fmap_cons); reflexivity.

(** List operations keep a loose block's surroundings. *)
Lemma loose_frame D B1 z B2 w w' s pv :
  wf D -> link_frame (bmap true s D) w w' ->
  haddrs s (D ++ [sentinel]) = haddrs s (B1 ++ Blk z true :: B2 ++ [sentinel]) ->
  hdrs (tmem w) s None B1 -> hdr (tmem w) (s + total B1) (Blk z true) (last_tag None B1) ->
  hdrs (tmem w) (s + total B1 + z) pv (B2 ++ [sentinel]) ->
  hdrs (tmem w') s None B1 /\ hdr (tmem w') (s + total B1) (Blk z true) (last_tag None B1) /\
  hdrs (tmem w') (s + total B1 + z) pv (B2 ++ [sentinel]).
Proof.
  intros Hw Hf Hha H1 H2 H3. split; [|split].
  - eapply link_frame_sub; [done|done| |done]. rewrite Hha. apply haddrs_l.
  - eapply link_frame_hdr; [done|done| |done]. rewrite Hha. apply haddrs_mid.
  - eapply link_frame_sub; [done|done| |done]. rewrite Hha.
    replace (B1 ++ Blk z true :: B2 ++ [sentinel]) with ((B1 ++ [Blk z true]) ++ B2 ++ [sentinel]) by list_eq.
    apply haddrs_r. tot_eq.
Qed.

(** ** Coalescing *)

Lemma geometry_resize B1 z q n r B2 q' w w' :
  geometry (B1 ++ Blk z q :: Blk n r :: B2) w -> same_bounds (tself w) (tself w') ->
  geometry (B1 ++ Blk (z + n) q' :: B2) w'.
Proof.
  intros Hg Hb. pose proof (geometry_mid _ _ _ _ _ Hg) as (Hw1 & [[Hn Hdn] Hw2]%wf_cons & Hz & Hdz & _).
  eapply geometry_same; [exact Hg|done| |by rewrite !total_app; simpl; lia].
  apply wf_app. split; [done|]. apply wf_cons. split; [|done]. simpl in *.
  split; simpl; [lia|by apply Z.divide_add_r].
Qed.

Lemma geometry_kind B1 z q q' B2 w w' :
  geometry (B1 ++ Blk z q :: B2) w -> same_bounds (tself w) (tself w') ->
  geometry (B1 ++ Blk z q' :: B2) w'.
Proof.
  intros Hg Hb. pose proof (geometry_mid _ _ _ _ _ Hg) as (Hw1 & Hw2 & Hz & Hdz & _).
  eapply geometry_same; [exact Hg|done| |by rewrite !total_app]. apply wf_app. split; [done|]. by apply wf_cons.
Qed.

(** The header of a loose block is given a new size. *)
Lemma hdr_set m a b sz f pv : size_ok sz -> hdr m a b pv ->
  hdr (store 4 m (a + 4) (pack sz f (flag pv))) a (Blk sz f) pv.
Proof.
  intros Hs [_ Hp]. split; [apply load_u32_eq; by apply pack_u32|].
  intros p Hpp. rewrite load_store_ne by lia. by apply Hp.
Qed.

Lemma coalesce_next_wp B1 z n B2 w :
  loose B1 z (Blk n true :: B2) w ->
  let s := heap_start (tself w) in
  wp (coalesce_next (s + total B1) z (s + total B1 + z)) (fun r w' =>
    r = z + n /\ loose B1 (z + n) B2 w' /\ same_bounds (tself w) (tself w') /\
    kept (bmap false s (B1 ++ Blk (z + n) true :: B2)) (tmem w) (tmem w')) w.
Proof.
  intros [Hg Hpre Hh [pv Hpost] [L HL]] s. fold s in Hpre, Hh, Hpost, HL.
  pose proof (geometry_mid _ _ _ _ _ Hg) as (Hw1 & [[Hn Hdn] Hw2]%wf_cons & Hz & Hdz & Hsz & _). simpl in Hn.
  destruct (geometry_size_ok _ (Blk n true) w Hg ltac:(set_solver)) as [Hsn _]. simpl in Hsn.
  pose proof (geometry_resize _ _ _ _ _ _ false w w Hg ltac:(done)) as Hgr.
  pose proof (geometry_mid _ _ _ _ _ Hgr) as (_ & _ & _ & _ & Hszn & _).
  set (a := s + total B1) in *. set (D := B1 ++ Blk z false :: Blk n false :: B2).
  destruct (boundary_aligned _ B1 _ w a Hg eq_refl eq_refl) as (H4 & _ & Hpos & Htop).
  destruct (boundary_aligned _ (B1 ++ [Blk z false]) _ w (a + z) Hg ltac:(list_eq) ltac:(subst a; tot_eq))
    as (H4n & _ & Hposn & _).
  assert (HwD : wf D) by (unfold D; apply wf_app; rewrite !wf_cons; done).
  pose proof Hpost as [[Hln _] _]. simpl in Htop, Hln. pose proof (wf_total _ Hw2) as [Ht2 _].
  unfold coalesce_next. wp_step. wp_step. unfold non_null. rewrite (proj2 (Z.eqb_neq _ 0)) by lia. wp_step.
  wp_step. eapply wp_mono.
  { apply (remove_block_wp _ (B1 ++ [Blk z false]) n B2 (flag pv) w L (a + z) Hg); [list_eq|subst a; tot_eq|done|done]. }
  intros [] w1 (L1 & HL1 & Hf). rewrite <- app_assoc in HL1, Hf. simpl app in HL1, Hf. fold s D in HL1, Hf.
  destruct (loose_frame D B1 z (Blk n true :: B2) w w1 s pv HwD Hf) as (Hpre1 & Hh1 & Hpost1);
    [by unfold D; sizes_eq|done..|].
  pose proof (proj1 Hf) as Hb1. destruct Hb1 as [Hs1 He1] eqn:E; clear E. fold s in Hs1.
  pose proof Hpost1 as [[Hln1 _] Hrest]. simpl in Hln1, Hrest. fold a in Hh1, Hln1, Hrest.
  wp_step. eapply read_saf_wp; [done|exact Hln1|]. rewrite size_pack by done.
  wp_step. wp_step. wp_step. wp_step. eapply read_saf_wp; [done|apply Hh1|]. rewrite prev_is_free_pack by done.
  wp_step. apply header_set_wp; [done|unfold size_ok, u32_max in *; lia|]. wp_step.
  split; [done|]. unfold D in HL1, Hf. rewrite bmap_merge in HL1, Hf by done.
  split; [|split; [done|]].
  - split; cbn [tself tmem set_tmem]; rewrite ?Hs1; fold s; fold a.
    + exact (geometry_resize _ _ _ _ _ _ false w (set_tmem _ w1) Hg (proj1 Hf)).
    + apply hdrs_store_above; [done|unfold a; lia|done].
    + eapply hdr_set; [done|exact Hh1].
    + eexists. rewrite Z.add_assoc. apply hdrs_store_below; [done|lia|exact Hrest].
    + exists L1. apply (lists_ok_store _ L1 w1 a 4); [done| |lia]. apply boundary_outside, Hgr.
  - eapply kept_trans; [|apply kept_store; [apply boundary_outside, (geometry_kind _ _ _ true _ w w Hgr ltac:(done))|lia]].
    eapply link_frame_kept; [exact Hf|intros x u; apply bmap_ge32, Hgr|].
    intros x u y v. apply hole_disjoint; [done|done|lia].
Qed.

Lemma coalesce_prev_wp B1 p z B2 w :
  loose (B1 ++ [Blk p true]) z B2 w ->
  let s := heap_start (tself w) in
  wp (coalesce_prev (s + total (B1 ++ [Blk p true])) z) (fun r w' =>
    r = (s + total B1, p + z) /\ loose B1 (p + z) B2 w' /\ same_bounds (tself w) (tself w') /\
    kept (bmap false s (B1 ++ Blk (p + z) true :: B2)) (tmem w) (tmem w')) w.
Proof.
  intros [Hg Hpre Hh [pv Hpost] [L HL]] s. fold s in Hpre, Hh, Hpost, HL.
  rewrite <- app_assoc in Hg, HL. simpl app in Hg, HL.
  apply hdrs_prefix in Hpre as (Hpre & Hhp & _). rewrite last_tag_app in Hh.
  replace (s + total (B1 ++ [Blk p true])) with (s + total B1 + p) in * by tot_eq.
  pose proof (geometry_mid _ _ _ _ _ Hg) as (Hw1 & [[Hz Hdz] Hw2]%wf_cons & Hp & Hdp & Hsp & _). simpl in Hz.
  pose proof (geometry_resize _ _ _ _ _ _ false w w Hg ltac:(done)) as Hgr.
  pose proof (geometry_mid _ _ _ _ _ Hgr) as (_ & _ & _ & _ & Hspz & _).
  set (a := s + total B1) in *. set (D := B1 ++ Blk p false :: Blk z false :: B2).
  destruct (boundary_aligned _ B1 _ w a Hg eq_refl eq_refl) as (H4 & _ & Hpos & Htop).
  destruct (boundary_aligned _ (B1 ++ [Blk p true]) _ w (a + p) Hg ltac:(list_eq) ltac:(subst a; tot_eq))
    as (H4n & _ & Hposn & _).
  assert (HwD : wf D) by (unfold D; apply wf_app; rewrite !wf_cons; done).
  simpl in Htop. pose proof (wf_total _ Hw2) as [Ht2 _].
  assert (Hha : haddrs s (D ++ [sentinel]) = haddrs s ((B1 ++ [Blk p true; Blk z true]) ++ B2 ++ [sentinel])).
  { unfold D. sizes_eq. }
  unfold coalesce_prev. wp_step. apply (load32_wp _ _ p); [done|by apply Hh|]. wp_step. wp_step. wp_step.
  replace (a + p - p) with a by lia. wp_step. wp_step. unfold non_null.
  rewrite (proj2 (Z.eqb_neq a 0)) by lia. wp_step. wp_step. eapply wp_mono.
  { eapply (remove_block_wp _ B1 p (Blk z false :: B2) _ w L a Hg eq_refl eq_refl HL). apply Hhp. }
  intros [] w1 (L1 & HL1 & Hf). fold s D in HL1, Hf.
  assert (Hpre1 : hdrs (tmem w1) s None B1).
  { eapply link_frame_sub; [exact HwD|exact Hf| |done]. rewrite Hha, <- app_assoc. apply haddrs_l. }
  assert (Hhp1 : hdr (tmem w1) a (Blk p true) (last_tag None B1)).
  { eapply link_frame_hdr; [exact HwD|exact Hf| |done]. rewrite Hha, <- app_assoc. apply haddrs_mid. }
  assert (Hpost1 : hdrs (tmem w1) (a + p + z) pv (B2 ++ [sentinel])).
  { eapply link_frame_sub; [exact HwD|exact Hf| |done]. rewrite Hha. apply haddrs_r. subst a. tot_eq. }
  pose proof (proj1 Hf) as [Hs1 He1]. fold s in Hs1.
  wp_step. wp_step. wp_step. wp_step. eapply read_saf_wp; [done|apply Hhp1|]. rewrite prev_is_free_pack by done.
  rewrite (Z.add_comm z p).
  wp_step. apply header_set_wp; [done|unfold size_ok, u32_max in *; lia|]. wp_step.
  split; [done|]. unfold D in HL1, Hf. rewrite bmap_merge in HL1, Hf by done.
  split; [|split; [done|]].
  - split; cbn [tself tmem set_tmem]; rewrite ?Hs1; fold s; fold a.
    + exact (geometry_resize _ _ _ _ _ _ false w (set_tmem _ w1) Hg (proj1 Hf)).
    + apply hdrs_store_above; [done|unfold a; lia|done].
    + eapply hdr_set; [done|exact Hhp1].
    + exists pv. rewrite Z.add_assoc. apply hdrs_store_below; [done|lia|exact Hpost1].
    + exists L1. apply (lists_ok_store _ L1 w1 a 4); [done| |lia]. apply boundary_outside, Hgr.
  - eapply kept_trans; [|apply kept_store; [apply boundary_outside, (geometry_kind _ _ _ true _ w w Hgr ltac:(done))|lia]].
    eapply link_frame_kept; [exact Hf|intros x u; apply bmap_ge32, Hgr|].
    intros x u y v. apply hole_disjoint; [done|done|lia].
Qed.

(** ** [free] *)

Lemma no_adj_app B2 : forall B1, no_adj (B1 ++ B2) <->
  no_adj B1 /\ no_adj B2 /\
  (forall b c, last B1 = Some b -> head B2 = Some c -> bfree b = false \/ bfree c = false).
Proof.
  induction B1 as [|b B1 IH]; simpl.
  - split; [by intros|tauto].
  - destruct B1 as [|b1 B1]; simpl in *.
    + destruct B2 as [|c B2]; simpl; [split; [by intros|tauto]|]. split.
      * intros [H1 H2]. split_and!; [done|done|]. by intros ? ? [= <-] [= <-].
      * intros (_ & H & Hl). by split; [apply Hl|].
    + rewrite IH. change (last (b :: b1 :: B1)) with (last (b1 :: B1)). tauto.
Qed.

(** Blocks that are in use on both sides can be joined by a free one. *)
Lemma no_adj_free B1 sz B2 :
  no_adj B1 -> no_adj B2 -> (forall b, last B1 = Some b -> bfree b = false) ->
  (forall c, head B2 = Some c -> bfree c = false) -> no_adj (B1 ++ Blk sz true :: B2).
Proof.
  intros H1 H2 Hl Hh. apply no_adj_app. split_and!; [done| |].
  - destruct B2 as [|c B2]; simpl; [done|]. split; [right; by apply Hh|done].
  - intros b c Hb [= <-]. left. by apply Hl.
Qed.

Lemma mark_loose B1 z B2 w :
  tlsf_inv (B1 ++ Blk z false :: B2) w ->
  let a := heap_start (tself w) + total B1 in
  loose B1 z B2 (set_tmem (store 4 (tmem w) (a + 4) (pack z true (flag (last_tag None B1)))) w) /\
  kept (bmap false (heap_start (tself w)) (B1 ++ Blk z true :: B2)) (tmem w)
    (store 4 (tmem w) (a + 4) (pack z true (flag (last_tag None B1)))).
Proof.
  intros [Hg _ Hh [L HL]] a. rewrite <- app_assoc in Hh. apply hdrs_prefix in Hh as (H1 & H2 & H3).
  pose proof (geometry_mid _ _ _ _ _ Hg) as (Hw1 & Hw2 & Hz & Hdz & Hsz & _). fold a in H2, H3.
  pose proof (geometry_kind _ _ _ true _ w w Hg ltac:(done)) as Hgt.
  split; [split|]; cbn [tself tmem set_tmem]; fold a.
  - eapply geometry_kind; [exact Hg|done].
  - apply hdrs_store_above; [done|unfold a; lia|done].
  - by eapply hdr_set.
  - eexists. apply hdrs_store_below; [done|lia|exact H3].
  - exists L. apply (lists_ok_store _ L w a 4); [done| |lia]. apply boundary_outside, Hg.
  - apply kept_store; [apply boundary_outside, Hgt|lia].
Qed.

(** The successor, if free, has been merged; what follows is in use. *)
Lemma forward_wp B1 z B2 w (k : Z -> M tworld unit) (Q : unit -> tworld -> Prop) :
  loose B1 z B2 w -> no_adj B2 ->
  let s := heap_start (tself w) in
  (forall r B2' w', loose B1 r B2' w' -> no_adj B2' ->
     (forall c, head B2' = Some c -> bfree c = false) -> same_bounds (tself w) (tself w') ->
     bmap false s (B1 ++ Blk r true :: B2') = bmap false s (B1 ++ Blk z true :: B2) ->
     kept (bmap false s (B1 ++ Blk z true :: B2)) (tmem w) (tmem w') -> wp (k r) Q w') ->
  wp (e ← gets (fun w => heap_end (tself w));
      nfree ← (if s + total B1 + z <? e then
                 nsaf ← read_saf (s + total B1 + z); mret (is_free nsaf)
               else mret false);
      r ← (if (nfree : bool) then coalesce_next (s + total B1) z (s + total B1 + z) else mret z);
      k r) Q w.
Proof.
  intros Hl Hadj s Hk. pose proof (lo_geo _ _ _ _ Hl) as Hg. pose proof (lo_post _ _ _ _ Hl) as [pv Hpost].
  pose proof (geometry_mid _ _ _ _ _ Hg) as (Hw1 & Hw2 & Hz & _).
  wp_step. wp_step. wp_step. rewrite (g_end _ _ Hg). fold s in Hpost |- *. rewrite total_app. simpl total.
  destruct B2 as [|c B2]; simpl in Hpost |- *.
  - rewrite (proj2 (Z.ltb_ge _ _)) by lia. wp_step. wp_step. wp_step. by apply (Hk z []).
  - apply wf_cons in Hw2 as [[Hc Hdc] Hw2]. pose proof (wf_total _ Hw2).
    rewrite (proj2 (Z.ltb_lt _ _)) by lia.
    destruct (boundary_aligned _ (B1 ++ [Blk z false]) _ w (s + total B1 + z) Hg ltac:(list_eq) ltac:(subst s; tot_eq))
      as (H4n & _).
    destruct (geometry_size_ok _ c w Hg ltac:(set_solver)) as [Hsc _].
    wp_step. eapply read_saf_wp; [done|apply Hpost|]. wp_step. rewrite is_free_pack by done.
    destruct c as [n [|]]; simpl bfree; wp_step.
    + eapply wp_mono; [by apply coalesce_next_wp|]. intros r w' (-> & Hl' & Hb & Hkp). fold s in Hkp.
      apply (no_adj_app B2 [Blk n true]) in Hadj as (_ & Hadj & Hn).
      apply (Hk (z + n) B2); rewrite ?bmap_merge by done; try done.
      intros c Hc'. by destruct (Hn (Blk n true) c eq_refl Hc').
    + wp_step. apply (Hk z (Blk n false :: B2)); try done. by intros c [= <-].
Qed.

Lemma backward_wp B1 z B2 w (k : Z -> Z -> M tworld unit) (Q : unit -> tworld -> Prop) :
  loose B1 z B2 w -> no_adj B1 ->
  let s := heap_start (tself w) in
  (forall r B1' w', loose B1' r B2 w' -> no_adj B1' ->
     (forall c, last B1' = Some c -> bfree c = false) -> same_bounds (tself w) (tself w') ->
     bmap false s (B1' ++ Blk r true :: B2) = bmap false s (B1 ++ Blk z true :: B2) ->
     kept (bmap false s (B1 ++ Blk z true :: B2)) (tmem w) (tmem w') ->
     wp (k (s + total B1') r) Q w') ->
  wp (hsaf ← read_saf (s + total B1);
      '(h, r) ← (if prev_is_free hsaf then coalesce_prev (s + total B1) z else mret (s + total B1, z));
      k h r) Q w.
Proof.
  intros Hl Hadj s Hk. pose proof (lo_geo _ _ _ _ Hl) as Hg. pose proof (lo_hdr _ _ _ _ Hl) as Hh.
  pose proof (geometry_mid _ _ _ _ _ Hg) as (Hw1 & Hw2 & Hz & _ & Hsz & _). fold s in Hh.
  destruct (boundary_aligned _ B1 _ w (s + total B1) Hg eq_refl eq_refl) as (H4 & _).
  wp_step. eapply read_saf_wp; [done|apply Hh|]. rewrite prev_is_free_pack by done. wp_step.
  destruct B1 as [|b B1 _] using rev_ind; [|destruct b as [p [|]]].
  - change (flag (last_tag None [])) with false. cbv iota. wp_step. by apply (Hk z []).
  - rewrite last_tag_app. simpl flag. cbv iota.
    eapply wp_mono; [by apply coalesce_prev_wp|]. intros r w' (-> & Hl' & Hb & Hkp). fold s in Hkp |- *.
    apply no_adj_app in Hadj as (Hadj & _ & Hn). rewrite <- app_assoc in Hk. simpl app in Hk.
    rewrite bmap_merge in Hk by done. apply (Hk (p + z) B1); try done.
    intros c Hc. by destruct (Hn c _ Hc eq_refl).
  - rewrite last_tag_app. simpl flag. cbv iota. wp_step. apply (Hk z (B1 ++ [Blk p false])); try done.
    intros c. rewrite last_snoc. by intros [= <-].
Qed.

Lemma free_wp B1 z B2 w :
  tlsf_inv (B1 ++ Blk z false :: B2) w ->
  let s := heap_start (tself w) in
  let U := delete (s + total B1) (bmap false s (B1 ++ Blk z false :: B2)) in
  wp (free (s + total B1 + 8)) (fun _ w' => exists B', tlsf_inv B' w' /\
    same_bounds (tself w) (tself w') /\ bmap false s B' = U /\ kept U (tmem w) (tmem w')) w.
Proof.
  intros Hinv s U. destruct (mark_loose _ _ _ _ Hinv) as [Hlo Hk0]. cbv zeta in Hlo, Hk0. fold s in Hlo, Hk0.
  destruct Hinv as [Hg Hadj Hh _]. rewrite <- app_assoc in Hh. apply hdrs_prefix in Hh as (_ & Hh & _). fold s in Hh.
  pose proof (geometry_mid _ _ _ _ _ Hg) as (Hw1 & Hw2 & Hz & _ & Hsz & _).
  destruct (boundary_aligned _ B1 _ w (s + total B1) Hg eq_refl eq_refl) as (H4 & _ & Hpos & Htop). simpl in Htop.
  assert (HU : U = bmap false s (B1 ++ Blk z true :: B2)) by by apply (bmap_take false).
  clearbody U. subst U. pose proof (wf_total _ Hw2) as [Ht2 _].
  apply no_adj_app in Hadj as (Hadj1 & Hadj2 & _). apply (no_adj_app B2 [Blk z false]) in Hadj2 as (_ & Hadj2 & _).
  unfold free. rewrite (proj2 (Z.eqb_neq _ 0)) by lia. unfold HEADER_SIZE. wp_step. wp_step. wp_step.
  replace (s + total B1 + 8 - 8) with (s + total B1) by lia.
  wp_step. eapply read_saf_wp; [done|apply Hh|]. simpl bsize. rewrite size_pack by done.
  wp_step. eapply header_mark_free_wp; [done|exact Hsz|apply Hh|].
  wp_step. wp_step. wp_step.
  apply (forward_wp _ _ _ _ _ _ Hlo Hadj2). cbn [tself tmem set_tmem]. fold s.
  intros r B2' w1 Hl1 Hn2 Hh2 [Hs1 He1] HU1 Hk1. cbn [tself set_tmem] in Hs1, He1. fold s in Hs1. rewrite <- Hs1.
  apply (backward_wp _ _ _ _ _ _ Hl1 Hadj1). rewrite Hs1. fold s.
  intros r' B1' w2 Hl2 Hn1 Hh1 [Hs2 He2] HU2 Hk2. rewrite Hs1 in Hs2. fold s in Hs2.
  pose proof (publish_wp _ _ _ _ Hl2 (no_adj_free _ r' _ Hn1 Hn2 Hh1 Hh2)) as Hp. rewrite Hs2 in Hp.
  eapply wp_mono; [exact Hp|]. intros [] w3 (Hi3 & [Hs3 He3] & Hk3). rewrite HU2, HU1 in Hk3. rewrite HU1 in Hk2.
  exists (B1' ++ Blk r' true :: B2'). unfold s in *. split_and!; [done|split; congruence|congruence|].
  eapply kept_trans; [exact Hk0|]. eapply kept_trans; [exact Hk1|]. by eapply kept_trans.
Qed.
