(* ===== verification/TlsfMalloc.v ===== *)
(** * TLSF: the search, [malloc] and [init] *)

From S2P Require Import Prelude Memory Dll Tlsf TlsfInv TlsfLists TlsfPhys TlsfAlloc.
Local Open Scope rust_scope.

(** ** The search *)

(** The headers of the blocks on the lists hold their sizes. *)
Definition headers_say (F : gmap Z Z) (m : memory) : Prop :=
  forall x z, F !! x = Some z -> exists saf, load 4 m (x + 4) = Some saf /\ size saf = z.

(** A block of [F] of at least [needed] bytes has been taken off its list. *)
Definition taken (F : gmap Z Z) (needed : Z) (w : tworld) (x : Z) (w' : tworld) : Prop :=
  exists z L', F !! x = Some z /\ needed <= z /\
    lists_ok (delete x F) L' w' /\ link_frame (delete x F) w w'.

(** The class of [z] comes after the class of [needed]. *)
Definition later_class (needed z : Z) : Prop :=
  fl_of needed < fl_of z \/ (fl_of needed = fl_of z /\ sl_of needed < sl_of z).

Lemma later_class_larger needed z : 32 <= needed -> 32 <= z -> later_class needed z -> needed < z.
Proof.
  intros Hn Hz [H|[H1 H2]]; [by apply later_fl_larger|by apply later_sl_larger].
Qed.

(** The first block of the list of class [(f, l)]. *)
Definition list_head (w : tworld) (f l : Z) : option Z :=
  match free_lists (tself w) !! Z.to_nat f with
  | Some row => default None (row !! Z.to_nat l)
  | None => None
  end.

(** The blocks a search for [needed] bytes looks at: of the request's first level, the
    first block of each list from the request's class on; of later levels, all. *)
Definition considered (w : tworld) (needed x z : Z) : Prop :=
  let f := Z.min (fl_of needed) 18 in
  (exists l, sl_of needed <= l < 32 /\ list_head w f l = Some x) \/ f < fl_of z.

Section search.
Context {F : gmap Z Z} {L : Z -> Z -> list Z} {w : tworld}.
Context (Hok : lists_ok F L w) (Hsay : headers_say F (tmem w)).

Lemma head_block f l x : head (L f l) = Some x ->
  exists z saf, F !! x = Some z /\ bucket z = (f, l) /\ class_ok z /\ (4 | x) /\
    load 4 (tmem w) (x + 4) = Some saf /\ size saf = z.
Proof.
  intros Hx%head_elem. destruct (lists_in_F Hok _ _ _ Hx) as (z & Hz & Hb).
  destruct (Hsay x z Hz) as (saf & Hs & Hsz). destruct (l_node _ _ _ Hok x z Hz) as (Hd & _ & _ & Hc).
  exists z, saf. split_and!; try done; try apply Hc. apply (Z.divide_trans 4 8); [by exists 2|done].
Qed.

Lemma head_listed f l : in_range f l -> list_head w f l = head (L f l).
Proof.
  intros Hr. destruct (l_heads _ _ _ Hok) as [_ _ Ha]. destruct (Ha f l Hr) as (row & Hrow & Hat).
  unfold list_head. by rewrite Hrow, Hat.
Qed.

Lemma pop_wp f l x z needed : in_range f l -> head (L f l) = Some x -> F !! x = Some z -> needed <= z ->
  wp (pop f l) (fun r w' => r = x /\ taken F needed w x w') w.
Proof.
  intros Hr Hx Hz Hn. destruct (head_block f l x Hx) as (z' & saf & Hz' & _ & _ & _ & Hs & Hsz).
  assert (z' = z) by congruence. subst z'.
  unfold pop. wp_step. eapply get_list_wp; [by apply Hok|done|]. cbv beta. rewrite Hx.
  wp_step. wp_step. cbn [expect]. wp_step. wp_step. eapply wp_mono; [by eapply remove_wp|].
  intros [] w' (L' & HL' & Hf). wp_step. split; [done|]. by exists z, L'.
Qed.

Lemma scan_buckets_wp f needed : 0 <= f < 19 -> forall n l0, 0 <= l0 -> l0 + Z.of_nat n = 32 ->
  wp (scan_buckets n f needed l0) (fun r w' =>
    match r with
    | Some x => taken F needed w x w' /\ exists l, l0 <= l < 32 /\ head (L f l) = Some x
    | None => w' = w /\ forall l x z, l0 <= l < 32 -> head (L f l) = Some x -> F !! x = Some z -> z < needed
    end) w.
Proof.
  intros Hf. induction n as [|n IH]; intros l0 H0 Hn; cbn [scan_buckets].
  { wp_step. split; [done|]. intros. lia. }
  assert (Hnext : (forall x z, head (L f l0) = Some x -> F !! x = Some z -> z < needed) ->
    wp (scan_buckets n f needed (l0 + 1)) (fun r w' =>
    match r with
    | Some x => taken F needed w x w' /\ exists l, l0 <= l < 32 /\ head (L f l) = Some x
    | None => w' = w /\ forall l x z, l0 <= l < 32 -> head (L f l) = Some x -> F !! x = Some z -> z < needed
    end) w).
  { intros Hl0. eapply wp_mono; [apply IH; lia|]. intros [x|] w'; [intros [? (l & ? & ?)]; split; [done|]; exists l; split; [lia|done]|]. intros [-> Hs]. split; [done|].
    intros l x z Hl. destruct (decide (l = l0)) as [->|]; [apply Hl0|apply Hs; lia]. }
  wp_step. eapply get_sl_wp; [by apply Hok|done|]. intros b _ _ Hbit. wp_step. wp_step. wp_step.
  rewrite land_pow2_test by lia. destruct (Z.testbit b l0) eqn:E.
  - wp_step. eapply get_list_wp; [by apply Hok|split; [done|lia]|]. cbv beta.
    destruct (head (L f l0)) as [x|] eqn:Ex; [|apply Hnext; done].
    destruct (head_block f l0 x Ex) as (z & saf & Hz & _ & _ & H4 & Hs & Hsz).
    wp_step. eapply read_saf_wp; [done|done|]. rewrite Hsz. case_test Hle.
    + wp_step. eapply wp_mono; [apply (pop_wp f l0 x z needed); [split; [done|lia]|done..]|].
      intros r w' [-> Ht]. wp_step. split; [done|]. exists l0. split; [lia|done].
    + apply Hnext. intros x' z' [= <-] Hz'. assert (z' = z) by congruence. lia.
  - apply Hnext. intros x z Hx. exfalso.
    assert (Z.testbit b l0 = true) by (apply Hbit; [lia|by rewrite Hx]). congruence.
Qed.

(** Masking a bitmap from position [n] on. *)
Lemma masked b m n (P : Z -> Prop) :
  in_u32 b -> 0 <= m -> (forall i, 0 <= i -> Z.testbit m i = (n <=? i) && (i <? 32)) ->
  (forall l, 0 <= l < 32 -> Z.testbit b l = true <-> P l) ->
  in_u32 (Z.land b m) /\
  (forall l, 0 <= l < 32 -> Z.testbit (Z.land b m) l = true <-> P l /\ n <= l).
Proof.
  intros Hb Hm Hbits HP. split.
  - apply in_u32_pow. apply in_u32_pow in Hb. by apply land_lt_pow2.
  - intros l Hl. rewrite Z.land_spec, andb_true_iff, HP, Hbits, andb_true_iff by lia.
    rewrite Z.leb_le, Z.ltb_lt. intuition lia.
Qed.

(** The buckets of the first level index itself. *)
Lemma scan_level_wp f sl needed b m :
  0 <= f < 19 -> 0 <= sl < 32 -> in_u32 b -> 0 <= m ->
  (forall i, 0 <= i -> Z.testbit m i = (sl <=? i) && (i <? 32)) ->
  (forall l, 0 <= l < 32 -> Z.testbit b l = true <-> head (L f l) <> None) ->
  wp (if Z.land b m =? 0 then mret None
      else scan_buckets (Z.to_nat (SL_COUNT - trailing_zeros (Z.land b m))) f needed
             (trailing_zeros (Z.land b m)))
    (fun r w' => match r with
      | Some x => taken F needed w x w' /\ exists l, sl <= l < 32 /\ head (L f l) = Some x
      | None => w' = w /\ forall l x z, sl <= l < 32 -> head (L f l) = Some x ->
                  F !! x = Some z -> z < needed
      end) w.
Proof.
  intros Hf Hsl Hbu Hm0 Hm Hbit.
  destruct (masked b m sl (fun l => head (L f l) <> None) Hbu Hm0 Hm Hbit) as [Hmu Hmap].
  set (sl_map := Z.land b m) in *. destruct (Z.eqb_spec sl_map 0) as [Hz|Hnz].
  - wp_step. split; [done|]. intros l x z Hl Hx. exfalso.
    apply (proj1 (u32_zero _ Hmu) Hz l ltac:(lia)). apply Hmap; [lia|]. split; [by rewrite Hx|lia].
  - destruct (trailing_zeros_spec _ Hmu Hnz) as (Htz & Hbt & Hlow).
    eapply wp_mono; [apply scan_buckets_wp; [done|lia|unfold SL_COUNT; lia]|].
    assert (Hge : sl <= trailing_zeros sl_map) by (apply Hmap in Hbt; [lia|done]).
    intros [x|] w'; [intros [? (l & ? & ?)]; split; [done|]; exists l; split; [lia|done]|].
    intros [-> Hs]. split; [done|]. intros l x z Hl Hx Hz.
    destruct (Z.lt_ge_cases l (trailing_zeros sl_map)) as [Hlt|Hle]; [|by apply (Hs l x); try lia].
    exfalso. pose proof (Hlow l ltac:(lia)) as Hfalse.
    assert (Z.testbit sl_map l = true) by (apply Hmap; [lia|]; split; [by rewrite Hx|lia]). congruence.
Qed.

(** The first non-empty list of a higher level: any of its blocks is large enough. *)
Lemma higher_level_wp f needed : (forall z, class_ok z -> f < fl_of z -> needed <= z) ->
  let fm := Z.land (fl_bitmap (tself w)) in
  forall m, 0 <= m -> (forall i, 0 <= i -> Z.testbit m i = (f + 1 <=? i) && (i <? 32)) ->
  wp (if fm m =? 0 then mret None
      else b2 ← get_sl (trailing_zeros (fm m));
           p ← pop (trailing_zeros (fm m)) (trailing_zeros b2);
           mret (Some p)) (fun r w' =>
    match r with
    | Some x => taken F needed w x w' /\ exists z, F !! x = Some z /\ f < fl_of z
    | None => w' = w /\ forall x z, F !! x = Some z -> fl_of z <= f
    end) w.
Proof.
  intros Hbig fm m Hm0 Hm. pose proof (l_bits _ _ _ Hok) as [Hlen Hsl Hfu Hfb].
  destruct (masked (fl_bitmap (tself w)) m _ _ Hfu Hm0 Hm Hfb) as [Hmu Hmap]. fold fm in Hmu, Hmap.
  destruct (Z.eqb_spec (fm m) 0) as [Hz|Hnz].
  - wp_step. split; [done|]. intros x z Hx. destruct (Z.le_gt_cases (fl_of z) f) as [|Hgt]; [done|].
    exfalso. destruct (l_node _ _ _ Hok x z Hx) as (_ & _ & _ & Hc). pose proof (class_fl z Hc) as [Hfz Hsz].
    apply (proj1 (u32_zero _ Hmu) Hz (fl_of z) ltac:(lia)). apply Hmap; [lia|]. split; [|lia].
    split; [lia|]. exists (sl_of z). split; [done|].
    assert (HxL : x ∈ L (fl_of z) (sl_of z)) by (apply (l_mem _ _ _ Hok); by exists z).
    destruct (L (fl_of z) (sl_of z)); [by apply not_elem_of_nil in HxL|done].
  - destruct (trailing_zeros_spec _ Hmu Hnz) as (Htz & Hbt & _). set (f2 := trailing_zeros (fm m)) in *.
    apply Hmap in Hbt as [[Hr (l & Hl & Hne)] Hge]; [|lia].
    wp_step. eapply get_sl_wp; [by apply Hok|done|]. intros b Hb Hbu Hbit.
    assert (b <> 0) as Hb0. { intros ->. apply (Hbit l Hl) in Hne. by rewrite Z.testbit_0_l in Hne. }
    destruct (trailing_zeros_spec _ Hbu Hb0) as (Ht2 & Hbt2 & _). apply Hbit in Hbt2; [|lia].
    destruct (head (L f2 (trailing_zeros b))) as [x|] eqn:Ex; [|done].
    destruct (head_block _ _ x Ex) as (z & _ & Hz & Hbk & Hc & _).
    wp_step. eapply wp_mono; [apply (pop_wp _ _ x z needed); [done|done|done|]|].
    + injection Hbk as Hfz _. apply Hbig; [done|lia].
    + intros r w' [-> Ht]. wp_step. split; [done|]. exists z. injection Hbk as Hfz _. split; [done|lia].
Qed.

Lemma find_block_wp needed : 32 <= needed ->
  wp (find_block (Z.min (fl_of needed) 18) (sl_of needed) needed) (fun r w' =>
    match r with
    | Some x => taken F needed w x w' /\ exists z, F !! x = Some z /\ considered w needed x z
    | None => w' = w /\ forall x z, F !! x = Some z -> considered w needed x z -> z < needed
    end) w.
Proof.
  intros Hn. set (f := Z.min (fl_of needed) 18). pose proof (sl_range needed ltac:(lia)) as Hsl.
  assert (Hf : 0 <= f < 19).
  { unfold f, fl_of. pose proof (Z.log2_le_mono 32 needed ltac:(lia)). simpl in *. lia. }
  unfold find_block. wp_step. eapply get_sl_wp; [by apply Hok|done|]. intros b Hb Hbu Hbit.
  wp_step. wp_step. destruct (mask_from_spec (sl_of needed) Hsl) as (m & -> & Hm0 & Hm). wp_step.
  wp_step. eapply wp_mono; [by eapply (scan_level_wp f (sl_of needed))|].
  intros [x|] w'.
  { intros [Ht (l & Hl & Hx)]. wp_step. split; [done|]. destruct (head_block _ _ _ Hx) as (z & _ & Hz & _).
    exists z. split; [done|]. left. exists l. fold f. rewrite head_listed by (split; lia). split; [lia|done]. }
  intros [-> Hsame]. unfold get_fl. wp_step. wp_step. wp_step. wp_step.
  destruct (mask_from_spec (f + 1) ltac:(lia)) as (fm & -> & Hfm0 & Hfm). wp_step.
  eapply wp_mono; [apply (higher_level_wp f needed); [|done|done]|].
  - intros z Hc Hlt. pose proof (class_fl z Hc). unfold class_ok in Hc.
    pose proof (later_fl_larger needed z ltac:(lia) ltac:(lia) ltac:(lia)). lia.
  - intros [x|] w'; [intros [Ht (z & Hz & Hlt)]; split; [done|]; exists z; split; [done|by right]|].
    intros [-> Hfl]. split; [done|]. intros x z Hx [(l & Hl & Hh)|Hlt]; [|specialize (Hfl x z Hx); fold f in Hlt; lia].
    fold f in Hh. rewrite head_listed in Hh by (split; lia). by apply (Hsame l x).
Qed.

(** Nothing considered fits: no block is of a later class than the request. *)
Lemma none_later needed : 32 <= needed ->
  (forall x z, F !! x = Some z -> considered w needed x z -> z < needed) ->
  forall x z, F !! x = Some z -> ~ later_class needed z.
Proof.
  intros Hn Hno x z Hx Hlater. destruct (l_node _ _ _ Hok x z Hx) as (_ & _ & _ & Hc).
  pose proof (class_fl z Hc) as [Hfz Hsz]. pose proof (sl_range needed ltac:(lia)) as Hsl.
  pose proof (Z.log2_le_mono 32 needed ltac:(lia)) as Hl5. simpl in Hl5.
  destruct Hlater as [Hlt|[Heq Hlt]].
  - unfold class_ok in Hc. pose proof (later_fl_larger needed z ltac:(lia) ltac:(lia) ltac:(lia)).
    enough (z < needed) by lia. apply (Hno x); [done|]. right. lia.
  - assert (HxL : x ∈ L (fl_of z) (sl_of z)) by (apply (l_mem _ _ _ Hok); by exists z).
    destruct (head (L (fl_of z) (sl_of z))) as [y|] eqn:Ey; [|destruct (L (fl_of z) (sl_of z)); [by apply not_elem_of_nil in HxL|done]].
    destruct (head_block _ _ y Ey) as (zy & _ & Hy & Hby & Hcy & _). injection Hby as Hfy Hsy. unfold class_ok in *.
    pose proof (later_sl_larger needed zy ltac:(lia) ltac:(lia) ltac:(lia) ltac:(lia)).
    enough (zy < needed) by lia. apply (Hno y); [done|]. left. exists (sl_of z).
    replace (Z.min (fl_of needed) 18) with (fl_of z) by lia. rewrite head_listed by (split; lia). split; [lia|done].
Qed.
End search.

(** ** Cutting the block *)

(** The free block between [B1] and [B2] has left its list, nothing else changed. *)
Record held (B1 : list block) (z : Z) (B2 : list block) (w : tworld) : Prop := {
  he_geo : geometry (B1 ++ Blk z true :: B2) w;
  he_adj : no_adj (B1 ++ Blk z true :: B2);
  he_hdrs : hdrs (tmem w) (heap_start (tself w)) None (B1 ++ Blk z true :: B2 ++ [sentinel]);
  he_lists : exists L, lists_ok (bmap true (heap_start (tself w)) (B1 ++ Blk z false :: B2)) L w
}.

Lemma bmap_lookup_split p a B x z :
  bmap p a B !! x = Some z -> exists B1 B2, B = B1 ++ Blk z p :: B2 /\ x = a + total B1.
Proof.
  revert a. induction B as [|b B IH]; intros a; simpl; [done|].
  assert (Hrec : bmap p (a + bsize b) B !! x = Some z ->
    exists B1 B2, b :: B = B1 ++ Blk z p :: B2 /\ x = a + total B1).
  { intros (B1 & B2 & -> & ->)%IH. exists (b :: B1), B2. split; [done|]. simpl. lia. }
  destruct (eqb (bfree b) p) eqn:E; [|done].
  intros [[<- <-]|[_ Hx]]%lookup_insert_Some; [|by apply Hrec].
  exists [], B. apply eqb_prop in E as <-. split; [by destruct b|simpl; lia].
Qed.

Lemma inv_headers_say B w : tlsf_inv B w -> headers_say (bmap true (heap_start (tself w)) B) (tmem w).
Proof.
  intros [Hg _ Hh _] x z (B1 & B2 & -> & ->)%bmap_lookup_split.
  rewrite <- app_assoc in Hh. apply hdrs_prefix in Hh as (_ & [Hl _] & _).
  eexists. split; [exact Hl|]. apply size_pack. by apply (geometry_mid _ _ _ _ _ Hg).
Qed.

Lemma taken_held B w needed x w' :
  tlsf_inv B w -> taken (bmap true (heap_start (tself w)) B) needed w x w' ->
  exists B1 z B2, B = B1 ++ Blk z true :: B2 /\ x = heap_start (tself w) + total B1 /\ needed <= z /\
    held B1 z B2 w' /\ same_bounds (tself w) (tself w') /\
    kept (bmap false (heap_start (tself w)) B) (tmem w) (tmem w').
Proof.
  intros [Hg Hadj Hh _] (z & L' & Hx & Hn & HL & Hf). set (s := heap_start (tself w)) in *.
  destruct (bmap_lookup_split _ _ _ _ _ Hx) as (B1 & B2 & -> & ->).
  pose proof (geometry_mid _ _ _ _ _ Hg) as (Hw1 & Hw2 & Hz & _).
  rewrite (bmap_take true s B1 z B2 Hw1 Hw2 Hz) in HL, Hf. simpl negb in HL, Hf.
  pose proof (proj1 Hf) as [Hs He]. fold s in Hs.
  pose proof (geometry_kind _ _ _ false _ w w Hg ltac:(done)) as Hgf.
  exists B1, z, B2. split_and!; [done|done|done|split|done|].
  - by eapply geometry_kind.
  - done.
  - rewrite Hs. rewrite <- app_assoc in Hh. simpl app in Hh.
    eapply link_frame_sub; [apply Hgf|exact Hf| |exact Hh]. intros h Hin. revert Hin.
    replace (haddrs s ((B1 ++ Blk z false :: B2) ++ [sentinel]))
      with (haddrs s (B1 ++ Blk z true :: B2 ++ [sentinel])); [done|]. sizes_eq.
  - rewrite Hs. by exists L'.
  - eapply link_frame_kept; [exact Hf|intros y u; apply bmap_ge32, Hgf|].
    intros y u y' u'. by apply hole_disjoint.
Qed.

Lemma kept_sub U U' m m' : U ⊆ U' -> kept U' m m' -> kept U m m'.
Proof. intros Hs Hk y u i Hy. apply (Hk y u i). by eapply lookup_weaken. Qed.

(** The three header writes of a split leave the remainder loose. *)
Lemma split_loose B1 t r B2 w :
  held B1 (t + r) B2 w -> 32 <= t -> 32 <= r -> (8 | t) ->
  let s := heap_start (tself w) in
  let a := s + total B1 in
  let m' := store 4 (store 4 (store 4 (tmem w) (a + 4) (pack t false (flag (last_tag None B1))))
              (a + t) (wrap 32 t)) (a + t + 4) (pack r true false) in
  loose (B1 ++ [Blk t false]) r B2 (set_tmem m' w) /\
  kept (bmap false s (B1 ++ Blk (t + r) true :: B2)) (tmem w) m'.
Proof.
  intros [Hg Hadj Hh [L HL]] Ht Hr Hdt s a m'. fold s in Hh, HL.
  pose proof (geometry_mid _ _ _ _ _ Hg) as (Hw1 & Hw2 & Hz & Hdz & [[_ Hsz] _] & _).
  assert (Hdr : (8 | r)) by (replace r with (t + r - t) by lia; by apply Z.divide_sub_r).
  assert (Hst : size_ok t) by (split; [lia|done]). assert (Hsr : size_ok r) by (split; [lia|done]).
  apply hdrs_prefix in Hh as (Hpre & Hx & Hpost). fold a in Hx, Hpost. simpl bsize in Hpost.
  assert (Hwn : wf ((B1 ++ [Blk t false]) ++ Blk r false :: B2)).
  { rewrite <- app_assoc. apply wf_app. split; [done|]. simpl app. rewrite !wf_cons. done. }
  assert (Hmg : bmap true s ((B1 ++ [Blk t false]) ++ Blk r false :: B2) = bmap true s (B1 ++ Blk (t + r) false :: B2)).
  { rewrite <- app_assoc. by apply bmap_merge. }
  assert (Hoa : outside (bmap true s ((B1 ++ [Blk t false]) ++ Blk r false :: B2)) a).
  { rewrite <- app_assoc. apply boundary_outside. by rewrite <- app_assoc in Hwn. }
  assert (Hor : outside (bmap true s ((B1 ++ [Blk t false]) ++ Blk r false :: B2)) (a + t)).
  { replace (a + t) with (s + total (B1 ++ [Blk t false])) by (subst a; tot_eq). by apply boundary_outside. }
  split; [split|]; cbn [tself tmem set_tmem]; fold s;
    replace (s + total (B1 ++ [Blk t false])) with (a + t) by (subst a; tot_eq).
  - eapply geometry_same; [exact Hg|done|done|tot_eq].
  - apply hdrs_prefix. fold a. split; [|split; [|done]]; unfold m'.
    + do 3 (apply hdrs_store_above; [done|subst a; lia|]). done.
    + split; [rewrite !load_store_ne by lia; apply load_u32_eq; by apply pack_u32|].
      intros p Hp. rewrite !load_store_ne by lia. by apply Hx.
  - rewrite last_tag_app. split; [|done]. unfold m'. apply load_u32_eq. by apply pack_u32.
  - eexists. rewrite <- Z.add_assoc. unfold m'. do 3 (apply hdrs_store_below; [done|lia|]). exact Hpost.
  - exists L. rewrite <- Hmg in HL. unfold m'.
    pose proof (lists_ok_store _ L w a 4 (pack t false (flag (last_tag None B1))) HL Hoa ltac:(lia)) as HL1.
    pose proof (lists_ok_store _ L _ (a + t) 0 (wrap 32 t) HL1 Hor ltac:(lia)) as HL2.
    rewrite Z.add_0_r in HL2. exact (lists_ok_store _ L _ (a + t) 4 _ HL2 Hor ltac:(lia)).
  - assert (Hk : forall h, h = a \/ h = a + t ->
      outside (bmap false s (B1 ++ Blk (t + r) true :: B2)) h).
    { intros h Hh y u Hy. pose proof (hole_outside false B1 (t + r) B2 s y u Hw1 Hw2 Hy). fold a in H.
      destruct Hh as [->| ->]; lia. }
    unfold m'. eapply kept_trans; [apply (kept_store _ _ a 4); [auto|lia]|].
    eapply kept_trans; [apply (kept_store0 _ _ (a + t)); auto|].
    apply kept_store; [auto|lia].
Qed.

(** The block at [a] of size [t] is handed out; the rest of the heap is as before. *)
Definition handed_out (B : list block) (w : tworld) (a t : Z) (w' : tworld) : Prop :=
  exists B', tlsf_inv B' w' /\ same_bounds (tself w) (tself w') /\
    bmap false (heap_start (tself w)) B !! a = None /\
    bmap false (heap_start (tself w)) B' = <[a := t]> (bmap false (heap_start (tself w)) B) /\
    kept (bmap false (heap_start (tself w)) B) (tmem w) (tmem w').

Lemma split_block_wp B1 t r B2 w :
  held B1 (t + r) B2 w -> 32 <= t -> 32 <= r -> (8 | t) ->
  let a := heap_start (tself w) + total B1 in
  wp (split_block a t (t + r)) (fun _ w' => handed_out (B1 ++ Blk (t + r) true :: B2) w a t w') w.
Proof.
  intros Hheld Ht Hr Hdt a. destruct (split_loose _ _ _ _ _ Hheld Ht Hr Hdt) as [Hlo Hk]. cbv zeta in Hlo, Hk.
  fold a in Hlo, Hk. set (s := heap_start (tself w)) in *.
  destruct Hheld as [Hg Hadj Hh _]. apply hdrs_prefix in Hh as (_ & Hx & _). fold s a in Hx.
  pose proof (geometry_mid _ _ _ _ _ Hg) as (Hw1 & Hw2 & Hz & _ & Hsz & _). pose proof (wf_total _ Hw2) as [Ht2 _].
  destruct (boundary_aligned _ B1 _ w a Hg eq_refl eq_refl) as (H4 & H8 & Hpos & Htop). simpl in Htop.
  assert (H4r : (4 | a + t)).
  { apply Z.divide_add_r; [done|]. apply (Z.divide_trans 4 8); [by exists 2|done]. }
  unfold split_block. wp_step. wp_step. wp_step. wp_step. wp_step. wp_step.
  replace (t + r - t) with r by lia.
  wp_step. eapply read_saf_wp; [done|apply Hx|]. rewrite prev_is_free_pack by done.
  wp_step. apply header_set_wp; [done|unfold size_ok, u32_max in *; lia|].
  wp_step. apply store32_wp; [done|].
  wp_step. apply header_set_wp; [done|unfold size_ok, u32_max in *; lia|].
  cbn [tmem set_tmem]. apply no_adj_app in Hadj as (Hadj1 & Hadj2 & _).
  apply (no_adj_app B2 [Blk (t + r) true]) in Hadj2 as (_ & Hadj2 & Hn2).
  assert (Hadj' : no_adj ((B1 ++ [Blk t false]) ++ Blk r true :: B2)).
  { apply no_adj_free; [|done| |].
    - apply no_adj_app. split_and!; [done|done|]. intros b c _ [= <-]. by right.
    - intros b. rewrite last_snoc. by intros [= <-].
    - intros c Hc. by destruct (Hn2 _ c eq_refl Hc). }
  pose proof (publish_wp _ _ _ _ Hlo Hadj') as Hp. cbn [tself tmem set_tmem] in Hp. fold s in Hp.
  replace (s + total (B1 ++ [Blk t false])) with (a + t) in Hp by (subst a; tot_eq).
  eapply wp_mono; [exact Hp|]. intros [] w' (Hi & Hb & Hk').
  assert (HU : bmap false s ((B1 ++ [Blk t false]) ++ Blk r true :: B2) =
    <[a := t]> (bmap false s (B1 ++ Blk (t + r) true :: B2))).
  { rewrite <- app_assoc. simpl app. rewrite <- bmap_merge by done.
    apply (bmap_flip false); [done| |done]. apply wf_cons. split; [|done].
    split; [done|]. by apply (geometry_mid _ _ _ _ _ (lo_geo _ _ _ _ Hlo)). }
  assert (Hnone : bmap false s (B1 ++ Blk (t + r) true :: B2) !! a = None).
  { apply (bmap_flip false); [done|done|lia]. }
  exists ((B1 ++ [Blk t false]) ++ Blk r true :: B2). split_and!; [done|apply Hb|done|done|].
  eapply kept_trans; [exact Hk|]. eapply kept_sub; [|exact Hk']. rewrite HU. by apply insert_subseteq.
Qed.

Lemma take_whole_wp B1 z B2 w :
  held B1 z B2 w ->
  let a := heap_start (tself w) + total B1 in
  wp (take_whole a z) (fun _ w' => handed_out (B1 ++ Blk z true :: B2) w a z w') w.
Proof.
  intros [Hg Hadj Hh [L HL]] a. set (s := heap_start (tself w)) in *.
  apply hdrs_prefix in Hh as (Hpre & Hx & Hpost). fold a in Hx, Hpost. simpl bsize in Hpost.
  pose proof (geometry_mid _ _ _ _ _ Hg) as (Hw1 & Hw2 & Hz & Hdz & Hsz & _). pose proof (wf_total _ Hw2) as [Ht2 _].
  destruct (boundary_aligned _ B1 _ w a Hg eq_refl eq_refl) as (H4 & _ & Hpos & Htop). simpl in Htop.
  destruct (boundary_aligned _ (B1 ++ [Blk z true]) _ w (a + z) Hg ltac:(list_eq) ltac:(subst a s; tot_eq)) as (H4n & _).
  destruct (hdrs_suffix _ _ _ _ Hw2 (geometry_suffix_sizes _ _ _ _ Hg) Hpost) as (c & Hlc & Hsc & _ & _ & _ & Hretag).
  pose proof (geometry_kind _ _ _ false _ w w Hg ltac:(done)) as Hgf.
  assert (Hwz : forall q, wf_block (Blk z q)) by by split.
  unfold take_whole. wp_step. eapply header_mark_free_wp; [done|exact Hsz|apply Hx|].
  wp_step. wp_step. wp_step. eapply (header_mark_prev_free_wp _ _ (bsize c) (bfree c)); [done|done| |].
  { cbn [tmem set_tmem]. rewrite load_store_ne by lia. exact Hlc. }
  cbn [tmem set_tmem]. exists (B1 ++ Blk z false :: B2).
  destruct (bmap_flip false s B1 z B2 Hw1 Hw2 Hz) as [HU Hnone]. simpl negb in HU, Hnone.
  split; [split|split_and!]; cbn [tself tmem set_tmem]; fold s; try done.
  - by eapply geometry_kind.
  - apply no_adj_app in Hadj as (Hadj1 & Hadj2 & _).
    apply (no_adj_app B2 [Blk z true]) in Hadj2 as (_ & Hadj2 & _). apply no_adj_app. split_and!; [done| |].
    + apply (no_adj_app B2 [Blk z false]). split_and!; [done|done|]. intros b d [= <-]. by left.
    + intros b d _ [= <-]. by right.
  - rewrite <- app_assoc. simpl app. apply hdrs_prefix. fold a. split; [|split].
    + do 2 (apply hdrs_store_above; [done|subst a; lia|]). done.
    + split; [rewrite load_store_ne by lia; apply load_u32_eq; by apply pack_u32|].
      intros p Hp. rewrite !load_store_ne by lia. by apply Hx.
    + apply Hretag; [intros i Hi; by rewrite !store_lookup_out by lia|]. split; [|done].
      apply load_u32_eq. by apply pack_u32.
  - exists L.
    pose proof (lists_ok_store _ L w a 4 (pack z false (flag (last_tag None B1))) HL
      (boundary_outside true B1 _ s (g_wf _ _ Hgf)) ltac:(lia)) as HL1.
    exact (lists_ok_store _ L _ (a + z) 4 _ HL1 (end_outside true B1 z false B2 s Hw1 Hw2 (Hwz false)) ltac:(lia)).
  - eapply kept_trans; [apply (kept_store _ _ a 4); [apply boundary_outside, Hg|lia]|].
    apply (kept_store _ _ (a + z) 4); [by apply end_outside|lia].
Qed.

(** ** [malloc] *)

(** The block size a request is turned into. *)
Definition needed_for (size align : Z) : Z := Z.max ((Z.max align 8 + size + 7) / 8 * 8) 32.

Lemma multiple_in_window t r : (8 | r) -> t <= r < t + 8 -> r = (t + 7) / 8 * 8.
Proof.
  intros [q ->] Hr. pose proof (Z.div_mod (t + 7) 8 ltac:(lia)).
  pose proof (Z.mod_pos_bound (t + 7) 8 ltac:(lia)). lia.
Qed.

(** [p] is aligned and lies, with [size] bytes, in the payload of the block at [a], which
    is handed out, cut to what is needed. *)
Definition cut (B : list block) (w : tworld) (size align a p : Z) (w' : tworld) : Prop :=
  exists t, handed_out B w a t w' /\ (align | p) /\ a + 8 <= p /\ p + size <= a + t /\
    t < needed_for size align + 32 /\ (align <= 8 -> p = a + 8).

(** The block was a free one that the search looks at, and large enough. *)
Definition served (B : list block) (w : tworld) (size align p : Z) (w' : tworld) : Prop :=
  exists a z, bmap true (heap_start (tself w)) B !! a = Some z /\ considered w (needed_for size align) a z /\
    needed_for size align <= z /\ cut B w size align a p w'.

Lemma align_up8 t : 0 <= t -> t + 8 <= u64_max ->
  exists r, align_up t 8 = Ret r /\ (8 | r) /\ t <= r < t + 8.
Proof. intros. apply (align_up_spec t 3); lia. Qed.

Lemma divide_gap x y : (8 | x) -> (8 | y) -> x < y + 8 -> x <= y.
Proof. intros [i ->] [j ->] H. lia. Qed.

Lemma alloc_from_wp B1 z B2 w size k n3 :
  held B1 z B2 w -> 3 <= k -> 0 <= size -> (8 | n3) -> 2 ^ k + size <= n3 -> Z.max n3 32 <= z ->
  wp (alloc_from (heap_start (tself w) + total B1) size (2 ^ k))
    (fun p w' => cut (B1 ++ Blk z true :: B2) w size (2 ^ k) (heap_start (tself w) + total B1) p w') w.
Proof.
  intros Hheld Hk Hs Hd3 Hn3 Hz. pose proof Hheld as [Hg _ Hh _].
  set (a := heap_start (tself w) + total B1) in *. apply hdrs_prefix in Hh as (_ & Hx & _). fold a in Hx.
  pose proof (geometry_mid _ _ _ _ _ Hg) as (Hw1 & Hw2 & Hz32 & Hdz & Hsz & Hcz & _).
  pose proof (wf_total _ Hw2) as [Ht2 _].
  destruct (boundary_aligned _ B1 _ w a Hg eq_refl eq_refl) as (H4 & H8 & Hpos & Htop). simpl in Htop.
  pose proof (pow2_mono 3 k ltac:(lia)) as Hk8. change (2 ^ 3) with 8 in Hk8.
  assert (Hk64 : k < 64).
  { destruct (Z.lt_ge_cases k 64) as [|Hge]; [done|]. pose proof (pow2_mono 64 k ltac:(lia)).
    unfold class_ok in Hcz. lia. }
  destruct (align_up_spec (a + 8) k ltac:(lia) ltac:(lia) ltac:(lia)) as (p & Hp & Hdp & Hpr).
  assert (Hfp : p - (a + 8) <= 2 ^ k - 8).
  { assert (H8k : (8 | 2 ^ k)) by by apply (pow2_divide 3 k).
    assert (H8p : (8 | p)) by by apply (Z.divide_trans 8 (2 ^ k)).
    enough (p <= a + 2 ^ k) by lia. apply divide_gap; [done|by apply Z.divide_add_r|lia]. }
  destruct (align_up8 (8 + (p - (a + 8)) + size) ltac:(lia) ltac:(unfold u64_max, class_ok in *; lia))
    as (t3 & Ht3 & Hd3' & Ht3r).
  assert (Ht3n : t3 <= n3) by (apply divide_gap; [done|done|lia]).
  unfold alloc_from. wp_step. eapply read_saf_wp; [done|apply Hx|]. simpl bsize. rewrite size_pack by done.
  unfold HEADER_SIZE, MIN_BLOCK_SIZE. do 5 wp_step. rewrite Hp. wp_step.
  do 11 wp_step. rewrite Ht3. wp_step. set (t := Z.max t3 32). rewrite (proj2 (Z.ltb_ge z t)) by lia.
  assert (t + 32 <= u64_max) by (unfold u64_max, class_ok in *; lia). do 3 wp_step.
  assert (Hdt : (8 | t)) by (unfold t; destruct (Z.max_spec t3 32) as [[_ ->]|[_ ->]]; [by exists 4|done]).
  assert (Htn : t <= needed_for size (2 ^ k)).
  { unfold t, needed_for. enough (t3 <= (Z.max (2 ^ k) 8 + size + 7) / 8 * 8) by lia. rewrite Z.max_l by lia.
    pose proof (Z.div_mod (2 ^ k + size + 7) 8 ltac:(lia)). pose proof (Z.mod_pos_bound (2 ^ k + size + 7) 8 ltac:(lia)).
    apply divide_gap; [done|by eexists|lia]. }
  wp_step. eapply (wp_mono _ (fun _ w' => exists u, handed_out (B1 ++ Blk z true :: B2) w a u w' /\ t <= u < t + 32)).
  - case_test Hlim.
    + replace z with (t + (z - t)) in Hheld |- * by lia.
      eapply wp_mono; [apply (split_block_wp B1 t (z - t)); [done|lia|lia|done]|]. intros [] w' Ho. exists t. split; [done|lia].
    + eapply wp_mono; [by apply take_whole_wp|]. intros [] w' Ho. exists z. split; [done|lia].
  - intros [] w' (u & Ho & Hu). wp_step. exists u. split_and!; [done|done|lia|lia|lia|].
    intros Hal. assert (2 ^ k = 8) by lia. lia.
Qed.

(** The size computations of [malloc] do not overflow. *)
Lemma malloc_search size j (Q : Z -> tworld -> Prop) w : 0 <= size -> 0 <= j -> size + 2 ^ j <= 2 ^ 57 ->
  (forall k n3, k = Z.max j 3 -> 2 ^ k = Z.max (2 ^ j) HEADER_SIZE -> 8 <= 2 ^ k -> size + 2 ^ k <= 2 ^ 58 ->
     align_up (8 + (2 ^ k - 8) + size) 8 = Ret n3 -> (8 | n3) ->
     8 + (2 ^ k - 8) + size <= n3 < 8 + (2 ^ k - 8) + size + 8 -> Z.max n3 32 = needed_for size (2 ^ j) ->
     wp (found ← find_block (Z.min (fl_of (Z.max n3 32)) 18) (sl_of (Z.max n3 32)) (Z.max n3 32);
         match found with Some b => alloc_from b size (2 ^ k) | None => mret 0 end) Q w) ->
  wp (malloc size (2 ^ j)) Q w.
Proof.
  intros Hs Hj Hb HQ. set (k := Z.max j 3) in *. pose proof (pow2_pos j Hj) as Hpj.
  assert (Hmax : Z.max (2 ^ j) HEADER_SIZE = 2 ^ k).
  { unfold k, HEADER_SIZE. destruct (Z.max_spec j 3) as [[Hlt ->]|[Hge ->]].
    - pose proof (pow2_mono j 3 ltac:(lia)). change (2 ^ 3) with 8 in *. lia.
    - pose proof (pow2_mono 3 j ltac:(lia)). change (2 ^ 3) with 8 in *. lia. }
  pose proof (pow2_mono 3 k ltac:(lia)) as Hk8. change (2 ^ 3) with 8 in Hk8.
  assert (Hkb : size + 2 ^ k <= 2 ^ 58) by (unfold HEADER_SIZE in Hmax; lia).
  destruct (align_up8 (8 + (2 ^ k - 8) + size) ltac:(lia) ltac:(unfold u64_max; lia)) as (n3 & Hn3 & Hd3 & Hr3).
  assert (Hneed : Z.max n3 32 = needed_for size (2 ^ j)).
  { unfold needed_for. unfold HEADER_SIZE in Hmax. rewrite Hmax. f_equal.
    rewrite (multiple_in_window _ n3 Hd3 Hr3). do 2 f_equal. lia. }
  specialize (HQ k n3 eq_refl (eq_sym Hmax) Hk8 Hkb Hn3 Hd3 Hr3 Hneed).
  unfold malloc. rewrite Hmax. unfold saturating_sub, HEADER_SIZE, MIN_BLOCK_SIZE.
  rewrite (Z.max_r 0 (2 ^ k - 8)) by lia.
  assert (8 + (2 ^ k - 8) + size <= u64_max) by (unfold u64_max; lia).
  do 8 wp_step. rewrite Hn3. do 3 wp_step. rewrite mapping_spec by lia. wp_step. unfold FL_COUNT.
  by replace (Z.min (Z.min (fl_of (Z.max n3 32)) 18) (19 - 1)) with (Z.min (fl_of (Z.max n3 32)) 18) by lia.
Qed.

Lemma malloc_wp B w size j :
  tlsf_inv B w -> 0 <= size -> 0 <= j -> size + 2 ^ j <= 2 ^ 57 ->
  wp (malloc size (2 ^ j)) (fun p w' =>
    (p = 0 /\ w' = w /\
     forall x z, bmap true (heap_start (tself w)) B !! x = Some z ->
       considered w (needed_for size (2 ^ j)) x z -> z < needed_for size (2 ^ j)) \/
    (p <> 0 /\ served B w size (2 ^ j) p w')) w.
Proof.
  intros Hinv Hs Hj Hb. destruct (i_lists _ _ Hinv) as [L HL]. apply malloc_search; try done.
  intros k n3 Hk Hmax Hk8 Hkb Hn3 Hd3 Hr3 Hneed. rewrite Hneed. wp_step.
  eapply wp_mono; [apply (find_block_wp HL (inv_headers_say _ _ Hinv)); rewrite <- Hneed; lia|].
  intros [x|] w'.
  - intros [Ht (z0 & Hz0 & Hcons)].
    destruct (taken_held _ _ _ _ _ Hinv Ht) as (B1 & z & B2 & -> & -> & Hz & Hheld & [Hb1 Hb2] & Hkp).
    assert (z0 = z) as ->.
    { pose proof (geometry_mid _ _ _ _ _ (i_geo _ _ Hinv)) as (Hw1 & Hw2 & Hz32 & _).
      rewrite (proj1 (bmap_flip true _ B1 z B2 Hw1 Hw2 Hz32)), lookup_insert_eq in Hz0. congruence. }
    rewrite <- Hb1. eapply wp_mono; [apply (alloc_from_wp B1 z B2 w' size k n3); try done; lia|].
    intros p w2 (t & (B' & Hi & [Hc1 Hc2] & Hn & HU & Hkept) & Hdp & Hlo & Hhi & Htop & Heq).
    destruct (i_geo _ _ Hi) as [[H0 _] _ _ _ Hwf]. set (a := heap_start (tself w') + total B1) in *.
    assert (Ha : 0 < a).
    { assert (Hla : bmap false (heap_start (tself w')) B' !! a = Some t) by (rewrite HU; apply lookup_insert_eq).
      apply (bmap_lookup false B' Hwf) in Hla. rewrite Hc1, Hb1 in *. lia. }
    right. split; [lia|]. exists a, z. unfold a in *. rewrite Hb1 in *. split_and!; try done. exists t. split_and!; try done.
    + exists B'. unfold same_bounds. rewrite Hc1, Hc2, Hb2. split_and!; try done. by eapply kept_trans.
    + apply (Z.divide_trans _ (2 ^ k)); [apply pow2_divide; lia|done].
    + enough (needed_for size (2 ^ k) = needed_for size (2 ^ j)) by lia.
      unfold needed_for. rewrite Hmax. unfold HEADER_SIZE. by rewrite <- (Z.max_assoc _ 8 8).
    + intros Hj8. apply Heq. unfold HEADER_SIZE in Hmax. lia.
  - intros [-> Hno]. wp_step. by left.
Qed.

(** With an alignment up to 8 the pointer is the start of the payload. *)
Lemma served_payload B w size j p w' : 0 <= j <= 3 -> served B w size (2 ^ j) p w' ->
  exists t, handed_out B w (p - 8) t w' /\ size + 8 <= t < needed_for size (2 ^ j) + 32.
Proof.
  intros Hj (a & z & _ & _ & _ & t & Ho & _ & Hlo & Hhi & Htop & Heq).
  pose proof (pow2_mono j 3 ltac:(lia)) as Hj8. change (2 ^ 3) with 8 in Hj8. specialize (Heq Hj8) as ->.
  exists t. replace (a + 8 - 8) with a by lia. split; [done|lia].
Qed.

(** A heap that was never initialised has nothing to give. *)
Lemma malloc_uninit m size j : 0 <= size -> 0 <= j -> size + 2 ^ j <= 2 ^ 57 ->
  wp (malloc size (2 ^ j)) (fun p w' => p = 0 /\ w' = mkTworld new m) (mkTworld new m).
Proof.
  intros Hs Hj Hb. apply malloc_search; try done. intros k n3 _ _ _ Hkb _ _ Hr3 _.
  pose proof (log2_bounds (Z.max n3 32) 5 59 ltac:(lia) ltac:(simpl; lia)) as Hl.
  pose proof (sl_range (Z.max n3 32) ltac:(lia)) as Hsl. set (f := Z.min (fl_of (Z.max n3 32)) 18).
  assert (Hf : 0 <= f <= 18) by (unfold f, fl_of; lia).
  unfold find_block. wp_step. unfold get_sl. wp_step. wp_step.
  apply wp_lift, (returns_index _ _ 0); [lia|cbn [tself sl_bitmaps new]; apply lookup_replicate; unfold FL_COUNT; lia|].
  unfold mask_from. rewrite (proj2 (Z.leb_le 0 _)), (proj2 (Z.ltb_lt _ 32)) by lia. cbn [andb]. wp_steps.
  rewrite (proj2 (Z.leb_le 0 _)), (proj2 (Z.ltb_lt _ 32)) by lia. cbn [andb]. by wp_steps.
Qed.

(** ** [init] *)

Lemma fresh_lists : forall w,
  free_lists (tself w) = free_lists new -> sl_bitmaps (tself w) = sl_bitmaps new ->
  fl_bitmap (tself w) = 0 -> lists_ok ∅ (fun _ _ => []) w.
Proof.
  intros w Hf Hs Hb. split; try done.
  - intros f l x. split; [by intros ?%not_elem_of_nil|]. by intros (z & Hz & _).
  - intros. constructor.
  - split; rewrite Hf; [done| |].
    + intros f row Hrow. simpl in Hrow. apply (lookup_replicate 19) in Hrow as [-> _]. done.
    + intros f l [Hfr Hlr]. exists (replicate 32 None). split.
      * apply (lookup_replicate 19). split; [done|lia].
      * apply lookup_replicate. split; [done|lia].
  - split; rewrite ?Hs, ?Hb; [done| |unfold in_u32, u32_max; lia|].
    + intros f Hfr. exists 0. split_and!; [apply (lookup_replicate 19); split; [done|lia]|unfold in_u32, u32_max; lia..|].
      intros l Hl. rewrite Z.testbit_0_l. done.
    + intros f Hfr. rewrite Z.testbit_0_l. split; [done|]. by intros [_ (l & _ & ?)].
Qed.

Lemma init_wp w s n :
  free_lists (tself w) = free_lists new -> sl_bitmaps (tself w) = sl_bitmaps new ->
  fl_bitmap (tself w) = 0 ->
  0 < s -> (8 | s) -> class_ok n -> (8 | n) -> s + n + 8 <= u64_max ->
  wp (init s n) (fun _ w' => tlsf_inv [Blk n true] w' /\
    heap_start (tself w') = s /\ heap_end (tself w') = s + n) w.
Proof.
  intros Hf Hs Hb H0 Hd Hn Hdn Hu. assert (Hsn : size_ok n) by (unfold class_ok in Hn; split; [lia|done]).
  assert (H4 : (4 | s)) by (apply (Z.divide_trans 4 8); [by exists 2|done]).
  assert (H4n : (4 | s + n)).
  { apply (Z.divide_trans 4 8); [by exists 2|]. by apply Z.divide_add_r. }
  unfold init. do 3 wp_step. do 2 wp_step. wp_step. apply store32_wp; [done|].
  wp_step. apply header_set_wp; [done|unfold size_ok, u32_max in *; lia|].
  do 4 wp_step. apply store32_wp; [done|]. wp_step. apply header_set_wp; [done|unfold u32_max; lia|].
  do 2 wp_step. unfold non_null. rewrite (proj2 (Z.eqb_neq s 0)) by lia. wp_step.
  set (w1 := set_tmem _ _). assert (Hstart : heap_start (tself w1) = s) by done.
  eapply wp_mono.
  { pose proof (insert_block_wp [] n [] w1 (fun _ _ => [])) as Hi. rewrite Hstart in Hi. simpl total in Hi.
    rewrite Z.add_0_r in Hi. apply Hi.
    - split; [done|simpl; lia|unfold class_ok in Hn; simpl; lia|simpl; lia|].
      apply wf_cons. split; [|by constructor]. split; [apply Hn|done].
    - by apply fresh_lists.
    - unfold class_ok in Hn. split; [|split; [|done]]; split; cbn [tmem set_tmem w1 bsize bfree flag tag].
      + rewrite !load_store_ne by lia. apply load_u32_eq. by apply pack_u32.
      + done.
      + apply load_u32_eq. apply pack_u32, sentinel_size_ok.
      + intros p [= <-]. rewrite !load_store_ne by lia. unfold wrap. rewrite Z.mod_small by apply Hsn.
        apply load_u32_eq, in_u32_pow, Hsn.
    - done. }
  intros [] w' (Hi & [Hb1 Hb2] & _). split; [exact Hi|]. rewrite Hb1, Hb2. done.
Qed.
