(* ===== verification/TlsfSpec.v ===== *)
(** * TLSF heap allocator: what it promises

    The properties of [allocator/tlsf.rs], for heaps below 16 MiB (the kernel's is
    1 MiB): initialisation, exactness of [malloc] and [free], and the safety of
    any client that frees what it holds and writes where it may. *)

From S2P Require Import Prelude Memory Dll Tlsf TlsfInv TlsfLists TlsfPhys TlsfAlloc TlsfMalloc.
Local Open Scope rust_scope.

(** ** [align_up] *)

(** [align_up] returns the least multiple of a power of two that is not below
    the address, whenever the sum does not overflow. *)
Theorem align_up_least addr k :
  0 <= addr -> 0 <= k < 64 -> addr + 2 ^ k <= u64_max ->
  exists r, align_up addr (2 ^ k) = Ret r /\ (2 ^ k | r) /\ addr <= r /\
    forall q, (2 ^ k | q) -> addr <= q -> r <= q.
Proof.
  intros Ha Hk Hb. destruct (align_up_spec addr k Ha Hk Hb) as (r & Hr & Hd & Hlo & Hhi).
  exists r. split_and!; [done|done|done|]. intros q [i ->] Hq. destruct Hd as [j ->].
  pose proof (pow2_pos k ltac:(lia)). destruct (Z.le_gt_cases j i); [by apply Z.mul_le_mono_nonneg_r; lia|].
  assert ((i + 1) * 2 ^ k <= j * 2 ^ k) by (apply Z.mul_le_mono_nonneg_r; lia). lia.
Qed.

Lemma align_up_witness : exists r, align_up 4097 4096 = Ret r /\ (4096 | r) /\ 4097 <= r /\
  forall q, (4096 | q) -> 4097 <= q -> r <= q.
Proof. apply (align_up_least 4097 12); unfold u64_max; lia. Defined.

(** ** A client of the heap *)

(** [(P, w)]: the pointers held with the sizes asked for, and the world. *)
Inductive tstep : gmap Z Z * tworld -> gmap Z Z * tworld -> Prop :=
  | ts_malloc P w size j p w' :
      0 <= size <= 2 ^ 56 -> 0 <= j <= 3 -> malloc size (2 ^ j) w = Ret (p, w') -> p <> 0 ->
      tstep (P, w) (<[p := size]> P, w')
  | ts_null P w size j w' :
      0 <= size <= 2 ^ 56 -> 0 <= j <= 3 -> malloc size (2 ^ j) w = Ret (0, w') -> tstep (P, w) (P, w')
  | ts_free P w p n w' :
      P !! p = Some n -> free p w = Ret (tt, w') -> tstep (P, w) (delete p P, w')
  | ts_write P w m :
      (forall a, (forall p n, P !! p = Some n -> a < p \/ p + n <= a) -> m !! a = tmem w !! a) ->
      tstep (P, w) (P, set_tmem m w).

(** The blocks in use are those behind the pointers held. *)
Definition client_heap (s e : Z) (P : gmap Z Z) (w : tworld) (B : list block) : Prop :=
  tlsf_inv B w /\ heap_start (tself w) = s /\ heap_end (tself w) = e /\
  (forall p n, P !! p = Some n -> exists t, bmap false s B !! (p - 8) = Some t /\ 0 <= n /\ n + 8 <= t) /\
  (forall a t, bmap false s B !! a = Some t -> is_Some (P !! (a + 8))).

Lemma client_malloc s e P w B size j p w' :
  client_heap s e P w B -> 0 <= size <= 2 ^ 56 -> 0 <= j <= 3 -> malloc size (2 ^ j) w = Ret (p, w') ->
  if p =? 0 then client_heap s e P w' B /\ w' = w
  else exists B', client_heap s e (<[p := size]> P) w' B' /\
    forall q n i, P !! q = Some n -> q <= i < q + n -> tmem w' !! i = tmem w !! i.
Proof.
  intros (Hi & Hs & He & HP & HB) Hsz Hj Hrun. pose proof (pow2_mono j 3 ltac:(lia)) as Hj8.
  pose proof (malloc_wp B w size j Hi ltac:(lia) ltac:(lia) ltac:(change (2 ^ 3) with 8 in Hj8; lia)) as Hwp.
  unfold wp in Hwp. rewrite Hrun in Hwp. destruct Hwp as [(-> & -> & _)|(Hp & Hserved)].
  { by rewrite Z.eqb_refl. }
  rewrite (proj2 (Z.eqb_neq p 0)) by done.
  destruct (served_payload _ _ _ _ _ _ Hj Hserved) as (t & (B' & Hi' & [Hs' He'] & Hn & HU & Hk) & Hfit). exists B'.
  rewrite Hs in *. split; [|intros q n i Hq Hin; destruct (HP q n Hq) as (u & Hu & Hn'); apply (Hk (q - 8) u); [done|lia]].
  split_and!; [done|congruence|congruence|..].
  - intros q n [[<- <-]|[Hne Hp']]%lookup_insert_Some.
    + exists t. rewrite HU, lookup_insert_eq. split_and!; lia || done.
    + destruct (HP q n Hp') as (u & Hu & Hn'). exists u. split; [|done]. rewrite HU, lookup_insert_ne; [done|].
      intros Hqp. rewrite Hqp in Hn. congruence.
  - intros b u. rewrite HU. intros [[<- <-]|[Hne Hb]]%lookup_insert_Some.
    + replace (p - 8 + 8) with p by lia. rewrite lookup_insert_eq. by eexists.
    + rewrite lookup_insert_ne by lia. by eapply HB.
Qed.

Lemma client_free s e P w B p n :
  client_heap s e P w B -> P !! p = Some n ->
  exists w' B', free p w = Ret (tt, w') /\ client_heap s e (delete p P) w' B' /\
    kept (delete (p - 8) (bmap false s B)) (tmem w) (tmem w').
Proof.
  intros (Hi & Hs & He & HP & HB) Hp. destruct (HP p n Hp) as (t & Ht & Hn).
  destruct (bmap_lookup_split _ _ _ _ _ Ht) as (B1 & B2 & -> & Hpa).
  pose proof (free_wp B1 t B2 w Hi) as Hwp. cbv zeta in Hwp. rewrite Hs in Hwp.
  replace (s + total B1 + 8) with p in Hwp by lia. rewrite <- Hpa in Hwp.
  apply wp_elim in Hwp as ([] & w' & Hrun & B' & Hi' & [Hs' He'] & HU & Hk).
  exists w', B'. split; [done|]. split; [|done]. split_and!; [done|congruence|congruence|..].
  - intros q k [Hne Hq]%lookup_delete_Some. destruct (HP q k Hq) as (u & Hu & Hk').
    exists u. split; [|done]. rewrite HU, lookup_delete_ne; [done|lia].
  - intros a u. rewrite HU. intros [Hne Ha]%lookup_delete_Some. rewrite lookup_delete_ne by lia. by eapply HB.
Qed.

Lemma client_write s e P w B m :
  client_heap s e P w B ->
  (forall a, (forall p n, P !! p = Some n -> a < p \/ p + n <= a) -> m !! a = tmem w !! a) ->
  client_heap s e P (set_tmem m w) B.
Proof.
  intros (Hi & Hs & He & HP & HB) Hm. split; [|done]. destruct Hi as [Hg Hadj Hh [L HL]].
  pose proof (g_wf _ _ Hg) as Hw. rewrite Hs in Hh, HL.
  (* what lies outside every payload is unchanged *)
  assert (Hsame : forall i, (forall a t, bmap false s B !! a = Some t -> i < a + 8 \/ a + t <= i) ->
    m !! i = tmem w !! i).
  { intros i Hi. apply Hm. intros p n Hp. destruct (HP p n Hp) as (t & Ht & Hn). destruct (Hi _ _ Ht); lia. }
  split; cbn [tself tmem set_tmem]; rewrite ?Hs.
  - eapply geometry_same; [exact Hg|done|done|done].
  - done.
  - eapply hdrs_ext; [|exact Hh]. intros h i Hin Hi. apply Hsame. intros a t Ha.
    destruct (haddrs_outside false B s h Hw Hin a t Ha); lia.
  - exists L. destruct HL as [Hno Hse Hme Hnd Hli Hhe Hbi]. split; try done. intros f l.
    eapply seg_ext; [|by apply Hli]. intros x Hx. apply Hme in Hx as (z & Hx & _).
    pose proof (bmap_ge32 _ _ _ _ _ Hw Hx).
    split; apply load_ext; intros i Hi'; apply Hsame; intros a t Ha;
      destruct (bmap_disjoint B Hw s x z a t Hx Ha); lia.
Qed.

Lemma tstep_preserves s e P w P' w' B :
  tstep (P, w) (P', w') -> client_heap s e P w B -> exists B', client_heap s e P' w' B'.
Proof.
  intros Hst Hc. inversion Hst as [? ? size j p ? Hsz Hj Hrun Hp|? ? size j ? Hsz Hj Hrun|? ? p n ? Hp Hrun|? ? m Hm]; subst.
  - pose proof (client_malloc _ _ _ _ _ _ _ _ _ Hc Hsz Hj Hrun) as H. rewrite (proj2 (Z.eqb_neq p 0)) in H by done.
    destruct H as (B' & H & _). by exists B'.
  - pose proof (client_malloc _ _ _ _ _ _ _ _ _ Hc Hsz Hj Hrun) as [H _]. by exists B.
  - destruct (client_free _ _ _ _ _ _ _ Hc Hp) as (w2 & B' & Hrun' & Hc' & _). exists B'. congruence.
  - exists B. by apply client_write.
Qed.

Lemma tsteps_preserve s e st st' :
  rtc tstep st st' -> (exists B, client_heap s e st.1 st.2 B) -> exists B, client_heap s e st'.1 st'.2 B.
Proof.
  induction 1 as [|[P w] [P' w'] st3 Hst _ IH]; [done|]. intros [B HB]. apply IH.
  by apply (tstep_preserves s e P w P' w' B).
Qed.

Lemma client_start w s n :
  tself w = new -> 0 < s -> (8 | s) -> class_ok n -> (8 | n) -> s + n + 8 <= u64_max ->
  exists w', init s n w = Ret (tt, w') /\ client_heap s (s + n) ∅ w' [Blk n true].
Proof.
  intros Hnew H0 Hd Hn Hdn Hu.
  destruct (wp_elim _ _ _ (init_wp w s n ltac:(by rewrite Hnew) ltac:(by rewrite Hnew) ltac:(by rewrite Hnew)
    H0 Hd Hn Hdn Hu)) as ([] & w' & Hrun & Hi & Hs & He).
  exists w'. split; [done|]. split_and!; [done|done|done|done|]. intros a t Ha. by simpl in Ha.
Qed.

(** ** Properties *)

(** C19: on a heap that satisfies the invariant (its blocks tile less than 16 MiB),
    [malloc] returns for every size and power-of-two alignment of at most [2^57] in sum.
    It returns null exactly when none of the free blocks its search looks at has the
    bytes needed (size, header and worst padding, rounded up to 8, at least 32): these
    are the first block of each list of the request's first level from the request's
    class on, and all blocks of later levels. Then nothing has changed, and no free block
    at all is of a later size class. Otherwise it cuts one of these blocks: the pointer
    has the alignment asked for, its [size] bytes lie in the payload of the block, which
    is less than 32 bytes larger than needed, the invariant holds with exactly that block
    added to those in use, and no byte of any other payload has changed. *)
Theorem tlsf_malloc_exact B w size j :
  tlsf_inv B w -> 0 <= size -> 0 <= j -> size + 2 ^ j <= 2 ^ 57 ->
  let needed := needed_for size (2 ^ j) in
  let free_block := fun x z => bmap true (heap_start (tself w)) B !! x = Some z in
  exists p w', malloc size (2 ^ j) w = Ret (p, w') /\
    (p = 0 <-> ~ exists x z, free_block x z /\ considered w needed x z /\ needed <= z) /\
    (p = 0 -> w' = w /\ forall x z, free_block x z -> ~ later_class needed z) /\
    (p <> 0 -> served B w size (2 ^ j) p w').
Proof.
  intros Hi Hs Hj Hb needed free_block. destruct (wp_elim _ _ _ (malloc_wp B w size j Hi Hs Hj Hb)) as (p & w' & Hr & Hc).
  exists p, w'. split; [done|]. fold needed in Hc. destruct Hc as [(-> & -> & Hno)|(Hp & Hserved)].
  - split_and!; [|intros _; split; [done|]|done].
    + split; [|done]. intros _ (x & z & Hx & Hcons & Hz). specialize (Hno x z Hx Hcons). lia.
    + destruct (i_lists _ _ Hi) as [L HL]. by eapply (none_later HL (inv_headers_say _ _ Hi)); [unfold needed, needed_for; lia|].
  - split_and!; [|done|done]. split; [done|]. intros Hno. destruct Hserved as (a & z & Ha & Hcons & Hz & _).
    destruct Hno. by exists a, z.
Qed.

(** C20: [free] of a pointer to the payload of a block in use returns, keeps the
    invariant (in particular no two free blocks stay neighbours) with exactly that
    block no longer in use, and changes no byte of any other payload. *)
Theorem tlsf_free_exact B w a t :
  tlsf_inv B w -> bmap false (heap_start (tself w)) B !! a = Some t ->
  exists w' B', free (a + 8) w = Ret (tt, w') /\ tlsf_inv B' w' /\
    heap_start (tself w') = heap_start (tself w) /\
    bmap false (heap_start (tself w)) B' = delete a (bmap false (heap_start (tself w)) B) /\
    kept (delete a (bmap false (heap_start (tself w)) B)) (tmem w) (tmem w').
Proof.
  intros Hi Ha. destruct (bmap_lookup_split _ _ _ _ _ Ha) as (B1 & B2 & -> & ->).
  destruct (wp_elim _ _ _ (free_wp B1 t B2 w Hi)) as ([] & w' & Hrun & B' & Hi' & [Hs _] & HU & Hk).
  by exists w', B'.
Qed.

(** C2: from [init] on a heap of 32 bytes to 16 MiB, whatever a client does that
    allocates with alignment up to 8 and sizes up to [2^56], frees pointers it holds and
    writes only inside what it asked for, the memory it holds stays inside the heap,
    8-aligned and pairwise disjoint; every next such [malloc] and every [free] of a
    pointer held returns (no panic, no undefined behaviour) and leaves the bytes of all
    other allocations alone. *)
Theorem tlsf_client_safety s n w w0 P w' :
  tself w = new -> 0 < s -> (8 | s) -> class_ok n -> (8 | n) -> s + n + 8 <= u64_max ->
  init s n w = Ret (tt, w0) -> rtc tstep (∅, w0) (P, w') ->
  (forall p k, P !! p = Some k -> (8 | p) /\ s <= p /\ p + k <= s + n) /\
  (forall p k q l, P !! p = Some k -> P !! q = Some l -> p < q -> p + k <= q) /\
  (forall size j, 0 <= size <= 2 ^ 56 -> 0 <= j <= 3 -> exists p w2, malloc size (2 ^ j) w' = Ret (p, w2) /\
     forall q l i, P !! q = Some l -> q <= i < q + l -> tmem w2 !! i = tmem w' !! i) /\
  (forall p k, P !! p = Some k -> exists w2, free p w' = Ret (tt, w2) /\
     forall q l i, P !! q = Some l -> q <> p -> q <= i < q + l -> tmem w2 !! i = tmem w' !! i).
Proof.
  intros Hnew H0 Hd Hn Hdn Hu Hinit Hreach.
  destruct (client_start w s n Hnew H0 Hd Hn Hdn Hu) as (w1 & Hrun & Hc1). rewrite Hinit in Hrun. injection Hrun as <-.
  destruct (tsteps_preserve s (s + n) _ _ Hreach) as [B Hc]; [by eexists|]. simpl in Hc.
  pose proof Hc as (Hi & Hs & He & HP & HB). pose proof (i_geo _ _ Hi) as Hg.
  pose proof (g_end _ _ Hg) as Htot. rewrite Hs, He in Htot. split_and!.
  - intros p k Hp. destruct (HP p k Hp) as (t & Ht & Hk).
    apply (bmap_lookup false B (g_wf _ _ Hg)) in Ht as (H1 & H2 & _ & _ & H5).
    split_and!; [|lia|lia]. replace p with (p - 8 - s + s + 1 * 8) by lia.
    apply Z.divide_add_r; [by apply Z.divide_add_r|by exists 1].
  - intros p k q l Hp Hq Hlt. destruct (HP p k Hp) as (t & Ht & Hk), (HP q l Hq) as (u & Hu' & _).
    pose proof (bmap_sep false B (g_wf _ _ Hg) _ _ _ _ _ Ht Hu' ltac:(lia)). lia.
  - intros size j Hsz Hj. pose proof (pow2_mono j 3 ltac:(lia)) as Hj8. change (2 ^ 3) with 8 in Hj8.
    destruct (wp_elim _ _ _ (malloc_wp B w' size j Hi ltac:(lia) ltac:(lia) ltac:(lia))) as (p & w2 & Hr & _).
    exists p, w2. split; [done|]. pose proof (client_malloc _ _ _ _ _ _ _ _ _ Hc Hsz Hj Hr) as Hcl.
    destruct (Z.eqb_spec p 0); [by destruct Hcl as [_ ->]|]. by destruct Hcl as (B' & _ & Hkept).
  - intros p k Hp. destruct (client_free _ _ _ _ _ _ _ Hc Hp) as (w2 & B' & Hr & _ & Hk).
    exists w2. split; [done|]. intros q l i Hq Hne Hi'. destruct (HP q l Hq) as (t & Ht & Hl).
    apply (Hk (q - 8) t); [|lia]. rewrite lookup_delete_ne by lia. done.
Qed.

Lemma no_used_free B : forall a, wf B -> bmap false a B = ∅ -> Forall (fun b => bfree b = true) B.
Proof.
  induction B as [|[z [|]] B IH]; intros a Hw; simpl; [constructor| |].
  - intros Hb. constructor; [done|]. apply wf_cons in Hw as [_ Hw]. by eapply IH.
  - intros Hb. exfalso. by apply (insert_non_empty (bmap false (a + z) B) a z).
Qed.

(** ** Room for a request

    No two free blocks are neighbours, so there is at most one more of them than there
    are blocks in use: when the blocks in use leave enough bytes, one of the free ones
    is large enough to be found whatever the lists look like. *)

(** The bytes of the blocks of a map. *)
Definition msum (U : gmap Z Z) : Z := foldr (fun e n => e.2 + n) 0 (map_to_list U).

Lemma msum_perm (l l' : list (Z * Z)) : l ≡ₚ l' ->
  foldr (fun e n => e.2 + n) 0 l = foldr (fun e n => e.2 + n) 0 l'.
Proof. induction 1; simpl; lia. Qed.

Lemma msum_insert U a t : U !! a = None -> msum (<[a := t]> U) = t + msum U.
Proof. intros Hn. unfold msum. by rewrite (msum_perm _ _ (map_to_list_insert U a t Hn)). Qed.

Lemma msum_delete U a t : U !! a = Some t -> msum U = t + msum (delete a U).
Proof. intros Ha. rewrite <- (insert_delete_id U a t Ha) at 1. apply msum_insert, lookup_delete_eq. Qed.

(** When every free block has at most [k] bytes. *)
Lemma blocks_room k B : wf B -> no_adj B -> 0 <= k -> forall a,
  (forall x z, bmap true a B !! x = Some z -> z <= k) ->
  total B <= (Z.of_nat (base.size (bmap false a B)) + match B with Blk _ true :: _ => 1 | _ => 0 end) * k + msum (bmap false a B).
Proof.
  intros Hw Hadj Hk. induction Hw as [|b B [Hb Hd] HB IH]; intros a Hfree; [done|].
  assert (Hadj' : no_adj B) by (destruct B; [done|apply Hadj]). destruct b as [z [|]]; simpl in *.
  - assert (Hz : z <= k) by (apply (Hfree a), lookup_insert_eq).
    assert (Hrest : forall x u, bmap true (a + z) B !! x = Some u -> u <= k).
    { intros x u Hx. apply (Hfree x). rewrite lookup_insert_ne; [done|].
      apply (bmap_lookup true B HB) in Hx. lia. }
    specialize (IH Hadj' _ Hrest). destruct B as [|[y [|]] B]; [simpl in *; lia| |simpl in *; lia].
    destruct Hadj as [[?|?] _]; done.
  - specialize (IH Hadj' _ Hfree). pose proof (bmap_none false B (a + z) a HB ltac:(lia)) as Hn.
    rewrite (map_size_insert_None _ _ _ Hn), (msum_insert _ _ _ Hn). destruct B as [|[y [|]] B]; nia.
Qed.

Lemma twice_later needed z : 32 <= needed -> 2 * needed <= z -> later_class needed z.
Proof.
  intros Hn Hz. left. unfold fl_of. pose proof (Z.log2_le_mono _ _ Hz) as H.
  rewrite Z.log2_double in H by lia. lia.
Qed.

(** What the blocks in use must leave for a request of [needed] bytes to be found. *)
Lemma room_found B w needed : tlsf_inv B w -> 32 <= needed ->
  let U := bmap false (heap_start (tself w)) B in
  (Z.of_nat (base.size U) + 1) * (2 * needed) + msum U <= total B ->
  ~ forall x z, bmap true (heap_start (tself w)) B !! x = Some z -> ~ later_class needed z.
Proof.
  intros Hi Hn U Hroom Hno. pose proof (i_geo _ _ Hi) as Hg.
  pose proof (blocks_room (2 * needed - 1) B (g_wf _ _ Hg) (i_adj _ _ Hi) ltac:(lia) (heap_start (tself w))) as H.
  fold U in H. assert (Hsmall : total B <= (Z.of_nat (base.size U) + 1) * (2 * needed - 1) + msum U).
  { etrans; [apply H|destruct B as [|[? [|]] ?]; nia]. intros x z Hx. destruct (Z.le_gt_cases z (2 * needed - 1)); [done|].
    destruct (Hno x z Hx). apply twice_later; lia. }
  nia.
Qed.

(** C30: nothing leaks: once the client has freed everything it held, the heap is
    again the single free block that [init] made of it. *)
Theorem tlsf_free_all_restores s n w w0 w' :
  tself w = new -> 0 < s -> (8 | s) -> class_ok n -> (8 | n) -> s + n + 8 <= u64_max ->
  init s n w = Ret (tt, w0) -> rtc tstep (∅, w0) (∅, w') -> tlsf_inv [Blk n true] w'.
Proof.
  intros Hnew H0 Hd Hn Hdn Hu Hinit Hreach.
  destruct (client_start w s n Hnew H0 Hd Hn Hdn Hu) as (w1 & Hrun & Hc1). rewrite Hinit in Hrun. injection Hrun as <-.
  destruct (tsteps_preserve s (s + n) _ _ Hreach) as [B (Hi & Hs & He & _ & HB)]; [by eexists|]. simpl in *.
  pose proof (i_geo _ _ Hi) as Hg. pose proof (g_end _ _ Hg) as Htot. rewrite Hs, He in Htot.
  assert (Hall : Forall (fun b => bfree b = true) B).
  { apply (no_used_free B s); [apply Hg|]. apply map_empty. intros a.
    destruct (bmap false s B !! a) as [t|] eqn:E; [|done]. apply HB in E as [? ?]. done. }
  pose proof (i_adj _ _ Hi) as Hadj. destruct B as [|[z q] [|c B]]; simpl in *.
  - unfold class_ok in Hn. lia.
  - apply Forall_cons in Hall as [Hq _]. simpl in Hq. subst q. by replace n with z by lia.
  - apply Forall_cons in Hall as [Hq Hall]. apply Forall_cons in Hall as [Hc _]. simpl in Hq.
    destruct Hadj as [[?|?] _]; congruence.
Qed.

(** ** Witnesses *)

Definition blank_heap : tworld := mkTworld new ∅.
Definition demo_heap : tworld :=
  match init 65536 4096 blank_heap with Ret (_, w) => w | Crash _ => blank_heap end.

Lemma demo_heap_run : init 65536 4096 blank_heap = Ret (tt, demo_heap).
Proof. vm_compute. reflexivity. Qed.

Lemma demo_heap_inv : tlsf_inv [Blk 4096 true] demo_heap /\ heap_start (tself demo_heap) = 65536.
Proof.
  destruct (client_start blank_heap 65536 4096) as (w' & Hrun & Hi & Hs & _); try done.
  - by exists 8192.
  - by exists 512.
  - rewrite demo_heap_run in Hrun. by injection Hrun as <-.
Qed.

Lemma tlsf_malloc_witness : exists p w', malloc 24 (2 ^ 3) demo_heap = Ret (p, w').
Proof.
  destruct (tlsf_malloc_exact [Blk 4096 true] demo_heap 24 3) as (p & w' & H & _).
  - apply demo_heap_inv.
  - lia.
  - lia.
  - lia.
  - exists p, w'. exact H.
Defined.

Definition demo_heap1 : tworld :=
  match malloc 24 8 demo_heap with Ret (_, w) => w | Crash _ => blank_heap end.

Lemma demo_heap1_run : malloc 24 (2 ^ 3) demo_heap = Ret (65544, demo_heap1).
Proof. vm_compute. reflexivity. Qed.

Lemma demo_steps : rtc tstep (∅, demo_heap) (<[65544 := 24]> ∅, demo_heap1).
Proof. eapply rtc_once, (ts_malloc _ _ 24 3); [lia|lia|exact demo_heap1_run|lia]. Qed.

Lemma demo_heap1_inv : exists B, client_heap 65536 69632 (<[65544 := 24]> ∅) demo_heap1 B.
Proof.
  apply (tsteps_preserve 65536 69632 _ _ demo_steps). exists [Blk 4096 true].
  destruct demo_heap_inv as [Hi Hs]. split_and!; try done.
Qed.

Lemma tlsf_free_witness : exists B w' B', tlsf_inv B demo_heap1 /\
  free (65536 + 8) demo_heap1 = Ret (tt, w') /\ tlsf_inv B' w'.
Proof.
  destruct demo_heap1_inv as (B & Hi & Hs & _ & HP & _).
  destruct (HP 65544 24 (lookup_insert_eq _ _ _)) as (t & Ht & _).
  destruct (tlsf_free_exact B demo_heap1 65536 t Hi) as (w' & B' & H1 & H2 & _).
  - rewrite Hs. exact Ht.
  - exists B, w', B'. split; [exact Hi|]. split; [exact H1|exact H2].
Defined.

Lemma tlsf_client_witness : exists w2, free 65544 demo_heap1 = Ret (tt, w2).
Proof.
  destruct (tlsf_client_safety 65536 4096 blank_heap demo_heap (<[65544 := 24]> ∅) demo_heap1)
    as (_ & _ & _ & H).
  - reflexivity.
  - lia.
  - exists 8192. reflexivity.
  - unfold class_ok. lia.
  - exists 512. reflexivity.
  - unfold u64_max. lia.
  - exact demo_heap_run.
  - exact demo_steps.
  - destruct (H 65544 24 (lookup_insert_eq _ _ _)) as (w2 & Hw2 & _). exists w2. exact Hw2.
Defined.

Definition demo_heap2 : tworld :=
  match free 65544 demo_heap1 with Ret (_, w) => w | Crash _ => blank_heap end.

Lemma tlsf_free_all_witness : tlsf_inv [Blk 4096 true] demo_heap2.
Proof.
  apply (tlsf_free_all_restores 65536 4096 blank_heap demo_heap demo_heap2).
  - reflexivity.
  - lia.
  - exists 8192. reflexivity.
  - unfold class_ok. lia.
  - exists 512. reflexivity.
  - unfold u64_max. lia.
  - exact demo_heap_run.
  - etransitivity; [exact demo_steps|]. apply rtc_once.
    rewrite <- (delete_insert_id ∅ 65544 24 (lookup_empty _)) at 2.
    apply (ts_free _ _ 65544 24); [apply lookup_insert_eq|]. vm_compute. reflexivity.
Defined.

(** ** Alignments above 8 *)

(** One allocation with alignment 16, freed at once. *)
Definition aligned_run : M tworld unit :=
  init 65536 4096;; p ← malloc 40 16; free p.

(** with an alignment above 8, [malloc] may return a pointer further than a
    header away from its block, but [free] always takes the header to be at
    [ptr - 8]: allocating 40 bytes with alignment 16 from a fresh heap and freeing
    them panics. *)
Theorem tlsf_aligned_free_panics :
  aligned_run blank_heap = Crash (Panic "attempt to subtract with overflow").
Proof. vm_compute. reflexivity. Qed.
