(* ===== verification/Heap.v ===== *)
(** * The interface of a heap allocator, and the two simple ones

    [GlobalAlloc] is the trait the kernel's allocators implement. [HeapLaws] is what
    such an implementation promises its clients; the safety of every client is
    proved once from it. [Module Dummy], [Module Bump] and [Module LinkedList] model
    [Dummy] of [allocator.rs], [allocator/bump.rs] and [allocator/linked_list.rs] and
    discharge it. *)

From S2P Require Import Prelude Memory Tlsf TlsfInv.
Local Open Scope rust_scope.

(** [core::alloc::Layout]: the alignment is a power of two and the size, rounded up
    to it, does not exceed [isize::MAX]. *)
Record Layout := mkLayout { lsize : Z; lalign : Z }.

Definition isize_max : Z := 9223372036854775807.

(** The requests considered: sizes and alignments up to [2^56]. *)
Definition layout_ok (l : Layout) : Prop :=
  0 <= lsize l <= 2 ^ 56 /\ exists j, 0 <= j <= 56 /\ lalign l = 2 ^ j.

Class GlobalAlloc (S : Type) := {
  alloc : Layout -> M S Z;
  dealloc : Z -> Layout -> M S unit
}.

(** The live allocations lie between [lo] and [hi], aligned and pairwise disjoint. *)
Definition live_at (lo hi : Z) (a : Z * Layout) : Prop :=
  (lalign a.2 | a.1) /\ lo <= a.1 /\ a.1 + lsize a.2 <= hi.
Definition disjoint_allocs (a b : Z * Layout) : Prop :=
  a.1 + lsize a.2 <= b.1 \/ b.1 + lsize b.2 <= a.1.
Fixpoint pairwise (A : list (Z * Layout)) : Prop :=
  match A with
  | [] => True
  | a :: A' => Forall (disjoint_allocs a) A' /\ pairwise A'
  end.
Definition live_ok (lo hi : Z) (A : list (Z * Layout)) : Prop :=
  Forall (live_at lo hi) A /\ pairwise A.

Class HeapLaws (S : Type) `{GlobalAlloc S} (ok : Layout -> Prop) (lo hi : Z) := {
  heap_inv : S -> list (Z * Layout) -> Prop;
  heap_alloc : forall s A l, heap_inv s A -> ok l ->
    wp (alloc l) (fun p s' => (p = 0 /\ heap_inv s' A) \/ (p <> 0 /\ heap_inv s' ((p, l) :: A))) s;
  heap_dealloc : forall s A1 p l A2, heap_inv s (A1 ++ (p, l) :: A2) ->
    wp (dealloc p l) (fun _ s' => heap_inv s' (A1 ++ A2)) s;
  heap_live : forall s A, heap_inv s A -> live_ok lo hi A
}.

(** ** Clients *)

Section client.
Context {S : Type} `{GlobalAlloc S} (ok : Layout -> Prop).

Inductive hstep : list (Z * Layout) * S -> list (Z * Layout) * S -> Prop :=
  | hs_alloc A s l p s' : ok l -> alloc l s = Ret (p, s') -> p <> 0 -> hstep (A, s) ((p, l) :: A, s')
  | hs_null A s l s' : ok l -> alloc l s = Ret (0, s') -> hstep (A, s) (A, s')
  | hs_dealloc A1 p l A2 s s' : dealloc p l s = Ret (tt, s') -> hstep (A1 ++ (p, l) :: A2, s) (A1 ++ A2, s').

Context (lo hi : Z) {laws : HeapLaws S ok lo hi}.

Lemma hstep_inv x y : hstep x y -> heap_inv x.2 x.1 -> heap_inv y.2 y.1.
Proof.
  intros Hst Hi. destruct Hst as [A s l p s' Hl Hrun Hp|A s l s' Hl Hrun|A1 p l A2 s s' Hrun]; simpl in *.
  - pose proof (heap_alloc s A l Hi Hl) as Hw. unfold wp in Hw. rewrite Hrun in Hw.
    destruct Hw as [[? _]|[_ ?]]; done.
  - pose proof (heap_alloc s A l Hi Hl) as Hw. unfold wp in Hw. rewrite Hrun in Hw.
    destruct Hw as [[_ ?]|[? _]]; done.
  - pose proof (heap_dealloc s A1 p l A2 Hi) as Hw. unfold wp in Hw. by rewrite Hrun in Hw.
Qed.

(** Whatever it does, a client of a lawful allocator holds aligned and disjoint
    memory of the heap, and its next call returns. *)
Lemma client_safety s0 A s :
  heap_inv s0 [] -> rtc hstep ([], s0) (A, s) ->
  live_ok lo hi A /\
  (forall l, ok l -> exists p s', alloc l s = Ret (p, s')) /\
  (forall p l, (p, l) ∈ A -> exists s', dealloc p l s = Ret (tt, s')).
Proof.
  intros H0 Hr. assert (Hi : heap_inv s A).
  { revert H0. change (heap_inv (([], s0) : list (Z * Layout) * S).2 (([], s0) : list (Z * Layout) * S).1 ->
      heap_inv (A, s).2 (A, s).1). induction Hr as [|x y z Hst _ IH]; [done|]. intros Hx. apply IH. by eapply hstep_inv. }
  split_and!.
  - by eapply heap_live.
  - intros l Hl. destruct (wp_elim _ _ _ (heap_alloc s A l Hi Hl)) as (p & s' & Hp & _). by exists p, s'.
  - intros p l Hpl. apply list_elem_of_split in Hpl as (A1 & A2 & ->).
    destruct (wp_elim _ _ _ (heap_dealloc s A1 p l A2 Hi)) as ([] & s' & Hp & _). by exists s'.
Qed.
End client.

(** ** [Dummy] of [allocator.rs] *)

Module Dummy.
Record Dummy := mkDummy {}.

Definition dummy_alloc (_ : Layout) : M Dummy Z := mret 0.
Definition dummy_dealloc (_ : Z) (_ : Layout) : M Dummy unit := crash (Panic "dealloc should never be called").

#[export] Instance dummy_global : GlobalAlloc Dummy := {| alloc := dummy_alloc; dealloc := dummy_dealloc |}.

(** It keeps the contract, with nothing ever live: its panic cannot be reached by a
    client that releases what it holds. *)
#[export] Program Instance dummy_laws ok lo hi : HeapLaws Dummy ok lo hi := {| heap_inv _ A := A = [] |}.
Next Obligation. intros. subst. by left. Qed.
Next Obligation. intros ? ? ? ? [|] **; done. Qed.
Next Obligation. intros. simplify_eq/=. by split; [constructor|]. Qed.
End Dummy.

(** ** Lists of allocations *)

Lemma pairwise_app A2 : forall A1, pairwise (A1 ++ A2) <->
  pairwise A1 /\ pairwise A2 /\ Forall (fun a => Forall (disjoint_allocs a) A2) A1.
Proof.
  induction A1 as [|a A1 IH]; simpl; [rewrite Forall_nil; tauto|].
  rewrite IH, Forall_app, Forall_cons. tauto.
Qed.

Lemma live_ok_remove lo hi A1 a A2 : live_ok lo hi (A1 ++ a :: A2) -> live_ok lo hi (A1 ++ A2).
Proof.
  intros [Hl Hp]. apply Forall_app in Hl as [Hl1 [_ Hl2]%Forall_cons].
  apply pairwise_app in Hp as (Hp1 & [_ Hp2] & Hp12). split; [by apply Forall_app|].
  apply pairwise_app. split_and!; [done|done|]. eapply Forall_impl; [exact Hp12|].
  intros b [_ ?]%Forall_cons. done.
Qed.

(** Alignment of an address by a layout of this range never overflows. *)
Lemma layout_align_up l addr : layout_ok l -> 0 <= addr -> addr <= 2 ^ 62 ->
  exists r, align_up addr (lalign l) = Ret r /\ (lalign l | r) /\ addr <= r < addr + lalign l /\
    lalign l <= 2 ^ 56.
Proof.
  intros [_ (j & Hj & ->)] Ha Hb. pose proof (pow2_mono j 56 ltac:(lia)).
  destruct (align_up_spec addr j Ha ltac:(lia) ltac:(unfold u64_max; lia)) as (r & -> & ? & ?).
  exists r. split_and!; done || lia.
Qed.

(** ** [allocator/bump.rs] *)
Module Bump.

Record BumpAllocator := mkBump {
  heap_start : Z;
  heap_end : Z;
  next : Z;
  allocations : Z
}.

Definition new : BumpAllocator := mkBump 0 0 0 0.

Definition init (start heap_size : Z) : M BumpAllocator unit :=
  b ← get;
  e ← lift (start +? heap_size);
  modify (fun _ => mkBump start e start (allocations b)).

(** [checked_add] *)
Definition checked_add (a b : Z) : option Z := if a + b <=? u64_max then Some (a + b) else None.

Definition alloc (layout : Layout) : M BumpAllocator Z :=
  bump ← get;
  alloc_start ← lift (align_up (next bump) (lalign layout));
  match checked_add alloc_start (lsize layout) with
  | None => mret 0
  | Some alloc_end =>
      if heap_end bump <? alloc_end then mret 0
      else
        n ← lift (allocations bump +? 1);
        _ ← modify (fun b => mkBump (heap_start b) (heap_end b) alloc_end n);
        mret alloc_start
  end.

Definition dealloc (ptr : Z) (layout : Layout) : M BumpAllocator unit :=
  bump ← get;
  n ← lift (allocations bump -? 1);
  modify (fun b => mkBump (heap_start b) (heap_end b) (if n =? 0 then heap_start b else next b) n).

#[export] Instance bump_alloc : GlobalAlloc BumpAllocator := {| Heap.alloc := alloc; Heap.dealloc := dealloc |}.

(** Everything live lies below [next], and [allocations] counts it. *)
Definition inv (lo hi : Z) (b : BumpAllocator) (A : list (Z * Layout)) : Prop :=
  heap_start b = lo /\ heap_end b = hi /\ 0 < lo /\ hi <= 2 ^ 62 /\ lo <= next b <= hi /\
  allocations b = Z.of_nat (length A) /\ Z.of_nat (length A) <= next b - lo /\
  live_ok lo (next b) A.

(** Requests of at least one byte, as [GlobalAlloc::alloc] requires. *)
Definition ok (l : Layout) : Prop := layout_ok l /\ 0 < lsize l.

Lemma live_ok_grow lo hi hi' A : hi <= hi' -> live_ok lo hi A -> live_ok lo hi' A.
Proof.
  intros Hh [Hl Hp]. split; [|done]. eapply Forall_impl; [exact Hl|]. intros a (? & ? & ?).
  split_and!; done || lia.
Qed.

Lemma bump_alloc_wp lo hi b A l : inv lo hi b A -> ok l ->
  wp (alloc l) (fun p b' => (p = 0 /\ inv lo hi b' A) \/ (p <> 0 /\ inv lo hi b' ((p, l) :: A))) b.
Proof.
  intros (Hs & He & Hlo & Hhi & Hn & Hc & Hcn & Hlive) [Hl Hpos].
  destruct (layout_align_up l (next b) Hl ltac:(lia) ltac:(lia)) as (r & Hr & Hd & Hrr & Hal).
  pose proof (proj1 Hl) as Hsz. unfold alloc. wp_step. wp_step. wp_step. wp_step. rewrite Hr. wp_step.
  unfold checked_add. rewrite (proj2 (Z.leb_le _ _)) by (unfold u64_max; lia).
  case_test Hlt; [wp_step; left; done|].
  wp_step. wp_step. assert (allocations b + 1 <= u64_max) by (unfold u64_max; lia). wp_step.
  wp_step. wp_step. wp_step. right. split; [lia|].
  unfold inv. cbn [heap_start heap_end next allocations length]. rewrite Nat2Z.inj_succ.
  split_and!; try done; try lia. pose proof Hlive as [Hl1 Hp1]. split; [apply Forall_cons; split|].
  - split_and!; simpl; [done|lia|lia].
  - apply (live_ok_grow _ (next b)); [lia|done].
  - split; [|done]. eapply Forall_impl; [exact Hl1|]. intros a (_ & _ & Ha). right. simpl. lia.
Qed.

Lemma bump_dealloc_wp lo hi b A1 p l A2 : inv lo hi b (A1 ++ (p, l) :: A2) ->
  wp (dealloc p l) (fun _ b' => inv lo hi b' (A1 ++ A2)) b.
Proof.
  intros (Hs & He & Hlo & Hhi & Hn & Hc & Hcn & Hlive). rewrite length_app in Hc, Hcn. cbn [length] in Hc, Hcn.
  unfold dealloc. do 4 wp_step. wp_step. wp_step. unfold inv. cbn [heap_start heap_end next allocations].
  rewrite length_app. apply live_ok_remove in Hlive. case_test Hz.
  - assert (A1 = [] /\ A2 = []) as [-> ->] by (destruct A1, A2; simpl in *; split; done || lia).
    rewrite Hs. split_and!; simpl; try done; try lia.
  - split_and!; try done; lia.
Qed.

#[export] Instance bump_laws lo hi : HeapLaws BumpAllocator ok lo hi.
Proof.
  refine {| heap_inv := inv lo hi |}.
  - apply bump_alloc_wp.
  - apply bump_dealloc_wp.
  - intros s A (_ & _ & _ & _ & Hn & _ & _ & Hlive). apply (live_ok_grow _ (next s)); [lia|done].
Defined.

Lemma bump_init_inv s n : 0 < s -> 0 <= n -> s + n <= 2 ^ 62 ->
  exists b, init s n new = Ret (tt, b) /\ inv s (s + n) b [].
Proof.
  intros Hs Hn Hb. eexists. split.
  - unfold init, mbind, M_bind, get, lift, chk_add. cbn.
    rewrite (proj2 (Z.leb_le _ _)) by (unfold u64_max; lia). reflexivity.
  - unfold inv. cbn. split_and!; try done; try lia.
Qed.

(** A client of the bump allocator that allocates at least one byte at a time
    and frees what it holds always holds aligned, pairwise disjoint memory inside
    the heap (the reset of [next] never happens under a live allocation), and
    each next call returns without overflow. *)
Theorem bump_client_safety s n A b b' :
  0 < s -> 0 <= n -> s + n <= 2 ^ 62 -> init s n new = Ret (tt, b) -> rtc (hstep ok) ([], b) (A, b') ->
  live_ok s (s + n) A /\
  (forall l, ok l -> exists p b2, alloc l b' = Ret (p, b2)) /\
  (forall p l, (p, l) ∈ A -> exists b2, dealloc p l b' = Ret (tt, b2)).
Proof.
  intros Hs Hn Hb Hi Hr. destruct (bump_init_inv s n Hs Hn Hb) as (b0 & Hi' & Hinv).
  rewrite Hi in Hi'. injection Hi' as <-. exact (client_safety ok s (s + n) b A b' Hinv Hr).
Qed.

Lemma bump_client_witness : exists p b2, alloc (mkLayout 24 8) (mkBump 4096 8192 4104 1) = Ret (p, b2).
Proof.
  destruct (bump_client_safety 4096 4096 [(4096, mkLayout 8 8)] (mkBump 4096 8192 4096 0)
    (mkBump 4096 8192 4104 1)) as (_ & H & _).
  - lia.
  - lia.
  - lia.
  - vm_compute. reflexivity.
  - apply rtc_once, hs_alloc.
    + split; [split; [simpl; lia|exists 3; split; [lia|reflexivity]]|simpl; lia].
    + vm_compute. reflexivity.
    + lia.
  - apply H. split; [split; [simpl; lia|exists 3; split; [lia|reflexivity]]|simpl; lia].
Defined.
End Bump.

(** ** [allocator/linked_list.rs] *)
Module LinkedList.

(** [size_of::<ListNode>()] and [align_of::<ListNode>()]: a [usize] and an optional
    reference. *)
Definition node_size : Z := 16.
Definition node_align : Z := 8.

(** The chain of [ListNode]s from [head.next] on: address and size of each region. *)
Definition LinkedListAllocator : Type := list (Z * Z).

Definition new : LinkedListAllocator := [].

Definition end_addr (region : Z * Z) : outcome Z := region.1 +? region.2.

Definition add_free_region (addr size : Z) : M LinkedListAllocator unit :=
  a ← lift (align_up addr node_align);
  _ ← guard_or (a =? addr) (Panic "assertion `left == right` failed");
  _ ← guard_or (node_size <=? size) (Panic "assertion failed: size >= mem::size_of::<ListNode>()");
  modify (fun l => (addr, size) :: l).

Definition init (heap_start heap_size : Z) : M LinkedListAllocator unit :=
  add_free_region heap_start heap_size.

Definition alloc_from_region (region : Z * Z) (size align : Z) : outcome (result Z unit) :=
  alloc_start ← align_up region.1 align;
  match Bump.checked_add alloc_start size with
  | None => Ret (Err tt)
  | Some alloc_end =>
      e ← end_addr region;
      if e <? alloc_end then Ret (Err tt)
      else
        excess_size ← e -? alloc_end;
        if (0 <? excess_size) && (excess_size <? node_size) then Ret (Err tt)
        else Ret (Ok alloc_start)
  end.

(** The walk over the list: the region found, the start of the allocation in it,
    and the list without the region. *)
Fixpoint find_region (l : LinkedListAllocator) (size align : Z) :
    outcome (option ((Z * Z) * Z) * LinkedListAllocator) :=
  match l with
  | [] => Ret (None, [])
  | region :: l' =>
      r ← alloc_from_region region size align;
      match r with
      | Ok alloc_start => Ret (Some (region, alloc_start), l')
      | Err _ => '(found, rest) ← find_region l' size align; Ret (found, region :: rest)
      end
  end.

(** [layout.align_to(8).expect(..).pad_to_align()], then room for a node. *)
Definition size_align (layout : Layout) : outcome (Z * Z) :=
  let align := Z.max (lalign layout) node_align in
  if isize_max + 1 - align <? lsize layout then Crash (Panic "adjusting alignment failed")
  else Ret (Z.max ((lsize layout + align - 1) / align * align) node_size, align).

Definition alloc (layout : Layout) : M LinkedListAllocator Z :=
  '(size, align) ← lift (size_align layout);
  l ← get;
  '(found, rest) ← lift (find_region l size align);
  _ ← modify (fun _ => rest);
  match found with
  | Some (region, alloc_start) =>
      alloc_end ← lift (expect (Bump.checked_add alloc_start size) "overflow");
      e ← lift (end_addr region);
      excess_size ← lift (e -? alloc_end);
      _ ← (if 0 <? excess_size then add_free_region alloc_end excess_size else mret tt);
      mret alloc_start
  | None => mret 0
  end.

Definition dealloc (ptr : Z) (layout : Layout) : M LinkedListAllocator unit :=
  '(size, _) ← lift (size_align layout);
  add_free_region ptr size.

#[export] Instance list_alloc : GlobalAlloc LinkedListAllocator :=
  {| Heap.alloc := alloc; Heap.dealloc := dealloc |}.

(** ** Extents: the regions and the live allocations together *)

Definition apart (x y : Z * Z) : Prop := x.1 + x.2 <= y.1 \/ y.1 + y.2 <= x.1.
Fixpoint all_apart (E : list (Z * Z)) : Prop :=
  match E with [] => True | x :: E' => Forall (apart x) E' /\ all_apart E' end.

#[local] Instance all_apart_perm : Proper ((≡ₚ) ==> iff) all_apart.
Proof.
  assert (H : forall E E', E ≡ₚ E' -> all_apart E -> all_apart E').
  { induction 1 as [|x E E' He IH|x y E|E1 E2 E3 _ IH1 _ IH2]; simpl; try tauto.
    - intros [Hf Ha]. split; [by rewrite <- He|auto].
    - rewrite !Forall_cons. unfold apart. intros [[Hyx Hy] [Hx Ha]]. split_and!; try done. tauto. }
  intros E E' He. split; apply H; [done|by symmetry].
Qed.

Definition extents_ok (lo hi : Z) (E : list (Z * Z)) : Prop :=
  Forall (fun x => lo <= x.1 /\ 0 <= x.2 /\ x.1 + x.2 <= hi) E /\ all_apart E.

#[local] Instance extents_perm lo hi : Proper ((≡ₚ) ==> iff) (extents_ok lo hi).
Proof. intros E E' He. unfold extents_ok. by rewrite He. Qed.

Lemma extents_shrink lo hi a n E b m :
  extents_ok lo hi ((a, n) :: E) -> a <= b -> 0 <= m -> b + m <= a + n -> extents_ok lo hi ((b, m) :: E).
Proof.
  intros [[H1 Hl]%Forall_cons [Hp Ha]] Hb Hm He. simpl in *. split; [apply Forall_cons; split; [simpl; lia|done]|].
  split; [|done]. eapply Forall_impl; [exact Hp|]. unfold apart. simpl. intros y. lia.
Qed.

Lemma extents_split lo hi a n E b m c k :
  extents_ok lo hi ((a, n) :: E) -> a <= b -> 0 <= m -> b + m <= c -> 0 <= k -> c + k <= a + n ->
  extents_ok lo hi ((b, m) :: (c, k) :: E).
Proof.
  intros He Hb Hm Hc Hk Hn. destruct (extents_shrink _ _ _ _ _ c k He) as [Hl [Hp Ha]]; [lia|lia|lia|].
  destruct (extents_shrink _ _ _ _ _ b m He) as [Hl' [Hp' Ha']]; [lia|lia|lia|].
  apply Forall_cons in Hl' as [Hl' _]. split; [by apply Forall_cons|]. split; [|done].
  apply Forall_cons. split; [left; simpl; lia|done].
Qed.

Definition adj_size (l : Layout) : Z :=
  Z.max ((lsize l + Z.max (lalign l) 8 - 1) / Z.max (lalign l) 8 * Z.max (lalign l) 8) 16.
Definition extent (a : Z * Layout) : Z * Z := (a.1, adj_size a.2).

Definition region_ok (r : Z * Z) : Prop := (8 | r.1) /\ 16 <= r.2.

Definition inv (lo hi : Z) (R : LinkedListAllocator) (A : list (Z * Layout)) : Prop :=
  0 < lo /\ hi <= 2 ^ 62 /\ Forall region_ok R /\
  Forall (fun a => layout_ok a.2 /\ (Z.max (lalign a.2) 8 | a.1)) A /\
  extents_ok lo hi (R ++ (extent <$> A)).

Lemma layout_adj l : layout_ok l -> exists j, 3 <= j <= 56 /\ Z.max (lalign l) 8 = 2 ^ j /\ (lalign l | 2 ^ j) /\
  size_align l = Ret (adj_size l, 2 ^ j) /\ lsize l <= adj_size l /\ 16 <= adj_size l <= 2 ^ 57 /\ (8 | adj_size l).
Proof.
  intros [Hs (j & Hj & Ha)]. exists (Z.max j 3).
  assert (Hmax : Z.max (lalign l) 8 = 2 ^ Z.max j 3).
  { rewrite Ha. destruct (Z.max_spec j 3) as [[Hlt ->]|[Hge ->]].
    - pose proof (pow2_mono j 3 ltac:(lia)). change (2 ^ 3) with 8 in *. lia.
    - pose proof (pow2_mono 3 j ltac:(lia)). change (2 ^ 3) with 8 in *. lia. }
  pose proof (pow2_mono (Z.max j 3) 56 ltac:(lia)) as Hub.
  pose proof (pow2_pos (Z.max j 3) ltac:(lia)) as Hpos. set (k := Z.max j 3) in *.
  pose proof (Z.div_mod (lsize l + 2 ^ k - 1) (2 ^ k) ltac:(lia)) as Hdm.
  pose proof (Z.mod_pos_bound (lsize l + 2 ^ k - 1) (2 ^ k) Hpos) as Hmb.
  assert (Hadj : adj_size l = Z.max ((lsize l + 2 ^ k - 1) / 2 ^ k * 2 ^ k) 16) by (unfold adj_size; by rewrite Hmax).
  split_and!; try lia.
  - rewrite Ha. apply pow2_divide. lia.
  - unfold size_align, node_align, node_size. rewrite Hmax, <- Hadj.
    rewrite (proj2 (Z.ltb_ge _ _)) by (unfold isize_max; lia). done.
  - rewrite Hadj. assert (H8 : (8 | 2 ^ k)) by (apply (pow2_divide 3 k); lia).
    destruct (Z.max_spec ((lsize l + 2 ^ k - 1) / 2 ^ k * 2 ^ k) 16) as [[_ ->]|[_ ->]]; [by exists 2|].
    by apply Z.divide_mul_r.
Qed.

Lemma add_free_region_wp R a n (Q : unit -> LinkedListAllocator -> Prop) :
  0 <= a -> a <= 2 ^ 62 -> (8 | a) -> 16 <= n -> Q tt ((a, n) :: R) -> wp (add_free_region a n) Q R.
Proof.
  intros H0 Ha Hd Hn HQ. unfold add_free_region, node_align, node_size. wp_step. wp_step.
  change 8 with (2 ^ 3). rewrite (align_up_id a 3 H0) by (done || (unfold u64_max; lia)). wp_step.
  wp_step. apply wp_guard; [apply Z.eqb_refl|]. wp_step. apply wp_guard; [by apply Z.leb_le|]. by wp_step.
Qed.

(** When a region serves a request. *)
Definition fits (r : Z * Z) (size align p : Z) : Prop :=
  (align | p) /\ r.1 <= p /\ p + size <= r.1 + r.2 /\
  (p + size = r.1 + r.2 \/ p + size + 16 <= r.1 + r.2).

Lemma alloc_from_region_spec r size j :
  0 < r.1 -> r.1 + r.2 <= 2 ^ 62 -> 0 <= r.2 -> 0 <= size <= 2 ^ 57 -> 0 <= j <= 56 ->
  (exists p, alloc_from_region r size (2 ^ j) = Ret (Ok p) /\ fits r size (2 ^ j) p) \/
  alloc_from_region r size (2 ^ j) = Ret (Err tt).
Proof.
  intros H0 He Hr Hs Hj. pose proof (pow2_mono j 56 ltac:(lia)).
  destruct (align_up_spec r.1 j ltac:(lia) ltac:(lia) ltac:(unfold u64_max; lia)) as (p & Hp & Hd & Hpr).
  unfold alloc_from_region. rewrite Hp. cbn [mbind outcome_bind]. unfold Bump.checked_add.
  rewrite (proj2 (Z.leb_le _ _)) by (unfold u64_max; lia).
  unfold end_addr, chk_add, chk_sub. rewrite (proj2 (Z.leb_le _ _)) by (unfold u64_max; lia).
  cbn [mbind outcome_bind]. destruct (Z.ltb_spec (r.1 + r.2) (p + size)) as [Hlt|Hge]; [by right|].
  rewrite (proj2 (Z.leb_le _ _)) by lia. cbn [mbind outcome_bind]. unfold node_size.
  destruct (Z.ltb_spec 0 (r.1 + r.2 - (p + size))), (Z.ltb_spec (r.1 + r.2 - (p + size)) 16); simpl;
    try (by right); left; exists p; (split; [done|]); split_and!; done || lia.
Qed.

Lemma find_region_spec R size j :
  Forall (fun r => 0 < r.1 /\ 0 <= r.2 /\ r.1 + r.2 <= 2 ^ 62) R -> 0 <= size <= 2 ^ 57 -> 0 <= j <= 56 ->
  (exists R1 r R2 p, R = R1 ++ r :: R2 /\ find_region R size (2 ^ j) = Ret (Some (r, p), R1 ++ R2) /\
     fits r size (2 ^ j) p) \/
  find_region R size (2 ^ j) = Ret (None, R).
Proof.
  intros HR Hs Hj. induction HR as [|r R (H0 & Hr & He) _ IH]; [by right|]. cbn [find_region].
  destruct (alloc_from_region_spec r size j) as [(p & -> & Hf)| ->]; try done.
  - left. exists [], r, R, p. done.
  - destruct IH as [(R1 & r' & R2 & p & -> & Hfind & Hf)|Hfind]; rewrite Hfind; [|by right].
    left. by exists (r :: R1), r', R2, p.
Qed.

Lemma inv_regions lo hi R A : inv lo hi R A -> Forall (fun r => 0 < r.1 /\ 0 <= r.2 /\ r.1 + r.2 <= 2 ^ 62) R.
Proof.
  intros (Hlo & Hhi & _ & _ & [He _]). apply Forall_app in He as [He _].
  eapply Forall_impl; [exact He|]. intros r. simpl. lia.
Qed.

Lemma list_alloc_wp lo hi R A l : inv lo hi R A -> layout_ok l ->
  wp (alloc l) (fun p R' => (p = 0 /\ inv lo hi R' A) \/ (p <> 0 /\ inv lo hi R' ((p, l) :: A))) R.
Proof.
  intros Hinv Hl. pose proof (inv_regions _ _ _ _ Hinv) as HR.
  destruct (layout_adj l Hl) as (j & Hj & Hmax & Hdl & Hsa & Hle & Hadj & Had8).
  unfold alloc. wp_step. wp_step. rewrite Hsa. wp_step. wp_step. wp_step. wp_step. wp_step.
  destruct (find_region_spec R (adj_size l) j HR ltac:(lia) ltac:(lia))
    as [(R1 & [a n] & R2 & p & -> & -> & Hd & Hp1 & Hp2 & Hex)| ->]; simpl in *.
  2:{ wp_steps. by left. }
  destruct Hinv as (Hlo & Hhi & HRok & HA & He). apply Forall_app in HRok as [HR1 [[Hda Hn] HR2]%Forall_cons].
  assert (He' : extents_ok lo hi ((a, n) :: (R1 ++ R2) ++ (extent <$> A))).
  { revert He. apply extents_perm. rewrite <- !app_assoc. simpl. by rewrite <- Permutation_middle. }
  pose proof He' as [[[Ha1 Ha2] _]%Forall_cons _]. simpl in Ha1, Ha2.
  assert (Hdp8 : (8 | p)) by (apply (Z.divide_trans 8 (2 ^ j)); [apply (pow2_divide 3 j); lia|done]).
  assert (HAl : Forall (fun a => layout_ok a.2 /\ (Z.max (lalign a.2) 8 | a.1)) ((p, l) :: A)).
  { apply Forall_cons. split; [|done]. simpl. by rewrite Hmax. }
  wp_steps. unfold Bump.checked_add.
  rewrite (proj2 (Z.leb_le _ _)) by (unfold u64_max; lia). cbn [expect]. wp_step.
  wp_step. wp_step. unfold end_addr. simpl. assert (a + n <= u64_max) by (unfold u64_max; lia). wp_step.
  wp_step. wp_step. wp_step. wp_step.
  destruct (Z.ltb_spec 0 (a + n - (p + adj_size l))) as [Hpos|Hzero].
  - apply add_free_region_wp; [lia|lia|by apply Z.divide_add_r|lia|]. wp_step. right. split; [lia|].
    split_and!; [done|done| |done|].
    + apply Forall_cons. split; [split; [by apply Z.divide_add_r|simpl; lia]|by apply Forall_app].
    + pose proof (extents_split lo hi a n _ p (adj_size l) (p + adj_size l) (a + n - (p + adj_size l)) He'
        ltac:(lia) ltac:(lia) ltac:(lia) ltac:(lia) ltac:(lia)) as Hs.
      revert Hs. apply extents_perm. rewrite fmap_cons. unfold extent at 1. simpl.
      rewrite <- Permutation_middle. apply Permutation_swap.
  - wp_step. wp_step. right. split; [lia|]. split_and!; [done|done|by apply Forall_app|done|].
    pose proof (extents_shrink lo hi a n _ p (adj_size l) He' ltac:(lia) ltac:(lia) ltac:(lia)) as Hs.
    revert Hs. apply extents_perm. rewrite fmap_cons. unfold extent at 1. simpl. by rewrite <- Permutation_middle.
Qed.

Lemma list_dealloc_wp lo hi R A1 p l A2 : inv lo hi R (A1 ++ (p, l) :: A2) ->
  wp (dealloc p l) (fun _ R' => inv lo hi R' (A1 ++ A2)) R.
Proof.
  intros (Hlo & Hhi & HRok & HA & He). apply Forall_app in HA as [HA1 [[Hl Hd] HA2]%Forall_cons].
  simpl in Hl, Hd. destruct (layout_adj l Hl) as (j & Hj & Hmax & _ & Hsa & _ & Hadj & _).
  assert (He' : extents_ok lo hi (((p, adj_size l) :: R) ++ (extent <$> A1 ++ A2))).
  { revert He. apply extents_perm. rewrite !fmap_app, fmap_cons. unfold extent at 2. simpl.
    rewrite <- (Permutation_middle (extent <$> A1)). by rewrite <- Permutation_middle. }
  pose proof He' as [[[Hp1 Hp2] _]%Forall_cons _]. simpl in Hp1, Hp2.
  unfold dealloc. wp_step. wp_step. rewrite Hsa. wp_step. apply add_free_region_wp; [lia|lia| |lia|].
  - apply (Z.divide_trans 8 (2 ^ j)); [apply (pow2_divide 3 j); lia|]. by rewrite <- Hmax.
  - split_and!; [done|done| |by apply Forall_app|done]. apply Forall_cons. split; [|done]. split; [|simpl; lia].
    apply (Z.divide_trans 8 (2 ^ j)); [apply (pow2_divide 3 j); lia|]. by rewrite <- Hmax.
Qed.

Lemma inv_live lo hi R A : inv lo hi R A -> live_ok lo hi A.
Proof.
  intros (Hlo & Hhi & _ & HA & [Hr Ha]). apply Forall_app in Hr as [_ Hr].
  assert (Hap : all_apart (extent <$> A)). { clear -Ha. induction R as [|r R IH]; simpl in *; [done|]. apply IH, Ha. }
  clear Ha. induction A as [|[p l] A IH]; [by split; [constructor|]|].
  apply Forall_cons in HA as [[Hl Hd] HA]. rewrite fmap_cons in Hr, Hap. apply Forall_cons in Hr as [Hx Hr].
  destruct Hap as [Hap1 Hap]. destruct (IH HA Hr Hap) as [Hlive Hpw]. simpl in *.
  destruct (layout_adj l Hl) as (j & Hj & Hmax & Hdl & _ & Hle & _).
  split; [apply Forall_cons; split; [|done]|split; [|done]].
  - split_and!; simpl; [|lia|lia]. apply (Z.divide_trans _ (2 ^ j)); [done|]. by rewrite <- Hmax.
  - apply Forall_forall. intros [q k] Hq. rewrite Forall_forall in Hap1.
    specialize (Hap1 (extent (q, k)) (list_elem_of_fmap_2 extent _ _ Hq)). unfold apart, extent in Hap1. simpl in Hap1.
    rewrite Forall_forall in HA. destruct (HA _ Hq) as [Hk _]. simpl in Hk.
    destruct (layout_adj k Hk) as (_ & _ & _ & _ & _ & Hle' & _). unfold disjoint_allocs. simpl. lia.
Qed.

#[export] Instance list_laws lo hi : HeapLaws LinkedListAllocator layout_ok lo hi.
Proof.
  refine {| heap_inv := inv lo hi |}.
  - apply list_alloc_wp.
  - apply list_dealloc_wp.
  - apply inv_live.
Defined.

Lemma list_init_inv s n : 0 < s -> (8 | s) -> 16 <= n -> s + n <= 2 ^ 62 ->
  exists R, init s n new = Ret (tt, R) /\ inv s (s + n) R [].
Proof.
  intros Hs Hd Hn Hb.
  assert (Hw : wp (init s n) (fun _ R => inv s (s + n) R []) new).
  { apply add_free_region_wp; [lia|lia|done|done|].
    split; [done|]. split; [lia|]. split; [by repeat constructor|]. split; [constructor|].
    split; [|by repeat constructor]. apply Forall_cons. split; [simpl; lia|constructor]. }
  apply wp_elim in Hw as ([] & R & Hr & Hi). by exists R.
Qed.

(** C36: a client of the linked-list allocator that frees what it holds, with the
    layout it was allocated with, always holds aligned, pairwise disjoint memory
    inside the heap; each next call returns, so neither the assertions of
    [add_free_region] nor the overflow checks ever fire. *)
Theorem linked_list_client_safety s n A R R' :
  0 < s -> (8 | s) -> 16 <= n -> s + n <= 2 ^ 62 -> init s n new = Ret (tt, R) ->
  rtc (hstep layout_ok) ([], R) (A, R') ->
  live_ok s (s + n) A /\
  (forall l, layout_ok l -> exists p R2, alloc l R' = Ret (p, R2)) /\
  (forall p l, (p, l) ∈ A -> exists R2, dealloc p l R' = Ret (tt, R2)).
Proof.
  intros Hs Hd Hn Hb Hi Hr. destruct (list_init_inv s n Hs Hd Hn Hb) as (R0 & Hi' & Hinv).
  rewrite Hi in Hi'. injection Hi' as <-. exact (client_safety layout_ok s (s + n) R A R' Hinv Hr).
Qed.

Lemma linked_list_client_witness : exists R2, dealloc 4096 (mkLayout 24 8) [(4120, 4072)] = Ret (tt, R2).
Proof.
  destruct (linked_list_client_safety 4096 4096 [(4096, mkLayout 24 8)] [(4096, 4096)] [(4120, 4072)]) as (_ & _ & H).
  - lia.
  - exists 512. reflexivity.
  - lia.
  - lia.
  - vm_compute. reflexivity.
  - apply rtc_once, hs_alloc.
    + split; [simpl; lia|exists 3; split; [lia|reflexivity]].
    + vm_compute. reflexivity.
    + lia.
  - apply H. apply list_elem_of_singleton. reflexivity.
Defined.

(** One request of alignment 4096 from a heap that starts 8 bytes after a page. *)
Definition leak_run : M LinkedListAllocator Z :=
  _ ← init 4104 12280; p ← alloc (mkLayout 4096 4096); _ ← dealloc p (mkLayout 4096 4096); mret p.

(** the part of a region in front of an aligned allocation is given up for
    good: after allocating and freeing one page-aligned page, the free list holds
    8192 of the heap's 12280 bytes. *)
Theorem linked_list_alignment_leak :
  leak_run new = Ret (8192, [(8192, 4096); (12288, 4096)]).
Proof. vm_compute. reflexivity. Qed.
End LinkedList.
