(* ===== verification/KernelHeap.v ===== *)
(** * The kernel heap: [allocator.rs]

    [GlobalAlloc for Locked<TlsfAllocator>] (the global allocator: TLSF plus the
    metrics and the trace) discharges the interface of [Heap], and [init_heap] maps
    the heap's pages and initialises it. The spin lock is taken and released
    within each call on a single core, so a call is one step; [rdtsc] is hardware,
    a function of how often it has been read. *)

From S2P Require Import Prelude Memory Tlsf TlsfInv TlsfLists TlsfPhys TlsfAlloc TlsfMalloc TlsfSpec.
From S2P Require Import Monitor Trace Heap.
Local Open Scope rust_scope.

Definition HEAP_START : Z := 0x444444440000.
Definition HEAP_SIZE : Z := 1048576.

Record kworld := mkKworld {
  kheap : tworld;
  kmon : MonitorData;
  ktrace : TraceBuffer;
  kreads : Z
}.

Definition on_heap {A} (c : M tworld A) : M kworld A := fun k =>
  match c (kheap k) with
  | Ret (a, h) => Ret (a, mkKworld h (kmon k) (ktrace k) (kreads k))
  | Crash f => Crash f
  end.
Definition on_mon (f : MonitorData -> outcome MonitorData) : M kworld unit := fun k =>
  match f (kmon k) with
  | Ret m => Ret (tt, mkKworld (kheap k) m (ktrace k) (kreads k))
  | Crash f => Crash f
  end.

Section kernel_heap.
Context (rdtsc : Z -> Z).

(** [trace_event!(id, a0, a1)] *)
Definition trace_event (id : TraceEventId) (a0 a1 : Z) : M kworld unit := fun k =>
  match record (rdtsc (kreads k)) id a0 a1 (ktrace k) with
  | Ret (_, t) => Ret (tt, mkKworld (kheap k) (kmon k) t (kreads k + 1))
  | Crash f => Crash f
  end.

Definition alloc (layout : Layout) : M kworld Z :=
  ptr ← on_heap (Tlsf.malloc (lsize layout) (lalign layout));
  _ ← (if ptr =? 0 then mret tt
       else _ ← on_mon (inc_alloc (lsize layout)); trace_event Alloc (lsize layout) ptr);
  mret ptr.

Definition dealloc (ptr : Z) (layout : Layout) : M kworld unit :=
  _ ← on_heap (Tlsf.free ptr);
  _ ← on_mon (fun m => Ret (inc_free (lsize layout) m));
  trace_event Free (lsize layout) ptr.

#[export] Instance kernel_alloc : GlobalAlloc kworld := {| Heap.alloc := alloc; Heap.dealloc := dealloc |}.
End kernel_heap.

(** ** Disjoint allocations fit in the heap *)

Definition sizes (A : list (Z * Layout)) : Z := foldr (fun a n => lsize a.2 + n) 0 A.

Lemma sizes_layouts A : sizes A = foldr (fun l n => lsize l + n) 0 (snd <$> A).
Proof. induction A as [|a A IH]; [done|]. rewrite fmap_cons. simpl. fold (sizes A). by rewrite IH. Qed.

Lemma pairwise_filter (P : Z * Layout -> Prop) `{!forall x, Decision (P x)} A : pairwise A -> pairwise (filter P A).
Proof.
  induction A as [|a A IH]; [done|]. intros [Hf Hp]. rewrite filter_cons. destruct (decide (P a)); [|auto].
  split; [|auto]. apply Forall_forall. intros x [_ Hx]%list_elem_of_filter. by eapply Forall_forall in Hf.
Qed.

Lemma sizes_filter (P : Z * Layout -> Prop) `{!forall x, Decision (P x)} A :
  sizes A = sizes (filter P A) + sizes (filter (fun x => ~ P x) A).
Proof.
  induction A as [|a A IH]; [done|]. rewrite !filter_cons.
  destruct (decide (P a)), (decide (~ P a)); try tauto; cbn [sizes foldr]; fold (sizes A) in *;
    fold (sizes (filter P A)) in *; fold (sizes (filter (fun x => ~ P x) A)) in *; lia.
Qed.

Lemma sizes_bound : forall n A lo hi, (length A <= n)%nat -> lo <= hi ->
  Forall (fun a => 0 <= lsize a.2 /\ lo <= a.1 /\ a.1 + lsize a.2 <= hi) A -> pairwise A -> sizes A <= hi - lo.
Proof.
  induction n as [|n IH]; intros A lo hi Hlen Hlh Hin Hp.
  { destruct A; [simpl; lia|simpl in Hlen; lia]. }
  destruct A as [|[p l] A]; [simpl; lia|]. apply Forall_cons in Hin as [(H0 & H1 & H2) Hin]. simpl in *.
  destruct Hp as [Hf Hp]. set (P := fun a : Z * Layout => a.1 + lsize a.2 <= p).
  rewrite (sizes_filter P A).
  assert (Hlow : sizes (filter P A) <= p - lo).
  { apply IH; [pose proof (length_filter P A); lia|lia| |by apply pairwise_filter].
    apply Forall_forall. intros x [Hx Hin']%list_elem_of_filter. eapply Forall_forall in Hin; [|done].
    unfold P in Hx. lia. }
  assert (Hhigh : sizes (filter (fun x => ~ P x) A) <= hi - (p + lsize l)).
  { apply IH; [pose proof (length_filter (fun x => ~ P x) A); lia|lia| |by apply pairwise_filter].
    apply Forall_forall. intros x [Hx Hin']%list_elem_of_filter. eapply Forall_forall in Hin; [|done].
    eapply Forall_forall in Hf; [|done]. unfold P in Hx. unfold disjoint_allocs in Hf. simpl in Hf. lia. }
  lia.
Qed.

(** ** The promise *)

(** Requests of alignment up to 8. *)
Definition small_align (l : Layout) : Prop :=
  0 <= lsize l <= 2 ^ 56 /\ exists j, 0 <= j <= 3 /\ lalign l = 2 ^ j.

(** The blocks in use are those behind the live allocations, each less than 64 bytes
    larger than what was asked for. *)
Definition backed (U : gmap Z Z) (A : list (Z * Layout)) : Prop :=
  Forall (fun a => small_align a.2 /\ exists t, U !! (a.1 - 8) = Some t /\ lsize a.2 + 8 <= t < lsize a.2 + 64) A /\
  NoDup (fst <$> A) /\ (forall b t, U !! b = Some t -> b + 8 ∈ fst <$> A).

(** What live allocations of layouts [L] take of the heap, at most. *)
Definition footprint (L : list Layout) : Z := foldr (fun l n => lsize l + 64 + n) 0 L.

(** A sufficient condition for a heap of [n] bytes with live allocations of layouts [L]
    to grant a request. *)
Definition room (n : Z) (L : list Layout) (l : Layout) : Prop :=
  (Z.of_nat (length L) + 1) * (2 * needed_for (lsize l) (lalign l)) + footprint L <= n.

Lemma backed_footprint A : forall U, backed U A -> Z.of_nat (base.size U) <= Z.of_nat (length A) /\ msum U <= footprint (snd <$> A).
Proof.
  induction A as [|[p l] A IH]; intros U (Hf & Hnd & Hd).
  - assert (U = ∅) as ->; [|done]. apply map_empty. intros b. destruct (U !! b) eqn:E; [|done].
    apply Hd in E. by apply elem_of_nil in E.
  - apply Forall_cons in Hf as [[_ (t & Ht & Hs)] Hf]. rewrite fmap_cons in Hnd, Hd.
    apply NoDup_cons in Hnd as [Hp Hnd]. cbn [fst snd] in *.
    destruct (IH (delete (p - 8) U)) as [IH1 IH2].
    { split_and!; [|done|].
      - apply Forall_forall. intros x Hx. rewrite Forall_forall in Hf. destruct (Hf x Hx) as [Hxl (u & Hu & Hus)].
        split; [done|]. exists u. split; [|done]. rewrite lookup_delete_ne; [done|]. intros Heq.
        apply Hp. replace p with x.1 by lia. by apply (list_elem_of_fmap_2 fst).
      - intros b u [Hne Hb]%lookup_delete_Some. apply Hd in Hb. apply elem_of_cons in Hb as [Hb|Hb]; [lia|done]. }
    rewrite (msum_delete _ _ _ Ht). rewrite map_size_delete, Ht in IH1. simpl in IH1.
    change (footprint (snd <$> (p, l) :: A)) with (lsize l + 64 + footprint (snd <$> A)). simpl length. lia.
Qed.

Definition kernel_inv (lo hi : Z) (k : kworld) (A : list (Z * Layout)) : Prop :=
  (exists B, tlsf_inv B (kheap k) /\ heap_start (tself (kheap k)) = lo /\
     heap_end (tself (kheap k)) = hi /\ backed (bmap false lo B) A) /\
  current_allocated (kmon k) = sizes A /\ length (entries (ktrace k)) = Z.to_nat BUFFER_SIZE.

Lemma backed_live lo hi B w A :
  tlsf_inv B w -> heap_start (tself w) = lo -> heap_end (tself w) = hi -> backed (bmap false lo B) A ->
  live_ok lo hi A.
Proof.
  intros Hi Hlo Hhi (Hb & Hnd & _). pose proof (i_geo _ _ Hi) as Hg. pose proof (g_wf _ _ Hg) as Hw.
  pose proof (g_end _ _ Hg) as He. pose proof (g_start _ _ Hg) as [Hpos Hd8]. rewrite Hlo, Hhi in *.
  induction Hb as [|[p l] A [Hl (t & Ht & Hs)] Hb IH]; [by split; [constructor|]|].
  rewrite fmap_cons in Hnd. apply NoDup_cons in Hnd as [Hp Hnd]. destruct (IH Hnd) as [IH1 IH2]. simpl in *.
  pose proof (bmap_lookup false B Hw lo _ _ Ht) as (H1 & H2 & _ & _ & H5).
  split; [apply Forall_cons; split; [|done]|split; [|done]].
  - destruct Hl as [Hsz (j & Hj & Hal)]. split_and!; simpl; [|lia|lia]. rewrite Hal.
    apply (Z.divide_trans _ 8); [apply (pow2_divide j 3); lia|].
    replace p with (p - 8 - lo + lo + 1 * 8) by lia. apply Z.divide_add_r; [by apply Z.divide_add_r|by exists 1].
  - apply Forall_forall. intros [q m] Hq. rewrite Forall_forall in Hb. destruct (Hb _ Hq) as [Hm (u & Hu & Hus)].
    simpl in *. assert (p <> q). { intros ->. apply Hp. by apply (list_elem_of_fmap_2 fst A (q, m)). }
    unfold disjoint_allocs. simpl. destruct Hl as [[? _] _], Hm as [[? _] _].
    destruct (Z.lt_ge_cases p q) as [Hlt|Hge].
    + pose proof (bmap_sep false B Hw _ _ _ _ _ Ht Hu ltac:(lia)). lia.
    + pose proof (bmap_sep false B Hw _ _ _ _ _ Hu Ht ltac:(lia)). lia.
Qed.

Lemma live_sizes lo hi B w A :
  tlsf_inv B w -> heap_start (tself w) = lo -> heap_end (tself w) = hi -> backed (bmap false lo B) A ->
  0 <= sizes A <= hi - lo.
Proof.
  intros Hi Hlo Hhi Hb. destruct (backed_live _ _ _ _ _ Hi Hlo Hhi Hb) as [Hl Hp].
  pose proof (i_geo _ _ Hi) as Hg. pose proof (g_end _ _ Hg) as He. pose proof (wf_total _ (g_wf _ _ Hg)) as [Ht _].
  rewrite Hlo, Hhi in He. destruct Hb as [Hb _]. split.
  - clear -Hb. induction Hb as [|a A [[[? _] _] _] _ IH]; simpl; lia.
  - apply (sizes_bound (length A) A lo hi); [done|lia| |done].
    apply Forall_forall. intros a Ha. rewrite Forall_forall in Hl, Hb.
    destruct (Hl a Ha) as (_ & ? & ?), (Hb a Ha) as [[[? _] _] _]. done.
Qed.

Section laws.
Context (rdtsc : Z -> Z) (lo hi : Z).

Lemma trace_event_wp k id a0 a1 (Q : unit -> kworld -> Prop) :
  length (entries (ktrace k)) = Z.to_nat BUFFER_SIZE ->
  (forall t, length (entries t) = Z.to_nat BUFFER_SIZE ->
     Q tt (mkKworld (kheap k) (kmon k) t (kreads k + 1))) ->
  wp (trace_event rdtsc id a0 a1) Q k.
Proof.
  intros Hl HQ. unfold wp, trace_event.
  assert (Hr : wp (record (rdtsc (kreads k)) id a0 a1)
    (fun _ t => length (entries t) = Z.to_nat BUFFER_SIZE) (ktrace k)).
  { unfold record. wp_step. wp_step. destruct (negb (is_init (ktrace k))); [by wp_step|].
    pose proof (Z.mod_pos_bound (write_idx (ktrace k)) BUFFER_SIZE ltac:(done)).
    wp_step. wp_step. apply returns_store_index; [rewrite Hl; unfold BUFFER_SIZE in *; lia|].
    wp_step. cbn. by rewrite length_insert. }
  unfold wp in Hr. destruct (record _ _ _ _ _) as [[[] t]|]; [by apply HQ|done].
Qed.

Lemma on_heap_wp {X} (c : M tworld X) k (Q : X -> kworld -> Prop) :
  wp c (fun a h => Q a (mkKworld h (kmon k) (ktrace k) (kreads k))) (kheap k) -> wp (on_heap c) Q k.
Proof. unfold wp, on_heap. by destruct (c (kheap k)) as [[a h]|]. Qed.

Lemma kernel_alloc_wp k A l : kernel_inv lo hi k A -> small_align l ->
  wp (alloc rdtsc l) (fun p k' => (p = 0 /\ kernel_inv lo hi k' A /\ ~ room (hi - lo) (snd <$> A) l) \/
    (p <> 0 /\ kernel_inv lo hi k' ((p, l) :: A))) k.
Proof.
  intros ((B & Hi & Hlo & Hhi & Hb) & Hm & Ht) Hl. pose proof Hl as [Hs (j & Hj & Hal)].
  pose proof (live_sizes _ _ _ _ _ Hi Hlo Hhi Hb) as Hsz. pose proof (i_geo _ _ Hi) as Hg.
  pose proof (g_top _ _ Hg) as Htop. pose proof (g_end _ _ Hg) as He. pose proof (g_small _ _ Hg) as Hsm.
  pose proof (pow2_mono j 3 ltac:(lia)) as Hj8. change (2 ^ 3) with 8 in Hj8. rewrite Hlo, Hhi in *.
  unfold alloc. rewrite Hal. wp_step. apply on_heap_wp.
  eapply wp_mono; [apply (malloc_wp B _ _ j Hi); lia|]. cbv beta.
  intros p h' [(-> & -> & Hnone)|(Hp & Hserved)].
  { rewrite Z.eqb_refl. wp_step. wp_step. wp_step. left. split_and!; [done|by split; [exists B|done]|].
    destruct (backed_footprint _ _ Hb) as [Hn Hsum]. intros Hroom. unfold room in Hroom. rewrite Hal, length_fmap in Hroom.
    set (needed := needed_for (lsize l) (2 ^ j)) in *. assert (32 <= needed) by (unfold needed, needed_for; lia).
    pose proof (Z.mul_le_mono_nonneg_r _ _ (2 * needed) ltac:(lia) Hn).
    apply (room_found B (kheap k) needed Hi); rewrite ?Hlo; [done|lia|].
    rewrite <- Hlo. destruct (i_lists _ _ Hi) as [L HL].
    eapply (none_later HL (inv_headers_say _ _ Hi)); [lia|exact Hnone]. }
  rewrite (proj2 (Z.eqb_neq p 0)) by done.
  destruct (served_payload _ _ _ _ _ _ Hj Hserved) as (t & (B' & Hi' & [Hb1 Hb2] & Hn & HU & _) & Hfit).
  assert (Hneed : needed_for (lsize l) (2 ^ j) <= lsize l + 32).
  { unfold needed_for. pose proof (Z.div_mod (Z.max (2 ^ j) 8 + lsize l + 7) 8 ltac:(lia)).
    pose proof (Z.mod_pos_bound (Z.max (2 ^ j) 8 + lsize l + 7) 8 ltac:(lia)). lia. }
  rewrite Hlo in *.
  wp_step. wp_step. unfold on_mon, wp. cbn [kmon].
  destruct (heap_step_spec (HAlloc (lsize l)) (kmon k)) as (m' & Hm' & Hcur & _); [simpl; lia| |].
  { simpl. rewrite Hm. unfold in_u64, u64_max. lia. }
  simpl in Hm'. rewrite Hm'. apply trace_event_wp; [done|]. intros tr Htr. right. split; [done|].
  split_and!; [|simpl; rewrite Hcur; simpl; lia|done]. exists B'. cbn [kheap].
  split_and!; [done|congruence|congruence|]. destruct Hb as (Hb & Hnd & Hdom). split_and!.
  - apply Forall_cons. split; [split; [done|]|].
    + exists t. simpl. rewrite HU, lookup_insert_eq. split; [done|lia].
    + eapply Forall_impl; [exact Hb|]. intros x [Hx (u & Hu & Hus)]. split; [done|]. exists u. split; [|done].
      rewrite HU, lookup_insert_ne; [done|]. intros Hax. rewrite Hax in Hn. congruence.
  - rewrite fmap_cons. apply NoDup_cons. split; [|done]. simpl. intros (x & Hx1 & Hx2)%list_elem_of_fmap.
    rewrite Forall_forall in Hb. destruct (Hb x Hx2) as [_ (u & Hu & _)]. rewrite <- Hx1 in Hu. congruence.
  - intros b u. rewrite HU, fmap_cons, elem_of_cons. simpl. intros [[<- <-]|[_ Hbu]]%lookup_insert_Some; [left; lia|right].
    by eapply Hdom.
Qed.

Lemma kernel_dealloc_wp k A1 p l A2 : kernel_inv lo hi k (A1 ++ (p, l) :: A2) ->
  wp (dealloc rdtsc p l) (fun _ k' => kernel_inv lo hi k' (A1 ++ A2)) k.
Proof.
  intros ((B & Hi & Hlo & Hhi & Hb & Hnd & Hdom) & Hm & Ht). pose proof Hb as Hb0.
  apply Forall_app in Hb as [Hb1 [[Hl (t & Htp & Hts)] Hb2]%Forall_cons]. simpl in *.
  pose proof (live_sizes _ _ _ _ _ Hi Hlo Hhi (conj Hb0 (conj Hnd Hdom))) as Hsz.
  assert (Hsum : sizes (A1 ++ (p, l) :: A2) = lsize l + sizes (A1 ++ A2)).
  { clear. induction A1 as [|a A1 IH]; simpl; [done|]. fold (sizes (A1 ++ (p, l) :: A2)) (sizes (A1 ++ A2)). lia. }
  assert (Hsz2 : 0 <= sizes (A1 ++ A2)).
  { apply Forall_app_2 with (l2 := A2) in Hb1; [|done]. clear -Hb1.
    induction Hb1 as [|a A [[[? _] _] _] _ IH]; simpl; lia. }
  destruct (bmap_lookup_split _ _ _ _ _ Htp) as (C1 & C2 & -> & Hpa).
  pose proof (free_wp C1 t C2 _ Hi) as Hf. cbv zeta in Hf. rewrite Hlo in Hf.
  replace (lo + total C1 + 8) with p in Hf by lia. rewrite <- Hpa in Hf.
  unfold dealloc. wp_step. apply on_heap_wp. eapply wp_mono; [exact Hf|]. cbv beta.
  intros [] h' (B' & Hi' & [Hs1 Hs2] & HU & _). wp_step. unfold on_mon, wp at 1. cbn [kmon].
  apply trace_event_wp; [done|]. intros tr Htr. pose proof (i_geo _ _ Hi) as Hg.
  pose proof (g_top _ _ Hg) as Htop. pose proof (g_end _ _ Hg) as He.
  pose proof (g_start _ _ Hg) as [Hpos _]. rewrite Hlo, Hhi in *.
  split_and!; [| |done].
  - exists B'. cbn [kheap]. split_and!; [done|congruence|congruence|].
    rewrite fmap_app, fmap_cons in Hnd. apply NoDup_app in Hnd as (Hn1 & Hn12 & [Hnp Hn2]%NoDup_cons). simpl in *.
    assert (Hnp1 : p ∉ fst <$> A1). { intros Hp. by apply (Hn12 p Hp), elem_of_cons; left. }
    split_and!.
    + apply Forall_forall. intros x Hx. assert (Hxp : x.1 <> p).
      { intros <-. apply elem_of_app in Hx as [Hx|Hx]; [apply Hnp1|apply Hnp]; by apply (list_elem_of_fmap_2 fst). }
      rewrite Forall_forall in Hb0. destruct (Hb0 x) as [Hxl (u & Hu & Hus)]; [set_solver|].
      split; [done|]. exists u. split; [|done]. rewrite HU, lookup_delete_ne by lia. done.
    + rewrite fmap_app. apply NoDup_app. split_and!; [done| |done]. intros x Hx1 Hx2. apply (Hn12 x Hx1).
      apply elem_of_cons. by right.
    + intros b u. rewrite HU, lookup_delete_Some. intros [Hne Hbu]. apply Hdom in Hbu.
      rewrite fmap_app, fmap_cons in Hbu. rewrite fmap_app. set_solver by lia.
  - cbn [kmon inc_free set_heap current_allocated]. rewrite Hm, Hsum. unfold fetch_sub.
    replace (lsize l + sizes (A1 ++ A2) - lsize l) with (sizes (A1 ++ A2)) by lia.
    apply wrap_small. destruct Hl as [? _]. unfold in_u64. lia.
Qed.

(** What a call leaves in the trace, and that it does not touch the frame metrics. *)
Lemma alloc_trace k l p k' : alloc rdtsc l k = Ret (p, k') ->
  allocated_frames (kmon k') = allocated_frames (kmon k) /\
  (p <> 0 -> record (rdtsc (kreads k)) Alloc (lsize l) p (ktrace k) = Ret (tt, ktrace k')).
Proof.
  unfold alloc, mbind, M_bind, on_heap. destruct (Tlsf.malloc _ _ (kheap k)) as [[q h]|]; [|done].
  destruct (Z.eqb_spec q 0) as [->|Hq]; [by intros [= <- <-]|]. unfold on_mon. cbn [kmon].
  destruct (inc_alloc (lsize l) (kmon k)) as [m|] eqn:Em; [|done]. unfold trace_event. cbn [ktrace kreads].
  destruct (record _ _ _ _ _) as [[[] t]|] eqn:Er; [|done]. intros [= <- <-]. split; [|done]. cbn [kmon].
  revert Em. unfold inc_alloc, mbind, outcome_bind, chk_add. case_match; [|done].
  rewrite raise_peak_max. by intros [= <-].
Qed.

Lemma dealloc_trace k p l k' : dealloc rdtsc p l k = Ret (tt, k') ->
  allocated_frames (kmon k') = allocated_frames (kmon k) /\
  record (rdtsc (kreads k)) Free (lsize l) p (ktrace k) = Ret (tt, ktrace k').
Proof.
  unfold dealloc, mbind, M_bind, on_heap. destruct (Tlsf.free _ (kheap k)) as [[q h]|]; [|done].
  unfold on_mon, trace_event. cbn [kmon ktrace kreads].
  destruct (record _ _ _ _ _) as [[[] t]|] eqn:Er; [|done]. by intros [= <-].
Qed.

#[export] Instance kernel_laws : HeapLaws (H := kernel_alloc rdtsc) kworld small_align lo hi.
Proof.
  refine {| heap_inv := kernel_inv lo hi |}.
  - intros k A l Hk Hl. eapply wp_mono; [by apply kernel_alloc_wp|]. intros p k' [(-> & Hk' & _)|Hk']; [by left|by right].
  - apply kernel_dealloc_wp.
  - intros k A ((B & Hi & Hlo & Hhi & Hb) & _). by eapply backed_live.
Defined.
End laws.

(** The heap as [init] leaves it, fresh metrics and trace. *)
Lemma kernel_start w m t r s n w0 :
  tself w = new -> 0 < s -> (8 | s) -> class_ok n -> (8 | n) -> s + n + 8 <= u64_max ->
  Tlsf.init s n w = Ret (tt, w0) -> current_allocated m = 0 ->
  length (entries t) = Z.to_nat BUFFER_SIZE -> kernel_inv s (s + n) (mkKworld w0 m t r) [].
Proof.
  intros Hnew H0 Hd Hn Hdn Hu Hinit Hm Ht. destruct (client_start w s n Hnew H0 Hd Hn Hdn Hu) as (w1 & Hrun & Hi & Hs & He & _).
  rewrite Hinit in Hrun. injection Hrun as <-. split_and!; [|done|done].
  exists [Blk n true]. split_and!; try done. split_and!; [constructor|constructor|done].
Qed.

(** Every history of calls from there keeps the invariant. *)
Lemma kernel_reach rdtsc lo hi A k k0 : kernel_inv lo hi k0 [] ->
  rtc (hstep (H := kernel_alloc rdtsc) small_align) ([], k0) (A, k) -> kernel_inv lo hi k A.
Proof.
  intros Hi Hr. revert Hi.
  change (kernel_inv lo hi (([], k0) : list (Z * Layout) * kworld).2 (([], k0) : list (Z * Layout) * kworld).1 ->
    kernel_inv lo hi (A, k).2 (A, k).1). induction Hr as [|x y z Hst _ IH]; [done|]. intros Hx. apply IH.
  exact (hstep_inv (H := kernel_alloc rdtsc) small_align lo hi (laws := kernel_laws rdtsc lo hi) x y Hst Hx).
Qed.

(** C11: for a client of the kernel's global allocator, from [init] on an 8-aligned heap
    of 32 bytes to 16 MiB, whose requests have alignment at most 8 and size at most
    [2^56]: what it holds is aligned, inside the heap and pairwise disjoint; the
    metric [current_allocated] is exactly the number of bytes it holds; and each
    next such call (with its metric update and its trace record) returns. *)
Theorem kernel_heap_safety rdtsc w m t r s n w0 A k :
  tself w = new -> 0 < s -> (8 | s) -> class_ok n -> (8 | n) -> s + n + 8 <= u64_max ->
  Tlsf.init s n w = Ret (tt, w0) -> current_allocated m = 0 ->
  length (entries t) = Z.to_nat BUFFER_SIZE ->
  rtc (hstep (H := kernel_alloc rdtsc) small_align) ([], mkKworld w0 m t r) (A, k) ->
  live_ok s (s + n) A /\ current_allocated (kmon k) = sizes A /\
  (forall l, small_align l -> exists p k', alloc rdtsc l k = Ret (p, k')) /\
  (forall p l, (p, l) ∈ A -> exists k', dealloc rdtsc p l k = Ret (tt, k')).
Proof.
  intros Hnew H0 Hd Hn Hdn Hu Hinit Hm Ht Hr.
  pose proof (kernel_start w m t r s n w0 Hnew H0 Hd Hn Hdn Hu Hinit Hm Ht) as Hi.
  destruct (client_safety (H := kernel_alloc rdtsc) small_align s (s + n) (laws := kernel_laws rdtsc s (s + n))
    _ _ _ Hi Hr) as (H1 & H2 & H3).
  split_and!; [exact H1| |exact H2|exact H3].
  by apply (kernel_reach rdtsc s (s + n) A k _ Hi Hr).
Qed.

(** C40: the kernel's heap grants what it has room for. Whatever requests (of alignment up
    to 8 and size up to [2^56]) were granted and freed before, with live allocations [A]
    the next request is not answered with null as long as [|A| + 1] times twice the bytes
    it needs, plus the sizes of the live allocations and 64 bytes for each, are no more
    than the heap has: fragmentation can cost no more than that. *)
Theorem kernel_heap_grants rdtsc w m t r s n w0 A k l :
  tself w = new -> 0 < s -> (8 | s) -> class_ok n -> (8 | n) -> s + n + 8 <= u64_max ->
  Tlsf.init s n w = Ret (tt, w0) -> current_allocated m = 0 ->
  length (entries t) = Z.to_nat BUFFER_SIZE ->
  rtc (hstep (H := kernel_alloc rdtsc) small_align) ([], mkKworld w0 m t r) (A, k) ->
  small_align l -> room n (snd <$> A) l ->
  exists p k', alloc rdtsc l k = Ret (p, k') /\ p <> 0.
Proof.
  intros Hnew H0 Hd Hn Hdn Hu Hinit Hm Ht Hr Hl Hroom.
  pose proof (kernel_start w m t r s n w0 Hnew H0 Hd Hn Hdn Hu Hinit Hm Ht) as Hi.
  pose proof (kernel_reach rdtsc s (s + n) A k _ Hi Hr) as Hk.
  destruct (wp_elim _ _ _ (kernel_alloc_wp rdtsc s (s + n) k A l Hk Hl)) as (p & k' & Hrun & [(_ & _ & Hno)|[Hp _]]).
  { by rewrite Z.add_simpl_l in Hno. }
  by exists p, k'.
Qed.

Definition demo_kernel : kworld := mkKworld demo_heap MonitorData_new (Trace.init TRACE) 0.

(** After two requests, the first of them freed. *)
Definition demo_next (r : outcome (Z * kworld)) : Z * kworld := match r with Ret x => x | Crash _ => (0, demo_kernel) end.
Definition demo_k1 : Z * kworld := demo_next (alloc (fun n => n) (mkLayout 24 8) demo_kernel).
Definition demo_k2 : Z * kworld := demo_next (alloc (fun n => n) (mkLayout 100 4) demo_k1.2).
Definition demo_k3 : kworld :=
  match dealloc (fun n => n) demo_k1.1 (mkLayout 24 8) demo_k2.2 with Ret (_, k) => k | Crash _ => demo_kernel end.
Definition demo_live : list (Z * Layout) * kworld := ([(demo_k2.1, mkLayout 100 4)], demo_k3).

Lemma demo_small : small_align (mkLayout 24 8) /\ small_align (mkLayout 100 4).
Proof. split; (split; [simpl; lia|]); [exists 3|exists 2]; split; lia || reflexivity. Qed.

Lemma demo_k1_run : alloc (fun n => n) (mkLayout 24 8) demo_kernel = Ret (demo_k1.1, demo_k1.2).
Proof. vm_compute. reflexivity. Qed.
Lemma demo_k2_run : alloc (fun n => n) (mkLayout 100 4) demo_k1.2 = Ret (demo_k2.1, demo_k2.2).
Proof. vm_compute. reflexivity. Qed.
Lemma demo_k3_run : dealloc (fun n => n) demo_k1.1 (mkLayout 24 8) demo_k2.2 = Ret (tt, demo_k3).
Proof. vm_compute. reflexivity. Qed.
Lemma demo_granted : demo_k1.1 <> 0 /\ demo_k2.1 <> 0.
Proof. split; apply Z.eqb_neq; vm_compute; reflexivity. Qed.

Lemma demo_history : rtc (hstep (H := kernel_alloc (fun n => n)) small_align) ([], demo_kernel) demo_live.
Proof.
  destruct demo_small as [H1 H2], demo_granted as [Hp Hq].
  eapply rtc_l; [exact (hs_alloc (H := kernel_alloc (fun n => n)) small_align _ _ _ _ _ H1 demo_k1_run Hp)|].
  eapply rtc_l; [exact (hs_alloc (H := kernel_alloc (fun n => n)) small_align _ _ _ _ _ H2 demo_k2_run Hq)|].
  apply rtc_once. exact (hs_dealloc (H := kernel_alloc (fun n => n)) small_align [(demo_k2.1, mkLayout 100 4)]
    demo_k1.1 (mkLayout 24 8) [] _ _ demo_k3_run).
Qed.

Lemma kernel_heap_witness : live_ok 65536 69632 demo_live.1 /\ current_allocated (kmon demo_live.2) = 100 /\
  exists p k', alloc (fun n => n) (mkLayout 24 8) demo_live.2 = Ret (p, k').
Proof.
  destruct (kernel_heap_safety (fun n => n) blank_heap MonitorData_new (Trace.init TRACE) 0 65536 4096 demo_heap
    demo_live.1 demo_live.2) as (H1 & H2 & H3 & _).
  - reflexivity.
  - lia.
  - exists 8192. reflexivity.
  - unfold class_ok. lia.
  - exists 512. reflexivity.
  - unfold u64_max. lia.
  - exact demo_heap_run.
  - reflexivity.
  - reflexivity.
  - rewrite <- surjective_pairing. exact demo_history.
  - split; [exact H1|]. split; [rewrite H2; vm_compute; reflexivity|]. apply H3, demo_small.
Defined.

Lemma kernel_grants_witness : exists p k', alloc (fun n => n) (mkLayout 100 4) demo_live.2 = Ret (p, k') /\ p <> 0.
Proof.
  apply (kernel_heap_grants (fun n => n) blank_heap MonitorData_new (Trace.init TRACE) 0 65536 4096 demo_heap
    demo_live.1 demo_live.2).
  - reflexivity.
  - lia.
  - exists 8192. reflexivity.
  - unfold class_ok. lia.
  - exists 512. reflexivity.
  - unfold u64_max. lia.
  - exact demo_heap_run.
  - reflexivity.
  - reflexivity.
  - rewrite <- surjective_pairing. exact demo_history.
  - apply demo_small.
  - apply Z.leb_le. vm_compute. reflexivity.
Defined.

(** ** [init_heap]

    The page types and the mapper are the [x86_64] crate's; [FrameAllocator] is the
    trait the buddy allocator implements. *)

Class PageApi := {
  Page : Type;
  page_start : Page -> Z;
  page_containing : Z -> Page;
  range_inclusive : Page -> Page -> list Page
}.

(** A page is the 4 KiB around an address; an inclusive range has the pages from the
    first to the last, in order. *)
Class PageLaws (api : PageApi) : Prop := {
  page_aligned : forall p, (4096 | page_start p);
  page_containing_start : forall a, 0 <= a -> page_start (page_containing a) = a / 4096 * 4096;
  range_inclusive_starts : forall p q,
    page_start <$> range_inclusive p q =
    (fun i => page_start p + i * 4096) <$> seqZ 0 ((page_start q - page_start p) / 4096 + 1)
}.

Inductive MapToError (Frame : Type) :=
  | FrameAllocationFailed
  | ParentEntryHugePage
  | PageAlreadyMapped (f : Frame).
Arguments FrameAllocationFailed {Frame}.
Arguments ParentEntryHugePage {Frame}.
Arguments PageAlreadyMapped {Frame}.

(** The traits [FrameAllocator<Size4KiB>] and [Mapper<Size4KiB>] over a machine state. *)
Class Paging `{PageApi} (S : Type) := {
  Frame : Type;
  fa_allocate_frame : M S (option Frame);
  map_to : Page -> Frame -> Z -> M S (result unit (MapToError Frame))
}.

(** [PRESENT | WRITABLE] *)
Definition heap_flags : Z := 3.

Section init_heap.
Context `{pages : PageApi} {S : Type} `{paging : !Paging S}.

(** The loop over the pages, [?] returning early. *)
Fixpoint map_pages (ps : list Page) : M S (result unit (MapToError Frame)) :=
  match ps with
  | [] => mret (Ok tt)
  | page :: ps' =>
      f ← fa_allocate_frame;
      match f with
      | None => mret (Err FrameAllocationFailed)
      | Some frame =>
          r ← map_to page frame heap_flags;
          match r with
          | Ok _ => map_pages ps'
          | Err e => mret (Err e)
          end
      end
  end.

Definition heap_pages : list Page :=
  range_inclusive (page_containing HEAP_START) (page_containing (HEAP_START + HEAP_SIZE)).

Definition init_heap : M (S * tworld) (result unit (MapToError Frame)) := fun '(s, w) =>
  match map_pages heap_pages s with
  | Crash f => Crash f
  | Ret (Err e, s') => Ret (Err e, (s', w))
  | Ret (Ok _, s') =>
      match Tlsf.init HEAP_START HEAP_SIZE w with
      | Ret (_, w') => Ret (Ok tt, (s', w'))
      | Crash f => Crash f
      end
  end.
End init_heap.

Section heap_range.
Context `{pages : PageApi} {laws : PageLaws pages}.

Lemma heap_page_starts : page_start <$> heap_pages = (fun i => HEAP_START + i * 4096) <$> seqZ 0 257.
Proof.
  unfold heap_pages. rewrite range_inclusive_starts, !page_containing_start by (unfold HEAP_START, HEAP_SIZE; lia).
  done.
Qed.

Lemma heap_pages_length : length heap_pages = 257%nat.
Proof.
  rewrite <- (length_fmap page_start), heap_page_starts, length_fmap, length_seqZ. done.
Qed.

Lemma heap_pages_distinct : NoDup heap_pages.
Proof.
  apply (NoDup_fmap_1 page_start). rewrite heap_page_starts. apply NoDup_fmap_2; [|apply NoDup_seqZ].
  intros i j Hij. lia.
Qed.

(** Every byte of the heap, and of the sentinel's header behind it, is on a heap page. *)
Lemma heap_page_of a : HEAP_START <= a < HEAP_START + HEAP_SIZE + 8 ->
  exists p, p ∈ heap_pages /\ page_start p = a / 4096 * 4096.
Proof.
  intros Ha. assert (Hin : a / 4096 * 4096 ∈ page_start <$> heap_pages).
  { rewrite heap_page_starts. apply list_elem_of_fmap. exists ((a - HEAP_START) / 4096).
    unfold HEAP_START, HEAP_SIZE in *. split; [|apply elem_of_seqZ]; Z.to_euclidean_division_equations; lia. }
  apply list_elem_of_fmap in Hin as (p & -> & Hp). by exists p.
Qed.
End heap_range.

(** Pages by number. *)
#[global] Instance demo_pages : PageApi := {|
  Page := Z;
  page_start p := p * 4096;
  page_containing a := a / 4096;
  range_inclusive p q := seqZ p (q - p + 1)
|}.

#[global] Instance demo_pages_laws : PageLaws demo_pages.
Proof.
  split; [intros p; by exists p|done|]. cbn. intros p q.
  replace ((q * 4096 - p * 4096) / 4096 + 1) with (q - p + 1) by (Z.to_euclidean_division_equations; lia).
  replace (seqZ p (q - p + 1)) with (seqZ (p + 0) (q - p + 1)) by (f_equal; lia).
  rewrite <- fmap_add_seqZ, <- list_fmap_compose. apply list_fmap_ext. intros i x _. simpl. lia.
Qed.
