(* ===== verification/HeapBoot.v ===== *)
(** * The heap on the frame allocator: [main.rs], [allocator.rs], [memory/buddy.rs]

    [kernel_main] builds the buddy allocator from the memory map and gives it to
    [init_heap] together with the page-table mapper. Here the two meet: the buddy
    allocator is the [FrameAllocator] of the interface [init_heap] is written
    against, and the mapper, the [x86_64] crate's, is a client of the allocator
    known by its laws. *)

From S2P Require Import Prelude Memory Monitor Buddy BuddyInv BuddyAlloc BuddyNew BuddySpec.
From S2P Require Import Tlsf TlsfInv TlsfLists TlsfPhys TlsfAlloc TlsfMalloc TlsfSpec KernelHeap.
Local Open Scope rust_scope.

(** ** The mapper *)

(** [OffsetPageTable] with its [map_to]: it is given the frame allocator, from which
    it takes the frames of the tables it adds; the tables the boot loader has built
    are part of [PT]. [translation] and [huge] read the tables: the frame of a page,
    and whether a page lies in a huge one. *)
Class PageTables `{PhysFrameApi} `{PageApi} (PT : Type) := {
  pt_map_to : Page -> PhysFrame -> Z -> M (bworld * PT) (result unit (MapToError PhysFrame));
  translation : PT -> Page -> option PhysFrame;
  huge : PT -> Page -> bool
}.

(** The blocks held once the single frames [xs] are held as well. *)
Definition hold (xs : list Z) (A : gmap Z Z) : gmap Z Z := foldr (fun x => <[x := 0]>) A xs.

(** While the allocator is sound, [map_to] returns, having taken at most three frames
    (the tables of levels 3 to 1) and written only to frames that are held, and to its
    own [PT]. On success its page, unmapped before, is mapped to its frame; no other
    translation changes. Each error has its documented reason. *)
Class PageTablesLaws `{api : PhysFrameApi} `{pages : PageApi} (PT : Type) {tables : PageTables PT} : Prop :=
  pt_map_to_ok : forall p f fl A L w pt, buddy_inv A L w ->
    exists r w' pt' xs, pt_map_to p f fl (w, pt) = Ret (r, (w', pt')) /\
      rtc bstep (A, w) (hold xs A, w') /\ (length xs <= 3)%nat /\ Forall (fun x => A !! x = None) xs /\
      match r with
      | Ok _ => translation pt p = None /\ translation pt' p = Some f /\
          (forall q, q <> p -> translation pt' q = translation pt q) /\ forall q, huge pt' q = huge pt q
      | Err FrameAllocationFailed => allocate_frame w' = Ret (None, w')
      | Err ParentEntryHugePage => huge pt p = true
      | Err (PageAlreadyMapped _) => is_Some (translation pt p)
      end.

(** The buddy allocator as the [FrameAllocator] of [init_heap]. *)
#[export] Instance buddy_paging `{PhysFrameApi} `{PageApi} {PT : Type} `{!PageTables PT} : Paging (bworld * PT) := {|
  Frame := PhysFrame;
  fa_allocate_frame := fun s => match allocate_frame s.1 with
                                | Ret (f, w) => Ret (f, (w, s.2))
                                | Crash c => Crash c
                                end;
  map_to := pt_map_to
|}.

(** [let mut frame_allocator = BuddyAllocator::new(..); init_heap(&mut mapper, &mut
    frame_allocator).expect(..)] *)
Definition heap_bring_up `{PhysFrameApi} `{PageApi} {PT : Type} `{!PageTables PT}
    (regions : list MemoryRegion) (offset : Z) : M (bworld * PT * tworld) unit := fun s =>
  match Buddy.new regions offset s.1.1 with
  | Crash c => Crash c
  | Ret (_, w) =>
      match init_heap (w, s.1.2, s.2) with
      | Ret (Ok _, s') => Ret (tt, s')
      | Ret (Err _, _) => Crash (Panic "Heap init failed")
      | Crash c => Crash c
      end
  end.

(** [create_example_mapping] of [memory.rs], with this frame allocator; the flags are
    [PRESENT | WRITABLE]. *)
Definition create_example_mapping `{PhysFrameApi} `{PageApi} {PT : Type} `{!PageTables PT} (page : Page) : M (bworld * PT) unit :=
  frame ← lift (containing_address 0xb8000);
  r ← pt_map_to page frame 3;
  match r with Ok _ => mret tt | Err _ => crash (Panic "map_to failed") end.

(** It shows the text screen at the page, and nothing else moves; or it panics, the page
    being mapped already or no frame being left for a table. *)
Lemma example_mapping_shows `{api : PhysFrameApi} {flaws : PhysFrameLaws api} `{pages : PageApi} {PT : Type} `{tables : !PageTables PT}
    `{!PageTablesLaws PT} page A L w pt : buddy_inv A L w ->
  (exists w' pt' f, create_example_mapping page (w, pt) = Ret (tt, (w', pt')) /\ translation pt' page = Some f /\
     start_address f = 0xb8000 /\ (forall q, q <> page -> translation pt' q = translation pt q)) \/
  (create_example_mapping page (w, pt) = Crash (Panic "map_to failed") /\
   (is_Some (translation pt page) \/ huge pt page = true \/ exists w', allocate_frame w' = Ret (None, w'))).
Proof.
  intros Hi. destruct (returns_elim _ _ (containing_address_spec 0xb8000 ltac:(lia) eq_refl)) as (f & Hf & Hsa).
  destruct (pt_map_to_ok page f 3 A L w pt Hi) as (r & w' & pt' & xs & Hm & _ & _ & _ & Hr).
  unfold create_example_mapping, mbind, M_bind, lift. rewrite Hf, Hm. destruct r as [[]|[| |]].
  - left. exists w', pt', f. split_and!; [done|apply Hr|done|apply Hr].
  - right. split; [done|]. right. right. by exists w'.
  - right. split; [done|]. right. by left.
  - right. split; [done|]. by left.
Qed.

(** ** Holding single frames *)

Definition single_frames (A : gmap Z Z) : Prop := forall x o, A !! x = Some o -> o = 0.

Lemma hold_lookup xs A x o : hold xs A !! x = Some o -> o = 0 \/ A !! x = Some o.
Proof.
  induction xs as [|y xs IH]; simpl; [by right|]. intros [[_ <-]|[_ Hx]]%lookup_insert_Some; [by left|auto].
Qed.

Lemma hold_single xs A : single_frames A -> single_frames (hold xs A).
Proof. intros HA x o [->|Hx]%hold_lookup; [done|by eapply HA]. Qed.

Lemma hold_mono xs A : Forall (fun x => A !! x = None) xs -> A ⊆ hold xs A.
Proof.
  intros Hx. apply map_subseteq_spec. intros y o Hy. induction Hx as [|x xs Hx _ IH]; [done|]. simpl.
  rewrite lookup_insert_ne; [done|]. intros ->. congruence.
Qed.

Lemma size_insert_le (A : gmap Z Z) x o : (base.size (<[x := o]> A) <= S (base.size A))%nat.
Proof. rewrite map_size_insert. destruct (A !! x); simpl; lia. Qed.

Lemma hold_size xs A : (base.size (hold xs A) <= length xs + base.size A)%nat.
Proof. induction xs as [|x xs IH]; simpl; [done|]. pose proof (size_insert_le (hold xs A) x 0). lia. Qed.

Lemma allocate_frame_run `{api : PhysFrameApi} {flaws : PhysFrameLaws api} A L w : buddy_inv A L w ->
  exists r w', allocate_frame w = Ret (r, w') /\ alloc_post A L w 0 r w'.
Proof. intros Hi. exact (wp_elim _ _ _ (allocate_frame_order_wp A L w 0 Hi ltac:(unfold MAX_ORDER; lia))). Qed.

(** ** Mapping the pages *)

Section mapping.
Context `{api : PhysFrameApi} `{pages : PageApi} {PT : Type} `{tables : !PageTables PT}.
Context {flaws : PhysFrameLaws api} {ptlaws : PageTablesLaws PT}.
Context (U : Z -> Prop) (total base offset : Z) (m0 : memory).

(** The allocator where it was, and every byte outside the frames of [U] as in [m0]. *)
Record placed (w : bworld) : Prop := {
  p_base : base_phys (self w) = base;
  p_offset : phys_mem_offset (self w) = offset;
  p_mem : forall a, outside_pages U base offset a -> mem w !! a = m0 !! a
}.

Lemma placed_step (F : Z -> Prop) w w' : placed w -> (forall f, F f -> U f) ->
  same_geometry w w' -> mem_preserved F w w' -> placed w'.
Proof.
  intros [Hb Ho Hm] HF (_ & Hb' & Ho') Hp. split; [congruence..|]. intros a Ha. rewrite <- (Hm a Ha).
  apply Hp. intros f Hf. unfold ptr_of. rewrite Hb, Ho. by apply Ha, HF.
Qed.

Lemma bstep_placed A w A' w' :
  bstep (A, w) (A', w') -> client_inv U total A w -> placed w -> placed w'.
Proof.
  intros Hst (L & Hi & HU & _) Hp. inversion Hst as [? ? order fr ? x Ho Hrun Hsa|? ? order ? Ho Hrun
    |? ? fr x order ? Hx Hsa Hrun|? ? m Hm]; subst.
  - destruct (allocate_run _ _ _ _ _ _ Hi Ho Hrun) as [[[=] _]|[_ Hpost]].
    destruct Hpost as (? & ? & _ & _ & _ & _ & _ & _ & Hg & Hmem).
    apply (placed_step (free_frame L) w w' Hp); [|done|done]. intros f Hf. apply HU. by left.
  - by destruct (allocate_run _ _ _ _ _ _ Hi Ho Hrun) as [[_ ->]|[[? [=]] _]].
  - destruct (wp_elim _ _ _ (deallocate_frame_order_wp A L w fr x order Hi Hx Hsa))
      as ([] & w1 & Hr & L1 & _ & _ & Hg & Hmem). rewrite Hrun in Hr. injection Hr as <-.
    apply (placed_step _ w w' Hp) in Hmem; [done| |done]. intros f [Hf|Hf]; apply HU; [by left|right; by exists x, order].
  - destruct Hp as [Hb Ho Hmem]. split; [done|done|]. intros a Ha. rewrite <- (Hmem a Ha). cbn [mem set_mem].
    apply Hm. intros f Hf. unfold ptr_of. rewrite Hb, Ho. apply Ha, HU. by right.
Qed.

Lemma bsteps_placed s s' : rtc bstep s s' -> client_inv U total s.1 s.2 -> placed s.2 -> placed s'.2.
Proof.
  induction 1 as [|[A w] [A' w'] s3 Hst _ IH]; [done|]. intros Hi Hp. simpl in *.
  apply IH; [by eapply bstep_preserves|by eapply bstep_placed].
Qed.

(** [n] frames can be taken and one is left. *)
Definition roomy (n : nat) : Prop := exists l, NoDup l /\ Forall U l /\ (n < length l)%nat.

(** Only an allocator without a free frame refuses one: all usable frames are held. *)
Lemma refused_full A w w' n :
  client_inv U total A w -> single_frames A -> allocate_frame w = Ret (None, w') -> (base.size A <= n)%nat -> ~ roomy n.
Proof.
  intros (L & Hi & HU & Ht) HA Hr Hn (l & Hnd & Hl & Hlen).
  assert (Hex : exhausted L total 0).
  { destruct (allocate_frame_run _ _ _ Hi) as (r & w1 & Hr1 & Hpost). rewrite Hr in Hr1.
    injection Hr1 as <- <-. rewrite <- Ht. apply Hpost. }
  assert (Hsub : l ⊆ elements (dom A)).
  { intros f Hf. apply elem_of_elements, elem_of_dom. rewrite Forall_forall in Hl.
    destruct (proj1 (HU f) (Hl f Hf)) as [Hfree|(x & o & Hx & Hcv)].
    - exfalso. pose proof Hfree as (x & o & Hb & Hcv). pose proof (c_blk _ _ _ (proj1 Hi) _ _ Hb) as (? & ? & ? & _).
      unfold covers in Hcv. apply (Hex f).
      + unfold block_ok, MAX_ORDER. change (2 ^ 0) with 1. split_and!; try lia. apply Z.divide_1_l.
      + intros g Hg. unfold covers in Hg. change (2 ^ 0) with 1 in Hg. by replace g with f by lia.
    - pose proof (HA _ _ Hx) as ->. unfold covers in Hcv. change (2 ^ 0) with 1 in Hcv.
      replace f with x by lia. by eexists. }
  pose proof (submseteq_length _ _ (NoDup_submseteq _ _ Hnd Hsub)) as Hle.
  change (length (elements (dom A))) with (base.size (dom A)) in Hle. rewrite size_dom in Hle. lia.
Qed.

(** Page by page the index of a frame held, no index twice. *)
Definition backing (A : gmap Z Z) (pt : PT) (m : list (Page * Z)) : Prop :=
  Forall (fun pi => A !! pi.2 = Some 0 /\
    exists f, translation pt pi.1 = Some f /\ start_address f = base + pi.2 * 4096) m /\
  NoDup (snd <$> m).

(** The state of the loop after the pages of [m]. *)
Record mapping_inv (A : gmap Z Z) (w : bworld) (pt : PT) (m : list (Page * Z)) : Prop := {
  m_client : client_inv U total A w;
  m_placed : placed w;
  m_single : single_frames A;
  m_size : (base.size A <= 4 * length m)%nat;
  m_backing : backing A pt m
}.

Definition fresh_page (pt : PT) (p : Page) : Prop := translation pt p = None /\ huge pt p = false.

Lemma allocate_one A w : client_inv U total A w ->
  exists r w', allocate_frame w = Ret (r, w') /\
    match r with
    | None => True
    | Some f => exists x, start_address f = base_phys (self w) + x * 4096 /\ A !! x = None /\
        bstep (A, w) (<[x := 0]> A, w')
    end.
Proof.
  intros (L & Hi & _). destruct (allocate_frame_run _ _ _ Hi) as (r & w' & Hr & Hpost).
  exists r, w'. split; [exact Hr|]. destruct r as [f|]; [|done].
  destruct Hpost as (x & L' & Hsa & _ & HA & _). exists x. split_and!; [done|done|].
  by eapply step_alloc.
Qed.

(** One more page, mapped to a frame that was not held before. *)
Lemma backing_push A A' pt pt' m p f x :
  backing A pt m -> A !! x = None -> <[x := 0]> A ⊆ A' ->
  start_address f = base + x * 4096 -> translation pt p = None -> translation pt' p = Some f ->
  (forall q, q <> p -> translation pt' q = translation pt q) ->
  backing A' pt' ((p, x) :: m).
Proof.
  intros [Hf Hn] Hx Hs Hsa Hp0 Hp Hq. split.
  - apply Forall_cons. split.
    + split; [|by exists f]. eapply lookup_weaken; [|exact Hs]. apply lookup_insert_eq.
    + eapply Forall_impl; [exact Hf|]. intros [q y] (HA & g & Hg & Hgs); simpl in *. split.
      * eapply lookup_weaken; [|exact Hs]. rewrite lookup_insert_ne; [done|]. intros ->. congruence.
      * exists g. rewrite Hq; [done|]. intros ->. congruence.
  - rewrite fmap_cons. apply NoDup_cons. split; [|done].
    intros ([q y] & Hxy & Hin)%list_elem_of_fmap. simpl in Hxy. subst y. rewrite Forall_forall in Hf.
    destruct (Hf _ Hin) as [HA _]. simpl in HA. congruence.
Qed.

(** The step of the loop: a frame for the page, then the mapper. *)
Lemma map_page_step p A w pt m : mapping_inv A w pt m ->
  exists r w1, allocate_frame w = Ret (r, w1) /\
  match r with
  | None => ~ roomy (4 * length m)
  | Some f => exists r2 w2 pt2, pt_map_to p f heap_flags (w1, pt) = Ret (r2, (w2, pt2)) /\
      match r2 with
      | Ok _ => exists A2 x, mapping_inv A2 w2 pt2 ((p, x) :: m) /\
          forall q, q <> p -> fresh_page pt q -> fresh_page pt2 q
      | Err _ => fresh_page pt p -> ~ roomy (4 * S (length m))
      end
  end.
Proof.
  intros [Hc Hb HA Hsz Hm]. destruct (allocate_one A w Hc) as (r & w1 & Hr & Hpost).
  exists r, w1. split; [done|]. destruct r as [f|]; [|by eapply refused_full].
  destruct Hpost as (x & Hsa & Hx & Hst). rewrite (p_base _ Hb) in Hsa.
  pose proof (bstep_preserves U total _ _ _ _ Hst Hc) as Hc1. pose proof Hc1 as (L1 & Hi1 & _).
  destruct (pt_map_to_ok p f heap_flags _ L1 w1 pt Hi1) as (r2 & w2 & pt2 & xs & Hr2 & Hsteps & Hlen & Hxs & Hpt).
  exists r2, w2, pt2. split; [done|]. pose proof (bsteps_preserve U total _ _ Hsteps Hc1) as Hc2.
  assert (Hb2 : placed w2).
  { apply (bsteps_placed _ _ Hsteps Hc1). by eapply bstep_placed. }
  simpl in Hc2.
  assert (HA2 : single_frames (hold xs (<[x := 0]> A))).
  { apply hold_single. exact (hold_single [x] A HA). }
  assert (Hsz2 : (base.size (hold xs (<[x := 0%Z]> A)) <= 4 * S (length m))%nat).
  { pose proof (hold_size xs (<[x := 0]> A)). pose proof (size_insert_le A x 0). lia. }
  destruct r2 as [[]|e].
  - destruct Hpt as (Hp0 & Hp & Hq & Hh). exists (hold xs (<[x := 0]> A)), x. split.
    + split; [done|done|done|simpl; lia|].
      eapply backing_push; try done. by apply hold_mono.
    + intros q Hne [Hq1 Hq2]. split; [by rewrite Hq|by rewrite Hh].
  - intros [Hf1 Hf2]. destruct e as [| |g]; [by eapply refused_full|congruence|].
    rewrite Hf1 in Hpt. by destruct Hpt.
Qed.

Lemma map_pages_backed ps : forall A w pt m, mapping_inv A w pt m ->
  exists r w' pt', map_pages ps (w, pt) = Ret (r, (w', pt')) /\
    match r with
    | Err _ => NoDup ps -> Forall (fresh_page pt) ps -> ~ roomy (4 * (length m + length ps))
    | Ok _ => exists A' m', mapping_inv A' w' pt' (m' ++ m) /\ forall p, p ∈ ps -> p ∈ fst <$> m'
    end.
Proof.
  induction ps as [|p ps IH]; intros A w pt m Hm; cbn [map_pages].
  { exists (Ok tt), w, pt. split; [done|]. exists A, []. split; [done|]. by intros p ?%not_elem_of_nil. }
  assert (Hroom : forall n k, (n <= k)%nat -> ~ roomy n -> ~ roomy k).
  { intros n k Hnk Hn (l & H1 & H2 & H3). apply Hn. exists l. split_and!; [done|done|lia]. }
  destruct (map_page_step p A w pt m Hm) as (r & w1 & Hr & Hpost).
  unfold mbind, M_bind. cbn [fa_allocate_frame map_to buddy_paging fst snd]. rewrite Hr. destruct r as [f|].
  2:{ exists (Err FrameAllocationFailed), w1, pt. split; [done|]. intros _ _. eapply Hroom; [|done]. lia. }
  destruct Hpost as (r2 & w2 & pt2 & Hr2 & Hpost). rewrite Hr2. destruct r2 as [[]|e].
  2:{ exists (Err e), w2, pt2. split; [done|]. intros _ [Hp _]%Forall_cons.
      eapply Hroom; [|by apply Hpost]. simpl. lia. }
  destruct Hpost as (A2 & x & Hm2 & Hfresh). destruct (IH A2 w2 pt2 _ Hm2) as (r & w3 & pt3 & Hr3 & Hpost).
  exists r, w3, pt3. split; [exact Hr3|]. destruct r as [[]|e].
  - destruct Hpost as (A3 & m' & Hm' & Hin). exists A3, (m' ++ [(p, x)]). rewrite <- app_assoc. split; [done|].
    intros q [->|Hq]%elem_of_cons; rewrite fmap_app; apply elem_of_app; [right|left; by apply Hin].
    apply elem_of_cons. by left.
  - intros [Hnp Hnd]%NoDup_cons [_ Hps]%Forall_cons. eapply Hroom; [|apply Hpost; [done|]]; [simpl; lia|].
    apply Forall_forall. intros q Hq. rewrite Forall_forall in Hps. apply Hfresh; [|by apply Hps].
    intros ->. done.
Qed.

(** No two entries with one index, so no two pages with one frame. *)
Lemma backing_inj A pt m p q f g :
  backing A pt m -> p ∈ fst <$> m -> q ∈ fst <$> m -> translation pt p = Some f -> translation pt q = Some g ->
  start_address f = start_address g -> p = q.
Proof.
  intros [Hf Hn] ([p' x] & -> & Hp)%list_elem_of_fmap ([q' y] & -> & Hq)%list_elem_of_fmap Etf Etg Hfg.
  simpl in *. rewrite Forall_forall in Hf.
  destruct (Hf _ Hp) as (_ & f' & Hf' & Hfs), (Hf _ Hq) as (_ & g' & Hg' & Hgs). simpl in *.
  assert (x = y) as -> by (replace f' with f in * by congruence; replace g' with g in * by congruence; lia).
  clear -Hn Hp Hq. induction m as [|[r z] m IH]; [by apply not_elem_of_nil in Hp|].
  rewrite fmap_cons in Hn. apply NoDup_cons in Hn as [Hz Hn].
  apply elem_of_cons in Hp as [Ep|Hp]; apply elem_of_cons in Hq as [Eq|Hq]; simplify_eq; auto.
  - exfalso. apply Hz. by apply (list_elem_of_fmap_2 snd) in Hq.
  - exfalso. apply Hz. by apply (list_elem_of_fmap_2 snd) in Hp.
Qed.
End mapping.

(** ** The heap after start-up *)

Section bring_up.
Context `{api : PhysFrameApi} `{pages : PageApi} {PT : Type} `{tables : !PageTables PT}.
Context {flaws : PhysFrameLaws api} {plaws : PageLaws pages} {ptlaws : PageTablesLaws PT}.

(** The frame of page [p] is a usable frame of the memory map, handed out and held. *)
Definition page_backed (U : Z -> Prop) (A : gmap Z Z) (base : Z) (pt : PT) (p : Page) : Prop :=
  exists f x, translation pt p = Some f /\ start_address f = base + x * 4096 /\ U x /\ A !! x = Some 0.

(** Both allocators are sound, the heap is one free block, every byte it may touch is
    on a heap page, the heap pages are on frames of their own, and physical memory
    outside the usable frames is as before. *)
Definition heap_ready (U : Z -> Prop) (base offset : Z) (m0 : memory) (s : bworld * PT * tworld) : Prop :=
  exists A L, buddy_inv A L s.1.1 /\ placed U base offset m0 s.1.1 /\ tlsf_inv [Blk HEAP_SIZE true] s.2 /\ heap_start (tself s.2) = HEAP_START /\
  (forall a, HEAP_START <= a < HEAP_START + HEAP_SIZE + 8 ->
     exists p, p ∈ heap_pages /\ page_start p = a / 4096 * 4096) /\
  (forall p, p ∈ heap_pages -> page_backed U A base s.1.2 p) /\
  (forall p q f g, p ∈ heap_pages -> q ∈ heap_pages -> translation s.1.2 p = Some f ->
     translation s.1.2 q = Some g -> start_address f = start_address g -> p = q).

(** The same without the state of the heap. *)
Definition pages_ready (U : Z -> Prop) (base offset : Z) (m0 : memory) (w : bworld) (pt : PT) : Prop :=
  exists A L, buddy_inv A L w /\ placed U base offset m0 w /\
  (forall a, HEAP_START <= a < HEAP_START + HEAP_SIZE + 8 ->
     exists p, p ∈ heap_pages /\ page_start p = a / 4096 * 4096) /\
  (forall p, p ∈ heap_pages -> page_backed U A base pt p) /\
  (forall p q f g, p ∈ heap_pages -> q ∈ heap_pages -> translation pt p = Some f ->
     translation pt q = Some g -> start_address f = start_address g -> p = q).

Lemma heap_ready_pages U base offset m0 w pt tw : heap_ready U base offset m0 (w, pt, tw) ->
  pages_ready U base offset m0 w pt /\ tlsf_inv [Blk HEAP_SIZE true] tw /\ heap_start (tself tw) = HEAP_START.
Proof. intros (A & L & H1 & H2 & H3 & H4 & H5 & H6 & H7). split; [by exists A, L|done]. Qed.

(** Only the frame counter of the metrics matters. *)
Lemma pages_ready_mon U base offset m0 b mem1 x y pt : allocated_frames y = allocated_frames x ->
  pages_ready U base offset m0 (Buddy.mkWorld b mem1 x) pt -> pages_ready U base offset m0 (Buddy.mkWorld b mem1 y) pt.
Proof.
  intros Hxy (A & L & (Hc & Hb & Hn & Hm) & Hp & Hrest). exists A, L. split; [|split; [|exact Hrest]].
  - split_and!; [by destruct Hc|done|done|]. simpl in *. congruence.
  - by destruct Hp.
Qed.

Lemma heap_ready_intro U total base offset m0 A w pt m tw tw' :
  mapping_inv U total base offset m0 A w pt m -> (forall p, p ∈ heap_pages -> p ∈ fst <$> m) ->
  tself tw = Tlsf.new -> Tlsf.init HEAP_START HEAP_SIZE tw = Ret (tt, tw') -> heap_ready U base offset m0 (w, pt, tw').
Proof.
  intros [(L & Hi & HU & _) Hpl _ _ Hm] Hin Htw Hrun. exists A, L.
  destruct (client_start tw HEAP_START HEAP_SIZE Htw) as (tw1 & Hrt & Hit & Hs & _);
    [done|by exists (HEAP_START / 8)|done|by exists (HEAP_SIZE / 8)|done|].
  rewrite Hrun in Hrt. injection Hrt as <-. split_and!; try done.
  - apply heap_page_of.
  - intros p Hp. destruct Hm as [Hm _]. rewrite Forall_forall in Hm.
    apply Hin in Hp. apply list_elem_of_fmap in Hp as ([q x] & -> & Hq).
    destruct (Hm _ Hq) as (HA & f & Hf & Hsa). exists f, x. split_and!; [done|done| |done].
    apply HU. right. exists x, 0. split; [done|]. unfold covers. simpl. lia.
  - intros p q f g Hp Hq. apply (backing_inj base A pt m); auto.
Qed.

Lemma heap_bring_up_cases regions offset w pt tw :
  map_ok regions offset -> allocated_frames (mon w) = 0 -> tself tw = Tlsf.new ->
  let '(base, total) := total_of regions in
  let U := usable_frame base total (usable_regions regions) in
  (heap_bring_up regions offset (w, pt, tw) = Crash (Panic "Heap init failed") /\
   (Forall (fresh_page pt) heap_pages -> ~ roomy U (4 * 257))) \/
  (exists s, heap_bring_up regions offset (w, pt, tw) = Ret (tt, s) /\ heap_ready U base offset (mem w) s).
Proof.
  intros Hmap Hmon Htw. pose proof (new_wp regions offset w Hmap Hmon) as H0.
  destruct (total_of regions) as [base total]. simpl.
  apply wp_elim in H0 as ([] & w0 & Hrun & L0 & Hinv0 & Hb & Ht & Ho & _ & Hff0 & Hmem0).
  set (U := usable_frame base total (usable_regions regions)).
  assert (Hc0 : client_inv U total ∅ w0).
  { exists L0. split_and!; [done| |done]. intros f. unfold U. rewrite <- (Hff0 f).
    split; [by left|]. intros [?|(? & ? & He & _)]; [done|]. by rewrite lookup_empty in He. }
  unfold heap_bring_up, init_heap. cbn [fst snd]. rewrite Hrun.
  destruct (map_pages_backed U total base offset (mem w) heap_pages ∅ w0 pt []) as (r & w1 & pt1 & Hr & Hpost).
  { split; [done|by split|by intros ? ? ?%lookup_empty_Some|done|split; constructor]. }
  rewrite Hr. destruct r as [[]|e]; [right|left].
  - destruct Hpost as (A & m & Hm & Hin). rewrite app_nil_r in Hm.
    destruct (client_start tw HEAP_START HEAP_SIZE Htw) as (tw1 & Hrt & _);
      [done|by exists (HEAP_START / 8)|done|by exists (HEAP_SIZE / 8)|done|].
    rewrite Hrt. eexists. split; [done|]. by eapply heap_ready_intro.
  - split; [done|]. intros Hf. specialize (Hpost heap_pages_distinct Hf). by rewrite heap_pages_length in Hpost.
Qed.

(** C12: on a well-formed memory map, bringing up the heap either leaves it ready
    (every byte the heap may touch is on a page translated to a frame of usable
    memory that the buddy allocator has handed out, no two heap pages share a frame,
    both allocators' invariants hold, the heap is one free block, and no byte of
    physical memory outside the usable frames has changed) or stops with
    the panic of [expect]. It does not stop when the heap's pages are unmapped and
    there are more than 4 usable frames to each of its 257 pages. *)
Theorem heap_bring_up_backed regions offset w pt tw :
  map_ok regions offset -> allocated_frames (mon w) = 0 -> tself tw = Tlsf.new ->
  let '(base, total) := total_of regions in
  let U := usable_frame base total (usable_regions regions) in
  (heap_bring_up regions offset (w, pt, tw) = Crash (Panic "Heap init failed") \/
   exists s, heap_bring_up regions offset (w, pt, tw) = Ret (tt, s) /\ heap_ready U base offset (mem w) s) /\
  (Forall (fresh_page pt) heap_pages -> roomy U (4 * 257) ->
   exists s, heap_bring_up regions offset (w, pt, tw) = Ret (tt, s)).
Proof.
  intros Hmap Hmon Htw. pose proof (heap_bring_up_cases regions offset w pt tw Hmap Hmon Htw) as H.
  destruct (total_of regions) as [base total]. cbv zeta in *. destruct H as [[H1 H2]|(s & H1 & H2)].
  - split; [by left|]. intros Hf Hr. by destruct (H2 Hf).
  - split; [right; by exists s|by exists s].
Qed.
End bring_up.

(** ** What start-up leaves of the metrics

    The frame allocator counts frames; it does not touch the counters of the heap. *)

Definition heap_bytes (w : bworld) : Z := current_allocated (mon w).

Create HintDb frames.
#[local] Hint Resolve preserves_ret preserves_lift preserves_guard preserves_get preserves_gets preserves_crash : frames.

Ltac frame_steps :=
  repeat first [ solve [auto with frames] | apply preserves_bind; [|intros ?] | apply preserves_modify; intros ?; reflexivity
               | apply preserves_for_range; intros ? | apply preserves_for_each; intros ? | case_match ].

Lemma insert_free_bytes idx order : preserves heap_bytes (insert_free idx order).
Proof. unfold insert_free, mark_range_free, mark_free, write_word, set_head. frame_steps. Qed.
Lemma carve_bytes fuel : forall pos e, preserves heap_bytes (carve fuel pos e).
Proof.
  induction fuel as [|fuel IH]; intros pos e; cbn [carve]; case_match; try solve [auto with frames].
  repeat first [apply IH | apply insert_free_bytes | progress frame_steps].
Qed.
Lemma new_bytes regions off : preserves heap_bytes (Buddy.new regions off).
Proof.
  unfold Buddy.new, mark_region, carve_region, mark_free. repeat first [apply carve_bytes | progress frame_steps].
Qed.

Section metrics.
Context `{api : PhysFrameApi} `{pages : PageApi} {PT : Type} `{tables : !PageTables PT} {ptlaws : PageTablesLaws PT}.

Lemma allocate_bytes order : preserves heap_bytes (allocate_frame_order order).
Proof.
  assert (Hs : forall n idx o, preserves heap_bytes (split_down n idx o)).
  { induction n as [|n IH]; intros idx o; cbn [split_down]; repeat first [apply IH | apply insert_free_bytes | progress frame_steps]. }
  unfold allocate_frame_order, pop_free, read_word, write_word, set_head, mark_range_allocated, mark_allocated.
  repeat first [apply Hs | progress frame_steps].
Qed.
Lemma deallocate_bytes fr order : preserves heap_bytes (deallocate_frame_order fr order).
Proof.
  assert (Hc : forall n idx o, preserves heap_bytes (coalesce n idx o)).
  { induction n as [|n IH]; intros idx o; cbn [coalesce]; unfold remove_free, read_word, write_word, set_head,
      mark_range_allocated, mark_allocated; repeat first [apply IH | progress frame_steps]. }
  unfold deallocate_frame_order. repeat first [apply Hc | apply insert_free_bytes | progress frame_steps].
Qed.

Lemma bsteps_bytes s s' : rtc bstep s s' -> heap_bytes s'.2 = heap_bytes s.2.
Proof.
  induction 1 as [|x y z Hst _ IH]; [done|]. rewrite IH.
  destruct Hst as [A w order fr w' i _ Hr _|A w order w' _ Hr|A w fr i order w' _ _ Hr|A w m _]; cbn [snd];
    [exact (allocate_bytes _ _ _ _ Hr)|exact (allocate_bytes _ _ _ _ Hr)|exact (deallocate_bytes _ _ _ _ _ Hr)|done].
Qed.

Lemma map_pages_bytes {flaws : PhysFrameLaws api} U total base offset m0 ps : forall A w pt m r w' pt',
  mapping_inv U total base offset m0 A w pt m -> map_pages ps (w, pt) = Ret (r, (w', pt')) -> heap_bytes w' = heap_bytes w.
Proof.
  induction ps as [|p ps IH]; intros A w pt m r w' pt' Hm; cbn [map_pages]; [by intros [= _ <- _]|].
  destruct (map_page_step U total base offset m0 p A w pt m Hm) as (f & w1 & Hf & Hpost).
  unfold mbind, M_bind. cbn [fa_allocate_frame map_to buddy_paging fst snd]. rewrite Hf.
  rewrite <- (allocate_bytes _ _ _ _ Hf). destruct f as [f|]; [|by intros [= _ <- _]].
  destruct (allocate_one U total A w (m_client _ _ _ _ _ _ _ _ _ Hm)) as (r1 & w1' & Hr1 & Hone). rewrite Hf in Hr1.
  injection Hr1 as <- <-. destruct Hone as (x & _ & _ & Hst).
  pose proof (bstep_preserves U total _ _ _ _ Hst (m_client _ _ _ _ _ _ _ _ _ Hm)) as (L1 & Hi1 & _).
  destruct (pt_map_to_ok p f heap_flags _ L1 w1 pt Hi1) as (r2 & w2 & pt2 & xs & Hr2 & Hsteps & _).
  apply bsteps_bytes in Hsteps. cbn [snd] in Hsteps. rewrite <- Hsteps.
  destruct Hpost as (r2' & w2' & pt2' & Hr2' & Hpost). rewrite Hr2 in Hr2'. injection Hr2' as <- <- <-. rewrite Hr2.
  destruct r2 as [[]|e]; [|by intros [= _ <- _]]. destruct Hpost as (A2 & y & Hm2 & _). by apply (IH _ _ _ _ _ _ _ Hm2).
Qed.

Lemma bring_up_bytes {flaws : PhysFrameLaws api} {plaws : PageLaws pages} regions offset w pt tw s :
  map_ok regions offset -> allocated_frames (mon w) = 0 ->
  heap_bring_up regions offset (w, pt, tw) = Ret (tt, s) -> heap_bytes s.1.1 = heap_bytes w.
Proof.
  intros Hmap Hmon. pose proof (new_wp regions offset w Hmap Hmon) as H0. destruct (total_of regions) as [base total].
  apply wp_elim in H0 as ([] & w0 & Hrun & L0 & Hinv0 & Hb & Ht & Ho & _ & Hff0 & Hmem0).
  rewrite <- (new_bytes _ _ _ _ _ Hrun). unfold heap_bring_up, init_heap. cbn [fst snd]. rewrite Hrun.
  set (U := usable_frame base total (usable_regions regions)).
  assert (Hm0 : mapping_inv U total base offset (mem w) ∅ w0 pt []).
  { split; [|by split|by intros ? ? ?%lookup_empty_Some|done|split; constructor]. exists L0. split_and!; [done| |done].
    intros f. unfold U. rewrite <- (Hff0 f). split; [by left|]. intros [?|(? & ? & He & _)]; [done|]. by rewrite lookup_empty in He. }
  destruct (map_pages heap_pages (w0, pt)) as [[[[]|e] [w1 pt1]]|] eqn:Ep; [|done..].
  destruct (Tlsf.init HEAP_START HEAP_SIZE tw) as [[[] tw1]|]; [|done]. intros [= <-].
  exact (map_pages_bytes U total base offset (mem w) heap_pages _ _ _ _ _ _ _ Hm0 Ep).
Qed.
End metrics.

(** ** A mapper *)

(** A table of pages in one frame, which the first [map_to] allocates. *)
#[global] Instance one_table : PageTables (option Z * gmap Z Z) := {|
  pt_map_to (p : Page) (f : PhysFrame) _ := fun '(w, (table, m)) =>
    match m !! (p : Z), table with
    | Some g, _ => Ret (Err (PageAlreadyMapped (g : PhysFrame)), (w, (table, m)))
    | None, Some _ => Ret (Ok tt, (w, (table, <[(p : Z) := (f : Z)]> m)))
    | None, None =>
        match allocate_frame w with
        | Ret (Some t, w') => Ret (Ok tt, (w', (Some (t : Z), <[(p : Z) := (f : Z)]> m)))
        | Ret (None, w') => Ret (Err FrameAllocationFailed, (w', (None, m)))
        | Crash c => Crash c
        end
    end;
  translation pt p := pt.2 !! (p : Z);
  huge _ _ := false
|}.

#[global] Instance one_table_laws : PageTablesLaws (option Z * gmap Z Z).
Proof.
  intros p f fl A L w [table m] Hi. cbn [pt_map_to one_table].
  destruct (m !! (p : Z)) as [g|] eqn:Ep.
  { exists (Err (PageAlreadyMapped (g : PhysFrame))), w, (table, m), []. split_and!; try done; try (simpl; lia). }
  assert (Hmap : forall t : option Z, translation (t, <[(p : Z) := (f : Z)]> m) p = Some f /\
    (forall q, q <> p -> translation (t, <[(p : Z) := (f : Z)]> m) q = translation (table, m) q)).
  { intros t. split; [apply lookup_insert_eq|]. intros q Hq. by apply lookup_insert_ne. }
  destruct table as [t|].
  { exists (Ok tt), w, (Some t, <[(p : Z) := (f : Z)]> m), []. destruct (Hmap (Some t)). split_and!; try done; simpl; lia. }
  destruct (allocate_frame_run _ _ _ Hi) as (r & w' & Hr & Hpost). rewrite Hr. destruct r as [t|].
  - destruct Hpost as (x & L' & Hsa & _ & HA & _). destruct (Hmap (Some (t : Z))).
    exists (Ok tt), w', (Some (t : Z), <[(p : Z) := (f : Z)]> m), [x]. split_and!; try done; try (simpl; lia); [|by repeat constructor].
    apply rtc_once. by eapply step_alloc.
  - destruct Hpost as [-> _]. exists (Err FrameAllocationFailed), w, (None, m), []. split_and!; try done; simpl; lia.
Qed.

Definition roomy_map : list MemoryRegion := [mkRegion 1048576 9437184 Usable].

Lemma roomy_map_ok : map_ok roomy_map 4398046511104.
Proof.
  split_and!; try done.
  apply Forall_cons. split; [|done]. split_and!; simpl; try lia; [exists 256|exists 2304]; reflexivity.
Qed.

Lemma roomy_map_roomy : roomy (usable_frame 1048576 2048 (usable_regions roomy_map)) (4 * 257).
Proof.
  exists (seqZ 0 2048). split; [apply NoDup_seqZ|]. rewrite length_seqZ. split; [|lia].
  apply Forall_forall. intros f Hf%elem_of_seqZ. split; [lia|].
  exists (mkRegion 1048576 9437184 Usable). split; [apply elem_of_cons; left; reflexivity|].
  replace (first_frame 1048576 _) with 0 by (vm_compute; reflexivity).
  replace (end_frame 1048576 _) with 2048 by (vm_compute; reflexivity). lia.
Qed.

Lemma heap_bring_up_witness : exists s,
  heap_bring_up roomy_map 4398046511104 (blank, (None, ∅ : gmap Z Z), blank_heap) = Ret (tt, s) /\
  heap_ready (usable_frame 1048576 2048 roomy_map) 1048576 4398046511104 ∅ s.
Proof.
  pose proof (heap_bring_up_backed roomy_map 4398046511104 blank (None, ∅ : gmap Z Z) blank_heap roomy_map_ok
    eq_refl eq_refl) as H.
  change (total_of roomy_map) with (1048576, 2048) in H.
  change (usable_regions roomy_map) with roomy_map in H. cbv zeta iota in H. revert H.
  generalize (heap_bring_up roomy_map 4398046511104 (blank, (None, ∅ : gmap Z Z), blank_heap)).
  intros o [H1 H2].
  destruct H2 as [s Hs].
  - apply Forall_forall. intros p _. split; [apply lookup_empty|reflexivity].
  - exact roomy_map_roomy.
  - rewrite Hs in H1 |- *. destruct H1 as [H1|H1]; [discriminate|exact H1].
Defined.
