(* ===== verification/Collections.v ===== *)
(** * The heap under the kernel's collections

    The boxes, reference counts, strings, vectors and B-trees of the [alloc] crate take
    their memory from the global allocator. What a call of the kernel asks of it is a
    list of requests, decided by the crate and the compiler's layout of types; here
    such a list is served by the allocator of [allocator.rs], with its metrics and its
    trace. *)

From S2P Require Import Prelude Memory Monitor Trace Tlsf TlsfInv TlsfMalloc TlsfSpec Heap KernelHeap.
Local Open Scope rust_scope.

(** Memory of a layout is asked for, or the [i]-th block held (the newest first) is
    given back. *)
Inductive request := Get (l : Layout) | Put (i : nat).

Section serve.
Context (rdtsc : Z -> Z).

(** A request of the crate, with the blocks held; null is the crate's
    [handle_alloc_error]. *)
Definition serve (r : request) (A : list (Z * Layout)) : M kworld (list (Z * Layout)) :=
  match r with
  | Get l =>
      p ← KernelHeap.alloc rdtsc l;
      if p =? 0 then crash (Panic "memory allocation failed") else mret ((p, l) :: A)
  | Put i =>
      match A !! i with
      | Some (p, l) => _ ← KernelHeap.dealloc rdtsc p l; mret (delete i A)
      | None => crash (UB "release of memory that is not held")
      end
  end.

Fixpoint serve_all (rs : list request) (A : list (Z * Layout)) : M kworld (list (Z * Layout)) :=
  match rs with
  | [] => mret A
  | r :: rs' => A' ← serve r A; serve_all rs' A'
  end.
End serve.

(** ** What is held, and what is recorded *)

Definition held_after (L : list Layout) (r : request) : list Layout :=
  match r with Get l => l :: L | Put i => delete i L end.

Definition held (L : list Layout) (rs : list request) : list Layout := fold_left held_after rs L.

(** The event of a request, with its size. *)
Definition event_of (L : list Layout) (r : request) : TraceEventId * Z :=
  match r with Get l => (Alloc, lsize l) | Put i => (Free, default 0 (lsize <$> L !! i)) end.

Fixpoint events_of (L : list Layout) (rs : list request) : list (TraceEventId * Z) :=
  match rs with
  | [] => []
  | r :: rs' => event_of L r :: events_of (held_after L r) rs'
  end.

(** A heap of [n] bytes has room for each request as it comes. *)
Definition fits_one (n : Z) (L : list Layout) (r : request) : Prop :=
  match r with
  | Get l => small_align l /\ room n L l
  | Put i => (i < length L)%nat
  end.

Fixpoint fits (n : Z) (L : list Layout) (rs : list request) : Prop :=
  match rs with
  | [] => True
  | r :: rs' => fits_one n L r /\ fits n (held_after L r) rs'
  end.

(** The same as a test. *)
Fixpoint fitsb (n : Z) (L : list Layout) (rs : list request) : bool :=
  match rs with
  | [] => true
  | r :: rs' =>
      match r with
      | Get l => (0 <=? lsize l) && (lsize l <=? 2 ^ 56) && bool_decide (lalign l ∈ [1; 2; 4; 8]) &&
          ((Z.of_nat (length L) + 1) * (2 * needed_for (lsize l) (lalign l)) + footprint L <=? n)
      | Put i => (i <? length L)%nat
      end && fitsb n (held_after L r) rs'
  end.

Lemma fitsb_fits n rs : forall L, fitsb n L rs = true -> fits n L rs.
Proof.
  induction rs as [|r rs IH]; intros L; [done|]. cbn [fitsb fits]. intros [Hr Hrs]%andb_true_iff. split; [|auto].
  destruct r as [l|i]; cbn [fits_one]; [|by apply Nat.ltb_lt].
  rewrite !andb_true_iff in Hr. destruct Hr as [[[H1 H2] H3%bool_decide_eq_true] H4]. split; [|by apply Z.leb_le].
  split; [lia|]. set_unfold in H3. destruct H3 as [->|[->|[->|[->|[]]]]]; [exists 0|exists 1|exists 2|exists 3]; done.
Qed.

Lemma held_app L rs1 rs2 : held L (rs1 ++ rs2) = held (held L rs1) rs2.
Proof. apply fold_left_app. Qed.

Lemma events_app rs1 rs2 : forall L, events_of L (rs1 ++ rs2) = events_of L rs1 ++ events_of (held L rs1) rs2.
Proof. induction rs1 as [|r rs1 IH]; intros L; [done|]. simpl. by rewrite IH. Qed.

Lemma fits_app n rs1 rs2 : forall L, fits n L (rs1 ++ rs2) <-> fits n L rs1 /\ fits n (held L rs1) rs2.
Proof. induction rs1 as [|r rs1 IH]; intros L; simpl; [tauto|]. rewrite IH. unfold held. simpl. tauto. Qed.

Lemma events_length rs : forall L, length (events_of L rs) = length rs.
Proof. induction rs as [|r rs IH]; intros L; simpl; [done|]. by rewrite IH. Qed.

(** ** Requests with room are served *)

(** The part of an event that does not depend on where the block lies or the time. *)
Definition summary (e : event) : TraceEventId * Z := (ev_id e, ev_a0 e).

(** From heap [k] with [A] held to [k'] with [A'], serving [rs]: the layouts held and
    the events recorded since are those of the requests. *)
Record serviced (lo hi : Z) (rs : list request) (A : list (Z * Layout)) (k : kworld) (A' : list (Z * Layout)) (k' : kworld) : Prop := {
  s_inv : kernel_inv lo hi k' A';
  s_held : snd <$> A' = held (snd <$> A) rs;
  s_frames : allocated_frames (kmon k') = allocated_frames (kmon k);
  s_trace : forall es, trace_holds es (ktrace k) -> Z.of_nat (length es + length rs) < 2 ^ 64 ->
    exists es', trace_holds (es ++ es') (ktrace k') /\ summary <$> es' = events_of (snd <$> A) rs
}.

Section serviced_requests.
Context (rdtsc : Z -> Z) (lo hi : Z).

Lemma one_event tsc id a0 a1 t t' es : record tsc id a0 a1 t = Ret (tt, t') -> trace_holds es t ->
  Z.of_nat (length es + 1) < 2 ^ 64 -> trace_holds (es ++ [mkEvent tsc id a0 a1]) t'.
Proof.
  intros Hr Ht Hl. pose proof (record_holds es t (mkEvent tsc id a0 a1) Ht ltac:(lia)) as Hw.
  unfold wp in Hw. cbn [ev_tsc ev_id ev_a0 ev_a1] in Hw. by rewrite Hr in Hw.
Qed.

Lemma serve_ok r A k : kernel_inv lo hi k A -> fits_one (hi - lo) (snd <$> A) r ->
  wp (serve rdtsc r A) (fun A' k' => serviced lo hi [r] A k A' k') k.
Proof.
  intros Hk Hf. destruct r as [l|i]; cbn [serve fits_one] in *.
  - destruct Hf as [Hl Hroom]. destruct (wp_elim _ _ _ (kernel_alloc_wp rdtsc lo hi k A l Hk Hl)) as (p & k' & Hrun & Hc).
    apply wp_bind. eapply wp_intro; [exact Hrun|]. destruct Hc as [(_ & _ & Hno)|[Hp Hk']]; [done|].
    rewrite (proj2 (Z.eqb_neq p 0)) by done. apply wp_ret. destruct (alloc_trace rdtsc k l p k' Hrun) as [Hfr Htr].
    split; [done|done|done|]. intros es Hes Hlen. exists [mkEvent (rdtsc (kreads k)) Alloc (lsize l) p]. split; [|done].
    apply (one_event _ _ _ _ (ktrace k)); [by apply Htr|done|done].
  - rewrite length_fmap in Hf. destruct (A !! i) as [[p l]|] eqn:Ei; [|by apply lookup_ge_None in Ei; lia].
    pose proof (take_drop_middle A i (p, l) Ei) as HA.
    assert (Hd : delete i A = take i A ++ drop (S i) A) by apply delete_take_drop.
    rewrite <- HA in Hk. destruct (wp_elim _ _ _ (kernel_dealloc_wp rdtsc lo hi k _ p l _ Hk)) as ([] & k' & Hrun & Hk').
    apply wp_bind. eapply wp_intro; [exact Hrun|]. apply wp_ret. destruct (dealloc_trace rdtsc k p l k' Hrun) as [Hfr Htr].
    rewrite Hd. split; [done| |done|].
    + cbn. rewrite delete_take_drop, fmap_app. by rewrite fmap_take, fmap_drop.
    + intros es Hes Hlen. exists [mkEvent (rdtsc (kreads k)) Free (lsize l) p]. split.
      * by apply (one_event _ _ _ _ (ktrace k)).
      * cbn. rewrite list_lookup_fmap, Ei. done.
Qed.

Lemma served_trans rs1 rs2 A1 k1 A2 k2 A3 k3 :
  serviced lo hi rs1 A1 k1 A2 k2 -> serviced lo hi rs2 A2 k2 A3 k3 -> serviced lo hi (rs1 ++ rs2) A1 k1 A3 k3.
Proof.
  intros [I1 H1 F1 T1] [I2 H2 F2 T2]. split; [done|by rewrite held_app, <- H1|congruence|].
  intros es Hes Hlen. rewrite length_app in Hlen. destruct (T1 es Hes ltac:(lia)) as (e1 & Ht1 & Hs1).
  assert (length e1 = length rs1) as Hl1 by (rewrite <- (length_fmap summary), Hs1; apply events_length).
  destruct (T2 (es ++ e1) Ht1) as (e2 & Ht2 & Hs2); [rewrite length_app; lia|].
  exists (e1 ++ e2). rewrite app_assoc. split; [done|]. by rewrite fmap_app, Hs1, Hs2, events_app, <- H1.
Qed.

Lemma serve_all_ok rs : forall A k, kernel_inv lo hi k A -> fits (hi - lo) (snd <$> A) rs ->
  wp (serve_all rdtsc rs A) (fun A' k' => serviced lo hi rs A k A' k') k.
Proof.
  induction rs as [|r rs IH]; intros A k Hk Hf; cbn [serve_all].
  - apply wp_ret. split; [done|done|done|]. intros es Hes _. exists []. by rewrite app_nil_r.
  - destruct Hf as [H1 H2]. apply wp_bind. eapply wp_mono; [by apply serve_ok|]. intros A1 k1 Hs1.
    eapply wp_mono; [apply IH; [apply Hs1|by rewrite (s_held _ _ _ _ _ _ _ Hs1)]|].
    intros A2 k2 Hs2. exact (served_trans [r] rs _ _ _ _ _ _ Hs1 Hs2).
Qed.
End serviced_requests.
