(* ===== verification/Str.v ===== *)
(** * Strings and ordered maps

    What the kernel uses of [core::str] and of [alloc::collections::BTreeMap].
    A [&str] is its list of UTF-8 bytes: the code only searches for, splits at and
    trims ASCII characters, which in UTF-8 never occur inside another character, so
    the byte view is exact. A [BTreeMap<String, V>] is the list of its entries in
    key order, the order its iterators give. *)

From S2P Require Import Prelude.
From Stdlib Require Import Ascii Sorted.

Definition str : Type := list ascii.
Bind Scope list_scope with str.

Definition lit (s : string) : str := String.list_ascii_of_string s.

(** ** [core::str] *)

Definition is_empty (s : str) : bool := match s with [] => true | _ => false end.

Definition str_eqb (a b : str) : bool := bool_decide (a = b).

Fixpoint trim_start (c : ascii) (s : str) : str :=
  match s with
  | x :: s' => if bool_decide (x = c) then trim_start c s' else s
  | [] => []
  end.

Definition trim_end (c : ascii) (s : str) : str := reverse (trim_start c (reverse s)).

(** [s.trim_matches(c)] *)
Definition trim_matches (c : ascii) (s : str) : str := trim_end c (trim_start c s).

(** [s.split(c)]: at least one piece. *)
Fixpoint split (c : ascii) (s : str) : list str :=
  match s with
  | [] => [[]]
  | x :: s' =>
      if bool_decide (x = c) then [] :: split c s'
      else match split c s' with
           | p :: ps => (x :: p) :: ps
           | [] => [[x]]
           end
  end.

(** [s.rfind(c)] *)
Fixpoint rfind (c : ascii) (s : str) : option nat :=
  match s with
  | [] => None
  | x :: s' =>
      match rfind c s' with
      | Some i => Some (S i)
      | None => if bool_decide (x = c) then Some O else None
      end
  end.

(** [Ord for str]: bytes, lexicographically. *)
Fixpoint str_cmp (a b : str) : comparison :=
  match a, b with
  | [], [] => Eq
  | [], _ :: _ => Lt
  | _ :: _, [] => Gt
  | x :: a', y :: b' =>
      match (N_of_ascii x ?= N_of_ascii y)%N with
      | Eq => str_cmp a' b'
      | c => c
      end
  end.

Definition str_lt (a b : str) : Prop := str_cmp a b = Lt.

Lemma str_cmp_eq a b : str_cmp a b = Eq <-> a = b.
Proof.
  revert b. induction a as [|x a IH]; intros [|y b]; simpl; try done.
  destruct (N.compare_spec (N_of_ascii x) (N_of_ascii y)) as [He|He|He].
  - rewrite IH. apply (f_equal ascii_of_N) in He. rewrite !ascii_N_embedding in He.
    split; congruence.
  - split; [done|]. intros [= -> ->]. lia.
  - split; [done|]. intros [= -> ->]. lia.
Qed.

Lemma str_cmp_refl a : str_cmp a a = Eq.
Proof. by apply str_cmp_eq. Qed.

Lemma str_cmp_antisym a b : str_cmp b a = CompOpp (str_cmp a b).
Proof.
  revert b. induction a as [|x a IH]; intros [|y b]; simpl; try done.
  rewrite N.compare_antisym. by destruct (N_of_ascii x ?= N_of_ascii y)%N; simpl.
Qed.

Lemma str_lt_trans a b c : str_lt a b -> str_lt b c -> str_lt a c.
Proof.
  unfold str_lt. revert b c. induction a as [|x a IH]; intros [|y b] [|z c]; simpl; try done.
  destruct (N.compare_spec (N_of_ascii x) (N_of_ascii y)) as [He|He|He]; [|intros _|done].
  - rewrite He. destruct (_ ?= _)%N; [apply IH|done|done].
  - destruct (N.compare_spec (N_of_ascii y) (N_of_ascii z)) as [He'|He'|He']; [intros _|intros _|done].
    + by rewrite <- He', (proj2 (N.compare_lt_iff _ _) He).
    + by rewrite (proj2 (N.compare_lt_iff _ _) (N.lt_trans _ _ _ He He')).
Qed.

#[global] Instance str_lt_transitive : Transitive str_lt := str_lt_trans.

Lemma str_lt_irrefl a : ~ str_lt a a.
Proof. unfold str_lt. by rewrite str_cmp_refl. Qed.

(** *** Splitting *)

Lemma split_cons_ne c x s : x <> c ->
  exists p ps, split c s = p :: ps /\ split c (x :: s) = (x :: p) :: ps.
Proof.
  intros Hx. simpl. rewrite bool_decide_false by done.
  assert (split c s <> []) as Hne.
  { destruct s as [|y s]; simpl; [done|]. case_bool_decide; [done|]. by destruct (split c s). }
  destruct (split c s) as [|p ps]; [done|]. by exists p, ps.
Qed.

Lemma split_app c a b : split c (a ++ c :: b) = split c a ++ split c b.
Proof.
  induction a as [|x a IH]; simpl.
  - by rewrite bool_decide_true.
  - destruct (decide (x = c)) as [->|Hx]; [by rewrite !bool_decide_true, IH|].
    rewrite !bool_decide_false by done. rewrite IH.
    destruct (split_cons_ne c x a Hx) as (p & ps & -> & _). done.
Qed.

Lemma split_whole c s : c ∉ s -> split c s = [s].
Proof.
  induction s as [|x s IH]; intros Hs; simpl; [done|].
  rewrite not_elem_of_cons in Hs. destruct Hs as [Hx Hs].
  rewrite bool_decide_false by congruence. by rewrite IH.
Qed.

Lemma split_pieces c s p : p ∈ split c s -> c ∉ p.
Proof.
  revert p. induction s as [|x s IH]; intros p; simpl.
  - intros ->%list_elem_of_singleton. apply not_elem_of_nil.
  - case_bool_decide as Hx.
    + intros [->|Hp]%elem_of_cons; [apply not_elem_of_nil|by apply IH].
    + destruct (split_cons_ne c x s Hx) as (q & qs & Hq & _). rewrite Hq in *.
      intros [->|Hp]%elem_of_cons.
      * apply not_elem_of_cons. split; [congruence|]. apply IH. by left.
      * apply IH. by right.
Qed.

Lemma rfind_none c s : rfind c s = None -> c ∉ s.
Proof.
  induction s as [|x s IH]; simpl; [intros _; apply not_elem_of_nil|].
  destruct (rfind c s); [done|]. case_bool_decide as Hx; [done|]. intros _.
  apply not_elem_of_cons. split; [congruence|by apply IH].
Qed.

Lemma rfind_some c s i : rfind c s = Some i ->
  s = take i s ++ c :: drop (S i) s /\ c ∉ drop (S i) s.
Proof.
  revert i. induction s as [|x s IH]; intros i; simpl; [done|].
  destruct (rfind c s) as [j|] eqn:Hj.
  - intros [= <-]. destruct (IH j eq_refl) as [He Hn]. simpl. split; [by rewrite <- He|done].
  - case_bool_decide as Hx; [|done]. intros [= <-]. simpl. subst x. split; [done|by apply rfind_none].
Qed.

(** Trimming the separator only drops empty pieces. *)
Definition pieces (c : ascii) (s : str) : list str :=
  filter (fun p => is_empty p = false) (split c s).

Lemma pieces_sep_l c s : pieces c (c :: s) = pieces c s.
Proof. unfold pieces. simpl. by rewrite bool_decide_true. Qed.

Lemma pieces_app c a b : pieces c (a ++ c :: b) = pieces c a ++ pieces c b.
Proof. unfold pieces. by rewrite split_app, filter_app. Qed.

Lemma pieces_trim_start c s : pieces c (trim_start c s) = pieces c s.
Proof.
  induction s as [|x s IH]; simpl; [done|]. case_bool_decide as Hx; [|done].
  subst x. by rewrite pieces_sep_l.
Qed.

Lemma trim_start_suffix c s : exists n, s = replicate n c ++ trim_start c s.
Proof.
  induction s as [|x s [n IH]]; simpl; [by exists O|]. case_bool_decide as Hx; [|by exists O].
  exists (S n). simpl. by rewrite <- IH, Hx.
Qed.

Lemma trim_end_prefix c s : exists n, s = trim_end c s ++ replicate n c.
Proof.
  destruct (trim_start_suffix c (reverse s)) as [n Hn]. exists n. unfold trim_end.
  apply (f_equal reverse) in Hn. rewrite reverse_involutive, reverse_app, reverse_replicate in Hn.
  exact Hn.
Qed.

Lemma pieces_trim_end c s : pieces c (trim_end c s) = pieces c s.
Proof.
  destruct (trim_end_prefix c s) as [n Hn]. rewrite Hn at 2. generalize (trim_end c s). clear.
  induction n as [|n IH]; intros t; simpl; [by rewrite app_nil_r|].
  rewrite pieces_app.
  assert (pieces c (replicate n c) = []) as ->.
  { clear. induction n as [|n IH]; [done|]. simpl. by rewrite pieces_sep_l. }
  by rewrite app_nil_r.
Qed.

Lemma pieces_trim c s : pieces c (trim_matches c s) = pieces c s.
Proof. unfold trim_matches. by rewrite pieces_trim_end, pieces_trim_start. Qed.

Lemma trim_start_head c s x t : trim_start c s = x :: t -> x <> c.
Proof.
  induction s as [|y s IH]; simpl; [done|]. case_bool_decide; [done|]. congruence.
Qed.

(** A trimmed string does not end in the separator. *)
Lemma trim_end_last c s a : trim_end c s <> a ++ [c].
Proof.
  unfold trim_end. intros He. apply (f_equal reverse) in He.
  rewrite reverse_involutive, reverse_snoc in He. by apply trim_start_head in He.
Qed.

(** ** [BTreeMap<String, V>] *)

Section btree.
Context {V : Type}.
Implicit Types m : list (str * V).

Fixpoint bt_get (k : str) m : option V :=
  match m with
  | [] => None
  | (k', v) :: m' => match str_cmp k k' with Eq => Some v | _ => bt_get k m' end
  end.

Fixpoint bt_insert (k : str) (v : V) m : list (str * V) :=
  match m with
  | [] => [(k, v)]
  | (k', v') :: m' =>
      match str_cmp k k' with
      | Lt => (k, v) :: m
      | Eq => (k', v) :: m'
      | Gt => (k', v') :: bt_insert k v m'
      end
  end.

(** Writing through the reference [get_mut(k)] gave. *)
Fixpoint bt_set (k : str) (v : V) m : list (str * V) :=
  match m with
  | [] => []
  | (k', v') :: m' =>
      match str_cmp k k' with Eq => (k', v) :: m' | _ => (k', v') :: bt_set k v m' end
  end.

Fixpoint bt_remove (k : str) m : list (str * V) :=
  match m with
  | [] => []
  | (k', v') :: m' => match str_cmp k k' with Eq => m' | _ => (k', v') :: bt_remove k m' end
  end.

Definition bt_keys m : list str := map fst m.

Definition bt_sorted m : Prop := StronglySorted str_lt (bt_keys m).

(** The same operations on the list of keys alone. *)
Fixpoint key_insert (k : str) (ks : list str) : list str :=
  match ks with
  | [] => [k]
  | k' :: ks' =>
      match str_cmp k k' with Lt => k :: ks | Eq => ks | Gt => k' :: key_insert k ks' end
  end.

Fixpoint key_remove (k : str) (ks : list str) : list str :=
  match ks with
  | [] => []
  | k' :: ks' => match str_cmp k k' with Eq => ks' | _ => k' :: key_remove k ks' end
  end.

Ltac key_cases k k' :=
  let H := fresh "Hk" in
  destruct (str_cmp k k') eqn:H; [apply str_cmp_eq in H; subst|..].

Lemma bt_keys_insert k v m : bt_keys (bt_insert k v m) = key_insert k (bt_keys m).
Proof.
  induction m as [|[k' v'] m IH]; simpl; [done|]. unfold bt_keys in *.
  key_cases k k'; simpl; [done|done|]. by rewrite IH.
Qed.

Lemma bt_keys_set k v m : bt_keys (bt_set k v m) = bt_keys m.
Proof.
  induction m as [|[k' v'] m IH]; simpl; [done|]. unfold bt_keys in *.
  key_cases k k'; simpl; congruence.
Qed.

Lemma bt_keys_remove k m : bt_keys (bt_remove k m) = key_remove k (bt_keys m).
Proof.
  induction m as [|[k' v'] m IH]; simpl; [done|]. unfold bt_keys in *.
  key_cases k k'; simpl; congruence.
Qed.

Lemma bt_get_keys k m : bt_get k m = None <-> k ∉ bt_keys m.
Proof.
  induction m as [|[k' v'] m IH]; simpl.
  - split; [intros _; apply not_elem_of_nil|done].
  - rewrite not_elem_of_cons. unfold bt_keys in *.
    key_cases k k'; [split; [done|]; intros [? _]; done|..];
      rewrite IH; (split; [|by intros [_ ?]]); intros ?; (split; [|done]);
      intros ->; by rewrite str_cmp_refl in *.
Qed.

Lemma bt_get_insert k v m : bt_get k (bt_insert k v m) = Some v.
Proof.
  induction m as [|[k' v'] m IH]; simpl; [by rewrite str_cmp_refl|].
  key_cases k k'; simpl; rewrite ?str_cmp_refl, ?Hk; done.
Qed.

Lemma bt_get_insert_ne k k0 v m : k0 <> k -> bt_get k0 (bt_insert k v m) = bt_get k0 m.
Proof.
  intros Hne. assert (str_cmp k0 k <> Eq) as Hc by by rewrite str_cmp_eq.
  induction m as [|[k' v'] m IH]; simpl; [by destruct (str_cmp k0 k)|].
  key_cases k k'; simpl; [by destruct (str_cmp k0 k')|by destruct (str_cmp k0 k)|].
  by destruct (str_cmp k0 k').
Qed.

Lemma bt_get_set k v m : bt_get k m <> None -> bt_get k (bt_set k v m) = Some v.
Proof.
  induction m as [|[k' v'] m IH]; simpl; [done|].
  key_cases k k'; simpl; rewrite ?str_cmp_refl, ?Hk; auto.
Qed.

Lemma bt_get_set_ne k k0 v m : k0 <> k -> bt_get k0 (bt_set k v m) = bt_get k0 m.
Proof.
  intros Hne. induction m as [|[k' v'] m IH]; simpl; [done|].
  key_cases k k'; simpl; [|by destruct (str_cmp k0 k')..].
  assert (str_cmp k0 k' <> Eq) by by rewrite str_cmp_eq. by destruct (str_cmp k0 k').
Qed.

Lemma bt_get_remove_ne k k0 m : k0 <> k -> bt_get k0 (bt_remove k m) = bt_get k0 m.
Proof.
  intros Hne. induction m as [|[k' v'] m IH]; simpl; [done|].
  key_cases k k'; simpl; [|by destruct (str_cmp k0 k')..].
  assert (str_cmp k0 k' <> Eq) by by rewrite str_cmp_eq. by destruct (str_cmp k0 k').
Qed.

Lemma key_remove_gone k ks : StronglySorted str_lt ks -> k ∉ key_remove k ks.
Proof.
  induction ks as [|k' ks IH]; intros Hs; simpl; [apply not_elem_of_nil|].
  apply StronglySorted_inv in Hs as [Hs Hk']. key_cases k k'.
  - intros Hin. rewrite Forall_forall in Hk'. by apply (str_lt_irrefl k'), Hk'.
  - apply not_elem_of_cons. split; [|by apply IH]. intros ->. by rewrite str_cmp_refl in *.
  - apply not_elem_of_cons. split; [|by apply IH]. intros ->. by rewrite str_cmp_refl in *.
Qed.

Lemma bt_get_remove k m : bt_sorted m -> bt_get k (bt_remove k m) = None.
Proof. intros Hs. apply bt_get_keys. rewrite bt_keys_remove. by apply key_remove_gone. Qed.

Lemma key_insert_elem k k0 ks : k0 ∈ key_insert k ks <-> k0 = k \/ k0 ∈ ks.
Proof.
  induction ks as [|k' ks IH]; simpl; [by rewrite list_elem_of_singleton, elem_of_nil; intuition|].
  key_cases k k'; rewrite !elem_of_cons, ?IH; naive_solver.
Qed.

Lemma key_insert_sorted k ks : StronglySorted str_lt ks -> StronglySorted str_lt (key_insert k ks).
Proof.
  induction ks as [|k' ks IH]; intros Hs; simpl; [repeat constructor|].
  pose proof Hs as [Hs' Hk']%StronglySorted_inv. rewrite Forall_forall in Hk'. key_cases k k'; [done|..].
  - constructor; [done|]. apply Forall_forall. intros x [->|Hx]%elem_of_cons; [done|].
    by transitivity k'; [|apply Hk'].
  - constructor; [by apply IH|]. apply Forall_forall. intros x [->|Hx]%key_insert_elem; [|by apply Hk'].
    unfold str_lt. by rewrite str_cmp_antisym, Hk.
Qed.

Lemma key_remove_sub k k0 ks : k0 ∈ key_remove k ks -> k0 ∈ ks.
Proof.
  induction ks as [|k' ks IH]; simpl; [done|]. key_cases k k'; rewrite !elem_of_cons; naive_solver.
Qed.

Lemma key_remove_sorted k ks : StronglySorted str_lt ks -> StronglySorted str_lt (key_remove k ks).
Proof.
  induction ks as [|k' ks IH]; intros Hs; simpl; [done|].
  apply StronglySorted_inv in Hs as [Hs Hk']. rewrite Forall_forall in Hk'. key_cases k k'; [done|..];
    (constructor; [by apply IH|]; apply Forall_forall; intros x Hx%key_remove_sub; by apply Hk').
Qed.

Lemma key_insert_length k ks : k ∉ ks -> length (key_insert k ks) = S (length ks).
Proof.
  induction ks as [|k' ks IH]; simpl; [done|]. rewrite not_elem_of_cons. intros [Hk Hks].
  key_cases k k'; simpl; [done|done|]. by rewrite IH.
Qed.

Lemma key_remove_length k ks : (length (key_remove k ks) <= length ks)%nat.
Proof. induction ks as [|k' ks IH]; simpl; [lia|]. key_cases k k'; simpl; lia. Qed.

Lemma bt_remove_insert k v m : bt_get k m = None -> bt_remove k (bt_insert k v m) = m.
Proof.
  induction m as [|[k' v'] m IH]; simpl; [by rewrite str_cmp_refl|].
  key_cases k k'; simpl; rewrite ?str_cmp_refl, ?Hk; [done|done|]. intros ?. by rewrite IH.
Qed.

Lemma bt_set_get k m v : bt_get k m = Some v -> bt_set k v m = m.
Proof.
  induction m as [|[k' v'] m IH]; simpl; [done|]. key_cases k k'; simpl; [congruence|..];
    intros ?; by rewrite IH.
Qed.

Lemma bt_set_set k v v' m : bt_set k v (bt_set k v' m) = bt_set k v m.
Proof.
  induction m as [|[k' w] m IH]; simpl; [done|].
  key_cases k k'; simpl; rewrite ?str_cmp_refl, ?Hk, ?IH; done.
Qed.

Lemma bt_get_elem k v m : bt_get k m = Some v -> (k, v) ∈ m.
Proof.
  induction m as [|[k' v'] m IH]; simpl; [done|]. key_cases k k'; rewrite elem_of_cons; [|by auto..].
  intros [= ->]. by left.
Qed.
End btree.
