(* ===== verification/Fs.v ===== *)
(** * The in-memory file system ([fs/mod.rs], [fs/inode.rs])

    The tree of inodes, path resolution and the operations of [FileSystem], each
    one whole. A [&mut Inode] into the tree is a [ref]: the inode it points at
    and the function that puts a new inode back in its place, so that writing
    through the reference changes the tree it was borrowed from. *)

From S2P Require Import Prelude Str.
From Stdlib Require Import Ascii.

Definition MAX_FILE_SIZE : Z := 65536.
Definition MAX_DIR_CHILDREN : Z := 128.
Definition MAX_PATH_DEPTH : Z := 16.
Definition MAX_TOTAL_INODES : Z := 512.

Inductive FsError :=
  | NotFound | AlreadyExists | NotAFile | NotADirectory | InvalidPath
  | FileTooLarge | TooManyChildren | PathTooDeep | TooManyInodes | DirectoryNotEmpty.

#[global] Instance FsError_eq : EqDecision FsError.
Proof. solve_decision. Defined.

(** [let x = e?; k] in a function returning a [Result]. *)
Notation "'let?' x := e 'in' k" :=
  (match e with Ok x => k | Err e' => Err e' end)
  (at level 200, x pattern, e at level 100, k at level 200, right associativity) : rust_scope.

(** The same where [k] also changes the state. *)
Notation "'let?!' x := e 'in' k" :=
  (match e with Ok x => k | Err e' => mret (Err e') end)
  (at level 200, x pattern, e at level 100, k at level 200, right associativity) : rust_scope.
Local Open Scope rust_scope.

(** [o.ok_or(e)] *)
Definition ok_or {A} (o : option A) (e : FsError) : result A FsError :=
  match o with Some a => Ok a | None => Err e end.

Definition len {A} (l : list A) : Z := Z.of_nat (length l).

(** ** Inodes *)

Inductive Inode :=
  | mkInode (name : str) (kind : InodeKind)
with InodeKind :=
  | File (data : list Z)
  | Directory (children : list (str * Inode)).

Definition name (i : Inode) : str := let 'mkInode n _ := i in n.
Definition kind (i : Inode) : InodeKind := let 'mkInode _ k := i in k.

Definition set_kind (i : Inode) (k : InodeKind) : Inode := mkInode (name i) k.

Definition new_file (n : str) : Inode := mkInode n (File []).
Definition new_directory (n : str) : Inode := mkInode n (Directory []).

Definition read (self : Inode) : option (list Z) :=
  match kind self with File data => Some data | Directory _ => None end.

Definition write (data : list Z) : M Inode (result unit FsError) := fun self =>
  match kind self with
  | File _ => Ret (Ok tt, set_kind self (File data))
  | Directory _ => Ret (Err NotAFile, self)
  end.

Definition append (data : list Z) : M Inode (result unit FsError) := fun self =>
  match kind self with
  | File buf => Ret (Ok tt, set_kind self (File (buf ++ data)))
  | Directory _ => Ret (Err NotAFile, self)
  end.

Definition size (self : Inode) : Z :=
  match kind self with File data => len data | Directory children => len children end.

Definition find_child (self : Inode) (n : str) : option Inode :=
  match kind self with Directory children => bt_get n children | File _ => None end.

(** A mutable reference into a tree: its target, and the tree with another target. *)
Definition ref : Type := Inode * (Inode -> Inode).

Definition find_child_mut (self : Inode) (n : str) : option ref :=
  match kind self with
  | Directory children =>
      match bt_get n children with
      | Some c => Some (c, fun c' => set_kind self (Directory (bt_set n c' children)))
      | None => None
      end
  | File _ => None
  end.

Definition list_children (self : Inode) : list str :=
  match kind self with Directory children => bt_keys children | File _ => [] end.

Definition remove_child (n : str) : M Inode (result Inode FsError) := fun self =>
  match kind self with
  | Directory children =>
      match bt_get n children with
      | Some c => Ret (Ok c, set_kind self (Directory (bt_remove n children)))
      | None => Ret (Err NotFound, self)
      end
  | File _ => Ret (Err NotADirectory, self)
  end.

(** ** Paths *)

Definition slash : ascii := "/"%char.

Definition split_path (path : str) : list str :=
  filter (fun s => is_empty s = false) (split slash (trim_matches slash path)).

Definition resolve_path (path : str) : result (str * str) FsError :=
  if is_empty path || str_eqb path (lit "/") then Err InvalidPath
  else
    let path := trim_matches slash path in
    match rfind slash path with
    | Some idx =>
        let parent := take idx path in
        let name := drop (idx + 1) path in
        if is_empty name || str_eqb name (lit ".") || str_eqb name (lit "..") then Err InvalidPath
        else Ok (parent, name)
    | None =>
        if str_eqb path (lit ".") || str_eqb path (lit "..") then Err InvalidPath
        else Ok ([], path)
    end.

Fixpoint descend (current : Inode) (parts : list str) : result Inode FsError :=
  match parts with
  | [] => Ok current
  | part :: parts' =>
      let? current := ok_or (find_child current part) NotFound in descend current parts'
  end.

Definition find_inode (root : Inode) (path : str) : result Inode FsError :=
  let parts := split_path path in
  if MAX_PATH_DEPTH <? len parts then Err PathTooDeep else descend root parts.

Fixpoint descend_mut (current : Inode) (parts : list str) : result ref FsError :=
  match parts with
  | [] => Ok (current, fun i => i)
  | part :: parts' =>
      let? (child, put) := ok_or (find_child_mut current part) NotFound in
      let? (target, put') := descend_mut child parts' in
      Ok (target, fun i => put (put' i))
  end.

Definition find_inode_mut (root : Inode) (path : str) : result ref FsError :=
  let parts := split_path path in
  if MAX_PATH_DEPTH <? len parts then Err PathTooDeep else descend_mut root parts.

Definition find_dir_mut (root : Inode) (path : str) : result ref FsError :=
  let? (dir, put) := find_inode_mut root path in
  match kind dir with Directory _ => Ok (dir, put) | File _ => Err NotADirectory end.

Definition dir_child_count (dir : Inode) : Z :=
  match kind dir with Directory children => len children | File _ => 0 end.

(** ** [FileSystem] *)

Record FileSystem := mkFs {
  root : Inode;
  inode_count : Z
}.

Definition new : FileSystem := mkFs (new_directory (lit "/")) 1.

(** Run a method of an inode on the target of a reference into the tree. *)
Definition through {A} (put : Inode -> Inode) (target : Inode) (m : M Inode A) : M FileSystem A :=
  fun self =>
    match m target with
    | Ret (a, target') => Ret (a, mkFs (put target') (inode_count self))
    | Crash f => Crash f
    end.

(** [children.insert(name, node); self.inode_count += 1] of both [create_*]. *)
Definition add_child (dir : Inode) (put : Inode -> Inode) (n : str) (node : Inode)
    : M FileSystem (result unit FsError) :=
  match kind dir with
  | Directory children =>
      self ← get;
      count ← lift (inode_count self +? 1);
      _ ← modify (fun _ => mkFs (put (set_kind dir (Directory (bt_insert n node children)))) count);
      mret (Ok tt)
  | File _ => crash (Panic "internal error: entered unreachable code")
  end.

Definition create_file (path : str) : M FileSystem (result unit FsError) :=
  self ← get;
  if MAX_TOTAL_INODES <=? inode_count self then mret (Err TooManyInodes)
  else
    let?! (parent, name) := resolve_path path in
    let?! (dir, put) := find_dir_mut (root self) parent in
    if bool_decide (is_Some (find_child dir name)) then mret (Err AlreadyExists)
    else if MAX_DIR_CHILDREN <=? dir_child_count dir then mret (Err TooManyChildren)
    else add_child dir put name (new_file name).

Definition create_dir (path : str) : M FileSystem (result unit FsError) :=
  self ← get;
  if MAX_TOTAL_INODES <=? inode_count self then mret (Err TooManyInodes)
  else
    let?! (parent, name) := resolve_path path in
    let?! (dir, put) := find_dir_mut (root self) parent in
    if bool_decide (is_Some (find_child dir name)) then mret (Err AlreadyExists)
    else if MAX_DIR_CHILDREN <=? dir_child_count dir then mret (Err TooManyChildren)
    else add_child dir put name (new_directory name).

Definition read_file (self : FileSystem) (path : str) : result (list Z) FsError :=
  let? inode := find_inode (root self) path in
  ok_or (read inode) NotAFile.

Definition write_file (path : str) (data : list Z) : M FileSystem (result unit FsError) :=
  if MAX_FILE_SIZE <? len data then mret (Err FileTooLarge)
  else
    self ← get;
    let?! (inode, put) := find_inode_mut (root self) path in
    through put inode (write data).

(** [saturating_add] *)
Definition saturating_add (a b : Z) : Z := Z.min u64_max (a + b).

Definition append_file (path : str) (data : list Z) : M FileSystem (result unit FsError) :=
  self ← get;
  let?! (inode, put) := find_inode_mut (root self) path in
  match kind inode with
  | Directory _ => mret (Err NotAFile)
  | File buf =>
      if MAX_FILE_SIZE <? saturating_add (len buf) (len data) then mret (Err FileTooLarge)
      else through put inode (append data)
  end.

Definition list_dir (self : FileSystem) (path : str) : result (list str) FsError :=
  let? inode := find_inode (root self) path in
  match kind inode with
  | Directory children => Ok (bt_keys children)
  | File _ => Err NotADirectory
  end.

Definition exists_ (self : FileSystem) (path : str) : bool :=
  match find_inode (root self) path with Ok _ => true | Err _ => false end.

Definition remove (path : str) : M FileSystem (result unit FsError) :=
  let?! (parent, name) := resolve_path path in
  self ← get;
  let?! (dir, put) := find_dir_mut (root self) parent in
  removed ← through put dir (remove_child name);
  let?! _ := removed in
  _ ← modify (fun self => mkFs (root self) (saturating_sub (inode_count self) 1));
  mret (Ok tt).
