(* ===== verification/FsInv.v ===== *)
(** * The tree of inodes: views, well-formedness, size

    What a tree shows at a path ([view]), how writing through a reference changes
    what it shows, the well-formedness of a tree and the number of its inodes. *)

From S2P Require Import Prelude Str Fs.

(** ** Views *)

(** What a path leads to: a file with its contents, or a directory with the names
    in it. *)
Inductive node :=
  | NFile (data : list Z)
  | NDir (names : list str).

Definition summary (i : Inode) : node :=
  match kind i with File data => NFile data | Directory children => NDir (bt_keys children) end.

Fixpoint walk (i : Inode) (q : list str) : option Inode :=
  match q with
  | [] => Some i
  | n :: q' => match find_child i n with Some c => walk c q' | None => None end
  end.

Definition view (i : Inode) (q : list str) : option node := summary <$> walk i q.

(** [strip p q]: the rest of [q] after the prefix [p]. *)
Fixpoint strip (p q : list str) : option (list str) :=
  match p, q with
  | [], _ => Some q
  | _ :: _, [] => None
  | x :: p', y :: q' => if decide (x = y) then strip p' q' else None
  end.

Lemma strip_app p r : strip p (p ++ r) = Some r.
Proof. induction p as [|x p IH]; simpl; [done|]. by rewrite decide_True. Qed.

Lemma strip_some p q r : strip p q = Some r -> q = p ++ r.
Proof.
  revert q. induction p as [|x p IH]; intros q; simpl; [congruence|].
  destruct q as [|y q]; [done|]. case_decide as He; [|done]. intros ->%IH. by rewrite He.
Qed.

Lemma strip_none p q r : strip p q = None -> q <> p ++ r.
Proof. intros Hs ->. by rewrite strip_app in Hs. Qed.

Lemma walk_app i p r : walk i (p ++ r) = walk i p ≫= fun x => walk x r.
Proof.
  revert i. induction p as [|n p IH]; intros i; simpl; [done|]. by destruct (find_child i n).
Qed.

Lemma view_app i p t r : walk i p = Some t -> view i (p ++ r) = view t r.
Proof. intros Hw. unfold view. by rewrite walk_app, Hw. Qed.

Lemma descend_walk i ps : descend i ps = ok_or (walk i ps) NotFound.
Proof.
  revert i. induction ps as [|n ps IH]; intros i; simpl; [done|]. by destruct (find_child i n); simpl.
Qed.

(** ** References *)

(** The tree [i] with [t] in place of the inode at [ps]. *)
Fixpoint put_at (i : Inode) (ps : list str) (t : Inode) : Inode :=
  match ps with
  | [] => t
  | n :: ps' =>
      match find_child_mut i n with
      | Some (c, put) => put (put_at c ps' t)
      | None => i
      end
  end.

Lemma find_child_mut_spec i n :
  find_child_mut i n =
  match find_child i n with
  | Some c =>
      Some (c, fun c' => set_kind i (match kind i with
                                     | Directory kids => Directory (bt_set n c' kids)
                                     | File d => File d
                                     end))
  | None => None
  end.
Proof. unfold find_child_mut, find_child. destruct (kind i) as [|kids]; [done|]. by destruct (bt_get n kids). Qed.

Lemma descend_mut_some i ps t : walk i ps = Some t ->
  exists put, descend_mut i ps = Ok (t, put) /\ forall t', put t' = put_at i ps t'.
Proof.
  revert i. induction ps as [|n ps IH]; intros i Hw; simpl in *.
  - injection Hw as ->. by eexists.
  - rewrite find_child_mut_spec in *. destruct (find_child i n) as [c|] eqn:Hc; [|done]. simpl.
    destruct (IH c Hw) as (put & -> & Hput). eexists. split; [done|].
    intros t'. simpl. by rewrite Hput.
Qed.

Lemma descend_mut_none i ps : walk i ps = None -> descend_mut i ps = Err NotFound.
Proof.
  revert i. induction ps as [|n ps IH]; intros i Hw; simpl in *; [done|].
  rewrite find_child_mut_spec. destruct (find_child i n) as [c|]; [|done]. simpl. by rewrite (IH c Hw).
Qed.

(** Replacing one child: what the new directory shows. *)
Lemma find_child_set i kids n c' m :
  kind i = Directory kids -> is_Some (bt_get n kids) ->
  find_child (set_kind i (Directory (bt_set n c' kids))) m =
  if decide (m = n) then Some c' else find_child i m.
Proof.
  intros Hk [c Hc]. unfold find_child. rewrite Hk. simpl. case_decide as Hm.
  - subst m. apply bt_get_set. by rewrite Hc.
  - by apply bt_get_set_ne.
Qed.

Lemma find_child_dir i n c : find_child i n = Some c ->
  exists kids, kind i = Directory kids /\ bt_get n kids = Some c.
Proof. unfold find_child. destruct (kind i) as [|kids]; [done|]. eauto. Qed.

Lemma put_at_cons i n ps t' c kids :
  kind i = Directory kids -> bt_get n kids = Some c ->
  put_at i (n :: ps) t' = set_kind i (Directory (bt_set n (put_at c ps t') kids)).
Proof. intros Hk Hc. simpl. unfold find_child_mut. by rewrite Hk, Hc. Qed.

(** Walking into a tree after a write through a reference. *)
Lemma walk_put i ps t t' q : walk i ps = Some t ->
  match strip ps q with
  | Some r => walk (put_at i ps t') q = walk t' r
  | None => summary <$> walk (put_at i ps t') q = summary <$> walk i q
  end.
Proof.
  revert i q. induction ps as [|n ps IH]; intros i q Hw; [done|].
  cbn [walk] in Hw. destruct (find_child i n) as [c|] eqn:Hc; [|done].
  destruct (find_child_dir _ _ _ Hc) as (kids & Hk & Hg).
  rewrite (put_at_cons i n ps t' c kids Hk Hg). cbn [strip].
  destruct q as [|m q].
  - cbn. unfold summary. rewrite Hk. simpl. by rewrite bt_keys_set.
  - cbn [walk]. rewrite find_child_set by (done || by rewrite Hg).
    destruct (decide (n = m)) as [<-|Hne].
    + rewrite decide_True by done. rewrite Hc. by apply IH.
    + by rewrite decide_False by done.
Qed.

Lemma view_put i ps t t' q : walk i ps = Some t ->
  view (put_at i ps t') q = match strip ps q with Some r => view t' r | None => view i q end.
Proof.
  intros Hw. pose proof (walk_put i ps t t' q Hw) as H. unfold view.
  destruct (strip ps q); [by rewrite H|done].
Qed.

Lemma walk_put_here i ps t t' : walk i ps = Some t -> walk (put_at i ps t') ps = Some t'.
Proof.
  intros Hw. pose proof (walk_put i ps t t' (ps ++ []) Hw) as H.
  rewrite strip_app, app_nil_r in H. exact H.
Qed.

Lemma put_put i ps t t1 t2 : walk i ps = Some t ->
  put_at (put_at i ps t1) ps t2 = put_at i ps t2.
Proof.
  revert i. induction ps as [|n ps IH]; intros i Hw; [done|].
  cbn [walk] in Hw. destruct (find_child i n) as [c|] eqn:Hc; [|done].
  destruct (find_child_dir _ _ _ Hc) as (kids & Hk & Hg).
  rewrite !(put_at_cons i n ps _ c kids Hk Hg).
  erewrite put_at_cons; [|done|by apply bt_get_set; rewrite Hg].
  rewrite bt_set_set, IH by done. done.
Qed.

Lemma put_same i ps t : walk i ps = Some t -> put_at i ps t = i.
Proof.
  revert i. induction ps as [|n ps IH]; intros i Hw; [by injection Hw as ->|].
  cbn [walk] in Hw. destruct (find_child i n) as [c|] eqn:Hc; [|done].
  destruct (find_child_dir _ _ _ Hc) as (kids & Hk & Hg).
  rewrite (put_at_cons i n ps _ c kids Hk Hg), IH, bt_set_get by done.
  destruct i as [nm k]. simpl in *. by subst k.
Qed.

(** ** Well-formed trees *)

Definition node_ok (i : Inode) : Prop :=
  match kind i with
  | File data => len data <= MAX_FILE_SIZE
  | Directory kids =>
      bt_sorted kids /\ len kids <= MAX_DIR_CHILDREN /\
      forall k c, bt_get k kids = Some c -> name c = k /\ slash ∉ k
  end.

Definition tree_ok (i : Inode) : Prop := forall q x, walk i q = Some x -> node_ok x.

Lemma tree_ok_here i : tree_ok i -> node_ok i.
Proof. intros H. by apply (H []). Qed.

Lemma tree_ok_sub i ps t : tree_ok i -> walk i ps = Some t -> tree_ok t.
Proof. intros H Hw q x Hx. apply (H (ps ++ q)). by rewrite walk_app, Hw. Qed.

Lemma tree_ok_child i n c : tree_ok i -> find_child i n = Some c -> tree_ok c.
Proof. intros H Hc. apply (tree_ok_sub i [n]); [done|]. simpl. by rewrite Hc. Qed.

Lemma tree_ok_intro i : node_ok i -> (forall n c, find_child i n = Some c -> tree_ok c) -> tree_ok i.
Proof.
  intros Hi Hc [|n q] x; simpl; [congruence|]. destruct (find_child i n) as [c|] eqn:Hf; [|done].
  apply (Hc n c Hf).
Qed.

Lemma tree_ok_file n data : len data <= MAX_FILE_SIZE -> tree_ok (mkInode n (File data)).
Proof. intros Hd. apply tree_ok_intro; done. Qed.

Lemma tree_ok_empty n : tree_ok (new_directory n).
Proof. apply tree_ok_intro; [|done]. split; [constructor|]. split; [done|]. done. Qed.

Lemma put_at_name i ps t t' : walk i ps = Some t -> name t' = name t -> name (put_at i ps t') = name i.
Proof.
  destruct ps as [|n ps]; simpl; [congruence|]. rewrite find_child_mut_spec.
  by destruct (find_child i n).
Qed.

Lemma tree_ok_put i ps t t' : walk i ps = Some t -> tree_ok i -> tree_ok t' -> name t' = name t ->
  tree_ok (put_at i ps t').
Proof.
  revert i. induction ps as [|n ps IH]; intros i Hw Hi Ht' Hn; [done|].
  cbn [walk] in Hw. destruct (find_child i n) as [c|] eqn:Hc; [|done].
  destruct (find_child_dir _ _ _ Hc) as (kids & Hk & Hg).
  rewrite (put_at_cons i n ps _ c kids Hk Hg).
  pose proof (tree_ok_here i Hi) as Hok. unfold node_ok in Hok. rewrite Hk in Hok.
  destruct Hok as (Hs & Hl & Hnm). apply tree_ok_intro.
  - unfold node_ok. simpl. unfold bt_sorted, len in *. rewrite bt_keys_set. split; [done|]. split.
    + pose proof (f_equal length (bt_keys_set n (put_at c ps t') kids)) as He.
      unfold bt_keys in He. rewrite !length_map in He. by rewrite He.
    + intros k c' Hc'. destruct (decide (k = n)) as [->|Hkn].
      * rewrite bt_get_set in Hc' by by rewrite Hg. injection Hc' as <-.
        rewrite (put_at_name c ps t t') by done. by apply Hnm.
      * rewrite bt_get_set_ne in Hc' by done. by apply Hnm.
  - intros m c'. rewrite find_child_set by (done || by rewrite Hg). case_decide as Hm.
    + intros [= <-]. apply IH; [done| |done|done]. by apply (tree_ok_child i n).
    + apply (tree_ok_child i m c' Hi).
Qed.

(** ** The number of inodes *)

Fixpoint inodes (i : Inode) : Z :=
  match i with
  | mkInode _ (File _) => 1
  | mkInode _ (Directory kids) => 1 + foldr (fun kc acc => inodes kc.2 + acc) 0 kids
  end.

Definition total (kids : list (str * Inode)) : Z := foldr (fun kc acc => inodes kc.2 + acc) 0 kids.

Lemma inodes_eq i : inodes i = match kind i with File _ => 1 | Directory kids => 1 + total kids end.
Proof. destruct i as [n [d|kids]]; done. Qed.

Lemma total_set n c c' kids : bt_get n kids = Some c ->
  total (bt_set n c' kids) = total kids - inodes c + inodes c'.
Proof.
  induction kids as [|[k v] kids IH]; simpl; [done|].
  destruct (str_cmp n k); [intros [= ->]|..]; simpl; fold (total kids); [lia|..];
    intros ?%IH; simpl; fold (total (bt_set n c' kids)); lia.
Qed.

Lemma total_insert n c kids : bt_get n kids = None -> total (bt_insert n c kids) = total kids + inodes c.
Proof.
  induction kids as [|[k v] kids IH]; simpl; [intros _; lia|].
  destruct (str_cmp n k); [done|..]; simpl; fold (total kids); [lia|].
  intros ?%IH. fold (total (bt_insert n c kids)). lia.
Qed.

Lemma total_remove n c kids : bt_get n kids = Some c -> total (bt_remove n kids) = total kids - inodes c.
Proof.
  induction kids as [|[k v] kids IH]; simpl; [done|].
  destruct (str_cmp n k); [intros [= ->]|..]; simpl; fold (total kids); [lia|..];
    intros ?%IH; simpl; fold (total (bt_remove n kids)); lia.
Qed.

Lemma inodes_put i ps t t' : walk i ps = Some t ->
  inodes (put_at i ps t') = inodes i - inodes t + inodes t'.
Proof.
  revert i. induction ps as [|n ps IH]; intros i Hw; [injection Hw as ->; simpl; lia|].
  cbn [walk] in Hw. destruct (find_child i n) as [c|] eqn:Hc; [|done].
  destruct (find_child_dir _ _ _ Hc) as (kids & Hk & Hg).
  rewrite (put_at_cons i n ps _ c kids Hk Hg), !(inodes_eq (set_kind _ _)), (inodes_eq i), Hk. simpl.
  rewrite (total_set n c) by done. rewrite IH by done. lia.
Qed.

Fixpoint inodes_pos (i : Inode) : 1 <= inodes i.
Proof.
  destruct i as [n [d|kids]]; cbn [inodes]; [done|].
  enough (0 <= foldr (fun (kc : str * Inode) acc => inodes kc.2 + acc) 0 kids) by lia.
  induction kids as [|[k c] kids IH]; simpl; [done|]. pose proof (inodes_pos c). lia.
Qed.

(** ** A directory gains or loses a child *)

Section one_directory.
Context (dir : Inode) (kids : list (str * Inode)).
Hypothesis Hk : kind dir = Directory kids.

Lemma len_keys (m : list (str * Inode)) : len m = len (bt_keys m).
Proof. unfold len, bt_keys. by rewrite length_map. Qed.

Lemma tree_ok_insert n fresh : tree_ok dir -> bt_get n kids = None -> len kids < MAX_DIR_CHILDREN ->
  slash ∉ n -> name fresh = n -> tree_ok fresh ->
  tree_ok (set_kind dir (Directory (bt_insert n fresh kids))).
Proof.
  intros Hd Hn Hlen Hsl Hname Hf. pose proof (tree_ok_here dir Hd) as Hok.
  unfold node_ok in Hok. rewrite Hk in Hok. destruct Hok as (Hs & Hl & Hnm). apply tree_ok_intro.
  - unfold node_ok. simpl. rewrite len_keys in *. unfold bt_sorted. rewrite bt_keys_insert.
    split; [by apply key_insert_sorted|]. split.
    + unfold len in *. rewrite key_insert_length by by apply bt_get_keys. lia.
    + intros k c Hkc. destruct (decide (k = n)) as [->|Hkn].
      * rewrite bt_get_insert in Hkc. by injection Hkc as <-.
      * rewrite bt_get_insert_ne in Hkc by done. by apply Hnm.
  - intros k c. unfold find_child. simpl. intros Hkc. destruct (decide (k = n)) as [->|Hkn].
    + rewrite bt_get_insert in Hkc. by injection Hkc as <-.
    + rewrite bt_get_insert_ne in Hkc by done. apply (tree_ok_child dir k c); [done|].
      unfold find_child. by rewrite Hk.
Qed.

Lemma tree_ok_remove n : tree_ok dir -> tree_ok (set_kind dir (Directory (bt_remove n kids))).
Proof.
  intros Hd. pose proof (tree_ok_here dir Hd) as Hok.
  unfold node_ok in Hok. rewrite Hk in Hok. destruct Hok as (Hs & Hl & Hnm).
  assert (forall k c, bt_get k (bt_remove n kids) = Some c -> bt_get k kids = Some c) as Hsub.
  { intros k c Hkc. destruct (decide (k = n)) as [->|Hkn].
    - by rewrite bt_get_remove in Hkc by done.
    - by rewrite bt_get_remove_ne in Hkc by done. }
  apply tree_ok_intro.
  - unfold node_ok. simpl. rewrite len_keys in *. unfold bt_sorted. rewrite bt_keys_remove.
    split; [by apply key_remove_sorted|]. split; [|eauto].
    unfold len in *. pose proof (key_remove_length n (bt_keys kids)). lia.
  - intros k c. unfold find_child. simpl. intros Hkc%Hsub. apply (tree_ok_child dir k c); [done|].
    unfold find_child. by rewrite Hk.
Qed.

Lemma view_insert n fresh r :
  bt_get n kids = None -> (forall m q, view fresh (m :: q) = None) ->
  view (set_kind dir (Directory (bt_insert n fresh kids))) r =
  if decide (r = []) then Some (NDir (key_insert n (bt_keys kids)))
  else if decide (r = [n]) then Some (summary fresh) else view dir r.
Proof.
  intros Hn Hf. destruct r as [|m r].
  - rewrite decide_True by done. unfold view. simpl. unfold summary. simpl. by rewrite bt_keys_insert.
  - rewrite decide_False by done. unfold view. simpl. unfold find_child. rewrite Hk. simpl.
    destruct (decide (m = n)) as [->|Hm].
    + rewrite bt_get_insert, Hn. destruct r as [|m' r]; [by rewrite decide_True|].
      rewrite decide_False by congruence. apply (Hf m' r).
    + rewrite bt_get_insert_ne by done. by rewrite decide_False by congruence.
Qed.

Lemma view_remove n r : bt_sorted kids ->
  view (set_kind dir (Directory (bt_remove n kids))) r =
  if decide (r = []) then Some (NDir (key_remove n (bt_keys kids)))
  else match strip [n] r with Some _ => None | None => view dir r end.
Proof.
  intros Hs. destruct r as [|m r].
  - rewrite decide_True by done. unfold view. simpl. unfold summary. simpl. by rewrite bt_keys_remove.
  - rewrite decide_False by done. unfold view. simpl. unfold find_child. rewrite Hk. simpl.
    case_decide as Hm.
    + subst m. by rewrite bt_get_remove.
    + by rewrite bt_get_remove_ne.
Qed.
End one_directory.

Lemma strip_strip p n q : strip (p ++ [n]) q = strip p q ≫= strip [n].
Proof.
  revert q. induction p as [|x p IH]; intros q; simpl; [done|].
  destruct q as [|y q]; [done|]. by case_decide.
Qed.
