(* ===== verification/FsSim.v ===== *)
(** * The abstract file system and the simulation

    The abstract file system is one flat map from component lists to nodes, with a
    counter. Here: its operations, the operations of [Fs] as steps, and the proof
    that every step of the code simulates the abstract one. *)

From S2P Require Import Prelude Str Fs FsInv.
From Stdlib Require Import Ascii Sorted.
Local Open Scope rust_scope.

(** ** Paths *)

Lemma split_path_pieces p : split_path p = pieces slash p.
Proof. apply pieces_trim. Qed.

Lemma pieces_one s : slash ∉ s -> is_empty s = false -> pieces slash s = [s].
Proof. intros Hs He. unfold pieces. rewrite split_whole by done. by rewrite filter_cons_True. Qed.

(** The parent and the name that [resolve_path] gives are the components that
    [split_path] gives, unless the path holds no name at all. *)
Lemma resolve_split path parent n : resolve_path path = Ok (parent, n) ->
  slash ∉ n /\ split_path path = match n with [] => [] | _ => split_path parent ++ [n] end.
Proof.
  unfold resolve_path. destruct (is_empty path || _); [done|].
  destruct (rfind slash _) as [i|] eqn:Hr.
  - apply rfind_some in Hr as [Hp Hn].
    rewrite Nat.add_1_r. destruct (is_empty (drop _ _)) eqn:He; [done|].
    destruct (_ || _); [done|]. intros [= <- <-]. split; [done|].
    rewrite !split_path_pieces, <- (pieces_trim slash path), Hp at 1.
    rewrite pieces_app, (pieces_one (drop _ _)), split_path_pieces by done.
    by destruct (drop (S i) _).
  - apply rfind_none in Hr. destruct (_ || _); [done|]. intros [= <- <-]. split; [done|].
    rewrite !split_path_pieces, <- (pieces_trim slash path).
    destruct (trim_matches slash path) eqn:Ht; [done|]. by rewrite pieces_one.
Qed.

(** ** The abstract file system *)

Record spec := mkSpec {
  nodes : list str -> option node;
  count : Z
}.

Definition spec_new : spec := mkSpec (fun q => match q with [] => Some (NDir []) | _ => None end) 1.

Definition upd (v : list str -> option node) (p : list str) (n : node) : list str -> option node :=
  fun q => if decide (q = p) then Some n else v q.

(** Nothing at or below [p]. *)
Definition cut (v : list str -> option node) (p : list str) : list str -> option node :=
  fun q => match strip p q with Some _ => None | None => v q end.

Definition spec_find (s : spec) (path : str) : result node FsError :=
  if MAX_PATH_DEPTH <? len (split_path path) then Err PathTooDeep
  else ok_or (nodes s (split_path path)) NotFound.

Definition spec_dir (s : spec) (path : str) : result (list str) FsError :=
  let? n := spec_find s path in
  match n with NDir names => Ok names | NFile _ => Err NotADirectory end.

Definition spec_create (fresh : node) (path : str) (s : spec) : result unit FsError * spec :=
  if MAX_TOTAL_INODES <=? count s then (Err TooManyInodes, s)
  else match resolve_path path with
  | Err e => (Err e, s)
  | Ok (parent, n) =>
      match spec_dir s parent with
      | Err e => (Err e, s)
      | Ok names =>
          if decide (n ∈ names) then (Err AlreadyExists, s)
          else if MAX_DIR_CHILDREN <=? len names then (Err TooManyChildren, s)
          else
            let p := split_path parent in
            (Ok tt, mkSpec (upd (upd (nodes s) p (NDir (key_insert n names))) (p ++ [n]) fresh)
                           (count s + 1))
      end
  end.

Definition spec_remove (path : str) (s : spec) : result unit FsError * spec :=
  match resolve_path path with
  | Err e => (Err e, s)
  | Ok (parent, n) =>
      match spec_dir s parent with
      | Err e => (Err e, s)
      | Ok names =>
          if decide (n ∈ names) then
            let p := split_path parent in
            (Ok tt, mkSpec (upd (cut (nodes s) (p ++ [n])) p (NDir (key_remove n names)))
                           (saturating_sub (count s) 1))
          else (Err NotFound, s)
      end
  end.

(** Replace the contents of a file by [f] of them, if they are not too long. *)
Definition spec_change (path : str) (f : list Z -> list Z) (s : spec) : result unit FsError * spec :=
  match spec_find s path with
  | Err e => (Err e, s)
  | Ok (NDir _) => (Err NotAFile, s)
  | Ok (NFile buf) =>
      if MAX_FILE_SIZE <? len (f buf) then (Err FileTooLarge, s)
      else (Ok tt, mkSpec (upd (nodes s) (split_path path) (NFile (f buf))) (count s))
  end.

Inductive op :=
  | CreateFile (path : str) | CreateDir (path : str)
  | ReadFile (path : str) | WriteFile (path : str) (data : list Z)
  | AppendFile (path : str) (data : list Z)
  | ListDir (path : str) | Exists (path : str) | Remove (path : str).

Inductive answer := Done | Data (d : list Z) | Names (l : list str) | Yes (b : bool).

Definition done_of (r : result unit FsError) : result answer FsError :=
  let? _ := r in Ok Done.

Definition spec_step (o : op) (s : spec) : result answer FsError * spec :=
  let ans (rs : result unit FsError * spec) := (done_of rs.1, rs.2) in
  match o with
  | CreateFile p => ans (spec_create (NFile []) p s)
  | CreateDir p => ans (spec_create (NDir []) p s)
  | ReadFile p =>
      (let? n := spec_find s p in
       match n with NFile d => Ok (Data d) | NDir _ => Err NotAFile end, s)
  | WriteFile p d =>
      if MAX_FILE_SIZE <? len d then (Err FileTooLarge, s) else ans (spec_change p (fun _ => d) s)
  | AppendFile p d => ans (spec_change p (fun buf => buf ++ d) s)
  | ListDir p => (let? l := spec_dir s p in Ok (Names l), s)
  | Exists p => (Ok (Yes (match spec_find s p with Ok _ => true | Err _ => false end)), s)
  | Remove p => ans (spec_remove p s)
  end.

(** The operations of the code. *)
Definition step (o : op) : M FileSystem (result answer FsError) :=
  let ans (c : M FileSystem (result unit FsError)) := r ← c; mret (done_of r) in
  match o with
  | CreateFile p => ans (create_file p)
  | CreateDir p => ans (create_dir p)
  | ReadFile p => self ← get; mret (let? d := read_file self p in Ok (Data d))
  | WriteFile p d => ans (write_file p d)
  | AppendFile p d => ans (append_file p d)
  | ListDir p => self ← get; mret (let? l := list_dir self p in Ok (Names l))
  | Exists p => self ← get; mret (Ok (Yes (exists_ self p)))
  | Remove p => ans (remove p)
  end.

Fixpoint run (os : list op) : M FileSystem (list (result answer FsError)) :=
  match os with
  | [] => mret []
  | o :: os' => r ← step o; rs ← run os'; mret (r :: rs)
  end.

Fixpoint spec_run (os : list op) (s : spec) : list (result answer FsError) * spec :=
  match os with
  | [] => ([], s)
  | o :: os' => let '(r, s1) := spec_step o s in let '(rs, s2) := spec_run os' s1 in (r :: rs, s2)
  end.

(** ** The simulation *)

Definition fs_ok (fs : FileSystem) : Prop :=
  tree_ok (root fs) /\ inodes (root fs) <= inode_count fs <= MAX_TOTAL_INODES.

Definition sim (fs : FileSystem) (s : spec) : Prop :=
  (forall q, view (root fs) q = nodes s q) /\ inode_count fs = count s.

(** A step of the code answers as the specification's and ends in a state that
    shows what the specification's shows. *)
Definition refines {A} (c : M FileSystem A) (a : A * spec) (fs : FileSystem) : Prop :=
  wp c (fun r fs' => a.1 = r /\ sim fs' a.2 /\ fs_ok fs') fs.

Lemma find_inode_sim fs s path : sim fs s ->
  spec_find s path = let? i := find_inode (root fs) path in Ok (summary i).
Proof.
  intros [Hv _]. unfold spec_find, find_inode. destruct (_ <? _); [done|].
  rewrite descend_walk, <- Hv. unfold view. by destruct (walk _ _).
Qed.

Lemma find_inode_mut_spec fs path :
  match find_inode (root fs) path with
  | Err e => find_inode_mut (root fs) path = Err e
  | Ok i => walk (root fs) (split_path path) = Some i /\
      exists put, find_inode_mut (root fs) path = Ok (i, put) /\
        forall t, put t = put_at (root fs) (split_path path) t
  end.
Proof.
  unfold find_inode, find_inode_mut. destruct (_ <? _); [done|]. rewrite descend_walk.
  destruct (walk _ _) as [t|] eqn:Hw; simpl.
  - split; [done|]. by apply descend_mut_some.
  - by apply descend_mut_none.
Qed.

Lemma find_dir_sim fs s path : sim fs s ->
  match spec_dir s path with
  | Err e => find_dir_mut (root fs) path = Err e
  | Ok names => exists dir kids put,
      walk (root fs) (split_path path) = Some dir /\ kind dir = Directory kids /\
      names = bt_keys kids /\ find_dir_mut (root fs) path = Ok (dir, put) /\
      forall t, put t = put_at (root fs) (split_path path) t
  end.
Proof.
  intros Hs. unfold spec_dir. rewrite (find_inode_sim fs s path Hs).
  pose proof (find_inode_mut_spec fs path) as Hm. unfold find_dir_mut.
  destruct (find_inode (root fs) path) as [i|e]; [|by rewrite Hm].
  destruct Hm as (Hw & put & -> & Hput). unfold summary.
  destruct (kind i) as [d|kids] eqn:Hk; [done|]. by exists i, kids, put.
Qed.

(** *** Creating *)

Lemma upd_put i p t t' q v :
  walk i p = Some t -> (forall q, view i q = v q) ->
  view (put_at i p t') q = match strip p q with Some r => view t' r | None => v q end.
Proof. intros Hw Hv. rewrite (view_put i p t) by done. destruct (strip p q); [done|apply Hv]. Qed.

Lemma decide_app {A} `{EqDecision A} (p r r' : list A) (T : Type) (x y : T) :
  (if decide (p ++ r = p ++ r') then x else y) = if decide (r = r') then x else y.
Proof.
  destruct (decide (r = r')) as [->|Hr]; [by rewrite decide_True|].
  rewrite decide_False; [done|]. intros H%app_inv_head. done.
Qed.

Lemma decide_app_nil {A} `{EqDecision A} (p r : list A) (T : Type) (x y : T) :
  (if decide (p ++ r = p) then x else y) = if decide (r = []) then x else y.
Proof.
  destruct (decide (r = [])) as [->|Hr]; [by rewrite app_nil_r, decide_True|].
  rewrite decide_False; [done|]. intros H. apply Hr, (app_inv_head p). by rewrite app_nil_r.
Qed.

Lemma add_child_sim fs s p dir kids put n fresh :
  sim fs s -> fs_ok fs -> walk (root fs) p = Some dir -> kind dir = Directory kids ->
  (forall t, put t = put_at (root fs) p t) ->
  bt_get n kids = None -> inode_count fs < MAX_TOTAL_INODES -> len kids < MAX_DIR_CHILDREN ->
  slash ∉ n -> name fresh = n -> tree_ok fresh -> inodes fresh = 1 ->
  (forall m q, view fresh (m :: q) = None) ->
  refines (add_child dir put n fresh)
    (Ok tt, mkSpec (upd (upd (nodes s) p (NDir (key_insert n (bt_keys kids)))) (p ++ [n]) (summary fresh))
                   (count s + 1)) fs.
Proof.
  intros [Hv Hc] [Ht Hi] Hw Hk Hput Hn Hlt Hlen Hsl Hname Hfok Hf1 Hfv.
  unfold add_child, refines. rewrite Hk. unfold MAX_TOTAL_INODES in *.
  wp_steps; [unfold u64_max; lia|]. split; [done|]. split; [split; simpl; [|lia]|split; simpl].
  - intros q. rewrite Hput, (upd_put _ p dir _ q (nodes s)) by done. unfold upd.
    destruct (strip p q) as [r|] eqn:Hq.
    + apply strip_some in Hq. subst q. rewrite decide_app, decide_app_nil, (view_insert dir kids) by done.
      rewrite <- Hv, (view_app _ p dir) by done.
      destruct (decide (r = [])) as [->|]; [|done]. by rewrite decide_False by done.
    + rewrite !decide_False; [done| |]; [|by apply strip_none].
      rewrite <- (app_nil_r p). by apply strip_none.
  - rewrite Hput. apply (tree_ok_put _ p dir); [done|done| |done].
    apply (tree_ok_insert dir kids); try done. by apply (tree_ok_sub (root fs) p).
  - rewrite Hput, (inodes_put _ p dir), (inodes_eq (set_kind _ _)), (inodes_eq dir), Hk by done. simpl.
    rewrite total_insert by done. unfold MAX_TOTAL_INODES. lia.
Qed.

(** Both [create_*]: the file, or the empty directory, that [mk] makes. *)
Definition create_with (mk : str -> Inode) (path : str) : M FileSystem (result unit FsError) :=
  self ← get;
  if MAX_TOTAL_INODES <=? inode_count self then mret (Err TooManyInodes)
  else
    let?! (parent, name) := resolve_path path in
    let?! (dir, put) := find_dir_mut (root self) parent in
    if bool_decide (is_Some (find_child dir name)) then mret (Err AlreadyExists)
    else if MAX_DIR_CHILDREN <=? dir_child_count dir then mret (Err TooManyChildren)
    else add_child dir put name (mk name).

Lemma refines_fail {A} (e : A) fs s : sim fs s -> fs_ok fs -> refines (mret e) (e, s) fs.
Proof. intros Hs Hok. unfold refines. by apply wp_ret. Qed.

Lemma create_sim mk fresh path fs s : sim fs s -> fs_ok fs ->
  (forall n, name (mk n) = n /\ tree_ok (mk n) /\ inodes (mk n) = 1 /\ summary (mk n) = fresh /\
     forall m q, view (mk n) (m :: q) = None) ->
  refines (create_with mk path) (spec_create fresh path s) fs.
Proof.
  intros Hs Hok Hmk. unfold create_with, refines. apply wp_bind, wp_get.
  fold (refines (A := result unit FsError)). unfold spec_create.
  rewrite <- (proj2 Hs). destruct (Z.leb_spec MAX_TOTAL_INODES (inode_count fs)) as [|Hlt]; [by apply refines_fail|].
  destruct (resolve_path path) as [[parent n]|e] eqn:Hr; [|by apply refines_fail].
  destruct (resolve_split _ _ _ Hr) as [Hsl _].
  pose proof (find_dir_sim fs s parent Hs) as Hd.
  destruct (spec_dir s parent) as [names|e]; [|rewrite Hd; by apply refines_fail].
  destruct Hd as (dir & kids & put & Hw & Hk & -> & -> & Hput).
  assert (find_child dir n = bt_get n kids) as -> by (unfold find_child; by rewrite Hk).
  assert (dir_child_count dir = len (bt_keys kids)) as -> by (unfold dir_child_count; rewrite Hk; apply len_keys).
  destruct (bt_get n kids) as [c|] eqn:Hg.
  - rewrite bool_decide_true by eauto. rewrite decide_True; [by apply refines_fail|].
    apply dec_stable. rewrite <- bt_get_keys. by rewrite Hg.
  - rewrite bool_decide_false by by intros [].
    rewrite decide_False by by apply bt_get_keys.
    destruct (Z.leb_spec MAX_DIR_CHILDREN (len (bt_keys kids))) as [|Hlen]; [by apply refines_fail|].
    rewrite <- len_keys in Hlen. destruct (Hmk n) as (Hn & Ht & Hi & <- & Hv).
    rewrite (proj2 Hs). by apply (add_child_sim fs s).
Qed.

(** *** Removing *)

Lemma remove_sim path fs s : sim fs s -> fs_ok fs -> refines (remove path) (spec_remove path s) fs.
Proof.
  intros Hs Hok. unfold remove, spec_remove.
  destruct (resolve_path path) as [[parent n]|e]; [|by apply refines_fail].
  unfold refines. apply wp_bind, wp_get. fold (refines (A := result unit FsError)).
  pose proof (find_dir_sim fs s parent Hs) as Hd.
  destruct (spec_dir s parent) as [names|e]; [|rewrite Hd; by apply refines_fail].
  destruct Hd as (dir & kids & put & Hw & Hk & -> & -> & Hput).
  unfold refines. apply wp_bind. unfold wp at 1, through, remove_child. rewrite Hk.
  assert (tree_ok dir) as Hdir by (apply (tree_ok_sub (root fs) (split_path parent)); [apply Hok|done]).
  destruct (bt_get n kids) as [c|] eqn:Hg.
  - rewrite decide_True by (apply dec_stable; rewrite <- bt_get_keys; by rewrite Hg).
    wp_steps. destruct Hs as [Hv Hc], Hok as [Ht Hi]. split; [done|].
    split; [split; simpl; [|by rewrite Hc]|split; simpl].
    + intros q. rewrite Hput, (upd_put _ (split_path parent) dir _ q (nodes s)) by done.
      unfold upd, cut. rewrite strip_strip. destruct (strip _ q) as [r|] eqn:Hq; simpl.
      * apply strip_some in Hq. subst q. rewrite decide_app_nil, (view_remove dir kids) by
          (done || pose proof (tree_ok_here dir Hdir) as Hn; unfold node_ok in Hn; rewrite Hk in Hn; apply Hn).
        by rewrite <- Hv, (view_app _ _ dir).
      * rewrite decide_False; [done|]. rewrite <- (app_nil_r (split_path parent)). by apply strip_none.
    + rewrite Hput. apply (tree_ok_put _ (split_path parent) dir); [done|done| |done].
      by apply tree_ok_remove.
    + rewrite Hput, (inodes_put _ _ dir), (inodes_eq (set_kind _ _)), (inodes_eq dir), Hk by done. simpl.
      rewrite (total_remove n c) by done. pose proof (inodes_pos c).
      unfold saturating_sub, MAX_TOTAL_INODES in *. lia.
  - rewrite decide_False by by apply bt_get_keys. wp_steps. split; [done|].
    rewrite Hput, put_same by done. by destruct fs.
Qed.

(** *** Reading and writing *)

Lemma put_file_sim fs s path i buf d put :
  sim fs s -> fs_ok fs -> walk (root fs) (split_path path) = Some i -> kind i = File buf ->
  (forall t, put t = put_at (root fs) (split_path path) t) -> len d <= MAX_FILE_SIZE ->
  sim (mkFs (put (set_kind i (File d))) (inode_count fs))
      (mkSpec (upd (nodes s) (split_path path) (NFile d)) (count s)) /\
  fs_ok (mkFs (put (set_kind i (File d))) (inode_count fs)).
Proof.
  intros [Hv Hc] [Ht Hi] Hw Hk Hput Hd. split; [split; simpl; [|done]|split; simpl].
  - intros q. rewrite Hput, (upd_put _ (split_path path) i _ q (nodes s)) by done. unfold upd.
    destruct (strip _ q) as [r|] eqn:Hq.
    + apply strip_some in Hq. subst q. rewrite decide_app_nil.
      destruct r as [|m r]; [done|]. rewrite decide_False by done.
      rewrite <- Hv, (view_app _ _ i) by done. unfold view. simpl. unfold find_child. by rewrite Hk.
    + rewrite decide_False; [done|]. rewrite <- (app_nil_r (split_path path)). by apply strip_none.
  - rewrite Hput. apply (tree_ok_put _ (split_path path) i); [done|done| |done]. by apply tree_ok_file.
  - rewrite Hput, (inodes_put _ _ i), (inodes_eq (set_kind _ _)), (inodes_eq i), Hk by done. simpl. lia.
Qed.

Lemma write_sim path d fs s : sim fs s -> fs_ok fs -> len d <= MAX_FILE_SIZE ->
  refines (write_file path d) (spec_change path (fun _ => d) s) fs.
Proof.
  intros Hs Hok Hd. unfold write_file. rewrite (proj2 (Z.ltb_ge _ _) Hd).
  unfold refines. apply wp_bind, wp_get. fold (refines (A := result unit FsError)).
  unfold spec_change. rewrite (find_inode_sim fs s path Hs).
  pose proof (find_inode_mut_spec fs path) as Hm.
  destruct (find_inode (root fs) path) as [i|e]; [|rewrite Hm; by apply refines_fail].
  destruct Hm as (Hw & put & -> & Hput). unfold summary, refines, wp, through, write.
  destruct (kind i) as [buf|kids] eqn:Hk.
  - rewrite (proj2 (Z.ltb_ge _ _) Hd). split; [done|]. by apply (put_file_sim fs s path i buf).
  - rewrite Hput, put_same by done. by destruct fs.
Qed.

Lemma append_sim path d fs s : sim fs s -> fs_ok fs ->
  refines (append_file path d) (spec_change path (fun buf => buf ++ d) s) fs.
Proof.
  intros Hs Hok. unfold append_file, refines. apply wp_bind, wp_get.
  fold (refines (A := result unit FsError)).
  unfold spec_change. rewrite (find_inode_sim fs s path Hs).
  pose proof (find_inode_mut_spec fs path) as Hm.
  destruct (find_inode (root fs) path) as [i|e]; [|rewrite Hm; by apply refines_fail].
  destruct Hm as (Hw & put & -> & Hput). unfold summary.
  destruct (kind i) as [buf|kids] eqn:Hk; [|by apply refines_fail].
  replace (len (buf ++ d)) with (len buf + len d) by (unfold len; rewrite length_app; lia).
  assert ((MAX_FILE_SIZE <? saturating_add (len buf) (len d)) = (MAX_FILE_SIZE <? len buf + len d)) as ->.
  { unfold saturating_add, MAX_FILE_SIZE, u64_max. destruct (Z.ltb_spec 65536 (len buf + len d));
      [apply Z.ltb_lt|apply Z.ltb_ge]; lia. }
  destruct (Z.ltb_spec MAX_FILE_SIZE (len buf + len d)) as [|Hd]; [by apply refines_fail|].
  unfold refines, wp, through, append. rewrite Hk. split; [done|].
  apply (put_file_sim fs s path i buf); try done. unfold len in *. rewrite length_app. lia.
Qed.

(** *** Every operation *)

Lemma refines_ans (c : M FileSystem (result unit FsError)) a fs :
  refines c a fs -> refines (r ← c; mret (done_of r)) (done_of a.1, a.2) fs.
Proof.
  intros H. unfold refines. apply wp_bind. eapply wp_mono; [exact H|].
  intros r fs' (Hr & Hrest). apply wp_ret. simpl. by rewrite Hr.
Qed.

Lemma new_file_ok n : name (new_file n) = n /\ tree_ok (new_file n) /\ inodes (new_file n) = 1 /\
  summary (new_file n) = NFile [] /\ forall m q, view (new_file n) (m :: q) = None.
Proof. repeat split; try done. by apply tree_ok_file. Qed.

Lemma new_directory_ok n : name (new_directory n) = n /\ tree_ok (new_directory n) /\
  inodes (new_directory n) = 1 /\ summary (new_directory n) = NDir [] /\
  forall m q, view (new_directory n) (m :: q) = None.
Proof. repeat split; try done. apply tree_ok_empty. Qed.

Lemma step_sim o fs s : sim fs s -> fs_ok fs -> refines (step o) (spec_step o s) fs.
Proof.
  intros Hs Hok. destruct o as [p|p|p|p d|p d|p|p|p]; simpl.
  - apply refines_ans. by apply (create_sim new_file), new_file_ok.
  - apply refines_ans. by apply (create_sim new_directory), new_directory_ok.
  - unfold refines. apply wp_bind, wp_get, wp_ret. split; [|done]. simpl.
    rewrite (find_inode_sim fs s p Hs). unfold read_file. destruct (find_inode (root fs) p); [|done].
    unfold summary, read. by destruct (kind _).
  - destruct (Z.ltb_spec MAX_FILE_SIZE (len d)) as [Hd|Hd].
    + unfold write_file. rewrite (proj2 (Z.ltb_lt _ _) Hd).
      apply (refines_ans _ (Err FileTooLarge, s)). by apply refines_fail.
    + apply refines_ans. by apply write_sim.
  - apply refines_ans. by apply append_sim.
  - unfold refines. apply wp_bind, wp_get, wp_ret. split; [|done]. simpl. unfold spec_dir.
    rewrite (find_inode_sim fs s p Hs). unfold list_dir. destruct (find_inode (root fs) p); [|done].
    unfold summary. by destruct (kind _).
  - unfold refines. apply wp_bind, wp_get, wp_ret. split; [|done]. simpl.
    rewrite (find_inode_sim fs s p Hs). unfold exists_. by destruct (find_inode (root fs) p).
  - apply refines_ans. by apply remove_sim.
Qed.

Lemma run_sim os fs s : sim fs s -> fs_ok fs -> refines (run os) (spec_run os s) fs.
Proof.
  revert fs s. induction os as [|o os IH]; intros fs s Hs Hok; simpl; [by apply refines_fail|].
  pose proof (step_sim o fs s Hs Hok) as Ho. destruct (spec_step o s) as [r s1].
  unfold refines. apply wp_bind. eapply wp_mono; [exact Ho|]. intros r' fs1 (Hr & Hs1 & Hok1).
  specialize (IH fs1 s1 Hs1 Hok1). destruct (spec_run os s1) as [rs s2].
  apply wp_bind. eapply wp_mono; [exact IH|]. intros rs' fs2 (Hrs & Hs2 & Hok2).
  apply wp_ret. simpl in *. by subst.
Qed.

Lemma new_sim : sim new spec_new /\ fs_ok new.
Proof.
  split; split; try done; [|apply tree_ok_empty]. by intros [|m q].
Qed.

(** The state after a sequence of operations, started from [FileSystem::new()]. *)
Definition reachable (fs : FileSystem) : Prop := exists os rs, run os new = Ret (rs, fs).

Lemma reachable_ok fs : reachable fs -> fs_ok fs.
Proof.
  intros (os & rs & Hr). destruct new_sim as [Hs Hok].
  pose proof (run_sim os new spec_new Hs Hok) as H. unfold refines, wp in H. rewrite Hr in H. apply H.
Qed.
