(* ===== verification/FsSpec.v ===== *)
(** * What the file system promises

    The tree of [Fs] implements the flat map of [FsSim], whatever sequence of
    operations is run; the limits the module documents hold; creating, writing,
    reading and removing are inverse to each other where they should be. Then the
    inode counter, and the cases in which the code departs from what it documents. *)

From S2P Require Import Prelude Str Fs FsInv FsSim.
From Stdlib Require Import Ascii Sorted.
Local Open Scope rust_scope.

(** C4: the file system refines a flat map from component lists to nodes: whatever
    sequence of operations is run from [FileSystem::new()], the code returns (the
    [unreachable!] arms are never reached, no counter overflows) with exactly the
    answers, errors included, of the abstract file system, and the tree it ends in
    shows at every path what the abstract map holds there. *)
Theorem fs_refines_flat_map os :
  exists rs fs, run os new = Ret (rs, fs) /\ (spec_run os spec_new).1 = rs /\
    (forall q, view (root fs) q = nodes (spec_run os spec_new).2 q) /\
    inode_count fs = count (spec_run os spec_new).2.
Proof.
  destruct new_sim as [Hs Hok]. pose proof (run_sim os new spec_new Hs Hok) as H.
  apply wp_elim in H as (rs & fs & Hr & Ha & [Hv Hc] & _). by exists rs, fs.
Qed.

(** Depth of what a tree shows. *)
Lemma deep_create s path fresh d : (forall q, d < len q -> nodes s q = None) ->
  MAX_PATH_DEPTH + 1 <= d ->
  forall q, d < len q -> nodes (spec_create fresh path s).2 q = None.
Proof.
  intros Hd H17 q Hq. unfold spec_create, spec_dir, spec_find.
  destruct (MAX_TOTAL_INODES <=? count s); [by apply Hd|].
  destruct (resolve_path path) as [[parent n]|]; [|by apply Hd].
  destruct (Z.ltb_spec MAX_PATH_DEPTH (len (split_path parent))) as [|Hl]; [by apply Hd|].
  destruct (nodes s (split_path parent)) as [[|names]|]; [by apply Hd| |by apply Hd]. simpl.
  destruct (decide _); [by apply Hd|]. destruct (_ <=? _); [by apply Hd|]. simpl. unfold upd.
  assert (forall p', len p' <= d -> q <> p') as Hne by (intros p' Hp ->; lia).
  rewrite !decide_False; [by apply Hd| |]; apply Hne; unfold len in *; rewrite ?length_app; simpl; lia.
Qed.

Lemma deep_upd s p n x d : (forall q, d < len q -> nodes s q = None) -> nodes s p = Some x ->
  forall q, d < len q -> upd (nodes s) p n q = None.
Proof.
  intros Hd Hp q Hq. unfold upd. rewrite decide_False; [by apply Hd|]. intros ->.
  by rewrite Hd in Hp.
Qed.

Lemma deep_change s path f d : (forall q, d < len q -> nodes s q = None) ->
  forall q, d < len q -> nodes (spec_change path f s).2 q = None.
Proof.
  intros Hd q Hq. unfold spec_change, spec_find. destruct (_ <? _); [by apply Hd|].
  destruct (nodes s (split_path path)) as [[buf|]|] eqn:Hp; simpl; [|by apply Hd..].
  destruct (_ <? _); [by apply Hd|]. simpl. by eapply deep_upd.
Qed.

Lemma deep_remove s path d : (forall q, d < len q -> nodes s q = None) ->
  forall q, d < len q -> nodes (spec_remove path s).2 q = None.
Proof.
  intros Hd q Hq. unfold spec_remove, spec_dir, spec_find.
  destruct (resolve_path path) as [[parent n]|]; [|by apply Hd]. destruct (_ <? _); [by apply Hd|].
  destruct (nodes s (split_path parent)) as [[|names]|] eqn:Hp; [by apply Hd| |by apply Hd]. simpl.
  destruct (decide _); [|by apply Hd]. simpl. unfold upd, cut.
  rewrite decide_False by (intros ->; by rewrite Hd in Hp). destruct (strip _ q); [done|by apply Hd].
Qed.

Lemma deep_run os s : (forall q, 17 < len q -> nodes s q = None) ->
  forall q, 17 < len q -> nodes (spec_run os s).2 q = None.
Proof.
  revert s. induction os as [|o os IH]; intros s Hd; simpl; [done|].
  destruct (spec_step o s) as [r s1] eqn:Ho. specialize (IH s1).
  destruct (spec_run os s1) as [rs s2]. apply IH. clear IH. intros q Hq.
  replace s1 with (spec_step o s).2 by by rewrite Ho.
  destruct o; simpl; try (by apply Hd); [by apply (deep_create s _ _ 17)..| | |].
  - destruct (_ <? _); [by apply Hd|]. by apply (deep_change s _ _ 17).
  - by apply (deep_change s _ _ 17).
  - by apply (deep_remove s _ 17).
Qed.

(** Every node of a reached tree is well-formed, and the counter is within its bounds. *)
Lemma reached_ok os rs fs : run os new = Ret (rs, fs) ->
  sim fs (spec_run os spec_new).2 /\ fs_ok fs.
Proof.
  intros Hr. destruct new_sim as [Hs Hok]. pose proof (run_sim os new spec_new Hs Hok) as H.
  unfold refines, wp in H. rewrite Hr in H. by destruct H as (_ & Hv & Ht).
Qed.

(** C21: the limits hold in every state the operations reach: no file
    exceeds 64 KiB, no directory has more than 128 entries, there are never more
    than 512 inodes (and [inode_count] never says fewer than there are), and nothing
    lies deeper than level 17, one below the 16 levels a path may name: the depth is
    checked on the parent's path, so the documented depth can be exceeded by one. *)
Theorem fs_limits_hold os rs fs :
  run os new = Ret (rs, fs) ->
  inodes (root fs) <= inode_count fs <= MAX_TOTAL_INODES /\
  (forall q x, walk (root fs) q = Some x -> len q <= MAX_PATH_DEPTH + 1 /\
     match kind x with
     | File data => len data <= MAX_FILE_SIZE
     | Directory kids => len kids <= MAX_DIR_CHILDREN
     end).
Proof.
  intros Hr. destruct (reached_ok os rs fs Hr) as [[Hv _] [Ht Hi]]. split; [done|]. intros q x Hw. split.
  - apply Z.nlt_ge. intros Hq. pose proof (deep_run os spec_new) as Hd.
    rewrite <- (app_nil_r q) in Hq. specialize (Hv q).
    rewrite Hd in Hv; [|by intros [|]|by rewrite app_nil_r in Hq].
    unfold view in Hv. by rewrite Hw in Hv.
  - pose proof (Ht q x Hw) as Hn. unfold node_ok in Hn. destruct (kind x); [done|]. tauto.
Qed.

(** The root stays a directory. *)
Definition rooted (s : spec) : Prop := exists names, nodes s [] = Some (NDir names).

Lemma upd_root f p n : (p = [] -> exists names, n = NDir names) -> (exists names, f [] = Some (NDir names)) ->
  exists names, upd f p n [] = Some (NDir names).
Proof. intros Hp Hf. unfold upd. case_decide as E; [|done]. destruct (Hp (eq_sym E)) as [names ->]. by exists names. Qed.

Lemma rooted_step o s : rooted s -> rooted (spec_step o s).2.
Proof.
  intros Hr. unfold rooted in *.
  assert (Hc : forall fresh p, rooted (spec_create fresh p s).2).
  { intros fresh p. unfold rooted, spec_create. repeat (case_match; try done). cbn [snd nodes].
    apply upd_root; [by destruct (split_path _)|]. apply upd_root; [by eexists|done]. }
  assert (Hg : forall p f, rooted (spec_change p f s).2).
  { intros p f. unfold rooted, spec_change, spec_find. destruct (_ <? _); [done|].
    destruct (nodes s (split_path p)) as [[buf|]|] eqn:E; try done. cbn. case_match; [done|]. cbn [snd nodes].
    apply upd_root; [|done]. intros Hp. rewrite Hp in E. destruct Hr as [? Hr]. congruence. }
  destruct o; simpl; try done; try apply Hc; [destruct (_ <? _); [done|apply Hg]|apply Hg|].
  unfold spec_remove. repeat (case_match; try done). cbn [snd nodes].
  apply upd_root; [by eexists|]. unfold cut. by destruct (split_path _).
Qed.

Lemma rooted_run os : forall s, rooted s -> rooted (spec_run os s).2.
Proof.
  induction os as [|o os IH]; intros s Hr; [done|]. cbn [spec_run]. apply (rooted_step o) in Hr.
  destruct (spec_step o s) as [r s1]. specialize (IH s1 Hr). by destruct (spec_run os s1).
Qed.

(** C22: every state the operations reach is a well-typed tree: the root is a directory;
    in every directory the entries are in strictly ascending order of their keys, as
    the ordered map promises, and each is filed under its own name, which holds no
    slash; nothing lies below a file; and the node at the end of a path has the path's
    last component as its name. *)
Theorem fs_tree_well_formed os rs fs :
  run os new = Ret (rs, fs) ->
  (exists kids, kind (root fs) = Directory kids) /\
  (forall q x, walk (root fs) q = Some x ->
     match kind x with
     | File _ => forall k r, walk (root fs) (q ++ k :: r) = None
     | Directory kids => StronglySorted str_lt (bt_keys kids) /\
         forall k, match bt_get k kids with
                   | Some c => walk (root fs) (q ++ [k]) = Some c /\ name c = k /\ slash ∉ k
                   | None => forall r, walk (root fs) (q ++ k :: r) = None
                   end
     end).
Proof.
  intros Hr. destruct (reached_ok os rs fs Hr) as [[Hv _] [Ht _]]. split.
  - destruct (rooted_run os spec_new) as [names Hn]; [by eexists|]. rewrite <- Hv in Hn. unfold view, summary in Hn.
    simpl in Hn. destruct (kind (root fs)) as [|kids]; [done|by exists kids].
  - intros q x Hw. pose proof (Ht q x Hw) as Hn. unfold node_ok, bt_sorted in Hn.
    assert (Hwa : forall k r, walk (root fs) (q ++ k :: r) = find_child x k ≫= fun c => walk c r).
    { intros k r. rewrite walk_app, Hw. cbn. by destruct (find_child x k). }
    unfold find_child in Hwa. destruct (kind x) as [d|kids] eqn:Hk; [by intros k r; rewrite Hwa|].
    split; [tauto|]. intros k. destruct (bt_get k kids) as [c|] eqn:Hc.
    + rewrite Hwa, Hc. split; [done|]. by apply Hn.
    + intros r. by rewrite Hwa, Hc.
Qed.

Lemma fs_limits_witness : exists rs fs,
  run [CreateDir (lit "/a"); CreateFile (lit "/a/b.txt"); WriteFile (lit "a//b.txt") [104; 105]] new = Ret (rs, fs) /\
  inodes (root fs) <= 3 <= MAX_TOTAL_INODES.
Proof.
  destruct (run [CreateDir (lit "/a"); CreateFile (lit "/a/b.txt"); WriteFile (lit "a//b.txt") [104; 105]] new)
    as [[rs fs]|] eqn:Hr; [|by vm_compute in Hr].
  exists rs, fs. split; [done|]. pose proof (fs_limits_hold _ _ _ Hr) as [H _].
  assert (inode_count fs = 3) as <- by (vm_compute in Hr; by injection Hr as _ <-). exact H.
Defined.

Lemma fs_tree_witness : exists rs fs,
  run [CreateDir (lit "/a"); CreateFile (lit "/a/b.txt"); WriteFile (lit "a//b.txt") [104; 105]] new = Ret (rs, fs) /\
  forall k r, walk (root fs) ([lit "a"; lit "b.txt"] ++ k :: r) = None.
Proof.
  destruct (run [CreateDir (lit "/a"); CreateFile (lit "/a/b.txt"); WriteFile (lit "a//b.txt") [104; 105]] new)
    as [[rs fs]|] eqn:Hr; [|by vm_compute in Hr].
  exists rs, fs. split; [done|]. destruct (fs_tree_well_formed _ _ _ Hr) as [_ H].
  assert (Hw : exists x d, walk (root fs) [lit "a"; lit "b.txt"] = Some x /\ kind x = File d).
  { vm_compute in Hr. injection Hr as _ <-. do 2 eexists. split; vm_compute; reflexivity. }
  destruct Hw as (x & d & Hw & Hk). specialize (H _ x Hw). rewrite Hk in H. exact H.
Defined.

(** ** Round trips *)

(** The abstract state a concrete one shows. *)
Definition spec_of (fs : FileSystem) : spec := mkSpec (view (root fs)) (inode_count fs).

Lemma spec_of_sim fs : sim fs (spec_of fs).
Proof. done. Qed.

Lemma read_file_spec fs s p : sim fs s ->
  read_file fs p = let? n := spec_find s p in
                   match n with NFile d => Ok d | NDir _ => Err NotAFile end.
Proof.
  intros Hs. rewrite (find_inode_sim fs s p Hs). unfold read_file.
  destruct (find_inode (root fs) p); [|done]. unfold summary, read. by destruct (kind _).
Qed.

Lemma list_dir_spec fs s p : sim fs s -> list_dir fs p = spec_dir s p.
Proof.
  intros Hs. unfold spec_dir. rewrite (find_inode_sim fs s p Hs). unfold list_dir.
  destruct (find_inode (root fs) p); [|done]. unfold summary. by destruct (kind _).
Qed.

Lemma refines_ret {A} (c : M FileSystem A) a fs r fs' :
  refines c a fs -> c fs = Ret (r, fs') -> a.1 = r /\ sim fs' a.2 /\ fs_ok fs'.
Proof. intros H Hc. unfold refines, wp in H. by rewrite Hc in H. Qed.

Lemma find_upd s p n c q : split_path q <> p -> spec_find (mkSpec (upd (nodes s) p n) c) q = spec_find s q.
Proof. intros Hq. unfold spec_find, upd. simpl. by rewrite decide_False. Qed.

Lemma write_read fs fs' p d :
  reachable fs -> write_file p d fs = Ret (Ok tt, fs') ->
  (forall p', split_path p' = split_path p -> read_file fs' p' = Ok d) /\
  (forall q, split_path q <> split_path p -> read_file fs' q = read_file fs q) /\
  (forall q, list_dir fs' q = list_dir fs q).
Proof.
  intros Hok%reachable_ok Hw.
  assert (len d <= MAX_FILE_SIZE) as Hd.
  { unfold write_file in Hw. destruct (Z.ltb_spec MAX_FILE_SIZE (len d)); [done|lia]. }
  destruct (refines_ret _ _ _ _ _ (write_sim p d fs (spec_of fs) (spec_of_sim fs) Hok Hd) Hw) as (Hr & Hs & _).
  unfold spec_change in *. destruct (spec_find (spec_of fs) p) as [[buf|]|e] eqn:Hp; [|done|done].
  rewrite (proj2 (Z.ltb_ge _ _) Hd) in *. simpl in Hs.
  pose proof Hp as Hp'. unfold spec_find in Hp'. destruct (_ <? _) eqn:Hlen in Hp'; [done|]. split; [|split].
  - intros p' He. rewrite (read_file_spec fs' _ p' Hs). unfold spec_find, upd. simpl.
    rewrite He, Hlen. by rewrite decide_True.
  - intros q Hq. rewrite (read_file_spec fs' _ q Hs), (read_file_spec fs _ q (spec_of_sim fs)).
    by rewrite (find_upd (spec_of fs)).
  - intros q. rewrite (list_dir_spec fs' _ q Hs), (list_dir_spec fs _ q (spec_of_sim fs)). unfold spec_dir.
    destruct (decide (split_path q = split_path p)) as [He|Hq]; [|by rewrite (find_upd (spec_of fs))].
    unfold spec_find in *. rewrite He in *. destruct (_ <? _); [done|]. unfold upd. simpl in *.
    rewrite decide_True by done. by destruct (view _ _) as [[]|].
Qed.

(** C31: a file reads back what was written: after [write_file] succeeds, [read_file]
    of the same path, however it is spelt, returns exactly the data; every other
    path reads as before, and no directory listing changes. *)
Theorem fs_write_read_roundtrip fs fs' p d :
  reachable fs -> write_file p d fs = Ret (Ok tt, fs') ->
  (forall p', split_path p' = split_path p -> read_file fs' p' = Ok d) /\
  (forall q, split_path q <> split_path p -> read_file fs' q = read_file fs q) /\
  (forall q, list_dir fs' q = list_dir fs q).
Proof. apply write_read. Qed.

(** A state with two files, for the examples below. *)
Definition demo_fs : FileSystem :=
  match run [CreateDir (lit "/a"); CreateFile (lit "/a/x"); CreateFile (lit "/a/y")] new with
  | Ret (_, fs) => fs
  | Crash _ => new
  end.

Lemma demo_reachable : reachable demo_fs.
Proof.
  exists [CreateDir (lit "/a"); CreateFile (lit "/a/x"); CreateFile (lit "/a/y")], [Ok Done; Ok Done; Ok Done].
  vm_compute. reflexivity.
Defined.

Lemma fs_write_read_witness : exists fs',
  write_file (lit "/a/x") [1; 2; 3] demo_fs = Ret (Ok tt, fs') /\
  read_file fs' (lit "//a//x/") = Ok [1; 2; 3] /\ read_file fs' (lit "/a/y") = read_file demo_fs (lit "/a/y").
Proof.
  destruct (write_file (lit "/a/x") [1; 2; 3] demo_fs) as [[[[]|e] fs']|] eqn:Hw; [|by vm_compute in Hw..].
  exists fs'. split; [done|].
  destruct (fs_write_read_roundtrip demo_fs fs' (lit "/a/x") [1; 2; 3] demo_reachable Hw) as (H1 & H2 & _).
  split; [apply H1; vm_compute; reflexivity|apply H2; vm_compute; discriminate].
Defined.

(** What a successful creation did. *)
Lemma create_with_ok mk path fs fs' :
  create_with mk path fs = Ret (Ok tt, fs') ->
  exists parent n dir kids put,
    resolve_path path = Ok (parent, n) /\ find_dir_mut (root fs) parent = Ok (dir, put) /\
    kind dir = Directory kids /\ bt_get n kids = None /\
    fs' = mkFs (put (set_kind dir (Directory (bt_insert n (mk n) kids)))) (inode_count fs + 1).
Proof.
  unfold create_with, mbind, M_bind, get. destruct (_ <=? _); [done|].
  destruct (resolve_path path) as [[parent n]|]; [|done].
  destruct (find_dir_mut (root fs) parent) as [[dir put]|] eqn:Hd; [|done].
  case_bool_decide as Hf; [done|]. destruct (_ <=? _); [done|].
  unfold add_child, find_child in *. destruct (kind dir) as [|kids] eqn:Hk; [done|].
  unfold mbind, M_bind, get, lift, chk_add. destruct (_ <=? _); [|done]. intros [= <-].
  exists parent, n, dir, kids, put. split_and!; try done. destruct (bt_get n kids); [|done].
  by destruct Hf.
Qed.

Lemma find_dir_mut_walk fs path dir put : find_dir_mut (root fs) path = Ok (dir, put) ->
  walk (root fs) (split_path path) = Some dir /\ (len (split_path path) <= MAX_PATH_DEPTH) /\
  forall t, put t = put_at (root fs) (split_path path) t.
Proof.
  unfold find_dir_mut, find_inode_mut. destruct (Z.ltb_spec MAX_PATH_DEPTH (len (split_path path))); [done|].
  destruct (walk (root fs) (split_path path)) as [t|] eqn:Hw; [|by rewrite (descend_mut_none _ _ Hw)].
  destruct (descend_mut_some _ _ _ Hw) as (put' & -> & Hp). destruct (kind t); [done|].
  intros [= -> ->]. done.
Qed.

Lemma create_remove mk path fs fs1 :
  0 <= inode_count fs -> create_with mk path fs = Ret (Ok tt, fs1) ->
  remove path fs1 = Ret (Ok tt, fs).
Proof.
  intros Hc Hcr. destruct (create_with_ok mk path fs fs1 Hcr) as
    (parent & n & dir & kids & put & Hr & Hd & Hk & Hn & ->).
  destruct (find_dir_mut_walk _ _ _ _ Hd) as (Hw & Hl & Hput). unfold remove. rewrite Hr.
  unfold mbind, M_bind, get. unfold find_dir_mut, find_inode_mut. rewrite (proj2 (Z.ltb_ge _ _) Hl).
  cbn [root inode_count]. rewrite Hput.
  set (dir' := set_kind dir (Directory (bt_insert n (mk n) kids))).
  pose proof (walk_put_here _ _ _ dir' Hw) as Hw'.
  destruct (descend_mut_some _ _ _ Hw') as (put' & -> & Hput'). simpl.
  unfold through, remove_child. simpl. rewrite bt_get_insert, bt_remove_insert by done. simpl.
  rewrite Hput', (put_put _ _ dir) by done.
  replace (set_kind dir' (Directory kids)) with dir by (destruct dir; simpl in *; by subst).
  rewrite put_same by done. unfold saturating_sub. rewrite Z.add_simpl_r, Z.max_r by lia. by destruct fs.
Qed.

(** C32: removing what was just created gives back exactly the file system there was
    before: same tree, same order of entries, same [inode_count]. *)
Theorem fs_create_remove_roundtrip fs fs1 path :
  reachable fs ->
  create_file path fs = Ret (Ok tt, fs1) \/ create_dir path fs = Ret (Ok tt, fs1) ->
  remove path fs1 = Ret (Ok tt, fs).
Proof.
  intros [_ [Hi _]]%reachable_ok Hcr. pose proof (inodes_pos (root fs)).
  destruct Hcr as [Hcr|Hcr]; [apply (create_remove new_file)|apply (create_remove new_directory)]; lia || done.
Qed.

Lemma fs_create_remove_witness : exists fs1,
  create_file (lit "/a/w") demo_fs = Ret (Ok tt, fs1) /\ remove (lit "/a/w") fs1 = Ret (Ok tt, demo_fs).
Proof.
  destruct (create_file (lit "/a/w") demo_fs) as [[[[]|e] fs1]|] eqn:Hc; [|by vm_compute in Hc..].
  exists fs1. split; [done|]. apply (fs_create_remove_roundtrip demo_fs fs1 (lit "/a/w") demo_reachable).
  left. exact Hc.
Defined.

Lemma create_shown mk fresh fs fs1 path :
  fs_ok fs -> split_path path <> [] -> len (split_path path) <= MAX_PATH_DEPTH ->
  (forall n, name (mk n) = n /\ tree_ok (mk n) /\ inodes (mk n) = 1 /\
     summary (mk n) = fresh /\ forall m q, view (mk n) (m :: q) = None) ->
  create_with mk path fs = Ret (Ok tt, fs1) ->
  exists s1, sim fs1 s1 /\ spec_find s1 path = Ok fresh /\
    forall q, split_path q <> split_path path -> read_file fs1 q = read_file fs q.
Proof.
  intros Hok Hne Hlen Hmk Hc.
  destruct (refines_ret _ _ _ _ _ (create_sim mk fresh path fs _ (spec_of_sim fs) Hok Hmk) Hc) as (Hr & Hs & _).
  unfold spec_create in *. destruct (_ <=? _); [done|].
  destruct (resolve_path path) as [[parent n]|] eqn:Hres; [|done].
  destruct (resolve_split _ _ _ Hres) as [_ Hsp].
  destruct (spec_dir (spec_of fs) parent) as [names|] eqn:Hdir; [|done].
  destruct (decide _); [done|]. destruct (_ <=? _); [done|]. simpl in Hs.
  eexists. split; [exact Hs|]. destruct n as [|x n]; [done|]. rewrite <- Hsp in *. split.
  - unfold spec_find. rewrite (proj2 (Z.ltb_ge _ _) Hlen). unfold upd. simpl. by rewrite decide_True.
  - intros q Hq. rewrite (read_file_spec fs1 _ q Hs), (read_file_spec fs _ q (spec_of_sim fs)).
    unfold spec_dir, spec_find in *. unfold upd. simpl in *. rewrite (decide_False (P := split_path q = _)) by done.
    destruct (_ <? len (split_path q)); [done|]. case_decide as He; [|done]. rewrite He.
    destruct (_ <? _); [done|]. by destruct (view _ _) as [[]|].
Qed.

(** What is created is there: after [create_file] succeeds on a path that names
    something within 16 levels, reading it gives an empty file; after [create_dir],
    listing it gives an empty directory; and every other path still reads as before. *)
Theorem fs_create_visible fs fs1 path :
  reachable fs -> split_path path <> [] -> len (split_path path) <= MAX_PATH_DEPTH ->
  (create_file path fs = Ret (Ok tt, fs1) -> read_file fs1 path = Ok [] /\
     forall q, split_path q <> split_path path -> read_file fs1 q = read_file fs q) /\
  (create_dir path fs = Ret (Ok tt, fs1) -> list_dir fs1 path = Ok [] /\
     forall q, split_path q <> split_path path -> read_file fs1 q = read_file fs q).
Proof.
  intros Hok%reachable_ok Hne Hlen. split; intros Hc.
  - destruct (create_shown new_file (NFile []) fs fs1 path Hok Hne Hlen new_file_ok Hc) as (s1 & Hs & Hf & Hq).
    split; [|done]. by rewrite (read_file_spec fs1 s1 path Hs), Hf.
  - destruct (create_shown new_directory (NDir []) fs fs1 path Hok Hne Hlen new_directory_ok Hc)
      as (s1 & Hs & Hf & Hq).
    split; [|done]. rewrite (list_dir_spec fs1 s1 path Hs). unfold spec_dir. by rewrite Hf.
Qed.

Lemma fs_create_visible_witness : exists fs1,
  create_dir (lit "/a/sub/") demo_fs = Ret (Ok tt, fs1) /\ list_dir fs1 (lit "/a/sub/") = Ok [].
Proof.
  destruct (create_dir (lit "/a/sub/") demo_fs) as [[[[]|e] fs1]|] eqn:Hc; [|by vm_compute in Hc..].
  exists fs1. split; [done|].
  apply (fs_create_visible demo_fs fs1 (lit "/a/sub/") demo_reachable); [vm_compute; discriminate| |exact Hc].
  vm_compute. discriminate.
Defined.

(** ** The inode counter *)

(** How far [inode_count] is above the number of inodes there are. *)
Definition drift (fs : FileSystem) : Z := inode_count fs - inodes (root fs).

Lemma create_drift mk path fs r fs' :
  (forall n, inodes (mk n) = 1) -> create_with mk path fs = Ret (r, fs') -> drift fs' = drift fs.
Proof.
  intros Hmk Hc. destruct r as [[]|e].
  - destruct (create_with_ok mk path fs fs' Hc) as (parent & n & dir & kids & put & _ & Hd & Hk & Hn & ->).
    destruct (find_dir_mut_walk _ _ _ _ Hd) as (Hw & _ & Hput). unfold drift. simpl.
    rewrite Hput, (inodes_put _ _ dir), (inodes_eq (set_kind _ _)), (inodes_eq dir), Hk by done. simpl.
    rewrite total_insert, Hmk by done. lia.
  - revert Hc. unfold create_with, mbind, M_bind, get. destruct (_ <=? _); [by intros [= _ ->]|].
    destruct (resolve_path path) as [[parent n]|]; [|by intros [= _ ->]].
    destruct (find_dir_mut (root fs) parent) as [[dir put]|]; [|by intros [= _ ->]].
    case_bool_decide; [by intros [= _ ->]|]. destruct (_ <=? _); [by intros [= _ ->]|].
    unfold add_child. destruct (kind dir); [done|].
    unfold mbind, M_bind, get, lift. by destruct (inode_count fs +? 1).
Qed.

Lemma through_file_drift {A} fs path i put (m : M Inode A) r fs' :
  find_inode_mut (root fs) path = Ok (i, put) ->
  (forall a i', m i = Ret (a, i') -> inodes i' = inodes i) ->
  through put i m fs = Ret (r, fs') -> drift fs' = drift fs.
Proof.
  intros Hf Hm. pose proof (find_inode_mut_spec fs path) as Hs.
  destruct (find_inode (root fs) path) as [i0|]; [|by rewrite Hf in Hs].
  destruct Hs as (Hw & put0 & He & Hput). rewrite Hf in He. injection He as <- <-.
  unfold through. destruct (m i) as [[a i']|] eqn:Hi; [|done]. intros [= _ <-]. unfold drift. simpl.
  rewrite Hput, (inodes_put _ _ i), (Hm a i' eq_refl) by done. lia.
Qed.

Lemma write_drift p d fs r fs' : write_file p d fs = Ret (r, fs') -> drift fs' = drift fs.
Proof.
  unfold write_file. destruct (_ <? _); [by intros [= _ ->]|]. unfold mbind, M_bind, get.
  destruct (find_inode_mut (root fs) p) as [[i put]|] eqn:Hf; [|by intros [= _ ->]].
  apply (through_file_drift fs p); [done|]. intros a i'. unfold write. rewrite (inodes_eq i).
  by destruct (kind i) eqn:Hk; intros [= _ <-]; rewrite inodes_eq, ?Hk.
Qed.

Lemma append_drift p d fs r fs' : append_file p d fs = Ret (r, fs') -> drift fs' = drift fs.
Proof.
  unfold append_file, mbind, M_bind, get.
  destruct (find_inode_mut (root fs) p) as [[i put]|] eqn:Hf; [|by intros [= _ ->]].
  destruct (kind i) eqn:Hk; [|by intros [= _ ->]]. destruct (_ <? _); [by intros [= _ ->]|].
  apply (through_file_drift fs p); [done|]. intros a i'. unfold append. rewrite (inodes_eq i), Hk.
  by intros [= _ <-]; rewrite inodes_eq.
Qed.

(** The inodes that [remove] of a path takes out of the tree. *)
Definition removed_inodes (fs : FileSystem) (path : str) : Z :=
  match resolve_path path with
  | Ok (parent, n) =>
      match walk (root fs) (split_path parent ++ [n]) with Some c => inodes c | None => 1 end
  | Err _ => 1
  end.

Lemma remove_drift p fs r fs' : fs_ok fs -> remove p fs = Ret (r, fs') ->
  drift fs' = drift fs + (if r is Ok _ then removed_inodes fs p - 1 else 0).
Proof.
  intros [_ Hi]. unfold remove, removed_inodes.
  destruct (resolve_path p) as [[parent n]|]; [|intros [= <- <-]; lia]. unfold mbind, M_bind, get.
  destruct (find_dir_mut (root fs) parent) as [[dir put]|] eqn:Hd; [|intros [= <- <-]; lia].
  destruct (find_dir_mut_walk _ _ _ _ Hd) as (Hw & _ & Hput).
  unfold through, remove_child. rewrite walk_app, Hw. simpl. unfold find_child.
  destruct (kind dir) as [|kids] eqn:Hk; [|destruct (bt_get n kids) as [c|] eqn:Hg];
    intros [= <- <-]; unfold drift; simpl; rewrite Hput, (inodes_put _ _ dir) by done; [lia| |lia].
  rewrite (inodes_eq (set_kind _ _)), (inodes_eq dir), Hk. simpl. rewrite (total_remove n c) by done.
  pose proof (inodes_pos (root fs)). unfold saturating_sub. lia.
Qed.

(** [inode_count] is exact but for one leak: an operation changes the difference
    between [inode_count] and the number of inodes in the tree only if it is a
    successful [remove], and then by the number of inodes below the one removed; so
    as long as only files and empty directories are removed the counter counts. *)
Theorem fs_inode_count_drift fs o r fs' :
  reachable fs -> step o fs = Ret (r, fs') ->
  drift fs' = drift fs +
    match o, r with Remove p, Ok _ => removed_inodes fs p - 1 | _, _ => 0 end.
Proof.
  intros Hok%reachable_ok. unfold step, mbind, M_bind, get.
  destruct o as [p|p|p|p d|p d|p|p|p]; try (intros [= _ <-]; lia).
  - destruct (create_file p fs) as [[r0 fs0]|] eqn:Hc; [|done]. intros [= _ <-].
    rewrite (create_drift new_file p fs r0 fs0); [lia|done|done].
  - destruct (create_dir p fs) as [[r0 fs0]|] eqn:Hc; [|done]. intros [= _ <-].
    rewrite (create_drift new_directory p fs r0 fs0); [lia|done|done].
  - destruct (write_file p d fs) as [[r0 fs0]|] eqn:Hc; [|done]. intros [= _ <-].
    rewrite (write_drift _ _ _ _ _ Hc). lia.
  - destruct (append_file p d fs) as [[r0 fs0]|] eqn:Hc; [|done]. intros [= _ <-].
    rewrite (append_drift _ _ _ _ _ Hc). lia.
  - destruct (remove p fs) as [[r0 fs0]|] eqn:Hc; [|done]. intros [= <- <-].
    rewrite (remove_drift p fs r0 fs0 Hok Hc). by destruct r0.
Qed.

Lemma fs_inode_count_witness : exists fs',
  step (Remove (lit "/a")) demo_fs = Ret (Ok Done, fs') /\ drift fs' = 2.
Proof.
  destruct (step (Remove (lit "/a")) demo_fs) as [[[[| | |]|] fs']|] eqn:Hc; try by vm_compute in Hc.
  exists fs'. split; [done|].
  rewrite (fs_inode_count_drift demo_fs (Remove (lit "/a")) _ fs' demo_reachable Hc). vm_compute. reflexivity.
Defined.

(** ** Departures from the documentation *)

(** One round of creating a directory with a file in it and removing the directory. *)
Definition churn : list op := [CreateDir (lit "/d"); CreateFile (lit "/d/f"); Remove (lit "/d")].

(** the leak exhausts the file system: after 510 such rounds, each of which
    succeeds and leaves nothing behind, only the root exists, yet a second
    [create_file] is refused with [TooManyInodes]. *)
Theorem fs_remove_leaks_inodes :
  exists rs fs, run (mjoin (replicate 510 churn)) new = Ret (rs, fs) /\
    Forall (fun r => r = Ok Done) rs /\ inodes (root fs) = 1 /\ inode_count fs = 511 /\
    exists fs', run [CreateFile (lit "/a"); CreateFile (lit "/b")] fs =
      Ret ([Ok Done; Err TooManyInodes], fs').
Proof.
  exists (replicate 1530 (Ok Done)), (mkFs (new_directory (lit "/")) 511).
  split; [by vm_compute|]. split; [by apply Forall_replicate|]. split; [done|]. split; [done|].
  eexists. vm_compute. reflexivity.
Qed.

(** Sixteen directories one inside the other. *)
Definition deep_dir (n : nat) : str := mjoin (replicate n (lit "/d")).

(** A file can be created on level 17, where no operation but [remove] finds it. *)
Theorem fs_level_17_unreadable :
  exists fs, run (map (fun n => CreateDir (deep_dir n)) (seq 1 17)) new = Ret (replicate 17 (Ok Done), fs) /\
    list_dir fs (deep_dir 16) = Ok [lit "d"] /\ list_dir fs (deep_dir 17) = Err PathTooDeep.
Proof. eexists. split; [vm_compute; reflexivity|]. by vm_compute. Qed.

(** A path of slashes only creates an entry with the empty name, which no path but
    another path of slashes reaches. *)
Theorem fs_slashes_create_nameless :
  exists fs, run [CreateFile (lit "//")] new = Ret ([Ok Done], fs) /\
    list_dir fs (lit "/") = Ok [[]] /\ read_file fs (lit "//") = Err NotAFile.
Proof. eexists. split; [vm_compute; reflexivity|]. by vm_compute. Qed.
