(* ===== verification/Task.v ===== *)
(** * Tasks, wakers and the keyboard

    The executor ([task/executor.rs], [task/mod.rs]), the waker cell
    ([async_utils.rs]) and the scancode stream ([task/keyboard.rs]) with the
    interrupt handler that feeds it. The queue and the waker cell do their work
    inside [without_interrupts]: each of their operations is one atomic action, and
    the keyboard interrupt may come between any two of them. The model therefore
    has both the functions of the code, whole, and the executor as a machine that
    takes one atomic action at a time ([main_step]), on which interrupts
    interleave ([step]). *)

From S2P Require Import Prelude Monitor Queue.
Import ArrayQueue OnceCell.

Definition MAX_TASKS : Z := 100.
Definition MAX_SCANCODES : Z := 100.

(** A [Waker] made by [create_waker]: the task to put on the task queue. *)
Record TaskWaker := mkWaker { wtask : Z }.

Definition create_waker (task_id : Z) : TaskWaker := mkWaker task_id.

(** A task; its future is in [futures] below, under the task's identifier. *)
Record Task := mkTask {
  id : Z;
  waker : option TaskWaker
}.

Inductive Poll (A : Type) := Ready (a : A) | Pending.
Arguments Ready {A}.
Arguments Pending {A}.

(** The executor with the statics it shares with the interrupt handlers:
    [NEXT_ID], [WAKER], [SCANCODE_QUEUE], the metrics and the lines printed; [E]
    holds the states of the futures. *)
Record sys (E : Type) := mkSys {
  next_id : Z;
  tasks : gmap Z Task;
  task_queue : ArrayQueue Z;
  WAKER : option TaskWaker;
  SCANCODE_QUEUE : OnceCell (ArrayQueue Z);
  metrics : MonitorData;
  console : list string;
  futures : E
}.
Arguments mkSys {E}.
Arguments next_id {E}.
Arguments tasks {E}.
Arguments task_queue {E}.
Arguments WAKER {E}.
Arguments SCANCODE_QUEUE {E}.
Arguments metrics {E}.
Arguments console {E}.
Arguments futures {E}.

Section code.
Context {E : Type}.
Implicit Types (w : sys E).

Definition set_next n w := mkSys n (tasks w) (task_queue w) (WAKER w) (SCANCODE_QUEUE w) (metrics w) (console w) (futures w).
Definition set_tasks t w := mkSys (next_id w) t (task_queue w) (WAKER w) (SCANCODE_QUEUE w) (metrics w) (console w) (futures w).
Definition set_queue q w := mkSys (next_id w) (tasks w) q (WAKER w) (SCANCODE_QUEUE w) (metrics w) (console w) (futures w).
Definition set_waker o w := mkSys (next_id w) (tasks w) (task_queue w) o (SCANCODE_QUEUE w) (metrics w) (console w) (futures w).
Definition set_cell c w := mkSys (next_id w) (tasks w) (task_queue w) (WAKER w) c (metrics w) (console w) (futures w).
Definition set_metrics m w := mkSys (next_id w) (tasks w) (task_queue w) (WAKER w) (SCANCODE_QUEUE w) m (console w) (futures w).
Definition print_line s w := mkSys (next_id w) (tasks w) (task_queue w) (WAKER w) (SCANCODE_QUEUE w) (metrics w) (console w ++ [s]) (futures w).
Definition set_futures (f : E) w := mkSys (next_id w) (tasks w) (task_queue w) (WAKER w) (SCANCODE_QUEUE w) (metrics w) (console w) f.

(** An operation of the task queue. *)
Definition on_queue {A} (c : M (ArrayQueue Z) A) : M (sys E) A := fun w =>
  match c (task_queue w) with
  | Ret (a, q) => Ret (a, set_queue q w)
  | Crash f => Crash f
  end.

(** An operation of the scancode queue behind the reference [try_get] gave. *)
Definition on_scancodes {A} (c : M (ArrayQueue Z) A) (q : ArrayQueue Z) : M (sys E) A := fun w =>
  match c q with
  | Ret (a, q') => Ret (a, set_cell (mkCell true (Some q')) w)
  | Crash f => Crash f
  end.

(** ** [task/mod.rs] *)

(** [TaskId::new()] *)
Definition TaskId_new : M (sys E) Z :=
  w ← get;
  _ ← modify (set_next (fetch_add (next_id w) 1));
  mret (next_id w).

(** [Task::new(future)] *)
Definition Task_new : M (sys E) Task :=
  i ← TaskId_new;
  mret (mkTask i None).

(** ** [task/executor.rs] *)

(** [TaskWaker::wake_task] *)
Definition wake_task (k : TaskWaker) : M (sys E) unit :=
  r ← on_queue (push (wtask k));
  match r with
  | Ok _ => mret tt
  | Err _ => modify (fun w => set_metrics (inc_dropped_wake (metrics w)) w)
  end.

(** [AtomicWaker::new()] *)
Definition AtomicWaker_new : option TaskWaker := None.

(** [Executor::new()], with the statics as they are at that moment. *)
Definition new (e : E) (n : Z) (m : MonitorData) : outcome (sys E) :=
  q ← ArrayQueue.new MAX_TASKS;
  Ret (mkSys n ∅ q AtomicWaker_new uninit m [] e).

Definition spawn (task : Task) : M (sys E) unit :=
  let task := mkTask (id task) (Some (create_waker (id task))) in
  w ← get;
  _ ← modify (set_tasks (<[id task := task]> (tasks w)));
  _ ← guard_or (bool_decide (tasks w !! id task = None)) (Panic "task with same ID already in tasks");
  r ← on_queue (push (id task));
  _ ← guard_or (if r is Ok _ then true else false) (Panic "queue full");
  modify (fun w => set_metrics (inc_task_spawned (metrics w)) w).

(** [tasks.remove(&task_id); monitor::inc_task_completed()] *)
Definition complete (i : Z) : M (sys E) unit :=
  _ ← modify (fun w => set_tasks (delete i (tasks w)) w);
  modify (fun w => set_metrics (inc_task_completed (metrics w)) w).

(** The loop of [run_ready_tasks]; [poll] polls the future of a task. *)
Fixpoint run_ready_tasks (poll : Z -> TaskWaker -> M (sys E) (Poll unit)) (fuel : nat) : M (sys E) unit :=
  match fuel with
  | O => crash OutOfFuel
  | S fuel' =>
      r ← on_queue pop;
      match r with
      | Err _ => mret tt
      | Ok i =>
          w ← get;
          match tasks w !! i with
          | None => run_ready_tasks poll fuel'
          | Some task =>
              k ← lift (expect (waker task) "called `Option::unwrap()` on a `None` value");
              p ← poll i k;
              match p with
              | Ready _ => _ ← complete i; run_ready_tasks poll fuel'
              | Pending => run_ready_tasks poll fuel'
              end
          end
      end
  end.

(** ** [async_utils.rs]: the waker cell *)

Definition register (k : TaskWaker) : M (sys E) unit := modify (set_waker (Some k)).

Definition take : M (sys E) (option TaskWaker) :=
  w ← get;
  _ ← modify (set_waker None);
  mret (WAKER w).

Definition wake : M (sys E) unit :=
  o ← take;
  match o with Some k => wake_task k | None => mret tt end.

(** ** [task/keyboard.rs] *)

Definition add_scancode (scancode : Z) : M (sys E) unit :=
  w ← get;
  r ← lift (try_get (SCANCODE_QUEUE w));
  match r with
  | Ok queue =>
      p ← on_scancodes (push scancode) queue;
      match p with
      | Err _ => modify (print_line "WARNING: scancode queue full; dropping keyboard input")
      | Ok _ => wake
      end
  | Err _ => modify (print_line "WARNING: scancode queue uninitialized")
  end.

(** [ScancodeStream::new()] *)
Definition ScancodeStream_new : M (sys E) unit := fun w =>
  match try_init_once (fun _ => ArrayQueue.new MAX_SCANCODES) (SCANCODE_QUEUE w) with
  | Ret (Ok _, c) => Ret (tt, set_cell c w)
  | Ret (Err _, _) => Crash (Panic "ScancodeStream::new should only be called once")
  | Crash f => Crash f
  end.

(** [SCANCODE_QUEUE.try_get().expect(..)], then [pop]. *)
Definition pop_scancode : M (sys E) (result Z PopError) :=
  w ← get;
  r ← lift (try_get (SCANCODE_QUEUE w));
  match r with
  | Ok queue => on_scancodes pop queue
  | Err _ => crash (Panic "scancode queue not initialized")
  end.

Definition poll_next (cx : TaskWaker) : M (sys E) (Poll (option Z)) :=
  r ← pop_scancode;
  match r with
  | Ok scancode => mret (Ready (Some scancode))
  | Err _ =>
      _ ← register cx;
      r ← pop_scancode;
      match r with
      | Ok scancode => _ ← take; mret (Ready (Some scancode))
      | Err _ => mret Pending
      end
  end.

(** [keyboard_interrupt_handler] of [interrupts.rs] up to the end-of-interrupt. *)
Definition keyboard_interrupt_handler (scancode : Z) : M (sys E) unit :=
  _ ← modify (fun w => set_metrics (inc_interrupt 33 (metrics w)) w);
  add_scancode scancode.
End code.

(** ** The executor, one atomic action at a time

    One task, [kb], awaits scancodes in a loop, as [shell_task] and
    [print_keypresses] do: it creates the stream when first polled, then handles
    each scancode it gets. The others are arbitrary futures that know no waker
    but their own, and wake it at most once in a poll. *)

Record keyboard := mkKeyboard {
  started : bool;
  handled : list Z
}.

Notation world := (sys keyboard).

(** Where the executor is. The interrupt flag is off in [Checking] only. *)
Inductive pc :=
  | Popping                                  (* [task_queue.pop()] *)
  | PollOther (i : Z) (cx : TaskWaker)       (* the poll of another task *)
  | Creating (cx : TaskWaker)                (* [ScancodeStream::new()] *)
  | FastPath (cx : TaskWaker)                (* the first [queue.pop()] *)
  | Registering (cx : TaskWaker)             (* [WAKER.register] *)
  | SecondPop (cx : TaskWaker)               (* the second [queue.pop()] *)
  | Taking (cx : TaskWaker) (scancode : Z)   (* [WAKER.take()] *)
  | Handling (cx : TaskWaker) (scancode : Z) (* the body of the task's loop *)
  | GoingIdle                                (* [interrupts::disable()] *)
  | Checking                                 (* [task_queue.is_empty()] *)
  | Halted.                                  (* [enable_and_hlt()] *)

(** What another task's poll does. *)
Inductive choice := Finish | Suspend | Yield.

Section machine.
Variable kb : Z.

Definition main_step (c : choice) (p : pc) : M world pc :=
  match p with
  | Popping =>
      r ← on_queue pop;
      match r with
      | Err _ => mret GoingIdle
      | Ok i =>
          w ← get;
          match tasks w !! i with
          | None => mret Popping
          | Some task =>
              k ← lift (expect (waker task) "called `Option::unwrap()` on a `None` value");
              mret (if i =? kb then if started (futures w) then FastPath k else Creating k
                    else PollOther i k)
          end
      end
  | PollOther i cx =>
      match c with
      | Finish => _ ← complete i; mret Popping
      | Suspend => mret Popping
      | Yield => _ ← wake_task cx; mret Popping
      end
  | Creating cx =>
      _ ← ScancodeStream_new;
      _ ← modify (fun w => set_futures (mkKeyboard true (handled (futures w))) w);
      mret (FastPath cx)
  | FastPath cx =>
      r ← pop_scancode;
      mret (match r with Ok scancode => Handling cx scancode | Err _ => Registering cx end)
  | Registering cx => _ ← register cx; mret (SecondPop cx)
  | SecondPop cx =>
      r ← pop_scancode;
      mret (match r with Ok scancode => Taking cx scancode | Err _ => Popping end)
  | Taking cx scancode => _ ← take; mret (Handling cx scancode)
  | Handling cx scancode =>
      _ ← modify (fun w => set_futures (mkKeyboard (started (futures w)) (handled (futures w) ++ [scancode])) w);
      mret (FastPath cx)
  | GoingIdle => mret Checking
  | Checking => w ← get; mret (if is_empty (task_queue w) then Halted else Popping)
  | Halted => mret Popping
  end.

(** An interrupt ends a [hlt]. *)
Definition after_irq (p : pc) : pc := match p with Halted => Popping | _ => p end.

Inductive label := LMain (c : choice) | LKey (scancode : Z).

(** [LMain] on [Halted] is an interrupt other than the keyboard's. *)
Inductive step : pc * world -> label -> pc * world -> Prop :=
  | step_main c p w p' w' : main_step c p w = Ret (p', w') -> step (p, w) (LMain c) (p', w')
  | step_key s p w w' : p <> Checking ->
      keyboard_interrupt_handler s w = Ret (tt, w') -> step (p, w) (LKey s) (after_irq p, w').

(** Without interrupts in between, the steps of a poll are [poll_next]. *)
Fixpoint poll_steps (fuel : nat) (p : pc) : M world (Poll (option Z)) :=
  match fuel with
  | O => crash OutOfFuel
  | S n =>
      match p with
      | Handling _ s => mret (Ready (Some s))
      | Popping => mret Pending
      | _ => p' ← main_step Finish p; poll_steps n p'
      end
  end.

Lemma poll_next_steps cx w : poll_next cx w = poll_steps 5 (FastPath cx) w.
Proof.
  unfold poll_next. cbn [poll_steps main_step].
  unfold mbind, M_bind. destruct (pop_scancode w) as [[[s|e] w1]|]; [done| |done]. simpl.
  unfold mbind, M_bind. destruct (pop_scancode (set_waker (Some cx) w1)) as [[[s|e'] w2]|]; done.
Qed.
End machine.
