(* ===== verification/TaskInv.v ===== *)
(** * The invariant of the executor machine

    What holds in every state of the machine of [Task], whichever way the keyboard
    interrupt interleaves, and the proof that each atomic action and the interrupt
    keep it. *)

From S2P Require Import Prelude Monitor Queue Task.
Import ArrayQueue OnceCell.

(** A queue of 100 slots holding [l], at most [n] elements ever added. *)
Definition queue_ok (n : Z) (q : ArrayQueue Z) (l : list Z) : Prop :=
  exists h, rep_at h 100 q l /\ h + Z.of_nat (length l) <= n.

Lemma queue_ok_mono n n' q l : queue_ok n q l -> n <= n' -> queue_ok n' q l.
Proof. intros (h & Hr & Hn) Hle. exists h. split; [done|lia]. Qed.

Lemma queue_new : exists q, ArrayQueue.new 100 = Ret q /\ queue_ok 0 q [].
Proof. destruct (new_rep (T := Z) 100) as (q & Hq & Hr); [lia|]. exists q. split; [done|]. by exists 0. Qed.

Lemma queue_push n q l v : queue_ok n q l -> n < 2 ^ 63 ->
  exists r q' l', push v q = Ret (r, q') /\ queue_ok (n + 1) q' l' /\
    ((r = Ok tt /\ l' = l ++ [v]) \/ (r = Err v /\ l' = l /\ length l = 100%nat)).
Proof.
  intros (h & Hr & Hn) Hlt. pose proof Hr as (Hh & _ & _ & Hle & _).
  destruct (decide (length l = 100%nat)) as [Hf|Hf].
  - exists (Err v), q, l. split; [apply (push_full h 100 q l); [done|lia]|].
    split; [|by right]. apply (queue_ok_mono n); [by exists h|lia].
  - destruct (push_ok h 100 q l v Hr) as (q' & Hp & Hr'); [lia|right; lia|].
    exists (Ok tt), q', (l ++ [v]). split; [done|]. split; [|by left].
    exists h. split; [done|]. rewrite length_app. simpl. lia.
Qed.

Lemma queue_pop n q l : queue_ok n q l ->
  match l with
  | [] => pop q = Ret (Err mkPopError, q)
  | v :: l' => exists q', pop q = Ret (Ok v, q') /\ queue_ok n q' l'
  end.
Proof.
  intros (h & Hr & Hn). destruct l as [|v l]; [by apply (pop_empty h 100)|].
  destruct (pop_ok h 100 q v l Hr) as (q' & Hp & Hr'). exists q'. split; [done|].
  exists (h + 1). split; [done|]. cbn [length] in Hn. lia.
Qed.

Lemma queue_is_empty n q l : queue_ok n q l -> is_empty q = bool_decide (l = []).
Proof.
  intros (h & Hr & _). pose proof (is_empty_rep h 100 q l Hr) as Hi.
  case_bool_decide; [by apply Hi|]. by destruct (is_empty q); [destruct Hi as [Hi _]; destruct (Hi eq_refl)|].
Qed.

Section invariant.
Context (kb : Z) (others : gset Z).
Hypothesis Hkb : kb ∉ others.
Hypothesis Hsize : (size others <= 99)%nat.

(** ** The task queue *)

(** The queue holds tasks of the executor, the ones other than [kb] at most once. *)
Definition ids_ok (l : list Z) : Prop :=
  (forall i, i ∈ l -> i = kb \/ i ∈ others) /\ NoDup (filter (fun i => i <> kb) l).

Lemma ids_ok_tail i l : ids_ok (i :: l) -> ids_ok l.
Proof.
  intros [Hm Hd]. split; [intros j Hj; apply Hm; by right|].
  rewrite filter_cons in Hd. case_decide; [|done]. by apply NoDup_cons in Hd as [_ ?].
Qed.

Lemma ids_ok_head i l : ids_ok (i :: l) -> i <> kb -> i ∈ others /\ i ∉ l.
Proof.
  intros [Hm Hd] Hi. split; [destruct (Hm i) as [?|?]; [by left|done|done]|].
  rewrite filter_cons_True in Hd by done. apply NoDup_cons in Hd as [Hn _].
  intros Hl. apply Hn. by apply list_elem_of_filter.
Qed.

Lemma ids_ok_kb l : ids_ok l -> ids_ok (l ++ [kb]).
Proof.
  intros [Hm Hd]. split.
  - intros i [Hi|Hi%list_elem_of_singleton]%elem_of_app; [by apply Hm|by left].
  - rewrite filter_app, filter_cons_False by (intros H; by apply H). by rewrite app_nil_r.
Qed.

Lemma ids_ok_other i l : ids_ok l -> i ∈ others -> i ∉ l -> ids_ok (l ++ [i]).
Proof.
  intros [Hm Hd] Hi Hn. split.
  - intros j [Hj|Hj%list_elem_of_singleton]%elem_of_app; [by apply Hm|by right; subst].
  - rewrite filter_app, filter_cons_True by (intros ->; done). apply NoDup_app. split; [done|].
    split; [|by apply NoDup_singleton].
    intros j [_ Hj]%list_elem_of_filter ->%list_elem_of_singleton. done.
Qed.

(** When the queue is full, [kb] is in it. *)
Lemma full_has_kb l : ids_ok l -> length l = 100%nat -> kb ∈ l.
Proof.
  intros [Hm Hd] Hl. apply dec_stable. intros Hn.
  assert (filter (fun i => i <> kb) l = l) as He.
  { clear -Hn. induction l as [|i l IH]; [done|]. apply not_elem_of_cons in Hn as [Hi Hn].
    rewrite filter_cons_True by congruence. by rewrite IH. }
  rewrite He in Hd. assert (list_to_set l ⊆ others) as Hs.
  { intros i Hi%elem_of_list_to_set. destruct (Hm i Hi) as [->|]; done. }
  apply subseteq_size in Hs. rewrite size_list_to_set in Hs by done. lia.
Qed.

Definition tq_ok (n : Z) (w : world) (l : list Z) : Prop := queue_ok n (task_queue w) l /\ ids_ok l.

Lemma wake_kb n w l : tq_ok n w l -> n < 2 ^ 63 ->
  exists q m l', wake_task (mkWaker kb) w = Ret (tt, set_metrics m (set_queue q w)) /\
    queue_ok (n + 1) q l' /\ ids_ok l' /\ kb ∈ l' /\ (forall i, i ∈ l' -> i = kb \/ i ∈ l).
Proof.
  intros [Hq Hi] Hn. destruct (queue_push n _ l kb Hq Hn) as (r & q & l' & Hp & Hq' & Hr).
  unfold wake_task, mbind, M_bind, on_queue. simpl. rewrite Hp.
  destruct Hr as [[-> ->]|(-> & -> & Hf)].
  - exists q, (metrics w), (l ++ [kb]). split; [by destruct w|]. split; [done|].
    split; [by apply ids_ok_kb|]. split; [apply elem_of_app; right; by apply list_elem_of_singleton|].
    intros i [?|?%list_elem_of_singleton]%elem_of_app; [by right|by left].
  - eexists q, _, l. split; [done|]. split; [done|]. split; [done|]. split; [by apply full_has_kb|].
    intros i ?. by right.
Qed.

Lemma wake_other n w l i : tq_ok n w l -> n < 2 ^ 63 -> i ∈ others -> i ∉ l ->
  exists q m l', wake_task (mkWaker i) w = Ret (tt, set_metrics m (set_queue q w)) /\
    queue_ok (n + 1) q l' /\ ids_ok l' /\ (kb ∈ l -> kb ∈ l').
Proof.
  intros [Hq Hi] Hn Ho Hni. destruct (queue_push n _ l i Hq Hn) as (r & q & l' & Hp & Hq' & Hr).
  unfold wake_task, mbind, M_bind, on_queue. simpl. rewrite Hp.
  destruct Hr as [[-> ->]|(-> & -> & Hf)].
  - exists q, (metrics w), (l ++ [i]). split; [by destruct w|]. split; [done|].
    split; [by apply ids_ok_other|]. intros ?. apply elem_of_app. by left.
  - by eexists q, _, l.
Qed.

(** ** The invariant *)

(** The scancode queue holds [l]. *)
Definition sq_ok (n : Z) (w : world) (l : list Z) : Prop :=
  if started (futures w)
  then exists q, SCANCODE_QUEUE w = mkCell true (Some q) /\ queue_ok n q l
  else SCANCODE_QUEUE w = uninit /\ l = [].

Definition tasks_ok (w : world) : Prop :=
  is_Some (tasks w !! kb) /\ forall i t, tasks w !! i = Some t -> waker t = Some (mkWaker i).

(** The scancode taken from the queue and not yet handled. *)
Definition inflight (p : pc) : list Z :=
  match p with Taking _ s | Handling _ s => [s] | _ => [] end.

(** While [kb] is not being polled: it is on the queue, or its waker is in the cell
    and there is nothing for it to do. *)
Definition awake (w : world) (tl sl : list Z) : Prop :=
  kb ∈ tl \/ started (futures w) = true /\ WAKER w = Some (mkWaker kb) /\ sl = [].

Definition pc_ok (p : pc) (w : world) (tl sl : list Z) : Prop :=
  match p with
  | Popping | GoingIdle | Checking => awake w tl sl
  | Halted => awake w tl sl /\ tl = []
  | PollOther i cx => cx = mkWaker i /\ i ∈ others /\ i ∉ tl /\ awake w tl sl
  | Creating cx => cx = mkWaker kb /\ started (futures w) = false
  | FastPath cx | Registering cx | Taking cx _ | Handling cx _ =>
      cx = mkWaker kb /\ started (futures w) = true
  | SecondPop cx =>
      cx = mkWaker kb /\ started (futures w) = true /\ (WAKER w = Some (mkWaker kb) \/ kb ∈ tl)
  end.

(** [typed] are the scancodes of the interrupts so far. *)
Definition delivery_ok (typed : list Z) (p : pc) (w : world) (sl : list Z) : Prop :=
  let got := handled (futures w) ++ inflight p ++ sl in
  got `sublist_of` typed /\ (console w = [] -> got = typed).

Record inv (n : Z) (typed : list Z) (p : pc) (w : world) (tl sl : list Z) : Prop := {
  inv_tq : tq_ok n w tl;
  inv_sq : sq_ok n w sl;
  inv_tasks : tasks_ok w;
  inv_waker : WAKER w = None \/ WAKER w = Some (mkWaker kb);
  inv_pc : pc_ok p w tl sl;
  inv_delivery : delivery_ok typed p w sl
}.

Definition holds (n : Z) (typed : list Z) (p : pc) (w : world) : Prop :=
  exists tl sl, inv n typed p w tl sl.

Lemma sq_ok_mono n n' w l : sq_ok n w l -> n <= n' -> sq_ok n' w l.
Proof.
  unfold sq_ok. destruct (started (futures w)); [|done]. intros (q & Hc & Hq) Hle.
  exists q. split; [done|by apply (queue_ok_mono n)].
Qed.

Lemma tq_ok_mono n n' w l : tq_ok n w l -> n <= n' -> tq_ok n' w l.
Proof. intros [Hq Hi] Hle. split; [by apply (queue_ok_mono n)|done]. Qed.

Lemma pop_scancode_ok n w l : sq_ok n w l -> started (futures w) = true ->
  match l with
  | [] => pop_scancode w = Ret (Err mkPopError, w)
  | v :: l' => exists c, pop_scancode w = Ret (Ok v, set_cell c w) /\ sq_ok n (set_cell c w) l'
  end.
Proof.
  unfold sq_ok. intros Hs Hst. rewrite Hst in Hs. destruct Hs as (q & Hc & Hq).
  pose proof (queue_pop n q l Hq) as Hp.
  unfold pop_scancode, mbind, M_bind, get, lift, try_get, on_scancodes. rewrite Hc. simpl.
  destruct l as [|v l].
  - rewrite Hp. rewrite <- Hc. by destruct w.
  - destruct Hp as (q' & -> & Hq'). eexists. split; [done|]. simpl. rewrite Hst. by exists q'.
Qed.

(** ** The executor's own steps *)

(** Steps left until the processor halts, when no interrupt comes and no task
    yields: for every queue entry a pop and an empty poll, for every scancode a
    pop and its handling. *)
Definition cost (p : pc) (tl sl : list Z) : Z :=
  6 * Z.of_nat (length tl) + 8 * Z.of_nat (length sl) +
  match p with
  | Halted => 0
  | Checking => match tl with [] => 1 | _ => 4 end
  | GoingIdle => match tl with [] => 2 | _ => 5 end
  | Popping => 3
  | PollOther _ _ => 4
  | SecondPop _ => 5
  | Registering _ => 6
  | FastPath _ => 7
  | Creating _ | Handling _ _ => 8
  | Taking _ _ => 9
  end.

(** The step from [p] returns, keeps the invariant and comes closer to the halt. *)
Definition step_ok (n : Z) (typed : list Z) (c : choice) (p : pc) (w : world) (tl sl : list Z) : Prop :=
  exists p' w' tl' sl', main_step kb c p w = Ret (p', w') /\ inv (n + 1) typed p' w' tl' sl' /\
    (p <> Halted -> c <> Yield -> cost p' tl' sl' < cost p tl sl).

Tactic Notation "to_state" uconstr(tl) uconstr(sl) :=
  do 2 eexists; exists tl, sl; split; [done|]; split;
  [|intros ? ?; unfold cost; cbn [length]; repeat case_match; try congruence; simpl in *; lia].

Lemma pop_task_ok n w tl : tq_ok n w tl ->
  match tl with
  | [] => on_queue pop w = Ret (Err mkPopError, w)
  | i :: tl' => exists q, on_queue pop w = Ret (Ok i, set_queue q w) /\ tq_ok n (set_queue q w) tl'
  end.
Proof.
  intros [Hq Hi]. pose proof (queue_pop n _ tl Hq) as Hp. unfold on_queue.
  destruct tl as [|i tl]; [rewrite Hp; by destruct w|].
  destruct Hp as (q & -> & Hq'). exists q. split; [done|]. split; [done|by apply (ids_ok_tail i)].
Qed.

Lemma popping_ok n typed c w tl sl : inv n typed Popping w tl sl ->
  step_ok n typed c Popping w tl sl.
Proof.
  intros [Htq Hsq Htk Hwk Hpc Hdl]. unfold step_ok, main_step, mbind, M_bind.
  pose proof (pop_task_ok n w tl Htq) as Hp. destruct tl as [|i tl].
  - rewrite Hp. to_state [] sl.
    split; [by apply (tq_ok_mono n); [|lia]|by apply (sq_ok_mono n); [|lia]|done|done|done|done].
  - destruct Hp as (q & -> & Hq'). unfold get. simpl.
    assert (sq_ok (n + 1) (set_queue q w) sl) as Hsq' by by apply (sq_ok_mono n); [|lia].
    assert (tq_ok (n + 1) (set_queue q w) tl) as Htq' by by apply (tq_ok_mono n); [|lia].
    destruct (Z.eqb_spec i kb) as [->|Hi].
    + destruct Htk as [[t Ht] Hall]. rewrite Ht, (Hall kb t Ht). simpl.
      destruct (started (futures w)) eqn:Hst; to_state tl sl;
    (split; [done|done|split; [by eexists|done]|done|done|done]).
    + destruct (ids_ok_head i tl (proj2 Htq) Hi) as [Ho Hn].
      assert (awake (set_queue q w) tl sl) as Haw.
      { destruct Hpc as [[->|?]%elem_of_cons|?]; [done|by left|by right]. }
      destruct (tasks w !! i) as [t|] eqn:Ht.
      * rewrite (proj2 Htk i t Ht). simpl. to_state tl sl.
    split; [done|done|done|done|done|done].
      * to_state tl sl. split; [done|done|done|done|done|done].
Qed.

Lemma other_ok n typed c i cx w tl sl : inv n typed (PollOther i cx) w tl sl -> n < 2 ^ 63 ->
  step_ok n typed c (PollOther i cx) w tl sl.
Proof.
  intros [Htq Hsq Htk Hwk (-> & Ho & Hni & Haw) Hdl] Hn. unfold step_ok, main_step, mbind, M_bind.
  assert (sq_ok (n + 1) w sl) as Hsq' by by apply (sq_ok_mono n); [|lia].
  assert (tq_ok (n + 1) w tl) as Htq' by by apply (tq_ok_mono n); [|lia]. destruct c.
  - to_state tl sl. split; [done|done| |done|done|done].
    destruct Htk as [Hk Hall]. split; simpl.
    + rewrite lookup_delete_ne by (intros ->; done). done.
    + intros j t [_ Hj]%lookup_delete_Some. by apply Hall.
  - to_state tl sl. split; [done|done|done|done|done|done].
  - destruct (wake_other n w tl i Htq Hn Ho Hni) as (q & m & tl' & -> & Hq & Hids & Hk).
    to_state tl' sl. split; [done|done|done|done| |done].
    destruct Haw as [Haw|Haw]; [by left; apply Hk|by right].
Qed.

Lemma creating_ok n typed c cx w tl sl : 0 <= n -> inv n typed (Creating cx) w tl sl ->
  step_ok n typed c (Creating cx) w tl sl.
Proof.
  intros Hn0 [Htq Hsq Htk Hwk (-> & Hst) Hdl]. unfold step_ok, main_step, mbind, M_bind.
  unfold sq_ok in Hsq. rewrite Hst in Hsq. destruct Hsq as [Hc ->].
  destruct queue_new as (q & Hq & Hqok). unfold ScancodeStream_new.
  unfold try_init_once, mbind, M_bind, get, lift. rewrite Hc. cbn [initialized uninit].
  unfold MAX_SCANCODES. rewrite Hq. simpl.
  to_state tl [].
    split; [by apply (tq_ok_mono n); [|lia]| |done|done|done|done].
  unfold sq_ok. simpl. exists q. split; [done|]. apply (queue_ok_mono 0); [done|lia].
Qed.

(** A step that takes a scancode from the queue, or finds none. *)
Lemma fast_ok n typed c cx w tl sl : inv n typed (FastPath cx) w tl sl ->
  step_ok n typed c (FastPath cx) w tl sl.
Proof.
  intros [Htq Hsq Htk Hwk (-> & Hst) Hdl]. unfold step_ok, main_step, mbind, M_bind.
  pose proof (pop_scancode_ok n w sl Hsq Hst) as Hp.
  assert (tq_ok (n + 1) w tl) as Htq' by by apply (tq_ok_mono n); [|lia]. destruct sl as [|v sl].
  - rewrite Hp. to_state tl [].
    split; [done|by apply (sq_ok_mono n); [|lia]|done|done|done|done].
  - destruct Hp as (c' & -> & Hs). to_state tl sl.
    split; [done|by apply (sq_ok_mono n); [|lia]|done|done|done|done].
Qed.

Lemma second_ok n typed c cx w tl sl : inv n typed (SecondPop cx) w tl sl ->
  step_ok n typed c (SecondPop cx) w tl sl.
Proof.
  intros [Htq Hsq Htk Hwk (-> & Hst & Hor) Hdl]. unfold step_ok, main_step, mbind, M_bind.
  pose proof (pop_scancode_ok n w sl Hsq Hst) as Hp.
  assert (tq_ok (n + 1) w tl) as Htq' by by apply (tq_ok_mono n); [|lia]. destruct sl as [|v sl].
  - rewrite Hp. to_state tl [].
    split; [done|by apply (sq_ok_mono n); [|lia]|done|done| |done].
    destruct Hor; [right|left]; done.
  - destruct Hp as (c' & -> & Hs). to_state tl sl.
    split; [done|by apply (sq_ok_mono n); [|lia]|done|done|done|done].
Qed.

Lemma checking_ok n typed c w tl sl : inv n typed Checking w tl sl ->
  step_ok n typed c Checking w tl sl.
Proof.
  intros [Htq Hsq Htk Hwk Hpc Hdl]. unfold step_ok, main_step, mbind, M_bind, get.
  rewrite (queue_is_empty n _ tl (proj1 Htq)).
  assert (tq_ok (n + 1) w tl) by by apply (tq_ok_mono n); [|lia].
  assert (sq_ok (n + 1) w sl) by by apply (sq_ok_mono n); [|lia].
  case_bool_decide; to_state tl sl; (split; [done|done|done|done|done|done]).
Qed.

Lemma main_ok n typed c p w tl sl : 0 <= n < 2 ^ 63 -> inv n typed p w tl sl ->
  step_ok n typed c p w tl sl.
Proof.
  intros Hn Hinv.
  destruct p; try (by eapply popping_ok || by eapply other_ok; [|lia] || by eapply creating_ok; [lia|]
    || by eapply fast_ok || by eapply second_ok || by eapply checking_ok);
    destruct Hinv as [Htq Hsq Htk Hwk Hpc Hdl]; to_state tl sl;
    apply (tq_ok_mono n (n + 1)) in Htq; try lia; apply (sq_ok_mono n (n + 1)) in Hsq; try lia;
    simpl in Hpc.
  - destruct Hpc as [-> Hst]. split; try done; [by right|]. split; [done|]. split; [done|by left].
  - destruct Hpc as [-> Hst]. split; try done. by left.
  - destruct Hpc as [-> Hst]. split; try done. unfold delivery_ok in *. simpl in *.
    by rewrite <- app_assoc.
  - split; done.
  - destruct Hpc as [Hpc _]. split; done.
Qed.

(** ** The keyboard interrupt *)

Lemma pc_ok_irq p w w' tl tl' sl sl' :
  started (futures w') = started (futures w) ->
  (awake w tl sl -> awake w' tl' sl') ->
  (WAKER w = Some (mkWaker kb) \/ kb ∈ tl -> WAKER w' = Some (mkWaker kb) \/ kb ∈ tl') ->
  (forall i, i ∈ tl' -> i = kb \/ i ∈ tl) ->
  pc_ok p w tl sl -> pc_ok (after_irq p) w' tl' sl'.
Proof.
  intros Hst Haw Hwk Hin. destruct p; simpl; rewrite ?Hst; try tauto.
  intros (-> & Ho & Hn & Ha). split_and!; try done; [|by apply Haw].
  intros [->|?]%Hin; done.
Qed.

Lemma inflight_irq p : inflight (after_irq p) = inflight p.
Proof. by destruct p. Qed.

Lemma delivery_dropped typed p w m line sl s :
  delivery_ok typed p w sl ->
  delivery_ok (typed ++ [s]) (after_irq p) (print_line line (set_metrics m w)) sl.
Proof.
  intros [Hs _]. unfold delivery_ok. rewrite inflight_irq. split; simpl.
  - by apply sublist_inserts_r.
  - intros Hc. by destruct (console w).
Qed.

Lemma delivery_accepted typed p w w' sl s :
  futures w' = futures w -> console w' = console w ->
  delivery_ok typed p w sl -> delivery_ok (typed ++ [s]) (after_irq p) w' (sl ++ [s]).
Proof.
  intros Hf Hc [Hs He]. unfold delivery_ok. rewrite inflight_irq, Hf, Hc, !app_assoc.
  split; [|intros Hn; by rewrite <- He, !app_assoc].
  apply sublist_app; [by rewrite <- app_assoc|done].
Qed.

(** A scancode that was queued, the waker cell as it was. *)
Lemma wake_ok n typed p w tl sl s :
  0 <= n < 2 ^ 63 -> tq_ok n w tl -> sq_ok (n + 1) w (sl ++ [s]) -> tasks_ok w ->
  WAKER w = None \/ WAKER w = Some (mkWaker kb) -> pc_ok p w tl sl -> started (futures w) = true ->
  delivery_ok typed p w sl ->
  exists w', wake w = Ret (tt, w') /\ holds (n + 1) (typed ++ [s]) (after_irq p) w'.
Proof.
  intros Hn Htq Hsq Htk Hwk Hpc Hst Hdl.
  unfold wake, take, mbind, M_bind, get, modify. simpl. destruct Hwk as [Hwk|Hwk]; rewrite Hwk; simpl.
  - exists (set_waker None w). split; [done|]. exists tl, (sl ++ [s]).
    split; [by apply (tq_ok_mono n); [|lia]|done|done|by left| |by apply (delivery_accepted typed p w)].
    apply (pc_ok_irq p w _ tl _ sl); [done| | |by right|done].
    + intros [?|(_ & Hw & _)]; [by left|]. by rewrite Hwk in Hw.
    + intros [Hw|?]; [by rewrite Hwk in Hw|by right].
  - destruct (wake_kb n (set_waker None w) tl Htq) as (q & m & tl' & -> & Hq & Hids & Hk & Hin); [lia|].
    eexists. split; [done|]. exists tl', (sl ++ [s]).
    split; [done|done|done|by left| |by apply (delivery_accepted typed p w)].
    apply (pc_ok_irq p w _ tl _ sl); [done| | |done|done]; intros _; [by left|by right].
Qed.

Lemma key_ok n typed s p w : 0 <= n < 2 ^ 63 -> holds n typed p w ->
  exists w', keyboard_interrupt_handler s w = Ret (tt, w') /\
    holds (n + 1) (typed ++ [s]) (after_irq p) w'.
Proof.
  intros Hn (tl & sl & [Htq Hsq Htk Hwk Hpc Hdl]).
  unfold keyboard_interrupt_handler, add_scancode, mbind, M_bind, get, lift, modify.
  set (m := inc_interrupt 33 (metrics w)).
  unfold sq_ok in Hsq. destruct (started (futures w)) eqn:Hst.
  - destruct Hsq as (q & Hc & Hq). simpl. rewrite Hc. unfold try_get, on_scancodes. simpl.
    destruct (queue_push n q sl s Hq) as (r & q' & sl' & -> & Hq' & Hr); [lia|].
    destruct Hr as [[-> ->]|(-> & -> & Hf)].
    + set (w1 := set_cell (mkCell true (Some q')) (set_metrics m w)).
      apply (wake_ok n typed p w1 tl sl s); try done. unfold sq_ok. simpl. rewrite Hst. by exists q'.
    + eexists. split; [done|]. exists tl, sl. split; simpl.
      * by apply (tq_ok_mono n); [|lia].
      * unfold sq_ok. simpl. rewrite Hst. by exists q'.
      * done.
      * done.
      * by apply (pc_ok_irq p w _ tl _ sl); try done; right.
      * by apply delivery_dropped.
  - destruct Hsq as [Hc ->]. simpl. rewrite Hc. simpl. eexists. split; [done|]. exists tl, [].
    split; simpl.
    + by apply (tq_ok_mono n); [|lia].
    + unfold sq_ok. simpl. by rewrite Hst.
    + done.
    + done.
    + by apply (pc_ok_irq p w _ tl _ []); try done; right.
    + by apply delivery_dropped.
Qed.

(** ** Runs *)

(** The scancodes of the interrupts of a run. *)
Definition typed_of (ls : list label) : list Z :=
  omap (fun l => match l with LKey s => Some s | LMain _ => None end) ls.

Lemma run_ok ls : forall n typed p w p' w',
  0 <= n -> n + Z.of_nat (length ls) < 2 ^ 63 -> holds n typed p w ->
  ArrayQueue.run (step kb) (p, w) ls (p', w') ->
  holds (n + Z.of_nat (length ls)) (typed ++ typed_of ls) p' w'.
Proof.
  induction ls as [|l ls IH]; intros n typed p w p' w' Hn Hlt Hh Hr.
  - inversion Hr; subst. by rewrite app_nil_r, Z.add_0_r.
  - inversion Hr as [|? ? [p1 w1] ? ? Hs Hrest]; subst. cbn [length] in *.
    replace (n + Z.of_nat (S (length ls))) with (n + 1 + Z.of_nat (length ls)) by lia.
    inversion Hs as [c ? ? ? ? Hm|s ? ? ? Hp Hk]; subst.
    + destruct Hh as (tl & sl & Hinv).
      destruct (main_ok n typed c p w tl sl) as (p2 & w2 & tl2 & sl2 & He & Hh1 & _); [lia|done|].
      rewrite Hm in He. injection He as <- <-. assert (holds (n + 1) typed p1 w1) by by exists tl2, sl2. apply (IH _ _ p1 w1); [lia|lia|done|done].
    + destruct (key_ok n typed s p w) as (w2 & He & Hh1); [lia|done|].
      rewrite Hk in He. injection He as <-.
      replace (typed ++ typed_of (LKey s :: ls)) with ((typed ++ [s]) ++ typed_of ls)
        by by rewrite <- app_assoc.
      apply (IH _ _ (after_irq p) w1); [lia|lia|done|done].
Qed.
End invariant.
