(* ===== verification/TaskSpec.v ===== *)
(** * No lost wake-ups

    The executor machine of [Task], interleaved with the keyboard interrupt in
    every possible way: it never panics, never halts with a scancode waiting,
    delivers scancodes in order and exactly once, and drains its queues when the
    keys stop. Before that, what spawning and one pass of the executor do. *)

From S2P Require Import Prelude Monitor Queue Task TaskInv.
Import ArrayQueue OnceCell.

(** ** Spawning *)

(** [executor.spawn(Task::new(..))], [k] times. *)
Fixpoint spawn_many {E} (k : nat) : M (sys E) unit :=
  match k with
  | O => mret tt
  | S k' => _ ← spawn_many k'; t ← Task_new; spawn t
  end.

(** [Executor::new()] at boot, then [k] tasks. *)
Definition boot {E} (e : E) (k : nat) : outcome (sys E) :=
  w ← Task.new e 0 MonitorData_new;
  r ← spawn_many k w;
  Ret r.2.

(** The executor with the tasks [0 .. k - 1], none of them polled yet, and the statics
    as they are before the first poll. *)
Definition enrolled {E} (e : E) (k : nat) (w : sys E) : Prop :=
  next_id w = Z.of_nat k /\ queue_ok (Z.of_nat k) (task_queue w) (seqZ 0 (Z.of_nat k)) /\
  (forall i, tasks w !! i = if bool_decide (0 <= i < Z.of_nat k)
                            then Some (mkTask i (Some (mkWaker i))) else None) /\
  WAKER w = None /\ SCANCODE_QUEUE w = uninit /\ console w = [] /\ futures w = e.

(** The same with the metrics counted from 0. *)
Definition spawned {E} (e : E) (k : nat) (w : sys E) : Prop :=
  enrolled e k w /\ tasks_spawned (metrics w) = Z.of_nat k /\ active_tasks (metrics w) = Z.of_nat k /\
  tasks_completed (metrics w) = 0.

Lemma new_spawned {E} (e : E) : exists w, Task.new e 0 MonitorData_new = Ret w /\ spawned e 0 w.
Proof.
  destruct queue_new as (q & Hq & Hok). unfold Task.new, MAX_TASKS. rewrite Hq. eexists. split; [done|].
  split; [|done]. split; [done|]. split; [done|]. split; [|done]. intros i. simpl.
  by rewrite bool_decide_false by lia.
Qed.

Lemma spawn_enrolled {E} (e : E) k w : (k < 100)%nat -> enrolled e k w ->
  exists w', (t ← Task_new; spawn t) w = Ret (tt, w') /\ enrolled e (S k) w' /\
    metrics w' = inc_task_spawned (metrics w).
Proof.
  intros Hk (Hn & Hq & Ht & Hw & Hc & Hl & Hf).
  destruct (queue_push _ _ _ (Z.of_nat k) Hq) as (r & q & l & Hp & Hq' & Hr); [lia|].
  rewrite length_seqZ in Hr. destruct Hr as [[-> ->]|(_ & _ & Hbad)]; [|lia].
  unfold Task_new, TaskId_new, spawn, mbind, M_bind, get, modify, guard_or, on_queue. simpl.
  assert (tasks w !! Z.of_nat k = None) as Hnone by by rewrite Ht, bool_decide_false by lia.
  rewrite Hn, Hnone. simpl. rewrite Hp.
  eexists. split; [done|]. split; [|done]. unfold enrolled. simpl. unfold fetch_add.
  replace (Z.of_nat (S k)) with (Z.of_nat k + 1) by lia. rewrite !wrap_small by (unfold in_u64, u64_max; lia).
  rewrite (seqZ_app 0 (Z.of_nat k) 1), (seqZ_cons (0 + Z.of_nat k)), (seqZ_nil _ (Z.pred 1)) by lia.
  split_and!; try done. intros i. destruct (decide (i = Z.of_nat k)) as [->|Hi].
  - rewrite lookup_insert_eq, bool_decide_true by lia. done.
  - rewrite lookup_insert_ne, Ht by done.
    case_bool_decide; case_bool_decide; done || lia.
Qed.

Lemma spawn_one {E} (e : E) k w : (k < 100)%nat -> spawned e k w ->
  exists w', (t ← Task_new; spawn t) w = Ret (tt, w') /\ spawned e (S k) w'.
Proof.
  intros Hk (He & Hsp & Hac & Hco). destruct (spawn_enrolled e k w Hk He) as (w' & Hr & He' & Hm).
  exists w'. split; [done|]. split; [done|]. rewrite Hm. simpl. rewrite Hsp, Hac. unfold fetch_add.
  replace (Z.of_nat (S k)) with (Z.of_nat k + 1) by lia.
  rewrite !wrap_small by (unfold in_u64, u64_max; lia). done.
Qed.

Lemma spawn_many_ok {E} (e : E) k w : (k <= 100)%nat -> spawned e 0 w ->
  exists w', spawn_many k w = Ret (tt, w') /\ spawned e k w'.
Proof.
  intros Hk Hs. induction k as [|k IH]; [by exists w|].
  destruct IH as (w1 & H1 & Hs1); [lia|]. cbn [spawn_many]. unfold mbind at 1, M_bind. rewrite H1.
  by apply spawn_one; [lia|].
Qed.

Lemma boot_spawned {E} (e : E) k : (k <= 100)%nat -> exists w, boot e k = Ret w /\ spawned e k w.
Proof.
  intros Hk. destruct (new_spawned e) as (w0 & H0 & Hs0).
  destruct (spawn_many_ok e k w0 Hk Hs0) as (w & Hw & Hs).
  exists w. split; [|done]. unfold boot, mbind, outcome_bind. by rewrite H0, Hw.
Qed.

(** ** Running what is ready *)

Section quiet.
Context {E : Type} (ready : Z -> bool) (advance : Z -> E -> E).

(** Futures that wake nobody: each poll advances the future's state and reports
    whether it is done. *)
Definition quiet_poll (i : Z) (cx : TaskWaker) : M (sys E) (Poll unit) := fun w =>
  Ret (if ready i then Ready tt else Pending, set_futures (advance i (futures w)) w).

Definition polled (l : list Z) (e : E) : E := fold_left (fun e i => advance i e) l e.

Lemma run_ready_ok n l : forall w,
  queue_ok n (task_queue w) l -> NoDup l ->
  (forall i, i ∈ l -> exists t k, tasks w !! i = Some t /\ waker t = Some k) ->
  exists w', run_ready_tasks quiet_poll (S (length l)) w = Ret (tt, w') /\
    is_empty (task_queue w') = true /\ futures w' = polled l (futures w) /\
    (forall i, tasks w' !! i = if bool_decide (i ∈ l /\ ready i = true) then None else tasks w !! i) /\
    tasks_spawned (metrics w') = tasks_spawned (metrics w) /\
    (0 <= tasks_completed (metrics w) -> tasks_completed (metrics w) + Z.of_nat (length l) <= u64_max ->
     tasks_completed (metrics w') =
       tasks_completed (metrics w) + Z.of_nat (length (filter (fun i => ready i = true) l))).
Proof.
  induction l as [|i l IH]; intros w Hq Hnd Hal; pose proof (queue_pop n _ _ Hq) as Hp;
    cbn [run_ready_tasks]; unfold mbind at 1, M_bind, on_queue.
  - rewrite Hp. exists w. split; [by destruct w|]. rewrite (queue_is_empty n _ [] Hq).
    split_and!; try done; simpl; lia.
  - destruct Hp as (q & -> & Hq'). apply NoDup_cons in Hnd as [Hi Hnd].
    destruct (Hal i) as (t & k & Ht & Hk); [by left|].
    unfold mbind at 1, M_bind, get. change (tasks (set_queue q w)) with (tasks w). rewrite Ht. unfold mbind at 1, M_bind, lift, expect. rewrite Hk.
    unfold mbind at 1, M_bind, quiet_poll. simpl. destruct (ready i) eqn:Hr.
    + unfold complete, mbind, M_bind, modify. simpl.
      set (w1 := set_metrics _ _).
      destruct (IH w1) as (w' & Hrun & He & Hf & Htk & Hsp & Hco); [done|done| |].
      { intros j Hj. destruct (Hal j) as (t' & k' & Ht' & Hk'); [by right|]. exists t', k'. split; [|done].
        simpl. rewrite lookup_delete_ne; [done|]. by intros ->. }
      exists w'. split; [exact Hrun|]. split_and!; try done.
      * intros j. rewrite Htk. simpl. destruct (decide (j = i)) as [->|Hji].
        -- rewrite lookup_delete_eq, (bool_decide_true (i ∈ i :: l /\ _)) by (split; [by left|done]).
           by case_bool_decide.
        -- rewrite lookup_delete_ne by done. erewrite bool_decide_ext; [done|]. rewrite elem_of_cons. tauto.
      * simpl in Hco. unfold fetch_add in Hco. intros H0 H1.
        rewrite wrap_small in Hco by (unfold in_u64 in *; simpl in *; lia).
        rewrite Hco by lia. rewrite filter_cons_True by done. cbn [length]. lia.
    + destruct (IH (set_futures (advance i (futures w)) (set_queue q w))) as (w' & Hrun & He & Hf & Htk & Hsp & Hco);
        [done|done| |].
      { intros j Hj. apply Hal. by right. }
      exists w'. split; [exact Hrun|]. split_and!; try done.
      * intros j. rewrite Htk. simpl. erewrite bool_decide_ext; [done|]. rewrite elem_of_cons.
        split; [tauto|]. intros [[->|?] ?]; [congruence|done].
      * intros H0 H1. cbn [length] in *. rewrite filter_cons_False by congruence. simpl in *. apply Hco; lia.
Qed.
End quiet.

(** C33: the executor takes up to 100 tasks and gives them distinct identifiers. When
    their futures wake nobody while polled and each is either ready or not,
    [run_ready_tasks] then polls each of them exactly once, in the order they were
    spawned, removes exactly the ones that are done, counts them, and returns with
    the task queue empty; spawning a 101st task before that panics. *)
Theorem executor_polls_each_task_once {E} (e : E) k ready advance :
  (k <= 100)%nat ->
  (exists w w', boot e k = Ret w /\ run_ready_tasks (quiet_poll ready advance) (S k) w = Ret (tt, w') /\
     futures w' = polled advance (seqZ 0 (Z.of_nat k)) e /\ is_empty (task_queue w') = true /\
     (forall i, is_Some (tasks w' !! i) <-> 0 <= i < Z.of_nat k /\ ready i = false) /\
     tasks_spawned (metrics w') = Z.of_nat k /\
     tasks_completed (metrics w') =
       Z.of_nat (length (filter (fun i => ready i = true) (seqZ 0 (Z.of_nat k))))) /\
  boot e 101 = Crash (Panic "queue full").
Proof.
  intros Hk. split; [|by vm_compute].
  destruct (boot_spawned e k Hk) as (w & Hb & (Hn & Hq & Ht & _ & _ & _ & Hf) & Hsp & _ & Hco).
  destruct (run_ready_ok ready advance _ _ w Hq) as (w' & Hr & He & Hfu & Htk & Hs & Hc).
  { apply NoDup_seqZ. }
  { intros i Hi%elem_of_seqZ. exists (mkTask i (Some (mkWaker i))), (mkWaker i).
    rewrite Ht, bool_decide_true by lia. done. }
  exists w, w'. rewrite length_seqZ, Nat2Z.id in Hr. rewrite length_seqZ, Nat2Z.id, Hco in Hc.
  split_and!; try done; [by rewrite Hfu, Hf| |by rewrite Hs|apply Hc; unfold u64_max; lia].
  intros i. rewrite Htk, Ht. pose proof (elem_of_seqZ 0 (Z.of_nat k) i) as Hin.
  destruct (ready i) eqn:Hri; repeat case_bool_decide; rewrite is_Some_alt; naive_solver lia.
Qed.

Lemma executor_polls_witness : exists w w' : sys (list Z),
  boot [] 3 = Ret w /\ run_ready_tasks (quiet_poll (fun i => i =? 1) (fun i e => e ++ [i])) 4 w = Ret (tt, w') /\
  futures w' = [0; 1; 2] /\ tasks_completed (metrics w') = 1.
Proof.
  destruct (executor_polls_each_task_once ([] : list Z) 3 (fun i => i =? 1) (fun i e => e ++ [i]))
    as [(w & w' & H1 & H2 & H3 & _ & _ & _ & H4) _]; [lia|].
  exists w, w'. split; [exact H1|]. split; [exact H2|]. split; [exact H3|exact H4].
Defined.

(** ** Booting the machine *)

(** The other tasks. *)
Definition others_of (k : nat) (kb : Z) : gset Z := list_to_set (filter (fun i => i <> kb) (seqZ 0 (Z.of_nat k))).

Lemma others_not_kb k kb : kb ∉ others_of k kb.
Proof. unfold others_of. rewrite elem_of_list_to_set, list_elem_of_filter. by intros [? _]. Qed.

Lemma others_size k kb : (k <= 100)%nat -> 0 <= kb < Z.of_nat k -> (size (others_of k kb) <= 99)%nat.
Proof.
  intros Hk Hkb. unfold others_of. rewrite size_list_to_set by apply NoDup_filter, NoDup_seqZ.
  assert (length (filter (fun i => i <> kb) (seqZ 0 (Z.of_nat k))) < length (seqZ 0 (Z.of_nat k)))%nat.
  { apply (length_filter_lt _ _ kb); [apply elem_of_seqZ; lia|]. by intros []. }
  rewrite length_seqZ in *. lia.
Qed.

Lemma enrolled_inv k kb w : (k <= 100)%nat -> 0 <= kb < Z.of_nat k ->
  enrolled (mkKeyboard false []) k w -> inv kb (others_of k kb) 100 [] Popping w (seqZ 0 (Z.of_nat k)) [].
Proof.
  intros Hk Hkb (Hn & Hq & Ht & Hw & Hc & Hl & Hf).
  split.
  - split; [apply (queue_ok_mono (Z.of_nat k)); [done|lia]|]. split; [|apply NoDup_filter, NoDup_seqZ].
    intros i Hi. destruct (decide (i = kb)); [by left|right].
    unfold others_of. by rewrite elem_of_list_to_set, list_elem_of_filter.
  - unfold sq_ok. by rewrite Hf.
  - split; [rewrite Ht, bool_decide_true by lia; by eexists|].
    intros i t. rewrite Ht. case_bool_decide; [by intros [= <-]|done].
  - by left.
  - left. apply elem_of_seqZ. lia.
  - unfold delivery_ok. rewrite Hf. split; [constructor|done].
Qed.

Lemma enrolled_holds k kb w : (k <= 100)%nat -> 0 <= kb < Z.of_nat k ->
  enrolled (mkKeyboard false []) k w -> holds kb (others_of k kb) 100 [] Popping w.
Proof. intros Hk Hkb He. do 2 eexists. by apply enrolled_inv. Qed.

(** [s] is reached by a run of steps [ls] from an executor with [k] tasks, none of
    them polled yet, as it is when [kernel_main] calls [run]. *)
Definition reaches (k : nat) (kb : Z) (ls : list label) (s : pc * world) : Prop :=
  (k <= 100)%nat /\ 0 <= kb < Z.of_nat k /\ Z.of_nat (length ls) < 2 ^ 62 /\
  exists w, enrolled (mkKeyboard false []) k w /\ ArrayQueue.run (step kb) (Popping, w) ls s.

Lemma reaches_holds k kb ls p w : reaches k kb ls (p, w) ->
  holds kb (others_of k kb) (100 + Z.of_nat (length ls)) (typed_of ls) p w.
Proof.
  intros (Hk & Hkb & Hls & w0 & Hb & Hr).
  apply (run_ok kb (others_of k kb) (others_not_kb k kb) (others_size k kb Hk Hkb) ls 100 [] Popping w0);
    [lia|lia|by apply enrolled_holds|done].
Qed.

(** The keyboard task is between two polls. *)
Definition suspended (p : pc) : bool :=
  match p with Popping | PollOther _ _ | GoingIdle | Checking | Halted => true | _ => false end.

(** What is on the task queue and in the scancode queue. *)
Definition waiting (w : world) (tl sl : list Z) : Prop := exists n, queue_ok n (task_queue w) tl /\ sq_ok n w sl.

(** C3: no wake-up is lost. However the keyboard interrupt interleaves with the
    executor (between any two atomic actions, between the failed pop and the [hlt]
    included), the executor and the handler never panic; a scancode that waits
    while the keyboard task is not being polled has the task on the task queue; and
    the processor halts only when both queues are empty and the task's waker is in
    the cell for the next interrupt to find. *)
Theorem keyboard_no_lost_wakeup k kb ls p w :
  reaches k kb ls (p, w) ->
  (forall c, exists s, step kb (p, w) (LMain c) s) /\
  (p <> Checking -> forall key, exists s, step kb (p, w) (LKey key) s) /\
  exists tl sl, waiting w tl sl /\
    (suspended p = true -> sl <> [] -> kb ∈ tl) /\
    (p = Halted -> tl = [] /\ sl = [] /\ WAKER w = Some (create_waker kb)).
Proof.
  intros Hr. pose proof (reaches_holds _ _ _ _ _ Hr) as Hh. destruct Hr as (Hk & Hkb & Hls & _).
  pose proof (others_not_kb k kb) as Ho. pose proof (others_size k kb Hk Hkb) as Hs. split; [|split].
  - intros c. destruct Hh as (tl & sl & Hinv).
    destruct (main_ok kb _ Ho Hs (100 + Z.of_nat (length ls)) _ c p w tl sl ltac:(lia) Hinv) as (p' & w' & _ & _ & Hm & _).
    exists (p', w'). by constructor.
  - intros Hp key. destruct (key_ok kb _ Ho Hs (100 + Z.of_nat (length ls)) _ key p w ltac:(lia) Hh) as (w' & Hm & _).
    exists (after_irq p, w'). by constructor.
  - destruct Hh as (tl & sl & [Htq Hsq _ _ Hpc _]). exists tl, sl. split; [by eexists; split; [apply Htq|]|].
    assert (suspended p = true -> awake kb w tl sl) as Haw.
    { destruct p; simpl in *; try done; [|intros _; apply Hpc..]. intros _. apply Hpc. }
    split.
    + intros Hsu Hne. by destruct (Haw Hsu) as [?|(_ & _ & ?)].
    + intros ->. destruct Hpc as [[Hin|(_ & ? & ?)] ->]; [by apply not_elem_of_nil in Hin|done].
Qed.

(** Scancodes are delivered in order and exactly once: at every moment of every
    run, what the task has handled, then the one it holds, then what is queued, is
    the sequence of the keys' interrupts with at most some of them left out, and
    the interrupts left out each printed a warning; with no warning printed, it is
    exactly the sequence typed. *)
Theorem keyboard_delivers_in_order k kb ls p w :
  reaches k kb ls (p, w) ->
  exists tl sl, waiting w tl sl /\
    let got := handled (futures w) ++ inflight p ++ sl in
    got `sublist_of` typed_of ls /\ (console w = [] -> got = typed_of ls).
Proof.
  intros Hr. destruct (reaches_holds _ _ _ _ _ Hr) as (tl & sl & [Htq Hsq _ _ _ Hd]).
  exists tl, sl. split; [by eexists; split; [apply Htq|]|done].
Qed.

(** *** Draining *)

Section drain.
Context (kb : Z) (others : gset Z) (Hkb : kb ∉ others) (Hsize : (size others <= 99)%nat).

Lemma drain_ok m : forall n typed p w tl sl cs,
  0 <= n -> n + Z.of_nat m < 2 ^ 63 -> inv kb others n typed p w tl sl ->
  cost p tl sl <= Z.of_nat m -> length cs = m -> Yield ∉ cs ->
  exists cs' w', cs' `prefix_of` cs /\ ArrayQueue.run (step kb) (p, w) (map LMain cs') (Halted, w') /\
    holds kb others (n + Z.of_nat (length cs')) typed Halted w'.
Proof.
  induction m as [|m IH]; intros n typed p w tl sl cs Hn Hlt Hinv Hc Hl Hy.
  - assert (p = Halted) as -> by (unfold cost in Hc; destruct p; done || (repeat case_match; lia)).
    exists [], w. split; [apply prefix_nil|]. split; [constructor|]. rewrite Z.add_0_r. by exists tl, sl.
  - assert (p = Halted \/ p <> Halted) as [->|Hp] by (destruct p; (by left) || by right).
    { exists [], w. split; [apply prefix_nil|]. split; [constructor|]. rewrite Z.add_0_r. by exists tl, sl. }
    destruct cs as [|c cs]; [done|]. apply not_elem_of_cons in Hy as [Hyc Hy].
    destruct (main_ok kb others Hkb Hsize n typed c p w tl sl) as (p' & w' & tl' & sl' & Hm & Hinv' & Hcost);
      [lia|done|].
    destruct (IH (n + 1) typed p' w' tl' sl' cs) as (cs' & w2 & Hpre & Hrun & Hh); [lia|lia|done| |by injection Hl|done|].
    { specialize (Hcost Hp ltac:(congruence)). lia. }
    exists (c :: cs'), w2. split; [by apply prefix_cons|]. split; [econstructor; [by constructor|done]|].
    cbn [length]. by replace (n + Z.of_nat (S (length cs'))) with (n + 1 + Z.of_nat (length cs')) by lia.
Qed.
End drain.

Lemma cost_bound kb others n typed p w tl sl : inv kb others n typed p w tl sl -> cost p tl sl <= 1409.
Proof.
  intros [[[h [(_ & _ & _ & Hl & _) _]] _] Hsq _ _ _ _].
  assert (Z.of_nat (length sl) <= 100).
  { unfold sq_ok in Hsq. destruct (started (futures w)).
    - destruct Hsq as (q & _ & h' & (_ & _ & _ & Hl' & _) & _). done.
    - destruct Hsq as [_ ->]. simpl. lia. }
  unfold cost. destruct p; try lia; destruct tl; simpl in *; lia.
Qed.

(** The executor catches up. From any state it can be in, if no further
    interrupt comes and the other tasks finish or suspend when polled, it halts
    within 1409 steps, with both queues empty and every scancode that was not
    refused handled, in order. *)
Theorem keyboard_drains k kb ls p w cs :
  reaches k kb ls (p, w) -> length cs = 1409%nat -> Yield ∉ cs ->
  exists cs' w', cs' `prefix_of` cs /\ ArrayQueue.run (step kb) (p, w) (map LMain cs') (Halted, w') /\
    waiting w' [] [] /\ handled (futures w') `sublist_of` typed_of ls /\
    (console w' = [] -> handled (futures w') = typed_of ls).
Proof.
  intros Hr Hl Hy. destruct (reaches_holds _ _ _ _ _ Hr) as (tl & sl & Hinv).
  destruct Hr as (Hk & Hkb & Hls & _). pose proof (cost_bound _ _ _ _ _ _ _ _ Hinv).
  destruct (drain_ok kb _ (others_not_kb k kb) (others_size k kb Hk Hkb) 1409 (100 + Z.of_nat (length ls))
    (typed_of ls) p w tl sl cs) as (cs' & w' & Hpre & Hrun & tl' & sl' & [[Htq _] Hsq _ _ Hpc Hd]);
    [lia|lia|done|lia|done|done|].
  destruct Hpc as [[Hin|(_ & _ & ->)] ->]; [by apply not_elem_of_nil in Hin|].
  unfold delivery_ok in Hd. simpl in Hd. rewrite app_nil_r in Hd. destruct Hd as [Hd1 Hd2].
  exists cs', w'. split_and!; try done. by eexists.
Qed.

(** *** A run to look at *)

(** Run a list of steps. *)
Fixpoint exec (kb : Z) (ls : list label) (s : pc * world) : option (pc * world) :=
  match ls with
  | [] => Some s
  | LMain c :: ls' =>
      match main_step kb c s.1 s.2 with Ret s' => exec kb ls' s' | Crash _ => None end
  | LKey key :: ls' =>
      match s.1 with
      | Checking => None
      | p =>
          match keyboard_interrupt_handler key s.2 with
          | Ret (_, w') => exec kb ls' (after_irq p, w')
          | Crash _ => None
          end
      end
  end.

Lemma exec_run kb ls : forall s s', exec kb ls s = Some s' -> ArrayQueue.run (step kb) s ls s'.
Proof.
  induction ls as [|[c|key] ls IH]; intros [p w] s'; simpl.
  - intros [= <-]. constructor.
  - destruct (main_step kb c p w) as [[p1 w1]|] eqn:Hm; [|done]. intros He%IH.
    econstructor; [by constructor|done].
  - intros He. assert (p <> Checking) as Hp by by intros ->.
    destruct (keyboard_interrupt_handler key w) as [[[] w1]|] eqn:Hm; [|by destruct p].
    econstructor; [by constructor|]. apply IH. by destruct p.
Qed.

(** Two tasks, as at boot; a key comes after the stream's fast path found nothing,
    one after the waker was registered, one while the task is suspended. *)
Definition demo_keys : list label :=
  replicate 5 (LMain Finish) ++ [LKey 30] ++ [LMain Finish] ++ [LKey 31] ++ replicate 8 (LMain Finish) ++ [LKey 32].

Definition demo_start : world :=
  match boot (mkKeyboard false []) 2 with
  | Ret w => w
  | Crash _ => mkSys 0 ∅ (mkQueue 0 0 []) None uninit MonitorData_new [] (mkKeyboard false [])
  end.

Definition demo_state : pc * world := default (Halted, demo_start) (exec 1 demo_keys (Popping, demo_start)).

Lemma demo_start_enrolled : enrolled (mkKeyboard false []) 2 demo_start.
Proof.
  destruct (boot_spawned (mkKeyboard false []) 2) as (w & Hb & Hw & _); [lia|].
  unfold demo_start. rewrite Hb. exact Hw.
Qed.

Lemma demo_reaches : reaches 2 1 demo_keys (demo_state.1, demo_state.2).
Proof.
  split; [lia|]. split; [lia|]. split; [by vm_compute|]. exists demo_start. split; [exact demo_start_enrolled|].
  apply exec_run. vm_compute. reflexivity.
Defined.

Lemma keyboard_no_lost_wakeup_witness : exists tl sl,
  waiting demo_state.2 tl sl /\ (suspended demo_state.1 = true -> sl <> [] -> 1 ∈ tl).
Proof.
  destruct (keyboard_no_lost_wakeup 2 1 demo_keys demo_state.1 demo_state.2 demo_reaches)
    as (_ & _ & tl & sl & H1 & H2 & _).
  exists tl, sl. split; [exact H1|exact H2].
Defined.

Lemma keyboard_delivers_witness : exists tl sl, waiting demo_state.2 tl sl /\
  handled (futures demo_state.2) ++ inflight demo_state.1 ++ sl = [30; 31; 32].
Proof.
  destruct (keyboard_delivers_in_order 2 1 demo_keys demo_state.1 demo_state.2 demo_reaches)
    as (tl & sl & H1 & _ & H2).
  exists tl, sl. split; [exact H1|]. apply H2. vm_compute. reflexivity.
Defined.

Lemma keyboard_drains_witness : exists cs' w',
  ArrayQueue.run (step 1) (demo_state.1, demo_state.2) (map LMain cs') (Halted, w') /\ waiting w' [] [].
Proof.
  destruct (keyboard_drains 2 1 demo_keys demo_state.1 demo_state.2 (replicate 1409 Suspend) demo_reaches)
    as (cs' & w' & _ & H1 & H2 & _).
  - apply length_replicate.
  - intros H%elem_of_replicate. destruct H as [H _]. discriminate H.
  - exists cs', w'. split; [exact H1|exact H2].
Defined.
