(* ===== verification/Font.v ===== *)
(** * The bitmap font ([font.rs])

    The table of glyphs, one line of the source a line here: 16 rows of 8 pixels,
    most significant bit leftmost, printable ASCII and one fallback; the bytes are
    written in decimal. *)

From S2P Require Import Prelude.

Definition FONT_BASIC : list Z := [
  0; 0; 0; 0; 0; 0; 0; 0; 0; 0; 0; 0; 0; 0; 0; 0;
  0; 0; 24; 60; 60; 60; 24; 24; 24; 0; 24; 24; 0; 0; 0; 0;
  0; 102; 102; 102; 36; 0; 0; 0; 0; 0; 0; 0; 0; 0; 0; 0;
  0; 0; 0; 108; 108; 254; 108; 254; 108; 108; 0; 0; 0; 0; 0; 0;
  0; 16; 56; 120; 84; 84; 56; 124; 84; 84; 124; 40; 0; 0; 0; 0;
  0; 0; 0; 68; 198; 198; 108; 56; 24; 48; 118; 198; 68; 0; 0; 0;
  0; 0; 0; 56; 108; 108; 56; 118; 220; 204; 204; 118; 0; 0; 0; 0;
  0; 24; 24; 48; 0; 0; 0; 0; 0; 0; 0; 0; 0; 0; 0; 0;
  0; 0; 12; 24; 48; 48; 48; 48; 48; 24; 12; 0; 0; 0; 0; 0;
  0; 0; 48; 24; 12; 12; 12; 12; 12; 24; 48; 0; 0; 0; 0; 0;
  0; 0; 0; 0; 102; 60; 255; 60; 102; 0; 0; 0; 0; 0; 0; 0;
  0; 0; 0; 0; 24; 24; 126; 24; 24; 0; 0; 0; 0; 0; 0; 0;
  0; 0; 0; 0; 0; 0; 0; 0; 0; 24; 24; 48; 0; 0; 0; 0;
  0; 0; 0; 0; 0; 0; 126; 0; 0; 0; 0; 0; 0; 0; 0; 0;
  0; 0; 0; 0; 0; 0; 0; 0; 0; 24; 24; 0; 0; 0; 0; 0;
  0; 0; 0; 2; 6; 12; 24; 48; 96; 192; 128; 0; 0; 0; 0; 0;
  0; 0; 56; 108; 198; 198; 214; 214; 198; 198; 108; 56; 0; 0; 0; 0;
  0; 0; 24; 56; 120; 24; 24; 24; 24; 24; 24; 126; 0; 0; 0; 0;
  0; 0; 124; 198; 198; 6; 12; 24; 48; 96; 198; 254; 0; 0; 0; 0;
  0; 0; 124; 198; 198; 6; 60; 6; 6; 198; 198; 124; 0; 0; 0; 0;
  0; 0; 12; 28; 60; 108; 204; 204; 254; 12; 12; 12; 0; 0; 0; 0;
  0; 0; 254; 192; 192; 192; 252; 6; 6; 198; 198; 124; 0; 0; 0; 0;
  0; 0; 60; 96; 192; 192; 252; 198; 198; 198; 198; 124; 0; 0; 0; 0;
  0; 0; 254; 198; 6; 12; 24; 48; 48; 48; 48; 48; 0; 0; 0; 0;
  0; 0; 124; 198; 198; 198; 124; 198; 198; 198; 198; 124; 0; 0; 0; 0;
  0; 0; 124; 198; 198; 198; 126; 6; 6; 12; 24; 120; 0; 0; 0; 0;
  0; 0; 0; 0; 24; 24; 0; 0; 0; 24; 24; 0; 0; 0; 0; 0;
  0; 0; 0; 0; 24; 24; 0; 0; 0; 24; 24; 48; 0; 0; 0; 0;
  0; 0; 0; 6; 12; 24; 48; 96; 48; 24; 12; 6; 0; 0; 0; 0;
  0; 0; 0; 0; 0; 126; 0; 126; 0; 0; 0; 0; 0; 0; 0; 0;
  0; 0; 0; 96; 48; 24; 12; 6; 12; 24; 48; 96; 0; 0; 0; 0;
  0; 0; 124; 198; 198; 12; 24; 24; 24; 0; 24; 24; 0; 0; 0; 0;
  0; 0; 0; 124; 198; 198; 222; 222; 222; 220; 192; 124; 0; 0; 0; 0;
  0; 0; 16; 56; 108; 198; 198; 254; 198; 198; 198; 198; 0; 0; 0; 0;
  0; 0; 252; 102; 102; 102; 124; 102; 102; 102; 102; 252; 0; 0; 0; 0;
  0; 0; 60; 102; 194; 192; 192; 192; 192; 194; 102; 60; 0; 0; 0; 0;
  0; 0; 248; 108; 102; 102; 102; 102; 102; 102; 108; 248; 0; 0; 0; 0;
  0; 0; 254; 102; 98; 104; 120; 104; 96; 98; 102; 254; 0; 0; 0; 0;
  0; 0; 254; 102; 98; 104; 120; 104; 96; 96; 96; 240; 0; 0; 0; 0;
  0; 0; 60; 102; 194; 192; 192; 222; 198; 198; 102; 60; 0; 0; 0; 0;
  0; 0; 198; 198; 198; 198; 254; 198; 198; 198; 198; 198; 0; 0; 0; 0;
  0; 0; 60; 24; 24; 24; 24; 24; 24; 24; 24; 60; 0; 0; 0; 0;
  0; 0; 30; 12; 12; 12; 12; 12; 12; 204; 204; 120; 0; 0; 0; 0;
  0; 0; 230; 102; 102; 108; 120; 120; 108; 102; 102; 230; 0; 0; 0; 0;
  0; 0; 240; 96; 96; 96; 96; 96; 96; 98; 102; 254; 0; 0; 0; 0;
  0; 0; 198; 238; 254; 254; 214; 198; 198; 198; 198; 198; 0; 0; 0; 0;
  0; 0; 198; 230; 246; 254; 222; 206; 198; 198; 198; 198; 0; 0; 0; 0;
  0; 0; 124; 198; 198; 198; 198; 198; 198; 198; 198; 124; 0; 0; 0; 0;
  0; 0; 252; 102; 102; 102; 124; 96; 96; 96; 96; 240; 0; 0; 0; 0;
  0; 0; 124; 198; 198; 198; 198; 198; 198; 214; 222; 124; 6; 0; 0; 0;
  0; 0; 252; 102; 102; 102; 124; 108; 102; 102; 102; 230; 0; 0; 0; 0;
  0; 0; 124; 198; 198; 192; 96; 56; 12; 198; 198; 124; 0; 0; 0; 0;
  0; 0; 126; 90; 24; 24; 24; 24; 24; 24; 24; 60; 0; 0; 0; 0;
  0; 0; 198; 198; 198; 198; 198; 198; 198; 198; 198; 124; 0; 0; 0; 0;
  0; 0; 198; 198; 198; 198; 198; 198; 108; 108; 56; 56; 0; 0; 0; 0;
  0; 0; 198; 198; 198; 198; 214; 214; 214; 254; 108; 108; 0; 0; 0; 0;
  0; 0; 198; 198; 108; 108; 56; 56; 108; 108; 198; 198; 0; 0; 0; 0;
  0; 0; 102; 102; 102; 102; 60; 24; 24; 24; 24; 60; 0; 0; 0; 0;
  0; 0; 254; 198; 134; 12; 24; 48; 96; 194; 198; 254; 0; 0; 0; 0;
  0; 0; 60; 48; 48; 48; 48; 48; 48; 48; 48; 60; 0; 0; 0; 0;
  0; 0; 192; 96; 48; 24; 12; 6; 3; 1; 0; 0; 0; 0; 0; 0;
  0; 0; 60; 12; 12; 12; 12; 12; 12; 12; 12; 60; 0; 0; 0; 0;
  0; 16; 56; 108; 198; 0; 0; 0; 0; 0; 0; 0; 0; 0; 0; 0;
  0; 0; 0; 0; 0; 0; 0; 0; 0; 0; 0; 0; 0; 254; 0; 0;
  0; 48; 24; 12; 0; 0; 0; 0; 0; 0; 0; 0; 0; 0; 0; 0;
  0; 0; 0; 0; 0; 120; 12; 124; 204; 204; 204; 118; 0; 0; 0; 0;
  0; 0; 224; 96; 96; 120; 108; 102; 102; 102; 102; 124; 0; 0; 0; 0;
  0; 0; 0; 0; 0; 124; 198; 192; 192; 192; 198; 124; 0; 0; 0; 0;
  0; 0; 28; 12; 12; 60; 108; 204; 204; 204; 204; 118; 0; 0; 0; 0;
  0; 0; 0; 0; 0; 124; 198; 254; 192; 192; 198; 124; 0; 0; 0; 0;
  0; 0; 28; 54; 48; 48; 48; 252; 48; 48; 48; 48; 0; 0; 0; 0;
  0; 0; 0; 0; 0; 118; 204; 204; 204; 204; 204; 126; 12; 204; 120; 0;
  0; 0; 224; 96; 96; 120; 108; 102; 102; 102; 102; 230; 0; 0; 0; 0;
  0; 0; 24; 24; 0; 56; 24; 24; 24; 24; 24; 60; 0; 0; 0; 0;
  0; 0; 6; 6; 0; 30; 6; 6; 6; 6; 6; 102; 102; 60; 0; 0;
  0; 0; 192; 96; 96; 102; 108; 120; 112; 120; 108; 102; 0; 0; 0; 0;
  0; 0; 56; 24; 24; 24; 24; 24; 24; 24; 24; 60; 0; 0; 0; 0;
  0; 0; 0; 0; 0; 236; 254; 214; 214; 214; 198; 198; 0; 0; 0; 0;
  0; 0; 0; 0; 0; 220; 102; 102; 102; 102; 102; 102; 0; 0; 0; 0;
  0; 0; 0; 0; 0; 124; 198; 198; 198; 198; 198; 124; 0; 0; 0; 0;
  0; 0; 0; 0; 0; 220; 102; 102; 102; 102; 102; 124; 96; 96; 240; 0;
  0; 0; 0; 0; 0; 118; 204; 204; 204; 204; 204; 124; 12; 12; 30; 0;
  0; 0; 0; 0; 0; 220; 118; 102; 96; 96; 96; 240; 0; 0; 0; 0;
  0; 0; 0; 0; 0; 124; 198; 192; 96; 56; 12; 198; 124; 0; 0; 0;
  0; 0; 48; 48; 48; 252; 48; 48; 48; 48; 54; 28; 0; 0; 0; 0;
  0; 0; 0; 0; 0; 204; 204; 204; 204; 204; 204; 118; 0; 0; 0; 0;
  0; 0; 0; 0; 0; 198; 198; 198; 198; 108; 56; 56; 0; 0; 0; 0;
  0; 0; 0; 0; 0; 198; 198; 214; 214; 214; 254; 108; 0; 0; 0; 0;
  0; 0; 0; 0; 0; 198; 108; 56; 56; 108; 198; 198; 0; 0; 0; 0;
  0; 0; 0; 0; 0; 198; 198; 198; 198; 198; 198; 126; 6; 12; 120; 0;
  0; 0; 0; 0; 0; 254; 204; 24; 48; 96; 198; 254; 0; 0; 0; 0;
  0; 0; 14; 24; 24; 24; 112; 112; 24; 24; 24; 14; 0; 0; 0; 0;
  0; 0; 24; 24; 24; 24; 24; 24; 24; 24; 24; 24; 0; 0; 0; 0;
  0; 0; 112; 24; 24; 24; 14; 14; 24; 24; 24; 112; 0; 0; 0; 0;
  0; 0; 0; 0; 0; 118; 220; 0; 0; 0; 0; 0; 0; 0; 0; 0;
  255; 255; 255; 255; 255; 255; 255; 255; 255; 255; 255; 255; 255; 255; 255; 255
].

Definition CHAR_WIDTH : Z := 8.
Definition CHAR_HEIGHT : Z := 16.
Definition FONT_OFFSET : Z := 0x20.
Definition NUM_GLYPHS : Z := 96.
Definition FALLBACK_INDEX : Z := 95.

(** The row [row] of glyph [g] is a byte of the table. *)
Lemma font_lookup g row : 0 <= g <= FALLBACK_INDEX -> 0 <= row < CHAR_HEIGHT ->
  exists b, FONT_BASIC !! Z.to_nat (g * CHAR_HEIGHT + row) = Some b.
Proof.
  unfold FALLBACK_INDEX, CHAR_HEIGHT. intros Hg Hr.
  apply lookup_lt_is_Some_2. change (length FONT_BASIC) with 1536%nat. lia.
Qed.
