(* ===== verification/Framebuffer.v ===== *)
(** * The framebuffer console ([framebuffer.rs])

    Pixels, glyphs, scrolling, the escape-sequence state machine and the cursor,
    with index arithmetic overflow-checked as in the build. [FrameBufferInfo] and
    [PixelFormat] are the bootloader's descriptions of the screen. *)

From S2P Require Import Prelude Font.
Local Open Scope rust_scope.

Definition CURSOR_HEIGHT : Z := 2.
Definition MIN_SCALE : Z := 1.
Definition MAX_SCALE : Z := 4.

Notation rgb := (Z * Z * Z)%type.

Definition ANSI_COLORS : list rgb :=
  [(0, 0, 0); (170, 0, 0); (0, 170, 0); (170, 85, 0);
   (0, 0, 170); (170, 0, 170); (0, 170, 170); (170, 170, 170)].

Inductive EscapeState := Normal | SawEsc | SawBracket | InCsi.

(** The formats the code tells apart. *)
Inductive PixelFormat := Rgb | Bgr | OtherFormat.

Record FrameBufferInfo := mkInfo {
  width : Z;
  height : Z;
  stride : Z;
  bytes_per_pixel : Z;
  pixel_format : PixelFormat
}.

Record FrameBufferWriter := mkWriter {
  buffer : list Z;
  info : FrameBufferInfo;
  x_pos : Z;
  y_pos : Z;
  fg : rgb;
  bg : rgb;
  scale_factor : Z;
  escape_state : EscapeState;
  csi_buf : list Z;
  csi_pos : Z;
  cursor_shown : bool
}.

Definition new (buf : list Z) (i : FrameBufferInfo) : FrameBufferWriter :=
  mkWriter buf i 0 0 (170, 170, 170) (0, 0, 0) 1 Normal (replicate 8 0) 0 false.

Notation W := FrameBufferWriter.

Definition set_buffer (b : list Z) (w : W) : W :=
  mkWriter b (info w) (x_pos w) (y_pos w) (fg w) (bg w) (scale_factor w) (escape_state w)
    (csi_buf w) (csi_pos w) (cursor_shown w).
Definition set_pos (x y : Z) (w : W) : W :=
  mkWriter (buffer w) (info w) x y (fg w) (bg w) (scale_factor w) (escape_state w)
    (csi_buf w) (csi_pos w) (cursor_shown w).
Definition set_colors (f b : rgb) (w : W) : W :=
  mkWriter (buffer w) (info w) (x_pos w) (y_pos w) f b (scale_factor w) (escape_state w)
    (csi_buf w) (csi_pos w) (cursor_shown w).
Definition set_scale (s : Z) (w : W) : W :=
  mkWriter (buffer w) (info w) (x_pos w) (y_pos w) (fg w) (bg w) s (escape_state w)
    (csi_buf w) (csi_pos w) (cursor_shown w).
Definition set_escape (e : EscapeState) (w : W) : W :=
  mkWriter (buffer w) (info w) (x_pos w) (y_pos w) (fg w) (bg w) (scale_factor w) e
    (csi_buf w) (csi_pos w) (cursor_shown w).
Definition set_csi (b : list Z) (p : Z) (w : W) : W :=
  mkWriter (buffer w) (info w) (x_pos w) (y_pos w) (fg w) (bg w) (scale_factor w) (escape_state w)
    b p (cursor_shown w).
Definition set_shown (b : bool) (w : W) : W :=
  mkWriter (buffer w) (info w) (x_pos w) (y_pos w) (fg w) (bg w) (scale_factor w) (escape_state w)
    (csi_buf w) (csi_pos w) b.

Definition cell_width (w : W) : outcome Z := CHAR_WIDTH *? scale_factor w.
Definition cell_height (w : W) : outcome Z := CHAR_HEIGHT *? scale_factor w.

Definition len (w : W) : Z := Z.of_nat (length (buffer w)).

(** [(y * stride + x) * bytes_per_pixel] *)
Definition pixel_offset (i : FrameBufferInfo) (x y : Z) : outcome Z :=
  row ← y *? stride i;
  idx ← row +? x;
  idx *? bytes_per_pixel i.

(** [self.buffer[i] = v] *)
Definition store_byte (i v : Z) : M W unit :=
  w ← get;
  b ← lift (store_index (buffer w) i v);
  modify (set_buffer b).

Definition write_pixel (x y : Z) (c : rgb) : M W unit :=
  let '(r, g, b) := c in
  w ← get;
  if (width (info w) <=? x) || (height (info w) <=? y) then mret tt
  else
    offset ← lift (pixel_offset (info w) x y);
    last ← lift (offset +? 2);
    if len w <=? last then mret tt
    else
      match pixel_format (info w) with
      | Bgr =>
          _ ← store_byte offset b;
          _ ← store_byte (offset + 1) g;
          store_byte (offset + 2) r
      | _ =>
          _ ← store_byte offset r;
          _ ← store_byte (offset + 1) g;
          store_byte (offset + 2) b
      end.

Definition glyph_index (c : Z) : Z :=
  if (FONT_OFFSET <=? c) && (c <? FONT_OFFSET + FALLBACK_INDEX) then c - FONT_OFFSET
  else FALLBACK_INDEX.

(** [base + i * s + j] *)
Definition coord (base i s j : Z) : outcome Z :=
  a ← i *? s;
  b ← base +? a;
  b +? j.

Definition draw_char (x y c : Z) : M W unit :=
  glyph_start ← lift (glyph_index c *? CHAR_HEIGHT);
  w ← get;
  let s := scale_factor w in
  for_range (Z.to_nat CHAR_HEIGHT) 0 (fun row =>
    i ← lift (glyph_start +? row);
    glyph_byte ← lift (index FONT_BASIC i);
    for_range (Z.to_nat CHAR_WIDTH) 0 (fun col =>
      w ← get;
      let color := if Z.testbit glyph_byte (7 - col) then fg w else bg w in
      for_range (Z.to_nat s) 0 (fun sy =>
        for_range (Z.to_nat s) 0 (fun sx =>
          px ← lift (coord x col s sx);
          py ← lift (coord y row s sy);
          write_pixel px py color)))).

(** [self.buffer[a..b].fill(0)] *)
Definition fill_zero (a b : Z) : M W unit :=
  w ← get;
  if (a <=? b) && (b <=? len w) then
    modify (set_buffer (take (Z.to_nat a) (buffer w) ++ replicate (Z.to_nat (b - a)) 0 ++
                        drop (Z.to_nat b) (buffer w)))
  else crash (Panic "slice index out of range").

(** [self.buffer.copy_within(a..b, 0)] *)
Definition copy_to_front (a b : Z) : M W unit :=
  w ← get;
  if (a <=? b) && (b <=? len w) then
    let part := take (Z.to_nat (b - a)) (drop (Z.to_nat a) (buffer w)) in
    modify (set_buffer (part ++ drop (length part) (buffer w)))
  else crash (Panic "slice index out of range").

Definition clear_row (y : Z) : M W unit :=
  w ← get;
  ch ← lift (cell_height w);
  row_start ← lift (a ← y *? stride (info w); a *? bytes_per_pixel (info w));
  row_end ← lift (e ← y +? ch; a ← e *? stride (info w); a *? bytes_per_pixel (info w));
  if row_end <=? len w then fill_zero row_start row_end else mret tt.

Definition scroll_up : M W unit :=
  w ← get;
  ch ← lift (cell_height w);
  bytes_per_char_row ← lift (a ← stride (info w) *? bytes_per_pixel (info w); a *? ch);
  total_bytes ← lift (a ← height (info w) *? stride (info w); a *? bytes_per_pixel (info w));
  if total_bytes <=? bytes_per_char_row then mret tt
  else
    _ ← copy_to_front bytes_per_char_row total_bytes;
    clear_start ← lift (total_bytes -? bytes_per_char_row);
    fill_zero clear_start total_bytes.

Definition new_line : M W unit :=
  w ← get;
  ch ← lift (cell_height w);
  y ← lift (y_pos w +? ch);
  _ ← modify (set_pos 0 y);
  bottom ← lift (y +? ch);
  if height (info w) <? bottom then
    _ ← scroll_up;
    y' ← lift (y -? ch);
    modify (set_pos 0 y')
  else mret tt.

(** ** Escape sequences *)

Definition is_ascii_digit (b : Z) : bool := (48 <=? b) && (b <=? 57).

(** [s.split(';').next()]: the bytes before the first [;]. *)
Fixpoint first_field (s : list Z) : list Z :=
  match s with
  | [] => []
  | b :: s' => if b =? 59 then [] else b :: first_field s'
  end.

(** [s.parse::<u32>().ok()] of a string of digits and semicolons. *)
Fixpoint parse_digits (acc : Z) (s : list Z) : option Z :=
  match s with
  | [] => Some acc
  | b :: s' =>
      if is_ascii_digit b then
        let v := acc * 10 + (b - 48) in
        if v <=? u32_max then parse_digits v s' else None
      else None
  end.
Definition parse_u32 (s : list Z) : option Z :=
  match s with [] => None | _ => parse_digits 0 s end.

(** The first parameter of the sequence, 0 when there is none or it is no number.
    [csi_buf] holds ASCII digits and semicolons only, so [from_utf8] succeeds. *)
Definition sgr_param (w : W) : outcome Z :=
  if csi_pos w <=? Z.of_nat (length (csi_buf w)) then
    Ret (default 0 (parse_u32 (first_field (take (Z.to_nat (csi_pos w)) (csi_buf w)))))
  else Crash (Panic "slice index out of range").

Definition apply_sgr : M W unit :=
  w ← get;
  param ← lift (sgr_param w);
  if param =? 0 then modify (set_colors (170, 170, 170) (0, 0, 0))
  else if (30 <=? param) && (param <=? 37) then
    c ← lift (index ANSI_COLORS (param - 30));
    modify (set_colors c (bg w))
  else if (40 <=? param) && (param <=? 47) then
    c ← lift (index ANSI_COLORS (param - 40));
    modify (set_colors (fg w) c)
  else mret tt.

(** ** The cursor *)

(** The block of [erase_cursor] and [draw_cursor]. *)
Definition cursor_block (c : rgb) : M W unit :=
  w ← get;
  cw ← lift (cell_width w);
  ch ← lift (cell_height w);
  cursor_h ← lift (CURSOR_HEIGHT *? scale_factor w);
  cursor_y ← lift (a ← y_pos w +? ch; a -? cursor_h);
  for_range (Z.to_nat cursor_h) 0 (fun y =>
    for_range (Z.to_nat cw) 0 (fun x =>
      px ← lift (x_pos w +? x);
      py ← lift (cursor_y +? y);
      write_pixel px py c)).

Definition erase_cursor : M W unit :=
  w ← get;
  if negb (cursor_shown w) then mret tt
  else
    _ ← cursor_block (bg w);
    modify (set_shown false).

Definition draw_cursor : M W unit :=
  w ← get;
  if cursor_shown w then mret tt
  else
    _ ← cursor_block (fg w);
    modify (set_shown true).

(** ** Bytes and strings *)

(** [write_byte] in the state [Normal]. *)
Definition write_normal (byte : Z) : M W unit :=
  w ← get;
  cw ← lift (cell_width w);
  if byte =? 0x1b then modify (set_escape SawEsc)
  else if byte =? 10 then
    _ ← erase_cursor;
    _ ← new_line;
    draw_cursor
  else if byte =? 0x08 then
    _ ← erase_cursor;
    _ ← (w ← get; if cw <=? x_pos w then modify (set_pos (x_pos w - cw) (y_pos w)) else mret tt);
    draw_cursor
  else
    right ← lift (x_pos w +? cw);
    _ ← (if width (info w) <? right then _ ← erase_cursor; new_line else mret tt);
    w ← get;
    _ ← draw_char (x_pos w) (y_pos w) byte;
    _ ← modify (set_shown false);
    x ← lift (x_pos w +? cw);
    _ ← modify (set_pos x (y_pos w));
    draw_cursor.

Definition is_param (byte : Z) : bool := is_ascii_digit byte || (byte =? 59).

Definition write_byte (byte : Z) : M W unit :=
  w ← get;
  match escape_state w with
  | Normal => write_normal byte
  | SawEsc => modify (set_escape (if byte =? 91 then SawBracket else Normal))
  | SawBracket =>
      if is_param byte then
        _ ← modify (set_escape InCsi);
        b ← lift (store_index (csi_buf w) 0 byte);
        modify (set_csi b 1)
      else modify (set_escape Normal)
  | InCsi =>
      if is_param byte && (csi_pos w <? Z.of_nat (length (csi_buf w))) then
        b ← lift (store_index (csi_buf w) (csi_pos w) byte);
        modify (set_csi b (csi_pos w + 1))
      else if byte =? 109 then
        _ ← apply_sgr;
        modify (set_escape Normal)
      else modify (set_escape Normal)
  end.

(** What [write_string] makes of a byte. *)
Definition shown_byte (b : Z) : Z :=
  if ((0x20 <=? b) && (b <=? 0x7e)) || (b =? 10) || (b =? 0x08) || (b =? 0x1b) then b else 0xfe.

Definition write_string (s : list Z) : M W unit := for_each s (fun b => write_byte (shown_byte b)).

Definition read_pixel (w : W) (x y : Z) : outcome (option rgb) :=
  if (width (info w) <=? x) || (height (info w) <=? y) then Ret None
  else
    offset ← pixel_offset (info w) x y;
    last ← offset +? 2;
    if len w <=? last then Ret None
    else
      b0 ← index (buffer w) offset;
      b1 ← index (buffer w) (offset + 1);
      b2 ← index (buffer w) (offset + 2);
      Ret (Some (match pixel_format (info w) with Bgr => (b2, b1, b0) | _ => (b0, b1, b2) end)).

Definition cursor_position (w : W) : Z * Z := (x_pos w, y_pos w).
Definition dimensions (w : W) : Z * Z := (width (info w), height (info w)).

Definition clear_screen : M W unit :=
  _ ← modify (fun w => set_buffer (replicate (length (buffer w)) 0) w);
  _ ← modify (set_pos 0 0);
  _ ← modify (set_shown false);
  draw_cursor.

Definition set_cursor (x y : Z) : M W unit :=
  _ ← erase_cursor;
  _ ← modify (set_pos x y);
  draw_cursor.

Definition scale_up : M W bool :=
  w ← get;
  if MAX_SCALE <=? scale_factor w then mret false
  else
    _ ← modify (set_scale (scale_factor w + 1));
    _ ← clear_screen;
    mret true.

Definition scale_down : M W bool :=
  w ← get;
  if scale_factor w <=? MIN_SCALE then mret false
  else
    _ ← modify (set_scale (scale_factor w - 1));
    _ ← clear_screen;
    mret true.

(** [init]: what becomes of the static [FRAMEBUFFER]. *)
Definition init (buf : list Z) (i : FrameBufferInfo) : outcome (option W) :=
  match clear_screen (new buf i) with
  | Ret (_, w) => Ret (Some w)
  | Crash f => Crash f
  end.

(** [with_framebuffer_mut] on the static. *)
Definition with_framebuffer_mut {A} (f : M W A) : M (option W) (option A) := fun s =>
  match s with
  | None => Ret (None, None)
  | Some w => match f w with Ret (a, w') => Ret (Some a, Some w') | Crash e => Crash e end
  end.
