(* ===== verification/FramebufferInv.v ===== *)
(** * Painting

    What the drawing code does to the screen, stated on pixels: [px] is the colour
    of a pixel, [paints D C w w'] says that [w'] differs from [w] in the pixels of
    [D] only, which have the colours [C]. Every loop of the drawing code paints. *)

From S2P Require Import Prelude Font Framebuffer.
Local Open Scope rust_scope.

(** A screen the code can draw on: whole pixels of three to eight bytes, all inside
    the buffer, and sizes far from the edge of [usize]. *)
Record info_ok (i : FrameBufferInfo) (n : Z) : Prop := {
  ok_width : 0 < width i <= stride i;
  ok_height : 0 < height i;
  ok_bpp : 3 <= bytes_per_pixel i;
  ok_bpp_max : bytes_per_pixel i <= 8;
  ok_stride : stride i < 2 ^ 30;
  ok_height_max : height i < 2 ^ 30;
  ok_bytes : height i * stride i * bytes_per_pixel i <= n;
  ok_len : n < 2 ^ 62
}.

Definition fb_ok (w : FrameBufferWriter) : Prop := info_ok (info w) (len w).

(** Where pixel [(x, y)] starts in the buffer. *)
Definition at_px (i : FrameBufferInfo) (x y : Z) : Z := (y * stride i + x) * bytes_per_pixel i.

Definition on_screen (w : FrameBufferWriter) (x y : Z) : Prop :=
  0 <= x < width (info w) /\ 0 <= y < height (info w).

Definition byte_at (b : list Z) (i : Z) : Z := nth (Z.to_nat i) b 0.

(** The colour of a pixel. *)
Definition px (w : FrameBufferWriter) (x y : Z) : rgb :=
  let o := at_px (info w) x y in
  let b0 := byte_at (buffer w) o in
  let b1 := byte_at (buffer w) (o + 1) in
  let b2 := byte_at (buffer w) (o + 2) in
  match pixel_format (info w) with Bgr => (b2, b1, b0) | _ => (b0, b1, b2) end.

Lemma px_range i n x y : info_ok i n -> 0 <= x < width i -> 0 <= y < height i ->
  0 <= y * stride i /\ 0 <= y * stride i + x < height i * stride i /\
  0 <= at_px i x y /\ at_px i x y + 3 <= height i * stride i * bytes_per_pixel i <= n.
Proof.
  intros [Hw Hh Hb _ _ _ Hn _] Hx Hy. unfold at_px.
  assert (0 <= y * stride i) by nia. assert (y * stride i + x < height i * stride i) by nia.
  split; [done|]. split; [lia|]. split; [nia|].
  assert ((y * stride i + x) * bytes_per_pixel i + bytes_per_pixel i <= height i * stride i * bytes_per_pixel i) by nia.
  lia.
Qed.

Lemma px_below i n x y : info_ok i n -> 0 <= x -> height i <= y ->
  height i * stride i * bytes_per_pixel i <= at_px i x y.
Proof.
  intros [Hw Hh Hb _ _ _ _ _] Hx Hy. unfold at_px. apply Z.mul_le_mono_nonneg_r; [lia|]. nia.
Qed.

Lemma px_down i x y d : stride i * bytes_per_pixel i * d + at_px i x y = at_px i x (y + d).
Proof. unfold at_px. ring. Qed.

(** Different pixels do not share a byte. *)
Lemma px_apart i n x y x' y' : info_ok i n ->
  0 <= x < width i -> 0 <= y < height i -> 0 <= x' < width i -> 0 <= y' < height i ->
  (x, y) <> (x', y') -> at_px i x y + 3 <= at_px i x' y' \/ at_px i x' y' + 3 <= at_px i x y.
Proof.
  intros [Hw Hh Hb _ _ _ _ _] Hx Hy Hx' Hy' Hne. unfold at_px.
  assert (y * stride i + x <> y' * stride i + x') as Hidx.
  { intros He. apply Hne. assert (y = y') as -> by nia. f_equal. lia. }
  destruct (Z.lt_total (y * stride i + x) (y' * stride i + x')) as [H|[H|H]]; [left|done|right]; nia.
Qed.

Lemma pixel_offset_ok i n x y (Q : Z -> Prop) : info_ok i n -> 0 <= x < width i -> 0 <= y < height i ->
  Q (at_px i x y) -> returns (pixel_offset i x y) Q.
Proof.
  intros Hok Hx Hy HQ. pose proof (px_range i n x y Hok Hx Hy) as (H1 & H2 & H3 & H4).
  pose proof (ok_len i n Hok). pose proof (ok_bpp i n Hok). unfold pixel_offset, at_px in *.
  assert (y * stride i + x <= (y * stride i + x) * bytes_per_pixel i).
  { rewrite <- (Z.mul_1_r (_ + _)) at 1. apply Z.mul_le_mono_nonneg_l; lia. }
  wp_steps; [unfold u64_max; lia..|done].
Qed.

Lemma byte_at_insert b i j v : 0 <= i < Z.of_nat (length b) -> 0 <= j ->
  byte_at (<[Z.to_nat i := v]> b) j = if j =? i then v else byte_at b j.
Proof.
  intros Hi Hj. unfold byte_at. rewrite !nth_lookup. destruct (Z.eqb_spec j i) as [->|Hne].
  - by rewrite list_lookup_insert_eq by lia.
  - by rewrite list_lookup_insert_ne by lia.
Qed.

(** Two writers that differ in the buffer's contents only. *)
Definition same_but_buffer (w w' : FrameBufferWriter) : Prop :=
  exists b, w' = set_buffer b w /\ length b = length (buffer w).

Lemma same_refl w : same_but_buffer w w.
Proof. exists (buffer w). split; [by destruct w|done]. Qed.

Lemma same_trans w1 w2 w3 : same_but_buffer w1 w2 -> same_but_buffer w2 w3 -> same_but_buffer w1 w3.
Proof. intros (b & -> & Hb) (b' & -> & Hb'). exists b'. split; [done|]. simpl in *. congruence. Qed.

Lemma same_fb_ok w w' : same_but_buffer w w' -> fb_ok w -> fb_ok w'.
Proof. intros (b & -> & Hb). unfold fb_ok, len. simpl. by rewrite Hb. Qed.

Definition paints (D : Z -> Z -> Prop) (C : Z -> Z -> rgb) (w w' : FrameBufferWriter) : Prop :=
  same_but_buffer w w' /\
  forall x y, on_screen w x y ->
    (D x y -> px w' x y = C x y) /\ (~ D x y -> px w' x y = px w x y).

Lemma paints_nothing C w : paints (fun _ _ => False) C w w.
Proof. split; [apply same_refl|done]. Qed.

Lemma paints_iff D D' C C' w w' :
  (forall x y, on_screen w x y -> D x y <-> D' x y) ->
  (forall x y, D' x y -> C x y = C' x y) -> paints D C w w' -> paints D' C' w w'.
Proof.
  intros HD HC [Hs Hp]. split; [done|]. intros x y Hxy. specialize (HD x y Hxy).
  destruct (Hp x y Hxy) as [H1 H2]. split; [intros Hd; rewrite <- HC by done; tauto|tauto].
Qed.

(** Three bytes stored one after the other. *)
Lemma store3_ok o b0 b1 b2 w (Q : unit -> FrameBufferWriter -> Prop) :
  0 <= o -> o + 3 <= len w ->
  Q tt (set_buffer (<[Z.to_nat (o + 2) := b2]> (<[Z.to_nat (o + 1) := b1]> (<[Z.to_nat o := b0]> (buffer w)))) w) ->
  wp (_ ← store_byte o b0; _ ← store_byte (o + 1) b1; store_byte (o + 2) b2) Q w.
Proof.
  unfold len. intros Ho Hl HQ. unfold store_byte. wp_steps.
  apply returns_store_index; [lia|]. wp_steps. simpl.
  apply returns_store_index; [rewrite length_insert; lia|]. wp_steps. simpl.
  apply returns_store_index; [rewrite !length_insert; lia|]. wp_steps. done.
Qed.

Lemma write_pixel_paints x y c w : fb_ok w -> 0 <= x -> 0 <= y ->
  wp (write_pixel x y c) (fun _ w' => paints (fun x' y' => x' = x /\ y' = y) (fun _ _ => c) w w') w.
Proof.
  intros Hok Hx Hy. destruct c as [[r g] b]. unfold write_pixel. wp_steps.
  destruct ((width (info w) <=? x) || (height (info w) <=? y)) eqn:Hout.
  - apply wp_ret. apply orb_true_iff in Hout. rewrite !Z.leb_le in Hout.
    eapply paints_iff; [|done|apply (paints_nothing (fun _ _ => (r, g, b)))].
    intros x' y' [? ?]. lia.
  - apply orb_false_iff in Hout. rewrite !Z.leb_gt in Hout. destruct Hout as [Hxw Hyh].
    pose proof (px_range _ _ x y Hok (conj Hx Hxw) (conj Hy Hyh)) as (_ & _ & Ho & Hl).
    wp_step. apply wp_lift. apply (pixel_offset_ok _ _ x y _ Hok); [done|done|].
    set (o := at_px (info w) x y) in *.
    wp_steps; [destruct Hok; unfold u64_max; lia|].
    destruct (Z.leb_spec (len w) (o + 2)); [lia|].
    assert (forall v0 v1 v2, let w' := set_buffer (<[Z.to_nat (o + 2) := v2]> (<[Z.to_nat (o + 1) := v1]>
        (<[Z.to_nat o := v0]> (buffer w)))) w in
      (match pixel_format (info w) with Bgr => (v2, v1, v0) | _ => (v0, v1, v2) end) = (r, g, b) ->
      paints (fun x' y' => x' = x /\ y' = y) (fun _ _ => (r, g, b)) w w') as Hmain.
    { intros v0 v1 v2 w' Hc. split.
      { exists (buffer w'). split; [done|]. simpl. by rewrite !length_insert. }
      intros x' y' [Hx' Hy']. pose proof (px_range _ _ x' y' Hok Hx' Hy') as (_ & _ & Ho' & Hl').
      assert (forall j, 0 <= j -> byte_at (buffer w') j =
        if j =? o + 2 then v2 else if j =? o + 1 then v1 else if j =? o then v0 else byte_at (buffer w) j) as Hb.
      { intros j Hj. simpl. unfold len in *. rewrite !byte_at_insert by (rewrite ?length_insert; lia). done. }
      unfold px. change (info w') with (info w). rewrite !Hb by lia. split.
      - intros [-> ->]. fold o. rewrite !Z.eqb_refl.
        rewrite (proj2 (Z.eqb_neq o (o + 2))), (proj2 (Z.eqb_neq o (o + 1))), (proj2 (Z.eqb_neq (o + 1) (o + 2))) by lia.
        exact Hc.
      - intros Hne. assert ((x, y) <> (x', y')) as Hxy by (intros [= -> ->]; tauto).
        pose proof (px_apart _ _ x y x' y' Hok (conj Hx Hxw) (conj Hy Hyh) Hx' Hy' Hxy) as Hap. fold o in Hap.
        by rewrite !(proj2 (Z.eqb_neq _ _)) by lia. }
    destruct (pixel_format (info w)) eqn:Hf; (apply store3_ok; [lia|lia|]; apply Hmain; by rewrite ?Hf).
Qed.

(** A loop of painters paints the union. *)
Lemma paints_loop n start body (D : Z -> Z -> Z -> Prop) C w :
  (forall i x y, Decision (D i x y)) -> fb_ok w ->
  (forall i w1, start <= i < start + Z.of_nat n -> fb_ok w1 -> same_but_buffer w w1 ->
     wp (body i) (fun _ w' => paints (D i) C w1 w') w1) ->
  wp (for_range n start body)
     (fun _ w' => paints (fun x y => exists i, start <= i < start + Z.of_nat n /\ D i x y) C w w') w.
Proof.
  intros Hdec Hok Hbody.
  apply (wp_for_range (fun i w' => paints (fun x y => exists j, start <= j < i /\ D j x y) C w w')).
  - intros i w1 Hi [Hs Hp]. eapply wp_mono; [apply Hbody; [done|by apply (same_fb_ok w)|done]|].
    intros _ w2 [Hs2 Hp2]. split; [by apply (same_trans w w1)|]. intros x y Hxy.
    destruct (Hp x y Hxy) as [H1 H2].
    assert (on_screen w1 x y) as Hxy1 by (destruct Hs as (b & -> & _); exact Hxy).
    destruct (Hp2 x y Hxy1) as [H3 H4]. destruct (Hdec i x y) as [Hd|Hd].
    + split; [intros _; by apply H3|]. intros Hn. destruct Hn. exists i. split; [lia|done].
    + rewrite H4 by done. split.
      * intros (j & Hj & Hdj). apply H1. exists j. split; [|done].
        assert (j <> i) by (intros ->; done). lia.
      * intros Hn. apply H2. intros (j & Hj & Hdj). apply Hn. exists j. split; [lia|done].
  - eapply paints_iff; [|done|apply (paints_nothing C)]. intros x y _. split; [done|].
    intros (j & Hj & Hd). lia.
Qed.

(** The same, with the union given. *)
Lemma paints_loop_to n start body (D : Z -> Z -> Z -> Prop) (D' : Z -> Z -> Prop) C w :
  (forall i x y, Decision (D i x y)) -> fb_ok w ->
  (forall i w1, start <= i < start + Z.of_nat n -> fb_ok w1 -> same_but_buffer w w1 ->
     wp (body i) (fun _ w' => paints (D i) C w1 w') w1) ->
  (forall x y, (exists i, start <= i < start + Z.of_nat n /\ D i x y) <-> D' x y) ->
  wp (for_range n start body) (fun _ w' => paints D' C w w') w.
Proof.
  intros Hdec Hok Hbody HD. eapply wp_mono; [by apply (paints_loop n start body D C w)|].
  intros [] w'. apply paints_iff; [|done]. intros x y _. apply HD.
Qed.

(** ** What is drawn *)

(** The rectangle of [cw] by [ch] pixels at [(x, y)]. *)
Definition in_rect (x y cw ch x' y' : Z) : Prop := x <= x' < x + cw /\ y <= y' < y + ch.

Lemma rect_paints x y cw ch c w : fb_ok w -> 0 <= x -> 0 <= y -> 0 <= cw -> 0 <= ch ->
  x + cw < 2 ^ 40 -> y + ch < 2 ^ 40 ->
  wp (for_range (Z.to_nat ch) 0 (fun j => for_range (Z.to_nat cw) 0 (fun i =>
        px ← lift (x +? i); py ← lift (y +? j); write_pixel px py c)))
     (fun _ w' => paints (in_rect x y cw ch) (fun _ _ => c) w w') w.
Proof.
  intros Hok Hx Hy Hcw Hch Hbx Hby.
  apply (paints_loop_to _ _ _ (fun j x' y' => x <= x' < x + cw /\ y' = y + j)); [apply _|done| |].
  - intros j w1 Hj Hok1 _.
    apply (paints_loop_to _ _ _ (fun i x' y' => x' = x + i /\ y' = y + j)); [apply _|done| |].
    + intros i w2 Hi Hok2 _. wp_steps; [unfold u64_max; lia..|].
      eapply wp_mono; [apply write_pixel_paints; [done|lia|lia]|]. intros [] w'. done.
    + intros x' y'. split; [intros (i & ? & ?); lia|]. intros [? ?]. exists (x' - x). lia.
  - intros x' y'. unfold in_rect. split; [intros (j & ? & ?); lia|]. intros [? ?]. exists (y' - y). lia.
Qed.

(** The pixel of glyph [g] that covers [(x', y')] when drawn at [(x, y)], [s] times
    enlarged. *)
Definition glyph_bit (g s x y x' y' : Z) : bool :=
  Z.testbit (byte_at FONT_BASIC (g * CHAR_HEIGHT + (y' - y) / s)) (7 - (x' - x) / s).

Definition glyph_color (w : FrameBufferWriter) (g x y x' y' : Z) : rgb :=
  if glyph_bit g (scale_factor w) x y x' y' then fg w else bg w.

Lemma glyph_index_range c : 0 <= glyph_index c <= FALLBACK_INDEX.
Proof.
  unfold glyph_index, FONT_OFFSET, FALLBACK_INDEX.
  destruct ((32 <=? c) && (c <? 32 + 95)) eqn:H; [|lia].
  apply andb_true_iff in H. rewrite Z.leb_le, Z.ltb_lt in H. lia.
Qed.

Lemma div_block s i k : 0 < s -> 0 <= i -> i / s = k <-> k * s <= i < k * s + s.
Proof.
  intros Hs Hi. pose proof (Z.div_mod i s ltac:(lia)) as Hd. pose proof (Z.mod_pos_bound i s Hs) as Hm.
  split; [intros <-; nia|]. intros Hk. symmetry. apply (Z.div_unique_pos i s k (i - k * s)); lia.
Qed.

(** One pixel of the glyph, enlarged. *)
Lemma block_paints x y row col s c w : fb_ok w -> 0 <= x < 2 ^ 40 -> 0 <= y < 2 ^ 40 ->
  0 <= row < 16 -> 0 <= col < 8 -> 1 <= s <= 4 ->
  wp (for_range (Z.to_nat s) 0 (fun sy => for_range (Z.to_nat s) 0 (fun sx =>
        px ← lift (coord x col s sx); py ← lift (coord y row s sy); write_pixel px py c)))
     (fun _ w' => paints (in_rect (x + col * s) (y + row * s) s s) (fun _ _ => c) w w') w.
Proof.
  intros Hok Hx Hy Hrow Hcol Hs.
  apply (paints_loop_to _ _ _ (fun j x' y' => x + col * s <= x' < x + col * s + s /\ y' = y + row * s + j));
    [apply _|done| |].
  - intros j w1 Hj Hok1 _.
    apply (paints_loop_to _ _ _ (fun i x' y' => x' = x + col * s + i /\ y' = y + row * s + j)); [apply _|done| |].
    + intros i w2 Hi Hok2 _. unfold coord. wp_steps; [unfold u64_max; nia..|].
      eapply wp_mono; [apply write_pixel_paints; [done|nia|nia]|]. by intros [] w'.
    + intros x' y'. split; [intros (i & ? & ?); lia|]. intros [? ?]. exists (x' - (x + col * s)). lia.
  - intros x' y'. unfold in_rect. split; [intros (j & ? & ?); lia|]. intros [? ?].
    exists (y' - (y + row * s)). lia.
Qed.

Lemma draw_char_paints x y c w : fb_ok w -> 0 <= x < 2 ^ 40 -> 0 <= y < 2 ^ 40 -> 1 <= scale_factor w <= 4 ->
  wp (draw_char x y c)
     (fun _ w' => paints (in_rect x y (CHAR_WIDTH * scale_factor w) (CHAR_HEIGHT * scale_factor w))
                         (glyph_color w (glyph_index c) x y) w w') w.
Proof.
  intros Hok Hx Hy Hs. unfold draw_char. set (s := scale_factor w) in *.
  pose proof (glyph_index_range c) as Hg. set (g := glyph_index c) in *.
  unfold FALLBACK_INDEX, CHAR_HEIGHT, CHAR_WIDTH in *. wp_steps; [unfold u64_max; lia|]. fold s.
  apply (paints_loop_to _ _ _ (fun row x' y' => in_rect x (y + row * s) (8 * s) s x' y')); [intros; unfold in_rect; apply _|done| |].
  - intros row w1 Hrow Hok1 Hs1. wp_steps; [unfold u64_max; lia|].
    destruct (font_lookup g row) as [b Hb]; [by unfold FALLBACK_INDEX|unfold CHAR_HEIGHT; lia|].
    unfold CHAR_HEIGHT in Hb. apply (returns_index _ _ b); [lia|done|].
    apply (paints_loop_to _ _ _ (fun col x' y' => in_rect (x + col * s) (y + row * s) s s x' y'));
      [intros; unfold in_rect; apply _|done| |].
    + intros col w2 Hcol Hok2 Hs2. wp_steps.
      eapply wp_mono; [apply block_paints; [done|lia..]|]. intros [] w'.
      apply paints_iff; [done|]. intros x' y' [Hx' Hy'].
      assert (fg w2 = fg w /\ bg w2 = bg w) as [-> ->].
      { destruct Hs2 as (b2 & -> & _), Hs1 as (b1 & -> & _). done. }
      unfold glyph_color, glyph_bit. fold s. unfold CHAR_HEIGHT.
      rewrite (proj2 (div_block s (y' - y) row ltac:(lia) ltac:(nia))) by lia.
      rewrite (proj2 (div_block s (x' - x) col ltac:(lia) ltac:(nia))) by lia.
      unfold byte_at. by rewrite (nth_lookup_Some _ _ _ b Hb).
    + intros x' y'. unfold in_rect. split; [intros (col & ? & ?); nia|]. intros [? ?].
      exists ((x' - x) / s). pose proof (proj1 (div_block s (x' - x) _ ltac:(lia) ltac:(lia)) eq_refl) as Hd.
      split; [|lia]. nia.
  - intros x' y'. unfold in_rect. split; [intros (row & ? & ?); nia|]. intros [? ?].
    exists ((y' - y) / s). pose proof (proj1 (div_block s (y' - y) _ ltac:(lia) ltac:(lia)) eq_refl) as Hd.
    split; [|lia]. nia.
Qed.
