(* ===== verification/FramebufferOps.v ===== *)
(** * The operations of the console

    The invariant of the console and, for each operation, what it does to the
    picture, the cursor and the escape state. *)

From S2P Require Import Prelude Font Framebuffer FramebufferInv.
Local Open Scope rust_scope.

(** ** Scrolling *)

Lemma byte_at_app b1 b2 j : 0 <= j ->
  byte_at (b1 ++ b2) j = if j <? Z.of_nat (length b1) then byte_at b1 j else byte_at b2 (j - Z.of_nat (length b1)).
Proof.
  intros Hj. unfold byte_at. destruct (Z.ltb_spec j (Z.of_nat (length b1))).
  - by rewrite app_nth1 by lia.
  - rewrite app_nth2 by lia. f_equal. lia.
Qed.

Lemma byte_at_take b k j : 0 <= j < k -> byte_at (take (Z.to_nat k) b) j = byte_at b j.
Proof. intros Hj. unfold byte_at. rewrite !nth_lookup, lookup_take_lt by lia. done. Qed.

Lemma byte_at_drop b k j : 0 <= j -> 0 <= k -> byte_at (drop (Z.to_nat k) b) j = byte_at b (k + j).
Proof. intros Hj Hk. unfold byte_at. rewrite !nth_lookup, lookup_drop. do 2 f_equal. f_equal. lia. Qed.

Lemma byte_at_zero k j : byte_at (replicate k 0) j = 0.
Proof. unfold byte_at. rewrite nth_lookup. destruct (replicate k 0 !! _) eqn:H; [|done]. by apply lookup_replicate in H as [-> _]. Qed.

Lemma copy_ok a b w (Q : unit -> FrameBufferWriter -> Prop) : 0 <= a <= b -> b <= len w ->
  (forall buf, length buf = length (buffer w) ->
     (forall j, 0 <= j -> byte_at buf j = if j <? b - a then byte_at (buffer w) (a + j) else byte_at (buffer w) j) ->
     Q tt (set_buffer buf w)) ->
  wp (copy_to_front a b) Q w.
Proof.
  unfold len. intros Ha Hb HQ. unfold copy_to_front, len. wp_steps.
  rewrite (proj2 (Z.leb_le _ _)), (proj2 (Z.leb_le _ _)) by lia. simpl. wp_steps.
  set (part := take _ _). assert (Z.of_nat (length part) = b - a) as Hl.
  { unfold part. rewrite length_take, length_drop. lia. }
  apply HQ.
  - rewrite length_app, length_drop. lia.
  - intros j Hj. rewrite byte_at_app, Hl by done. destruct (Z.ltb_spec j (b - a)).
    + unfold part. by rewrite byte_at_take, byte_at_drop by lia.
    + rewrite <- (Nat2Z.id (length part)), Hl, byte_at_drop by lia. f_equal. lia.
Qed.

Lemma fill_ok a b w (Q : unit -> FrameBufferWriter -> Prop) : 0 <= a <= b -> b <= len w ->
  (forall buf, length buf = length (buffer w) ->
     (forall j, 0 <= j -> byte_at buf j = if (a <=? j) && (j <? b) then 0 else byte_at (buffer w) j) ->
     Q tt (set_buffer buf w)) ->
  wp (fill_zero a b) Q w.
Proof.
  unfold len. intros Ha Hb HQ. unfold fill_zero, len. wp_steps.
  rewrite (proj2 (Z.leb_le _ _)), (proj2 (Z.leb_le _ _)) by lia. simpl. wp_steps. apply HQ.
  - rewrite !length_app, length_take, length_replicate, length_drop. lia.
  - intros j Hj. rewrite byte_at_app, length_take by lia.
    replace (Z.of_nat (Z.to_nat a `min` length (buffer w))) with a by lia.
    destruct (Z.ltb_spec j a); [rewrite (proj2 (Z.leb_gt a j)) by lia; by rewrite byte_at_take by lia|].
    rewrite (proj2 (Z.leb_le a j)) by lia. simpl. rewrite byte_at_app, length_replicate, Z2Nat.id by lia.
    destruct (Z.ltb_spec j b); [rewrite (proj2 (Z.ltb_lt (j - a) (b - a))) by lia; apply byte_at_zero|].
    rewrite (proj2 (Z.ltb_ge (j - a) (b - a))), byte_at_drop by lia. f_equal. lia.
Qed.

(** The screen moved up by [ch] rows, black rows coming in. *)
Definition scrolled (ch : Z) (w w' : FrameBufferWriter) : Prop :=
  same_but_buffer w w' /\
  forall x y, on_screen w x y ->
    px w' x y = if y + ch <? height (info w) then px w x (y + ch) else (0, 0, 0).

Lemma cell_height_ok w (Q : Z -> Prop) : 1 <= scale_factor w <= 4 -> Q (16 * scale_factor w) ->
  returns (cell_height w) Q.
Proof. intros Hs HQ. unfold cell_height, CHAR_HEIGHT. wp_steps; [unfold u64_max; lia|done]. Qed.

Lemma cell_width_ok w (Q : Z -> Prop) : 1 <= scale_factor w <= 4 -> Q (8 * scale_factor w) ->
  returns (cell_width w) Q.
Proof. intros Hs HQ. unfold cell_width, CHAR_WIDTH. wp_steps; [unfold u64_max; lia|done]. Qed.

(** [scroll_up] on a screen higher than one line; on a lower one it does nothing. *)
Lemma scroll_up_ok w : fb_ok w -> 1 <= scale_factor w <= 4 ->
  wp scroll_up (fun _ w' =>
    if 16 * scale_factor w <? height (info w) then scrolled (16 * scale_factor w) w w' else w' = w) w.
Proof.
  intros Hok Hs. unfold scroll_up. set (ch := 16 * scale_factor w). set (i := info w).
  destruct Hok as [Hw Hh Hb Hb8 Hst Hm Hn Hl] eqn:Hok'. fold i in Hw, Hh, Hb, Hb8, Hst, Hm, Hn.
  assert (0 <= stride i * bytes_per_pixel i <= 2 ^ 33) by nia.
  assert (0 <= height i * stride i <= 2 ^ 60) by nia.
  wp_steps. apply cell_height_ok; [done|]. fold ch i.
  wp_steps; [unfold u64_max; (lia || nia)..|].
  destruct (Z.leb_spec (height i * stride i * bytes_per_pixel i) (stride i * bytes_per_pixel i * ch)) as [Hle|Hgt].
  - rewrite (proj2 (Z.ltb_ge ch (height i))) by nia. by wp_steps.
  - rewrite (proj2 (Z.ltb_lt ch (height i))) by nia.
    set (R := stride i * bytes_per_pixel i * ch) in *. set (T := height i * stride i * bytes_per_pixel i) in *.
    assert (0 <= R) by nia. wp_step. apply copy_ok; [lia|lia|]. intros b1 Hl1 Hb1. wp_steps.
    apply fill_ok; [lia|unfold len in *; simpl; lia|]. intros b2 Hl2 Hb2. simpl in Hl2.
    split; [exists b2; split; [done|lia]|]. intros x y [Hx Hy].
    pose proof (px_range i _ x y Hok Hx Hy) as (_ & _ & Ho & Ho2).
    unfold px. cbn [info set_buffer buffer]. fold i. rewrite !Hb2 by lia. cbn [buffer set_buffer]. rewrite !Hb1 by lia.
    pose proof (px_down i x y ch) as HR. fold R in HR.
    destruct (Z.ltb_spec (y + ch) (height i)) as [Hin|Hout].
    + pose proof (px_range i _ x (y + ch) Hok Hx ltac:(lia)) as (_ & _ & Ho' & Ho'2). fold T in Ho'2.
      rewrite !(proj2 (Z.leb_gt (T - R) _)) by lia. simpl. rewrite !(proj2 (Z.ltb_lt _ (T - R))) by lia.
      by rewrite !Z.add_assoc, HR.
    + pose proof (px_below i _ x (y + ch) Hok ltac:(lia) Hout) as Hbl. fold T in Hbl, Ho2.
      rewrite !(proj2 (Z.leb_le (T - R) _)), !(proj2 (Z.ltb_lt _ T)) by lia. simpl.
      by destruct (pixel_format i).
Qed.

(** ** The console's invariant *)

#[global] Instance in_rect_dec x y cw ch x' y' : Decision (in_rect x y cw ch x' y').
Proof. unfold in_rect. apply _. Defined.

Record con_ok (w : FrameBufferWriter) : Prop := {
  con_fb : fb_ok w;
  con_scale : 1 <= scale_factor w <= 4;
  con_x : 0 <= x_pos w <= Z.max (width (info w)) (8 * scale_factor w);
  con_y : 0 <= y_pos w /\ (y_pos w = 0 \/ y_pos w + 16 * scale_factor w <= height (info w));
  con_csi : length (csi_buf w) = 8%nat;
  con_csi_pos : 0 <= csi_pos w <= 8;
  con_csi_bytes : Forall (fun b => 0 <= b < 128) (csi_buf w)
}.

(** The screen itself is as it was: same description, same size. *)
Definition same_screen (w w' : FrameBufferWriter) : Prop :=
  info w' = info w /\ length (buffer w') = length (buffer w).

Lemma same_screen_ok w w' : same_screen w w' -> fb_ok w -> fb_ok w'.
Proof. intros [Hi Hl]. unfold fb_ok, len. by rewrite Hi, Hl. Qed.

Lemma con_ok_small w : con_ok w -> 0 <= x_pos w < 2 ^ 31 /\ 0 <= y_pos w < 2 ^ 31.
Proof. intros [[] Hs Hx Hy _ _ _]. lia. Qed.

Lemma same_con_ok w w' : same_but_buffer w w' -> con_ok w -> con_ok w'.
Proof.
  intros Hs [Hfb ? ? ? ? ? ?]. pose proof (same_fb_ok w w' Hs Hfb). destruct Hs as (b & -> & _).
  by split.
Qed.

Lemma same_shown_ok w b : con_ok w -> con_ok (set_shown b w).
Proof. by intros [? ? ? ? ? ? ?]. Qed.

(** The pixels of the cursor. *)
Definition cursor_rect (x y s x' y' : Z) : Prop := in_rect x (y + 16 * s - 2 * s) (8 * s) (2 * s) x' y'.

#[global] Instance cursor_rect_dec x y s x' y' : Decision (cursor_rect x y s x' y').
Proof. unfold cursor_rect. apply _. Defined.

Lemma cursor_block_ok c w : con_ok w ->
  wp (cursor_block c) (fun _ w' => paints (cursor_rect (x_pos w) (y_pos w) (scale_factor w)) (fun _ _ => c) w w') w.
Proof.
  intros Hok. pose proof (con_ok_small w Hok) as [Hx Hy]. pose proof (con_scale w Hok).
  unfold cursor_block, CURSOR_HEIGHT. wp_step. wp_step.
  apply wp_bind, wp_lift, cell_width_ok; [done|]. apply wp_bind, wp_lift, cell_height_ok; [done|].
  wp_steps; [unfold u64_max; lia..|]. apply rect_paints; [apply Hok|lia..].
Qed.

(** A cursor block that was erased, if one was shown. *)
Definition erased (w w' : FrameBufferWriter) : Prop :=
  exists w1, paints (fun x y => cursor_shown w = true /\ cursor_rect (x_pos w) (y_pos w) (scale_factor w) x y)
                    (fun _ _ => bg w) w w1 /\ w' = set_shown false w1.

Lemma erase_cursor_ok w : con_ok w -> wp erase_cursor (fun _ w' => erased w w') w.
Proof.
  intros Hok. unfold erase_cursor. wp_step. wp_step. destruct (cursor_shown w) eqn:Hs; simpl.
  - apply wp_bind. eapply wp_mono; [by apply cursor_block_ok|]. intros [] w1 Hp. apply wp_modify.
    exists w1. split; [|done]. apply (paints_iff _ _ _ _ _ _ ) with (3 := Hp); [|done]. intros x y _. rewrite Hs. tauto.
  - apply wp_ret. exists w. split; [|by destruct w; simpl in *; subst].
    apply (paints_iff (fun _ _ => False) _ (fun _ _ => bg w)); [|done|apply paints_nothing].
    intros x y _. rewrite Hs. split; [done|]. by intros [].
Qed.

(** The block drawn at the cursor's position. *)
Definition shown_at (w w' : FrameBufferWriter) : Prop :=
  exists w1, paints (cursor_rect (x_pos w) (y_pos w) (scale_factor w)) (fun _ _ => fg w) w w1 /\
    w' = set_shown true w1.

Lemma draw_cursor_ok w : con_ok w -> cursor_shown w = false -> wp draw_cursor (fun _ w' => shown_at w w') w.
Proof.
  intros Hok Hs. unfold draw_cursor. wp_step. wp_step. rewrite Hs. apply wp_bind.
  eapply wp_mono; [by apply cursor_block_ok|]. intros [] w1 Hp. apply wp_modify. by exists w1.
Qed.

Lemma erased_con_ok w w' : erased w w' -> con_ok w -> con_ok w'.
Proof. intros (w1 & [Hs _] & ->) Hok. by apply same_shown_ok, (same_con_ok w). Qed.

Lemma shown_con_ok w w' : shown_at w w' -> con_ok w -> con_ok w'.
Proof. intros (w1 & [Hs _] & ->) Hok. by apply same_shown_ok, (same_con_ok w). Qed.

(** What a line feed does to the position and to the picture. *)
Definition line_fed (w w' : FrameBufferWriter) : Prop :=
  let ch := 16 * scale_factor w in
  if height (info w) <? y_pos w + ch + ch
  then exists w1, (if ch <? height (info w) then scrolled ch w w1 else w1 = w) /\
         w' = set_pos 0 (y_pos w) w1
  else w' = set_pos 0 (y_pos w + ch) w.

Lemma new_line_ok w : con_ok w -> wp new_line (fun _ w' => line_fed w w') w.
Proof.
  intros Hok. pose proof (con_ok_small w Hok) as [Hx Hy]. pose proof (con_scale w Hok).
  unfold new_line, line_fed. wp_step. wp_step. apply wp_bind, wp_lift, cell_height_ok; [done|].
  set (ch := 16 * scale_factor w). wp_steps; [unfold u64_max; lia..|].
  destruct (Z.ltb_spec (height (info w)) (y_pos w + ch + ch)); [|by wp_steps].
  apply wp_bind. eapply wp_mono; [apply scroll_up_ok; [apply Hok|done]|]. intros [] w1. simpl. fold ch.
  intros Hw1. wp_steps. replace (y_pos w + ch - ch) with (y_pos w) by lia.
  destruct (ch <? height (info w)) eqn:Hch.
  - destruct Hw1 as [(b & -> & Hb) Hp]. exists (set_buffer b w). split; [|done].
    split; [by exists b|]. exact Hp.
  - subst w1. by exists w.
Qed.

Lemma line_fed_con_ok w w' : line_fed w w' -> con_ok w -> con_ok w'.
Proof.
  intros Hl Hok. unfold line_fed in Hl.
  destruct (Z.ltb_spec (height (info w)) (y_pos w + 16 * scale_factor w + 16 * scale_factor w)).
  - destruct Hl as (w1 & Hw1 & ->).
    assert (con_ok w1 /\ info w1 = info w /\ scale_factor w1 = scale_factor w) as ([? ? ? ? ? ? ?] & Hi & Hsc).
    { destruct (16 * scale_factor w <? height (info w)).
      - destruct Hw1 as [Hs _]. split; [by apply (same_con_ok w)|]. by destruct Hs as (b & -> & _).
      - by subst w1. }
    destruct Hok. split; simpl; rewrite ?Hi, ?Hsc; done || lia.
  - subst w'. destruct Hok. split; simpl; done || lia.
Qed.

(** ** One byte *)

(** The glyph of [b] at the cursor, and the cursor in the next cell. *)
Definition glyph_put (b : Z) (w w' : FrameBufferWriter) : Prop :=
  let s := scale_factor w in
  exists w1, paints (in_rect (x_pos w) (y_pos w) (8 * s) (16 * s))
                    (glyph_color w (glyph_index b) (x_pos w) (y_pos w)) w w1 /\
    shown_at (set_pos (x_pos w + 8 * s) (y_pos w) (set_shown false w1)) w'.

Lemma glyph_pos_ok w w1 : con_ok w -> same_but_buffer w w1 ->
  x_pos w = 0 \/ x_pos w + 8 * scale_factor w <= width (info w) ->
  con_ok (set_pos (x_pos w + 8 * scale_factor w) (y_pos w) (set_shown false w1)).
Proof.
  intros Hok Hs Hfit. pose proof (same_con_ok w w1 Hs Hok) as [? ? ? ? ? ? ?].
  destruct Hs as (b & -> & _), Hok. split; simpl in *; done || lia.
Qed.

(** The last part of [write_byte] for a byte that is shown. *)
Lemma put_ok b w : con_ok w -> x_pos w = 0 \/ x_pos w + 8 * scale_factor w <= width (info w) ->
  wp (w ← get;
      _ ← draw_char (x_pos w) (y_pos w) b;
      _ ← modify (set_shown false);
      x ← lift (x_pos w +? 8 * scale_factor w);
      _ ← modify (set_pos x (y_pos w));
      draw_cursor) (fun _ w' => glyph_put b w w') w.
Proof.
  intros Hok Hfit. pose proof (con_ok_small w Hok) as [Hx Hy]. pose proof (con_scale w Hok).
  wp_step. wp_step. apply wp_bind.
  eapply wp_mono; [apply draw_char_paints; [apply Hok|lia|lia|done]|]. intros [] w1 Hp. simpl in Hp.
  wp_steps; [unfold u64_max; lia|].
  eapply wp_mono; [apply draw_cursor_ok; [|done]|].
  - apply glyph_pos_ok; [done|apply Hp|done].
  - intros [] w' Hw'. by exists w1.
Qed.

Lemma glyph_put_con_ok b w w' : con_ok w ->
  x_pos w = 0 \/ x_pos w + 8 * scale_factor w <= width (info w) -> glyph_put b w w' -> con_ok w'.
Proof.
  intros Hok Hfit (w1 & Hp & Hsh). eapply shown_con_ok; [exact Hsh|].
  apply glyph_pos_ok; [done|apply Hp|done].
Qed.

Lemma x_after_erase w w' : erased w w' ->
  x_pos w' = x_pos w /\ y_pos w' = y_pos w /\ scale_factor w' = scale_factor w /\ info w' = info w /\
  cursor_shown w' = false.
Proof. intros (w1 & [(b & -> & _) _] & ->). done. Qed.

(** What one byte does, by the escape state and the byte. *)
Definition byte_effect (b : Z) (w w' : FrameBufferWriter) : Prop :=
  if b =? 0x1b then w' = set_escape SawEsc w
  else if b =? 10 then exists w1 w2, erased w w1 /\ line_fed w1 w2 /\ shown_at w2 w'
  else if b =? 0x08 then
    let cw := 8 * scale_factor w in
    exists w1, erased w w1 /\
      shown_at (if cw <=? x_pos w then set_pos (x_pos w - cw) (y_pos w) w1 else w1) w'
  else if width (info w) <? x_pos w + 8 * scale_factor w
  then exists w1 w2, erased w w1 /\ line_fed w1 w2 /\ glyph_put b w2 w'
  else glyph_put b w w'.

Lemma line_fed_fields w w' : line_fed w w' ->
  x_pos w' = 0 /\ cursor_shown w' = cursor_shown w /\ scale_factor w' = scale_factor w.
Proof.
  unfold line_fed. case_match; [|by intros ->]. intros (w1 & Hw1 & ->). simpl.
  case_match; [|by subst w1]. by destruct Hw1 as [(b & -> & _) _].
Qed.

Lemma back_ok w w1 : con_ok w -> erased w w1 ->
  con_ok (if 8 * scale_factor w <=? x_pos w then set_pos (x_pos w - 8 * scale_factor w) (y_pos w) w1 else w1).
Proof.
  intros Hok He. pose proof (erased_con_ok w w1 He Hok) as Hok1.
  destruct (x_after_erase w w1 He) as (Hx & Hy & Hs & Hi & _).
  destruct (Z.leb_spec (8 * scale_factor w) (x_pos w)); [|done].
  destruct Hok, Hok1. split; simpl; rewrite ?Hi, ?Hs in *; done || lia.
Qed.

Lemma write_normal_ok b w : con_ok w -> escape_state w = Normal ->
  wp (write_normal b) (fun _ w' => byte_effect b w w' /\ con_ok w') w.
Proof.
  intros Hok Hn. unfold write_normal, byte_effect. wp_step. wp_step.
  apply wp_bind, wp_lift, cell_width_ok; [apply Hok|].
  destruct (b =? 0x1b); [wp_steps; split; [done|]; by destruct Hok|].
  destruct (b =? 10); [|destruct (b =? 0x08)].
  - apply wp_bind. eapply wp_mono; [by apply erase_cursor_ok|]. intros [] w1 He.
    pose proof (erased_con_ok w w1 He Hok) as Hok1.
    apply wp_bind. eapply wp_mono; [by apply new_line_ok|]. intros [] w2 Hl.
    pose proof (line_fed_con_ok w1 w2 Hl Hok1) as Hok2.
    destruct (line_fed_fields w1 w2 Hl) as (_ & Hs & _). destruct (x_after_erase w w1 He) as (_ & _ & _ & _ & Hs1).
    eapply wp_mono; [apply draw_cursor_ok; [done|congruence]|]. intros [] w3 Hsh.
    split; [by exists w1, w2|by apply (shown_con_ok w2)].
  - apply wp_bind. eapply wp_mono; [by apply erase_cursor_ok|]. intros [] w1 He.
    pose proof (back_ok w w1 Hok He) as Hokb.
    destruct (x_after_erase w w1 He) as (Hx & Hy & _ & _ & Hs1).
    apply wp_bind. apply wp_bind, wp_get. rewrite Hx, Hy.
    destruct (8 * scale_factor w <=? x_pos w) eqn:Hle; wp_steps;
      (eapply wp_mono; [apply draw_cursor_ok; done|]); intros [] w3 Hsh;
      (split; [exists w1; split; [done|]; by rewrite ?Hle|eapply shown_con_ok; done]).
  - pose proof (con_ok_small w Hok) as [Hx Hy]. pose proof (con_scale w Hok).
    wp_steps; [unfold u64_max; lia|]. destruct (Z.ltb_spec (width (info w)) (x_pos w + 8 * scale_factor w)).
    + apply wp_bind. eapply wp_mono; [by apply erase_cursor_ok|]. intros [] w1 He.
      pose proof (erased_con_ok w w1 He Hok) as Hok1.
      eapply wp_mono; [by apply new_line_ok|]. intros [] w2 Hl.
      pose proof (line_fed_con_ok w1 w2 Hl Hok1) as Hok2.
      destruct (line_fed_fields w1 w2 Hl) as (Hx0 & _ & Hsc).
      destruct (x_after_erase w w1 He) as (_ & _ & Hsc1 & _ & _). rewrite <- Hsc1, <- Hsc.
      eapply wp_mono; [apply put_ok; [done|by left]|]. intros [] w3 Hg.
      split; [by exists w1, w2|]. apply (glyph_put_con_ok b w2); [done|by left|done].
    + apply wp_ret. eapply wp_mono; [apply put_ok; [done|by right]|]. intros [] w3 Hg.
      split; [done|]. apply (glyph_put_con_ok b w); [done|by right|done].
Qed.

(** *** The screen stays *)

Create HintDb screen.

Lemma same_screen_trans w1 w2 w3 : same_screen w1 w2 -> same_screen w2 w3 -> same_screen w1 w3.
Proof. unfold same_screen. intros [-> ->] [-> ->]. done. Qed.

Lemma same_buffer_screen w w' : same_but_buffer w w' -> same_screen w w'.
Proof. by intros (b & -> & Hb). Qed.

Lemma erased_screen w w' : erased w w' -> same_screen w w'.
Proof. intros (w1 & [Hs _] & ->). by destruct (same_buffer_screen _ _ Hs). Qed.

Lemma shown_screen w w' : shown_at w w' -> same_screen w w'.
Proof. intros (w1 & [Hs _] & ->). by destruct (same_buffer_screen _ _ Hs). Qed.

Lemma line_fed_screen w w' : line_fed w w' -> same_screen w w'.
Proof.
  unfold line_fed. case_match; [|by intros ->]. intros (w1 & Hw1 & ->).
  case_match; [|by subst w1]. by destruct (same_buffer_screen _ _ (proj1 Hw1)).
Qed.

Lemma glyph_put_screen b w w' : glyph_put b w w' -> same_screen w w'.
Proof.
  intros (w1 & [Hs _] & Hsh%shown_screen). destruct (same_buffer_screen _ _ Hs) as [Hi Hl], Hsh as [Hi' Hl'].
  split; simpl in *; congruence.
Qed.

#[export] Hint Resolve erased_screen shown_screen line_fed_screen glyph_put_screen : screen.

Lemma byte_effect_screen b w w' : byte_effect b w w' -> same_screen w w'.
Proof.
  unfold byte_effect. case_match; [by intros ->|]. case_match; [|case_match; [|case_match]].
  - intros (w1 & w2 & He & Hl & Hg).
    apply (same_screen_trans w w1), (same_screen_trans w1 w2); eauto with screen.
  - intros (w1 & He & Hsh). apply (same_screen_trans w w1); [by auto with screen|].
    apply shown_screen in Hsh. by case_match.
  - intros (w1 & w2 & He & Hl & Hg).
    apply (same_screen_trans w w1), (same_screen_trans w1 w2); eauto with screen.
  - apply glyph_put_screen.
Qed.

(** ** Escape sequences *)

(** The colours after the parameter [v]. *)
Definition sgr_colors (v : Z) (f b : rgb) : rgb * rgb :=
  if v =? 0 then ((170, 170, 170), (0, 0, 0))
  else if (30 <=? v) && (v <=? 37) then (nth (Z.to_nat (v - 30)) ANSI_COLORS (0, 0, 0), b)
  else if (40 <=? v) && (v <=? 47) then (f, nth (Z.to_nat (v - 40)) ANSI_COLORS (0, 0, 0))
  else (f, b).

Lemma ansi_index v (Q : rgb -> Prop) : 0 <= v <= 7 -> Q (nth (Z.to_nat v) ANSI_COLORS (0, 0, 0)) ->
  returns (index ANSI_COLORS v) Q.
Proof.
  intros Hv HQ. assert (is_Some (ANSI_COLORS !! Z.to_nat v)) as [c Hc] by (apply lookup_lt_is_Some_2; simpl; lia).
  apply (returns_index _ _ c); [lia|done|]. by rewrite (nth_lookup_Some _ _ _ c Hc) in HQ.
Qed.

Definition field_value (w : FrameBufferWriter) : Z :=
  default 0 (parse_u32 (first_field (take (Z.to_nat (csi_pos w)) (csi_buf w)))).

Lemma apply_sgr_ok w : length (csi_buf w) = 8%nat -> 0 <= csi_pos w <= 8 ->
  wp apply_sgr (fun _ w' => let '(f, b) := sgr_colors (field_value w) (fg w) (bg w) in w' = set_colors f b w) w.
Proof.
  intros Hl Hp. unfold apply_sgr, sgr_param. wp_step. wp_step. apply wp_bind, wp_lift.
  rewrite Hl, (proj2 (Z.leb_le _ _)) by lia. fold (field_value w). simpl.
  unfold sgr_colors. destruct (field_value w =? 0); [by wp_steps|].
  destruct ((30 <=? field_value w) && _) eqn:H30.
  - apply andb_true_iff in H30. rewrite !Z.leb_le in H30. wp_steps. apply ansi_index; [lia|]. by wp_steps.
  - destruct ((40 <=? field_value w) && _) eqn:H40; [|wp_steps; by destruct w].
    apply andb_true_iff in H40. rewrite !Z.leb_le in H40. wp_steps. apply ansi_index; [lia|]. by wp_steps.
Qed.

Lemma is_param_ascii b : is_param b = true -> 0 <= b < 128.
Proof.
  unfold is_param, is_ascii_digit. intros H. apply orb_true_iff in H as [H|H].
  - apply andb_true_iff in H. rewrite !Z.leb_le in H. lia.
  - apply Z.eqb_eq in H. lia.
Qed.

(** What a byte does inside an escape sequence: the sequence's own state and, at its
    end, the colours. *)
Definition escape_effect (b : Z) (w w' : FrameBufferWriter) : Prop :=
  exists e buf p f g, w' = set_escape e (set_csi buf p (set_colors f g w)).

Lemma escape_ok b w : con_ok w -> escape_state w <> Normal ->
  wp (write_byte b) (fun _ w' => escape_effect b w w' /\ con_ok w') w.
Proof.
  intros Hok Hn. unfold write_byte. wp_step. wp_step. pose proof Hok as [? ? ? ? Hl Hp Hby].
  assert (forall e, escape_effect b w (set_escape e w) /\ con_ok (set_escape e w)) as Hstay.
  { intros e. split; [|by split]. exists e, (csi_buf w), (csi_pos w), (fg w), (bg w). by destruct w. }
  assert (forall p e, is_param b = true -> 0 <= p < 8 ->
    escape_effect b w (set_csi (<[Z.to_nat p := b]> (csi_buf w)) (p + 1) (set_escape e w)) /\
    con_ok (set_csi (<[Z.to_nat p := b]> (csi_buf w)) (p + 1) (set_escape e w))) as Hcsi.
  { intros p e Hb Hp8. split; [by eexists e, _, _, (fg w), (bg w)|].
    split; simpl; [done..|by rewrite length_insert|lia|]. by apply Forall_insert, is_param_ascii. }
  destruct (escape_state w) eqn:He; [done| | |].
  - wp_steps. apply Hstay.
  - destruct (is_param b) eqn:Hb; [|wp_steps; apply Hstay].
    wp_steps. simpl. apply returns_store_index; [rewrite Hl; lia|]. wp_steps. apply (Hcsi 0 InCsi); [done|lia].
  - destruct (is_param b && _) eqn:Hb; [|destruct (b =? 109)].
    + apply andb_true_iff in Hb as [Hb Hlt]. rewrite Hl, Z.ltb_lt in Hlt. wp_steps.
      apply returns_store_index; [rewrite Hl; lia|]. wp_steps.
      replace (set_csi _ _ w) with (set_csi (<[Z.to_nat (csi_pos w) := b]> (csi_buf w)) (csi_pos w + 1) (set_escape InCsi w))
        by (destruct w; simpl in *; by subst).
      apply Hcsi; [done|lia].
    + apply wp_bind. eapply wp_mono; [by apply apply_sgr_ok|]. intros [] w1 Hw1.
      destruct (sgr_colors _ _ _) as [f g]. subst w1. wp_steps. split; [|by split].
      by exists Normal, (csi_buf w), (csi_pos w), f, g.
    + wp_steps. apply Hstay.
Qed.

Lemma write_byte_ok b w : con_ok w -> wp (write_byte b) (fun _ w' => con_ok w' /\ same_screen w w') w.
Proof.
  intros Hok. destruct (escape_state w) eqn:He.
  - unfold write_byte. wp_step. wp_step. rewrite He.
    eapply wp_mono; [by apply write_normal_ok|]. intros [] w' [Hb Hok']. split; [done|]. by apply (byte_effect_screen b).
  - eapply wp_mono; [apply escape_ok; [done|congruence]|]. intros [] w' [(e & bf & p & f & g & ->) Hok']. done.
  - eapply wp_mono; [apply escape_ok; [done|congruence]|]. intros [] w' [(e & bf & p & f & g & ->) Hok']. done.
  - eapply wp_mono; [apply escape_ok; [done|congruence]|]. intros [] w' [(e & bf & p & f & g & ->) Hok']. done.
Qed.

Lemma write_string_ok s w : con_ok w -> wp (write_string s) (fun _ w' => con_ok w' /\ same_screen w w') w.
Proof.
  intros Hok. unfold write_string.
  apply (wp_for_each (fun _ w' => con_ok w' /\ same_screen w w') _ s [] w); [|done].
  intros pre b post w1 _ [Hok1 Hs1]. eapply wp_mono; [by apply write_byte_ok|].
  intros [] w2 [Hok2 Hs2]. split; [done|by apply (same_screen_trans w w1)].
Qed.

Lemma clear_ok w : con_ok (set_pos 0 0 w) -> wp clear_screen (fun _ w' =>
  con_ok w' /\ same_screen w w' /\ cursor_position w' = (0, 0) /\ scale_factor w' = scale_factor w /\
  exists w0, same_but_buffer (set_shown false (set_pos 0 0 w)) w0 /\
    (forall x y, px w0 x y = (0, 0, 0)) /\ shown_at w0 w') w.
Proof.
  intros Hok. unfold clear_screen. wp_steps.
  set (w0 := set_shown false (set_pos 0 0 (set_buffer (replicate (length (buffer w)) 0) w))).
  assert (same_but_buffer (set_shown false (set_pos 0 0 w)) w0) as Hs0.
  { exists (replicate (length (buffer w)) 0). split; [done|]. apply length_replicate. }
  assert (con_ok w0) as Hok0.
  { apply (same_con_ok (set_shown false (set_pos 0 0 w))); [done|]. by apply same_shown_ok. }
  eapply wp_mono; [by apply draw_cursor_ok|]. intros [] w' Hsh.
  split; [by apply (shown_con_ok w0)|]. split.
  { apply (same_screen_trans w w0); [|by apply shown_screen]. split; [done|]. simpl. by rewrite length_replicate. }
  destruct (Hsh) as (w1 & [(b & -> & Hb) _] & ->). split; [done|]. split; [done|].
  exists w0. split; [done|]. split; [|done]. intros x y. unfold px. simpl. rewrite !byte_at_zero.
  by destruct (pixel_format (info w)).
Qed.
