(* ===== verification/FramebufferSpec.v ===== *)
(** * What the console promises

    No sequence of bytes makes the console panic; a printable byte shows its glyph
    and moves the cursor; a line feed at the bottom scrolls; colour sequences
    change the colours and nothing else. *)

From S2P Require Import Prelude Font Framebuffer FramebufferInv FramebufferOps.
Local Open Scope rust_scope.

(** ** Any use of the console *)

Inductive command := Print (s : list Z) | ScaleUp | ScaleDown | Clear.

Definition perform (c : command) : M FrameBufferWriter unit :=
  match c with
  | Print s => write_string s
  | ScaleUp => _ ← scale_up; mret tt
  | ScaleDown => _ ← scale_down; mret tt
  | Clear => clear_screen
  end.

Lemma rescaled_ok w s : con_ok w -> 1 <= s <= 4 -> con_ok (set_pos 0 0 (set_scale s w)).
Proof. intros [? ? [? ?] ? ? ? ?] Hs. split; simpl; done || lia. Qed.

Lemma clear_con_ok w s : con_ok w -> 1 <= s <= 4 ->
  wp clear_screen (fun _ w' => con_ok w' /\ same_screen w w') (set_scale s w).
Proof.
  intros Hok Hs. eapply wp_mono; [apply clear_ok; by apply rescaled_ok|].
  intros [] w' (Hok' & Hsc & _). done.
Qed.

Lemma perform_ok c w : con_ok w -> wp (perform c) (fun _ w' => con_ok w' /\ same_screen w w') w.
Proof.
  intros Hok. pose proof (con_scale w Hok) as Hs.
  destruct c as [s| | |]; simpl; unfold scale_up, scale_down, MAX_SCALE, MIN_SCALE.
  - by apply write_string_ok.
  - apply wp_bind, wp_bind, wp_get. destruct (Z.leb_spec 4 (scale_factor w)); [by wp_steps|].
    apply wp_bind, wp_modify, wp_bind. eapply wp_mono; [apply clear_con_ok; [done|lia]|].
    intros [] w' H'. by wp_steps.
  - apply wp_bind, wp_bind, wp_get. destruct (Z.leb_spec (scale_factor w) 1); [by wp_steps|].
    apply wp_bind, wp_modify, wp_bind. eapply wp_mono; [apply clear_con_ok; [done|lia]|].
    intros [] w' H'. by wp_steps.
  - pose proof (clear_con_ok w (scale_factor w) Hok Hs) as H. by destruct w.
Qed.

Lemma init_con_ok buf i : info_ok i (Z.of_nat (length buf)) ->
  exists w, init buf i = Ret (Some w) /\ con_ok w /\ same_screen (new buf i) w.
Proof.
  intros Hi. assert (con_ok (new buf i)) as Hok.
  { pose proof (ok_width _ _ Hi). split; simpl; done || lia || by repeat constructor. }
  pose proof (clear_con_ok _ 1 Hok ltac:(lia)) as Hc.
  apply wp_elim in Hc as ([] & w & Hc & Hw). exists w. split; [|done].
  unfold init. change (new buf i) with (set_scale 1 (new buf i)). by rewrite Hc.
Qed.

(** C24: the console is total and keeps to its buffer: on any screen whose pixels fit
    the buffer, [init] and then any sequence of printed strings (arbitrary bytes,
    broken escape sequences included), rescalings and clearings return without a
    panic; the buffer keeps its length; the scale stays between 1 and 4; and the
    cursor's cell begins inside the screen, on the first line or with the whole
    line above the bottom edge. *)
Theorem console_never_panics buf i cs :
  info_ok i (Z.of_nat (length buf)) ->
  exists w w', init buf i = Ret (Some w) /\ for_each cs perform w = Ret (tt, w') /\
    length (buffer w') = length buf /\ info w' = i /\ 1 <= scale_factor w' <= 4 /\
    0 <= x_pos w' <= Z.max (width i) (CHAR_WIDTH * scale_factor w') /\ 0 <= y_pos w' /\
    (y_pos w' = 0 \/ y_pos w' + CHAR_HEIGHT * scale_factor w' <= height i).
Proof.
  intros Hi. destruct (init_con_ok buf i Hi) as (w & Hw & Hok & Hs).
  pose proof (wp_for_each (fun _ w' => con_ok w' /\ same_screen w w') perform cs [] w) as Hr.
  apply wp_elim in Hr as ([] & w' & Hrun & Hok' & Hs').
  - exists w, w'. destruct (same_screen_trans _ _ _ Hs Hs') as [Hinf Hlen], Hok' as [_ ? Hx Hy _ _ _].
    simpl in *. rewrite Hinf in *. unfold CHAR_WIDTH, CHAR_HEIGHT.
    split_and!; done || lia.
  - intros pre c post w1 _ [Hok1 Hs1]. eapply wp_mono; [by apply perform_ok|].
    intros [] w2 [Hok2 Hs2]. split; [done|by apply (same_screen_trans w w1)].
  - done.
Qed.

(** A screen of 20 by 36 pixels. *)
Definition small_screen : FrameBufferInfo := mkInfo 20 36 24 4 Bgr.

Lemma small_ok : info_ok small_screen (Z.of_nat (length (replicate 3456 7))).
Proof. split; vm_compute; intuition congruence. Defined.

Lemma console_never_panics_witness : exists w w',
  init (replicate 3456 7) small_screen = Ret (Some w) /\
  for_each [Print [72; 105; 33; 10; 27; 91; 51]; ScaleUp; Print [109; 255; 8]; Clear] perform w = Ret (tt, w') /\
  length (buffer w') = 3456%nat.
Proof.
  destruct (console_never_panics (replicate 3456 7) small_screen
    [Print [72; 105; 33; 10; 27; 91; 51]; ScaleUp; Print [109; 255; 8]; Clear] small_ok) as (w & w' & H1 & H2 & H3 & _).
  exists w, w'. split; [exact H1|]. split; [exact H2|]. rewrite H3. apply length_replicate.
Defined.

(** ** Pixels *)

Lemma read_pixel_px w x y : fb_ok w -> on_screen w x y -> read_pixel w x y = Ret (Some (px w x y)).
Proof.
  intros Hok [Hx Hy]. pose proof (px_range _ _ x y Hok Hx Hy) as (_ & _ & Ho & Hl & Hn).
  unfold read_pixel. rewrite !(proj2 (Z.leb_gt _ _)) by lia. simpl.
  pose proof (pixel_offset_ok _ _ x y (fun o => o = at_px (info w) x y) Hok Hx Hy eq_refl) as Hof.
  apply returns_elim in Hof as (o & -> & ->). unfold mbind, outcome_bind.
  pose proof (ok_len _ _ Hok). unfold chk_add, u64_max. rewrite (proj2 (Z.leb_le _ _)) by lia.
  rewrite (proj2 (Z.leb_gt _ _)) by lia.
  assert (forall j, 0 <= j < len w -> index (buffer w) j = Ret (byte_at (buffer w) j)) as Hb.
  { intros j Hj. unfold index, byte_at, len in *. rewrite (proj2 (Z.ltb_ge _ _)) by lia. rewrite nth_lookup.
    by destruct (lookup_lt_is_Some_2 (buffer w) (Z.to_nat j) ltac:(lia)) as [v ->]. }
  rewrite !Hb by lia. done.
Qed.

(** The picture after [paints]. *)
Lemma paints_px D C w w' x y `{Decision (D x y)} : paints D C w w' -> on_screen w x y ->
  px w' x y = if decide (D x y) then C x y else px w x y.
Proof. intros [_ Hp] Hxy. destruct (Hp x y Hxy) as [H1 H2]. case_decide; auto. Qed.

(** Only the buffer and the screen's description matter to a pixel. *)
Lemma px_fields w w' : buffer w' = buffer w -> info w' = info w -> forall x y, px w' x y = px w x y.
Proof. intros Hb Hi x y. unfold px. by rewrite Hb, Hi. Qed.

Lemma shown_px w w' x y : shown_at w w' -> on_screen w x y ->
  px w' x y = if decide (cursor_rect (x_pos w) (y_pos w) (scale_factor w) x y) then fg w else px w x y.
Proof. intros (w1 & Hp & ->) Hxy. rewrite (px_fields w1) by done. by apply (paints_px _ _ w w1 x y Hp). Qed.

Lemma erased_px w w' x y : erased w w' -> on_screen w x y ->
  px w' x y = if decide (cursor_shown w = true /\ cursor_rect (x_pos w) (y_pos w) (scale_factor w) x y)
              then bg w else px w x y.
Proof. intros (w1 & Hp & ->) Hxy. rewrite (px_fields w1) by done. by apply (paints_px _ _ w w1 x y Hp). Qed.

(** C25: with no escape sequence pending, a printable byte whose cell fits on the line
    shows exactly its glyph: every pixel of
    the cell at the cursor has the foreground or the background colour as the font's
    bit says, enlarged by the scale; the cursor block moves to the next cell; every
    other pixel of the screen reads as before. *)
Theorem console_prints_glyph w b :
  con_ok w -> escape_state w = Normal -> 32 <= b <= 126 ->
  x_pos w + CHAR_WIDTH * scale_factor w <= width (info w) ->
  let s := scale_factor w in
  exists w', write_byte b w = Ret (tt, w') /\ con_ok w' /\
    cursor_position w' = (x_pos w + CHAR_WIDTH * s, y_pos w) /\ fg w' = fg w /\ bg w' = bg w /\
    forall x y, on_screen w x y ->
      read_pixel w' x y =
        if decide (cursor_rect (x_pos w + CHAR_WIDTH * s) (y_pos w) s x y) then Ret (Some (fg w))
        else if decide (in_rect (x_pos w) (y_pos w) (CHAR_WIDTH * s) (CHAR_HEIGHT * s) x y)
        then Ret (Some (glyph_color w (b - FONT_OFFSET) (x_pos w) (y_pos w) x y))
        else read_pixel w x y.
Proof.
  intros Hok He Hb Hfit s. unfold CHAR_WIDTH, CHAR_HEIGHT in *.
  pose proof (write_normal_ok b w Hok He) as Hw. apply wp_elim in Hw as ([] & w' & Hr & Hef & Hok').
  exists w'. split. { unfold write_byte, mbind, M_bind, get. by rewrite He. }
  unfold byte_effect in Hef. rewrite !(proj2 (Z.eqb_neq _ _)), (proj2 (Z.ltb_ge _ _)) in Hef by lia.
  assert (glyph_index b = b - FONT_OFFSET) as Hg.
  { unfold glyph_index, FONT_OFFSET, FALLBACK_INDEX. by rewrite (proj2 (Z.leb_le _ _)), (proj2 (Z.ltb_lt _ _)) by lia. }
  destruct Hef as (w1 & Hp & Hsh). rewrite Hg in Hp. fold s in Hp, Hsh. split; [done|].
  pose proof Hp as [(b1 & Hw1 & Hl1) _]. pose proof Hsh as (w2 & [(b2 & Hw2 & Hl2) _] & Hw').
  assert (on_screen w' = on_screen w) as Hon by by rewrite Hw', Hw2, Hw1.
  split; [by rewrite Hw', Hw2|]. split; [by rewrite Hw', Hw2, Hw1|]. split; [by rewrite Hw', Hw2, Hw1|].
  intros x y Hxy. rewrite !read_pixel_px; [|apply Hok|done|apply Hok'|by rewrite Hon].
  rewrite (shown_px _ w' x y Hsh) by (rewrite Hw1; exact Hxy). rewrite (px_fields w1) by done.
  rewrite (paints_px _ _ w w1 x y Hp Hxy). rewrite Hw1. simpl. fold s. by repeat case_decide.
Qed.

(** The small screen, cleared. *)
Definition small_console : FrameBufferWriter :=
  match init (replicate 3456 7) small_screen with
  | Ret (Some w) => w
  | _ => new (replicate 3456 7) small_screen
  end.

Lemma small_console_ok : con_ok small_console.
Proof.
  unfold small_console. destruct (init_con_ok (replicate 3456 7) small_screen small_ok) as (w & -> & Hok & _).
  exact Hok.
Defined.

Lemma console_prints_glyph_witness : exists w',
  write_byte 65 small_console = Ret (tt, w') /\ cursor_position w' = (8, 0) /\
  read_pixel w' 19 35 = read_pixel small_console 19 35.
Proof.
  destruct (console_prints_glyph small_console 65 small_console_ok) as (w' & H1 & _ & H2 & _ & _ & H3);
    [vm_compute; reflexivity|lia|vm_compute; discriminate|].
  exists w'. split; [exact H1|]. split; [rewrite H2; vm_compute; reflexivity|].
  rewrite H3 by (split; vm_compute; intuition congruence).
  vm_compute. reflexivity.
Defined.

(** The picture with the cursor taken away. *)
Definition without_cursor (w : FrameBufferWriter) (x y : Z) : rgb :=
  if decide (cursor_shown w = true /\ cursor_rect (x_pos w) (y_pos w) (scale_factor w) x y)
  then bg w else px w x y.

Lemma line_fed_px w w' x y : line_fed w w' -> on_screen w x y ->
  let ch := CHAR_HEIGHT * scale_factor w in
  px w' x y =
    if (height (info w) <? y_pos w + ch + ch) && (ch <? height (info w))
    then if y + ch <? height (info w) then px w x (y + ch) else (0, 0, 0)
    else px w x y.
Proof.
  unfold line_fed, CHAR_HEIGHT. intros Hl Hxy. simpl.
  destruct (height (info w) <? _); simpl; [|subst w'; by apply px_fields].
  destruct Hl as (w1 & Hw1 & ->). rewrite (px_fields w1) by done.
  destruct (_ <? height (info w)); [|by subst w1]. by apply Hw1.
Qed.

Lemma line_fed_pos w w' : line_fed w w' ->
  let ch := CHAR_HEIGHT * scale_factor w in
  x_pos w' = 0 /\ y_pos w' = (if height (info w) <? y_pos w + ch + ch then y_pos w else y_pos w + ch) /\
  scale_factor w' = scale_factor w /\ fg w' = fg w /\ info w' = info w.
Proof.
  unfold line_fed, CHAR_HEIGHT. simpl. destruct (height (info w) <? _); [|by intros ->].
  intros (w1 & Hw1 & ->). destruct (_ <? height (info w)); [|by subst w1].
  by destruct Hw1 as [(b & -> & _) _].
Qed.

(** C26: with no escape sequence pending, a line feed starts a new line: the cursor goes
    to the left edge of the next
    line if one more line fits above the bottom edge; otherwise it stays on its line
    and the whole picture, without the cursor, moves up by one line while black
    comes in below. The cursor block is drawn at the new position, nothing else
    changes. *)
Theorem console_line_feed w :
  con_ok w -> escape_state w = Normal ->
  let ch := CHAR_HEIGHT * scale_factor w in
  let full := height (info w) <? y_pos w + ch + ch in
  let y' := if full then y_pos w else y_pos w + ch in
  exists w', write_byte 10 w = Ret (tt, w') /\ con_ok w' /\ cursor_position w' = (0, y') /\
    forall x y, on_screen w x y ->
      read_pixel w' x y = Ret (Some (
        if decide (cursor_rect 0 y' (scale_factor w) x y) then fg w
        else if full && (ch <? height (info w))
        then if y + ch <? height (info w) then without_cursor w x (y + ch) else (0, 0, 0)
        else without_cursor w x y)).
Proof.
  intros Hok He ch full y'. pose proof (write_normal_ok 10 w Hok He) as Hw.
  apply wp_elim in Hw as ([] & w' & Hr & (w1 & w2 & Her & Hl & Hsh) & Hok').
  exists w'. split. { unfold write_byte, mbind, M_bind, get. by rewrite He. } split; [done|].
  destruct (x_after_erase w w1 Her) as (_ & Hy1 & Hs1 & Hi1 & _).
  assert (fg w1 = fg w) as Hf1 by by destruct Her as (w0 & [(b & -> & _) _] & ->).
  destruct (line_fed_pos w1 w2 Hl) as (Hx2 & Hy2 & Hs2 & Hf2 & Hi2).
  rewrite Hs1, Hi1, Hy1 in *. fold ch full y' in Hy2.
  assert (forall x y, on_screen w x y -> on_screen w1 x y) as Hon1 by (intros; unfold on_screen; by rewrite Hi1).
  assert (forall x y, on_screen w x y -> on_screen w2 x y) as Hon2 by (intros; unfold on_screen; by rewrite Hi2).
  assert (info w' = info w) as Hi' by (destruct (shown_screen _ _ Hsh); congruence).
  split. { destruct Hsh as (w3 & [(b & -> & _) _] & ->). unfold cursor_position. simpl. by rewrite Hx2, Hy2. }
  intros x y Hxy. rewrite read_pixel_px; [|apply Hok'|unfold on_screen; by rewrite Hi'].
  rewrite (shown_px w2 w' x y Hsh) by auto. rewrite Hx2, Hy2, Hs2, Hf2, Hf1.
  rewrite (line_fed_px w1 w2 x y Hl) by auto. rewrite Hs1, Hi1, Hy1. fold ch full.
  do 2 f_equal. case_decide; [done|]. unfold without_cursor.
  destruct (full && _); [|by apply erased_px].
  destruct (Z.ltb_spec (y + ch) (height (info w))); [|done]. apply erased_px; [done|].
  destruct Hxy as [Hx Hy]. pose proof (con_scale w Hok). unfold ch, CHAR_HEIGHT in *. split; lia.
Qed.

Lemma console_line_feed_witness : exists w',
  write_byte 10 small_console = Ret (tt, w') /\ cursor_position w' = (0, 16).
Proof.
  destruct (console_line_feed small_console small_console_ok) as (w' & H1 & _ & H2 & _); [vm_compute; reflexivity|].
  exists w'. split; [exact H1|]. rewrite H2. vm_compute. reflexivity.
Defined.

(** ** Colours *)

(** The number a string of digits stands for. *)
Definition decimal (ds : list Z) : Z := fold_left (fun v d => v * 10 + (d - 48)) ds 0.

Lemma parse_digits_ok ds : forall acc n, Forall (fun d => is_ascii_digit d = true) ds ->
  0 <= acc < 10 ^ n -> 0 <= n -> n + Z.of_nat (length ds) <= 8 ->
  parse_digits acc ds = Some (fold_left (fun v d => v * 10 + (d - 48)) ds acc).
Proof.
  induction ds as [|d ds IH]; intros acc n Hd Ha Hn Hl; simpl; [done|].
  apply Forall_cons in Hd as [Hd Hds]. rewrite Hd. unfold is_ascii_digit in Hd.
  apply andb_true_iff in Hd. rewrite !Z.leb_le in Hd. cbn [length] in Hl.
  assert (10 ^ (n + 1) = 10 * 10 ^ n) as Hp by (rewrite Z.pow_add_r by lia; lia).
  assert (10 ^ (n + 1) <= 10 ^ 8) by (apply Z.pow_le_mono_r; lia).
  change (10 ^ 8) with 100000000 in *. unfold u32_max. rewrite (proj2 (Z.leb_le _ _)) by lia.
  apply (IH _ (n + 1)); [done|lia|lia|lia].
Qed.

Lemma first_field_digits ds : Forall (fun d => is_ascii_digit d = true) ds -> first_field ds = ds.
Proof.
  induction ds as [|d ds IH]; intros Hd; simpl; [done|]. apply Forall_cons in Hd as [Hd Hds].
  destruct (Z.eqb_spec d 59) as [->|]; [done|]. by rewrite IH.
Qed.

Lemma shown_digit d : is_ascii_digit d = true -> shown_byte d = d.
Proof.
  unfold is_ascii_digit, shown_byte. intros Hd. apply andb_true_iff in Hd. rewrite !Z.leb_le in Hd.
  by rewrite (proj2 (Z.leb_le 32 d)), (proj2 (Z.leb_le d 126)) by lia.
Qed.

(** The digits of a sequence are collected. *)
Lemma collect_ok ds : forall w k, Forall (fun d => is_ascii_digit d = true) ds ->
  escape_state w = InCsi -> length (csi_buf w) = 8%nat -> csi_pos w = Z.of_nat k ->
  (k + length ds <= 8)%nat ->
  exists buf, write_string ds w = Ret (tt, set_csi buf (Z.of_nat (k + length ds)) w) /\
    length buf = 8%nat /\ take (k + length ds) buf = take k (csi_buf w) ++ ds.
Proof.
  induction ds as [|d ds IH]; intros w k Hd He Hl Hk Hle; cbn [length] in *.
  - exists (csi_buf w). rewrite Nat.add_0_r, app_nil_r, <- Hk. split; [by destruct w|done].
  - apply Forall_cons in Hd as [Hd Hds].
    set (w1 := set_csi (<[k := d]> (csi_buf w)) (Z.of_nat k + 1) w).
    assert (write_byte d w = Ret (tt, w1)) as Hw1.
    { unfold write_byte, mbind, M_bind, get, is_param. rewrite He, Hd, Hl, Hk. simpl orb.
      rewrite (proj2 (Z.ltb_lt _ _)) by lia. unfold lift, store_index. rewrite Hl.
      rewrite (proj2 (Z.leb_le _ _)), (proj2 (Z.ltb_lt _ _)) by lia. simpl. by rewrite Nat2Z.id. }
    assert (csi_buf w1 = <[k := d]> (csi_buf w)) as Hcb by done.
    destruct (IH w1 (S k)) as (buf & Hr & Hlb & Ht); [done|done|by rewrite Hcb, length_insert|simpl; lia|lia|].
    exists buf. unfold write_string in *. cbn [for_each]. unfold mbind, M_bind. rewrite shown_digit, Hw1 by done.
    replace (k + S (length ds))%nat with (S k + length ds)%nat by lia. split; [exact Hr|]. split; [done|].
    rewrite Ht, Hcb, (take_S_r _ k d) by (apply list_lookup_insert_eq; lia).
    rewrite take_insert_ge by lia. by rewrite <- app_assoc.
Qed.

(** A colour sequence does what it says and nothing else: [ESC \[ n m], with [n]
    of one to eight decimal digits, sets the foreground for 30 to 37, the
    background for 40 to 47, both to the defaults for 0, and no colour otherwise;
    no pixel changes, the cursor stays, and the console is ready for text again. *)
Theorem console_colour_sequence w ds :
  con_ok w -> escape_state w = Normal ->
  Forall (fun d => is_ascii_digit d = true) ds -> (1 <= length ds <= 8)%nat ->
  exists w', write_string (0x1b :: 91 :: ds ++ [109]) w = Ret (tt, w') /\
    (fg w', bg w') = sgr_colors (decimal ds) (fg w) (bg w) /\
    buffer w' = buffer w /\ cursor_position w' = cursor_position w /\
    cursor_shown w' = cursor_shown w /\ escape_state w' = Normal.
Proof.
  intros Hok He Hd Hlen. destruct ds as [|d ds]; [simpl in Hlen; lia|].
  pose proof Hd as [Hd1 Hds]%Forall_cons. pose proof Hok as [_ _ _ _ Hl _ _]. cbn [length] in Hlen.
  set (w1 := set_csi (<[0%nat := d]> (csi_buf w)) 1 (set_escape InCsi (set_escape SawBracket (set_escape SawEsc w)))).
  assert (csi_buf w1 = <[0%nat := d]> (csi_buf w)) as Hcb by done.
  destruct (collect_ok ds w1 1) as (buf & Hc & Hlb & Ht); [done|done|by rewrite Hcb, length_insert|done|lia|].
  set (w2 := set_csi buf (Z.of_nat (1 + length ds)) w1) in *.
  assert (take (1 + length ds) buf = d :: ds) as Hbuf.
  { rewrite Ht, Hcb. rewrite (take_S_r _ 0 d) by (apply list_lookup_insert_eq; lia). done. }
  assert (field_value w2 = decimal (d :: ds)) as Hfv.
  { unfold field_value. cbn [w2 csi_pos csi_buf set_csi]. rewrite Nat2Z.id, Hbuf, first_field_digits by done.
    unfold parse_u32. by rewrite (parse_digits_ok (d :: ds) 0 0) by (done || simpl length; lia). }
  pose proof (apply_sgr_ok w2 Hlb) as Hs. apply wp_elim in Hs as ([] & w3 & Hr & Hw3); [|simpl; lia].
  rewrite Hfv in Hw3. destruct (sgr_colors _ _ _) as [f g] eqn:Hsgr. subst w3.
  exists (set_escape Normal (set_colors f g w2)). split.
  - unfold write_string in *. cbn [for_each app]. unfold mbind, M_bind.
    assert (write_byte (shown_byte 0x1b) w = Ret (tt, set_escape SawEsc w)) as ->.
    { pose proof (write_normal_ok 0x1b w Hok He) as Hn. apply wp_elim in Hn as ([] & w' & Hw & -> & _).
      unfold write_byte, mbind, M_bind, get. rewrite He. exact Hw. }
    change (write_byte (shown_byte 91) (set_escape SawEsc w)) with
      (Ret (tt, set_escape SawBracket (set_escape SawEsc w)) : outcome (unit * FrameBufferWriter)). cbn iota beta.
    assert (write_byte (shown_byte d) (set_escape SawBracket (set_escape SawEsc w)) = Ret (tt, w1)) as ->.
    { rewrite shown_digit by done. unfold write_byte, mbind, M_bind, get, is_param. simpl. rewrite Hd1. simpl.
      unfold store_index. rewrite Hl. done. }
    rewrite for_each_app. unfold mbind, M_bind. rewrite Hc. cbn [for_each]. unfold mbind, M_bind.
    assert (write_byte (shown_byte 109) w2 = Ret (tt, set_escape Normal (set_colors f g w2))) as ->.
    { unfold write_byte, mbind, M_bind, get. change (escape_state w2) with InCsi.
      change (is_param (shown_byte 109)) with false. change (shown_byte 109 =? 109) with true.
      cbv beta iota delta [andb]. rewrite Hr. done. }
    done.
  - simpl. rewrite <- Hsgr. done.
Qed.

Lemma console_colour_witness : exists w',
  write_string [27; 91; 51; 49; 109] small_console = Ret (tt, w') /\ fg w' = (170, 0, 0).
Proof.
  destruct (console_colour_sequence small_console [51; 49] small_console_ok) as (w' & H1 & H2 & _);
    [vm_compute; reflexivity|repeat constructor|simpl; lia|].
  exists w'. split; [exact H1|]. apply (f_equal fst) in H2. simpl fst in H2. rewrite H2. vm_compute. reflexivity.
Defined.
