(* ===== verification/Io.v ===== *)
(** * Hardware as the drivers see it

    Ports and memory-mapped registers. A machine [D] is whatever answers the
    accesses: the [in] and [out] instructions of the [x86_64] crate's [Port] types
    and the volatile accesses of [core::ptr]. The drivers are written against these
    two interfaces; what a particular chip does with an access is stated beside its
    driver, as laws from its data sheet. *)

From S2P Require Import Prelude.

Class Ports (D : Type) := {
  inb : Z -> D -> Z * D;
  outb : Z -> Z -> D -> D
}.

(** 32-bit registers at virtual addresses. *)
Class Mmio (D : Type) := {
  mmio_read : Z -> D -> Z * D;
  mmio_write : Z -> Z -> D -> D
}.

Section access.
Context {D : Type}.

(** [Port::read], [Port::write] *)
Definition port_read `{Ports D} (port : Z) : M D Z := fun d => Ret (inb port d).
Definition port_write `{Ports D} (port value : Z) : M D unit := fun d => Ret (tt, outb port value d).

(** [ptr::read_volatile], [ptr::write_volatile] of a [*mut u32]. *)
Definition read_volatile `{Mmio D} (ptr : Z) : M D Z := fun d =>
  if ptr mod 4 =? 0 then Ret (mmio_read ptr d)
  else Crash (UB "ptr::read_volatile requires that the pointer argument is aligned").
Definition write_volatile `{Mmio D} (ptr value : Z) : M D unit := fun d =>
  if ptr mod 4 =? 0 then Ret (tt, mmio_write ptr value d)
  else Crash (UB "ptr::write_volatile requires that the pointer argument is aligned").

Lemma wp_port_read `{Ports D} p (Q : Z -> D -> Prop) d :
  Q (inb p d).1 (inb p d).2 -> wp (port_read p) Q d.
Proof. unfold wp, port_read. by destruct (inb p d). Qed.

Lemma wp_port_write `{Ports D} p v (Q : unit -> D -> Prop) d :
  Q tt (outb p v d) -> wp (port_write p v) Q d.
Proof. done. Qed.

Lemma wp_read_volatile `{Mmio D} p (Q : Z -> D -> Prop) d :
  p mod 4 = 0 -> Q (mmio_read p d).1 (mmio_read p d).2 -> wp (read_volatile p) Q d.
Proof. unfold wp, read_volatile. intros ->. simpl. by destruct (mmio_read p d). Qed.

Lemma wp_write_volatile `{Mmio D} p v (Q : unit -> D -> Prop) d :
  p mod 4 = 0 -> Q tt (mmio_write p v d) -> wp (write_volatile p v) Q d.
Proof. unfold wp, write_volatile. by intros ->. Qed.
End access.

(** ** Observing a driver

    A machine that remembers the port accesses made to it. *)

Inductive access := Rd (port value : Z) | Wr (port value : Z).

#[global] Instance access_eq : EqDecision access.
Proof. solve_decision. Defined.

Record logged (D : Type) := mkLogged { dev : D; log : list access }.
Arguments mkLogged {D}.
Arguments dev {D}.
Arguments log {D}.

#[export] Instance logged_ports {D} `{Ports D} : Ports (logged D) := {|
  inb p d := let '(v, d') := inb p (dev d) in (v, mkLogged d' (log d ++ [Rd p v]));
  outb p v d := mkLogged (outb p v (dev d)) (log d ++ [Wr p v])
|}.
