(* ===== verification/Uart.v ===== *)
(** * The serial line: [uart.rs], [serial.rs]

    The 16550 driver over the port interface, and the printing of [serial.rs]:
    a lazily initialised [SerialPort] behind a lock that is taken and released
    within [without_interrupts]. *)

From S2P Require Import Prelude Io.

Definition LINE_STS_OUTPUT_EMPTY : Z := 32.

Definition u16_max : Z := 65535.

Record SerialPort := mkSerial {
  data : Z;
  int_en : Z;
  fifo_ctrl : Z;
  line_ctrl : Z;
  modem_ctrl : Z;
  line_sts : Z
}.

Definition new (base : Z) : outcome SerialPort :=
  p1 ← chk_add u16_max base 1;
  p2 ← chk_add u16_max base 2;
  p3 ← chk_add u16_max base 3;
  p4 ← chk_add u16_max base 4;
  p5 ← chk_add u16_max base 5;
  Ret (mkSerial base p1 p2 p3 p4 p5).

Section driver.
Context {D : Type} `{Ports D}.

(** The body of [wait_for!]; [retries] counts down to 0, where the loop ends. *)
Fixpoint wait_for (retries : nat) (cond : M D bool) : M D unit :=
  b ← cond;
  if b : bool then mret tt
  else match retries with
       | S (S _ as retries') => wait_for retries' cond
       | _ => mret tt
       end.

Definition init (self : SerialPort) : M D unit :=
  _ ← port_write (int_en self) 0x00;
  _ ← port_write (line_ctrl self) 0x80;
  _ ← port_write (data self) 0x03;
  _ ← port_write (int_en self) 0x00;
  _ ← port_write (line_ctrl self) 0x03;
  _ ← port_write (fifo_ctrl self) 0xC7;
  _ ← port_write (modem_ctrl self) 0x0B;
  port_write (int_en self) 0x01.

Definition line_sts_flags (self : SerialPort) : M D Z := port_read (line_sts self).

Definition RETRIES : nat := Z.to_nat 100000.

Definition send (self : SerialPort) (byte : Z) : M D unit :=
  _ ← wait_for RETRIES
        (flags ← line_sts_flags self;
         mret (negb (Z.land flags LINE_STS_OUTPUT_EMPTY =? 0)));
  port_write (data self) byte.

(** [fmt::Write::write_str], which always succeeds. *)
Definition write_str (self : SerialPort) (s : list Z) : M D unit := for_each s (send self).
End driver.

(** ** [serial.rs] *)

Record serial (D : Type) := mkSerialState {
  machine : D;
  SERIAL1 : option SerialPort
}.
Arguments mkSerialState {D}.
Arguments machine {D}.
Arguments SERIAL1 {D}.

Section serial.
Context {D : Type} `{Ports D}.

Definition on_machine {A} (c : M D A) : M (serial D) A := fun s =>
  match c (machine s) with
  | Ret (a, d) => Ret (a, mkSerialState d (SERIAL1 s))
  | Crash f => Crash f
  end.

(** Dereferencing the lazy static. *)
Definition serial1 : M (serial D) SerialPort :=
  s ← get;
  match SERIAL1 s with
  | Some port => mret port
  | None =>
      port ← lift (new 0x3F8);
      _ ← on_machine (init port);
      _ ← modify (fun s => mkSerialState (machine s) (Some port));
      mret port
  end.

(** [_print(args)]: [write_fmt] hands the formatted pieces to [write_str]. *)
Definition _print (args : list (list Z)) : M (serial D) unit :=
  port ← serial1;
  on_machine (for_each args (write_str port)).
End serial.

#[global] Opaque RETRIES.
