(* ===== verification/UartSpec.v ===== *)
(** * What the serial driver does to a 16550

    The chip is known by its data sheet only: [Uart16550] says what each register
    access does to its visible state. Over any machine with such a chip, printing
    transmits the bytes, in order and without loss. *)

From S2P Require Import Prelude Io Uart.

(** The registers, the bytes accepted for transmission, and how many times the
    line status will still be read as "busy" before the transmitter is empty. *)
Record uart := mkUart {
  lcr : Z;
  dll : Z;
  dlm : Z;
  ier : Z;
  fcr : Z;
  mcr : Z;
  sent : list Z;
  busy : nat
}.

Definition set_lcr (v : Z) (u : uart) : uart :=
  let '(mkUart _ l h i f m s n) := u in mkUart v l h i f m s n.
Definition set_dll (v : Z) (u : uart) : uart :=
  let '(mkUart c _ h i f m s n) := u in mkUart c v h i f m s n.
Definition set_dlm (v : Z) (u : uart) : uart :=
  let '(mkUart c l _ i f m s n) := u in mkUart c l v i f m s n.
Definition set_ier (v : Z) (u : uart) : uart :=
  let '(mkUart c l h _ f m s n) := u in mkUart c l h v f m s n.
Definition set_fcr (v : Z) (u : uart) : uart :=
  let '(mkUart c l h i _ m s n) := u in mkUart c l h i v m s n.
Definition set_mcr (v : Z) (u : uart) : uart :=
  let '(mkUart c l h i f _ s n) := u in mkUart c l h i f v s n.
Definition set_sent (x : list Z) (n : nat) (u : uart) : uart :=
  let '(mkUart c l h i f m _ _) := u in mkUart c l h i f m x n.

Definition dlab (u : uart) : bool := Z.testbit (lcr u) 7.

(** The chip at [base]; [latency] bounds the wait for an empty transmitter. Bit 7
    of the line control register switches the first two ports between the data
    and interrupt-enable registers and the divisor; bit 5 of the line status says
    that the transmitter is empty, and a byte written then is transmitted. *)
Class Uart16550 (D : Type) `{Ports D} (base : Z) (latency : nat) := {
  uview : D -> uart;
  uart_divisor d v : dlab (uview d) = true -> uview (outb base v d) = set_dll v (uview d);
  uart_transmit d v : dlab (uview d) = false -> busy (uview d) = O ->
    exists n, (n <= latency)%nat /\
      uview (outb base v d) = set_sent (sent (uview d) ++ [v]) n (uview d);
  uart_ier d v : uview (outb (base + 1) v d) =
    if dlab (uview d) then set_dlm v (uview d) else set_ier v (uview d);
  uart_fcr d v : uview (outb (base + 2) v d) = set_fcr v (uview d);
  uart_lcr d v : uview (outb (base + 3) v d) = set_lcr v (uview d);
  uart_mcr d v : uview (outb (base + 4) v d) = set_mcr v (uview d);
  uart_lsr d : Z.testbit (inb (base + 5) d).1 5 = (busy (uview d) =? 0)%nat;
  uart_poll d : uview (inb (base + 5) d).2 =
    set_sent (sent (uview d)) (Nat.pred (busy (uview d))) (uview d)
}.

Definition serial_at (base : Z) : SerialPort :=
  mkSerial base (base + 1) (base + 2) (base + 3) (base + 4) (base + 5).

Section driver_spec.
Context {D : Type} `{Ports D} {base : Z} {latency : nat} `{!Uart16550 D base latency}.
Implicit Types (d : D).

Lemma set_sent_twice s n s' n' u : set_sent s n (set_sent s' n' u) = set_sent s n u.
Proof. by destruct u. Qed.
Lemma sent_set s n u : sent (set_sent s n u) = s.
Proof. by destruct u. Qed.
Lemma busy_set s n u : busy (set_sent s n u) = n.
Proof. by destruct u. Qed.
Lemma dlab_set s n u : dlab (set_sent s n u) = dlab u.
Proof. by destruct u. Qed.
Lemma dlab_lcr v u : dlab (set_lcr v u) = Z.testbit v 7.
Proof. by destruct u. Qed.
Lemma set_same u : set_sent (sent u) (busy u) u = u.
Proof. by destruct u. Qed.

Lemma wait_for_ready retries d : (busy (uview d) < retries)%nat ->
  wp (wait_for retries
       (flags ← line_sts_flags (serial_at base);
        mret (negb (Z.land flags LINE_STS_OUTPUT_EMPTY =? 0))))
     (fun _ d' => uview d' = set_sent (sent (uview d)) 0 (uview d)) d.
Proof.
  revert d. induction retries as [|r IH]; intros d Hb; [lia|]. cbn [wait_for].
  repeat apply wp_bind. apply wp_port_read, wp_ret. cbn [line_sts serial_at].
  change LINE_STS_OUTPUT_EMPTY with (2 ^ 5). rewrite land_pow2_test, uart_lsr by lia.
  pose proof (uart_poll d) as Hp.
  destruct (Nat.eqb_spec (busy (uview d)) 0) as [H0|H0].
  - apply wp_ret. rewrite Hp, H0. done.
  - destruct r as [|r]; [lia|]. eapply wp_mono; [apply IH; rewrite Hp, busy_set; lia|].
    intros [] d' ->. by rewrite Hp, set_sent_twice, sent_set.
Qed.

(** What printing preserves and does. *)
Definition ready (u : uart) : Prop := dlab u = false /\ (busy u <= latency)%nat.

Lemma send_ok b d : (latency < RETRIES)%nat -> ready (uview d) ->
  wp (send (serial_at base) b)
     (fun _ d' => ready (uview d') /\ exists n, uview d' = set_sent (sent (uview d) ++ [b]) n (uview d)) d.
Proof.
  intros Hl [Hd Hb]. unfold send. apply wp_bind. eapply wp_mono; [apply wait_for_ready; lia|].
  intros [] d' Hv. apply wp_port_write. cbn [data serial_at].
  destruct (uart_transmit d' b) as (n & Hn & Hs); [by rewrite Hv, ?dlab_set, ?busy_set..|].
  rewrite Hs, Hv, sent_set, set_sent_twice. split; [|by exists n].
  unfold ready. by rewrite dlab_set, busy_set.
Qed.

Lemma write_str_ok s : forall d, (latency < RETRIES)%nat -> ready (uview d) ->
  wp (write_str (serial_at base) s)
     (fun _ d' => ready (uview d') /\ exists n, uview d' = set_sent (sent (uview d) ++ s) n (uview d)) d.
Proof.
  induction s as [|b s IH]; intros d Hl Hr.
  - apply wp_ret. split; [done|]. exists (busy (uview d)). by rewrite app_nil_r, set_same.
  - apply wp_bind. eapply wp_mono; [by apply send_ok|]. intros [] d1 [Hr1 [n1 H1]].
    eapply wp_mono; [by apply IH|]. intros [] d2 [Hr2 [n2 H2]]. split; [done|].
    exists n2. by rewrite H2, H1, set_sent_twice, sent_set, <- app_assoc.
Qed.

Lemma pieces_ok args : forall d, (latency < RETRIES)%nat -> ready (uview d) ->
  wp (for_each args (write_str (serial_at base)))
     (fun _ d' => ready (uview d') /\
        exists n, uview d' = set_sent (sent (uview d) ++ concat args) n (uview d)) d.
Proof.
  induction args as [|s args IH]; intros d Hl Hr.
  - apply wp_ret. split; [done|]. exists (busy (uview d)). by rewrite app_nil_r, set_same.
  - apply wp_bind. eapply wp_mono; [by apply write_str_ok|]. intros [] d1 [Hr1 [n1 H1]].
    eapply wp_mono; [by apply IH|]. intros [] d2 [Hr2 [n2 H2]]. split; [done|].
    exists n2. by rewrite H2, H1, set_sent_twice, sent_set, <- app_assoc.
Qed.

(** 115200 / 3 = 38400 baud, 8 data bits, no parity, one stop bit. *)
Definition configured (u : uart) : Prop :=
  lcr u = 3 /\ dll u = 3 /\ dlm u = 0 /\ fcr u = 0xC7 /\ mcr u = 0x0B /\ ier u = 1.

Lemma uart_init_ok d : (busy (uview d) <= latency)%nat ->
  wp (init (serial_at base))
     (fun _ d' => configured (uview d') /\ ready (uview d') /\ sent (uview d') = sent (uview d)) d.
Proof.
  intros Hb. unfold init. cbn [data int_en line_ctrl fifo_ctrl modem_ctrl serial_at].
  repeat (apply wp_bind, wp_port_write). apply wp_port_write.
  rewrite uart_ier, uart_mcr, uart_fcr, uart_lcr, uart_ier.
  rewrite uart_divisor by by rewrite uart_lcr, dlab_lcr.
  rewrite uart_lcr, uart_ier. destruct (uview d) as [c l h i f m s n]. unfold dlab. cbn [lcr].
  by destruct (Z.testbit c 7).
Qed.
End driver_spec.

(** ** What printing leaves alone

    A part [f] of the machine that no access to the line's ports changes. *)

Section apart.
Context {D X : Type} `{Ports D} (f : D -> X).
Hypothesis f_out : forall p v d, 0x3F8 <= p < 0x400 -> f (outb p v d) = f d.
Hypothesis f_in : forall p d, 0x3F8 <= p < 0x400 -> f (inb p d).2 = f d.

(** [c] returns, with [f] as it was. *)
Definition leaves {A} (c : M D A) : Prop := forall d, wp c (fun _ d' => f d' = f d) d.

Lemma leaves_bind {A B} (c : M D A) (g : A -> M D B) : leaves c -> (forall a, leaves (g a)) -> leaves (c ≫= g).
Proof.
  intros Hc Hg d. apply wp_bind. eapply wp_mono; [apply Hc|]. intros a d1 H1.
  eapply wp_mono; [apply Hg|]. intros b d2 H2. congruence.
Qed.
Lemma leaves_ret {A} (a : A) : leaves (mret a).
Proof. by intros d. Qed.
Lemma leaves_read p : 0x3F8 <= p < 0x400 -> leaves (port_read p).
Proof. intros Hp d. apply wp_port_read. by apply f_in. Qed.
Lemma leaves_write p v : 0x3F8 <= p < 0x400 -> leaves (port_write p v).
Proof. intros Hp d. apply wp_port_write. by apply f_out. Qed.
Lemma leaves_each {A} (g : A -> M D unit) xs : (forall x, leaves (g x)) -> leaves (for_each xs g).
Proof. intros Hg. induction xs; simpl; [apply leaves_ret|]. by apply leaves_bind. Qed.
Lemma leaves_wait n c : leaves c -> leaves (wait_for n c).
Proof.
  intros Hc. induction n as [|n IH]; cbn [wait_for]; apply leaves_bind; try done; intros [].
  all: try apply leaves_ret. destruct n; [apply leaves_ret|done].
Qed.

Create HintDb com1.
#[local] Hint Resolve leaves_bind leaves_ret leaves_read leaves_write leaves_each leaves_wait : com1.
#[local] Hint Extern 1 (_ <= _ < _) => cbn; lia : com1.

Lemma leaves_send b : leaves (send (serial_at 0x3F8) b).
Proof. unfold send, line_sts_flags. eauto 10 with com1. Qed.

Lemma leaves_uart : leaves (Uart.init (serial_at 0x3F8)).
Proof. unfold Uart.init. repeat (apply leaves_bind; [|intros ?]); auto with com1. Qed.

(** The serial line is not set up yet, or at its ports. *)
Definition com1_ok (o : option SerialPort) : Prop := o = None \/ o = Some (serial_at 0x3F8).

Lemma serial_print_keeps args s : com1_ok (SERIAL1 s) ->
  wp (_print args) (fun _ s' => f (Uart.machine s') = f (Uart.machine s) /\ com1_ok (SERIAL1 s')) s.
Proof.
  intros Hs. unfold _print. apply wp_bind.
  assert (Hp : wp serial1 (fun port s' => port = serial_at 0x3F8 /\
    f (Uart.machine s') = f (Uart.machine s) /\ com1_ok (SERIAL1 s')) s).
  { unfold serial1. apply wp_bind, wp_get. destruct Hs as [Hs|Hs]; rewrite Hs;
      [|by apply wp_ret; split; [|split; [|right]]].
    apply wp_bind, wp_lift. change (Uart.new 0x3F8) with (Ret (serial_at 0x3F8)). apply returns_ret, wp_bind.
    unfold wp, on_machine. pose proof (leaves_uart (Uart.machine s)) as Hk. unfold wp in Hk.
    destruct (Uart.init _ _) as [[[] d]|]; [|done]. simpl. split_and!; [done|done|by right]. }
  eapply wp_mono; [exact Hp|]. intros port s1 (-> & Hh & Hs1). unfold wp, on_machine.
  assert (Hk : leaves (for_each args (write_str (serial_at 0x3F8)))).
  { apply leaves_each. intros x. apply leaves_each, leaves_send. }
  specialize (Hk (Uart.machine s1)). unfold wp in Hk. destruct (for_each _ _ _) as [[[] d]|]; [|done].
  simpl. split; [congruence|done].
Qed.
End apart.

(** ** Printing *)

Section print_spec.
Context {D : Type} `{Ports D} {latency : nat} `{!Uart16550 D 0x3F8 latency}.

Definition serial_ok (s : serial D) : Prop :=
  (busy (uview (machine s)) <= latency)%nat /\
  match SERIAL1 s with
  | None => True
  | Some port => port = serial_at 0x3F8 /\ configured (uview (machine s))
  end.

Lemma configured_ready u : configured u -> (busy u <= latency)%nat -> ready (latency := latency) u.
Proof. intros (Hl & _) Hb. split; [|done]. unfold dlab. by rewrite Hl. Qed.

Lemma configured_sent s n u : configured u -> configured (set_sent s n u).
Proof. by destruct u. Qed.

Lemma wp_on_machine {A} (c : M D A) (Q : A -> serial D -> Prop) s :
  wp c (fun a d => Q a (mkSerialState d (SERIAL1 s))) (machine s) -> wp (on_machine c) Q s.
Proof. unfold wp, on_machine. by destruct (c (machine s)) as [[? ?]|]. Qed.

Lemma serial1_ok s : serial_ok s ->
  wp serial1 (fun port s' => port = serial_at 0x3F8 /\ SERIAL1 s' = Some port /\
    serial_ok s' /\ sent (uview (machine s')) = sent (uview (machine s))) s.
Proof.
  intros [Hb Hs]. unfold serial1. apply wp_bind, wp_get. destruct (SERIAL1 s) as [port|] eqn:E.
  - apply wp_ret. destruct Hs as [-> Hc]. split_and!; [done|done|split; [done|by rewrite E]|done].
  - change (new 0x3F8) with (Ret (serial_at 0x3F8)). apply wp_bind, wp_lift, returns_ret.
    apply wp_bind, wp_on_machine.
    eapply wp_mono; [by apply (uart_init_ok (base := 0x3F8))|]. intros [] d' (Hc & [_ Hb'] & Hse).
    apply wp_bind, wp_modify, wp_ret. by split_and!.
Qed.

Lemma print_ok args s : (latency < RETRIES)%nat -> serial_ok s ->
  wp (_print args) (fun _ s' => serial_ok s' /\ SERIAL1 s' = Some (serial_at 0x3F8) /\
    sent (uview (machine s')) = sent (uview (machine s)) ++ concat args) s.
Proof.
  intros Hl Hs. unfold _print. apply wp_bind. eapply wp_mono; [by apply serial1_ok|].
  intros port s1 (-> & HS & [Hb Hc] & Hsent). rewrite HS in Hc. destruct Hc as [_ Hc].
  apply wp_on_machine. eapply wp_mono; [apply (pieces_ok (base := 0x3F8)); [exact Hl|by apply configured_ready]|].
  intros [] d' [[_ Hb'] [n Hv]]. rewrite HS. split_and!; [split|done|]; cbn [machine SERIAL1].
  - done.
  - split; [done|]. rewrite Hv. by apply configured_sent.
  - by rewrite Hv, sent_set, Hsent.
Qed.

(** C27: on any machine with a 16550 at port [0x3F8] whose transmitter empties within
    the driver's patience, any sequence of prints returns, transmits exactly the
    bytes printed, in order, and leaves the line at 38400 baud, 8-N-1. *)
Theorem serial_print_delivers msgs s :
  (latency < RETRIES)%nat -> (busy (uview (machine s)) <= latency)%nat -> SERIAL1 s = None ->
  exists s', for_each msgs _print s = Ret (tt, s') /\
    sent (uview (machine s')) = sent (uview (machine s)) ++ concat (concat msgs) /\
    (msgs <> [] -> configured (uview (machine s'))).
Proof.
  intros Hl Hb HN. assert (Hs : serial_ok s) by (split; [done|by rewrite HN]).
  assert (wp (for_each msgs _print) (fun _ s' =>
    sent (uview (machine s')) = sent (uview (machine s)) ++ concat (concat msgs) /\
    (msgs <> [] -> configured (uview (machine s')))) s) as ([] & s' & ? & ?)%wp_elim; [|by exists s'].
  eapply wp_mono; [apply (wp_for_each (fun pre s' => serial_ok s' /\
    sent (uview (machine s')) = sent (uview (machine s)) ++ concat (concat pre) /\
    (pre <> [] -> is_Some (SERIAL1 s'))) _ msgs [])|].
  - intros pre x post s1 _ (Hs1 & Hse & _). eapply wp_mono; [by apply print_ok; [exact Hl|]|].
    intros [] s2 (Hs2 & HS2 & Hse2). split_and!; [done| |by rewrite HS2].
    rewrite Hse2, Hse, !concat_app, <- app_assoc. simpl. by rewrite app_nil_r.
  - by rewrite app_nil_r.
  - intros [] s1 ([_ Hs1] & Hse & Hp). split; [done|]. intros Hne. destruct (Hp Hne) as [port HS].
    rewrite HS in Hs1. apply Hs1.
Qed.
End print_spec.

(** ** A chip that shows the laws can hold *)

Definition step_uart (port v : Z) (u : uart) : uart :=
  match port - 0x3F8 with
  | 0 => if dlab u then set_dll v u
         else if (busy u =? 0)%nat then set_sent (sent u ++ [v]) 2 u else u
  | 1 => if dlab u then set_dlm v u else set_ier v u
  | 2 => set_fcr v u
  | 3 => set_lcr v u
  | 4 => set_mcr v u
  | _ => u
  end.

#[export] Instance demo_ports : Ports uart := {|
  inb port u :=
    if port =? 0x3FD then (if (busy u =? 0)%nat then 0x60 else 0, set_sent (sent u) (Nat.pred (busy u)) u)
    else (0, u);
  outb := step_uart
|}.

#[export] Program Instance demo_uart : Uart16550 uart 0x3F8 2 := {| uview := fun u => u |}.
Next Obligation. intros u v Hd. unfold outb, demo_ports, step_uart. simpl. by rewrite Hd. Qed.
Next Obligation.
  intros u v Hd Hb. exists 2%nat. split; [lia|]. unfold outb, demo_ports, step_uart. simpl. by rewrite Hd, Hb.
Qed.
Next Obligation. done. Qed.
Next Obligation. done. Qed.
Next Obligation. done. Qed.
Next Obligation. done. Qed.
Next Obligation. intros u. simpl. by destruct (busy u =? 0)%nat. Qed.
Next Obligation. done. Qed.

Definition demo_serial : serial uart := mkSerialState (mkUart 0 1 0 0 0 0 [] 1) None.

Lemma serial_print_witness : exists s',
  for_each [[[72; 105]; [10]]; [[33]]] _print demo_serial = Ret (tt, s') /\
  sent (uview (machine s')) = [72; 105; 10; 33] /\ configured (uview (machine s')).
Proof.
  destruct (serial_print_delivers [[[72; 105]; [10]]; [[33]]] demo_serial) as (s' & H1 & H2 & H3).
  - apply Nat.ltb_lt. vm_compute. reflexivity.
  - simpl. lia.
  - reflexivity.
  - exists s'. split; [exact H1|]. split; [exact H2|]. apply H3. discriminate.
Defined.

(** ** The patience of the driver *)

Definition tx_empty (v : Z) : bool := Z.testbit v 5.

Lemma wait_for_log {D} `{Ports D} port retries : forall (d : logged D), (0 < retries)%nat ->
  wp (wait_for retries (flags ← line_sts_flags port;
        mret (negb (Z.land flags LINE_STS_OUTPUT_EMPTY =? 0))))
     (fun _ d' => exists vs v, log d' = log d ++ (Rd (line_sts port) <$> vs ++ [v]) /\
        (length vs < retries)%nat /\ Forall (fun v => tx_empty v = false) vs /\
        (tx_empty v = true \/ length vs = (retries - 1)%nat)) d.
Proof.
  induction retries as [|r IH]; intros d Hr; [lia|]. cbn [wait_for].
  repeat apply wp_bind. apply wp_port_read, wp_ret. change LINE_STS_OUTPUT_EMPTY with (2 ^ 5).
  rewrite land_pow2_test by lia. unfold inb at 1 2. unfold logged_ports.
  destruct (inb (line_sts port) (dev d)) as [v d1]. cbn [fst snd].
  destruct (Z.testbit v 5) eqn:Ev; [|destruct r as [|r]].
  - apply wp_ret. exists [], v. simpl. split_and!; [done|lia|done|by left].
  - apply wp_ret. exists [], v. simpl. split_and!; [done|lia|done|by right].
  - eapply wp_mono; [apply IH; lia|]. intros [] d2 (vs & v' & Hlog & Hlen & Hf & He).
    exists (v :: vs), v'. simpl in *. split_and!; [by rewrite Hlog, <- app_assoc|lia|by constructor|].
    destruct He as [He|He]; [by left|right; lia].
Qed.

(** C35: on any machine at all, sending a byte returns after between 1 and 100 000
    reads of the line status and exactly one write, that of the byte to the data
    port, which comes last; the reads stop at the first one that shows the
    transmitter empty. *)
Theorem serial_send_bounded {D} `{Ports D} port byte (d : logged D) :
  exists d' vs v,
    send port byte d = Ret (tt, d') /\
    log d' = log d ++ (Rd (line_sts port) <$> vs ++ [v]) ++ [Wr (data port) byte] /\
    Z.of_nat (length vs) < 100000 /\ Forall (fun v => tx_empty v = false) vs /\
    (tx_empty v = true \/ Z.of_nat (length vs) = 99999).
Proof.
  assert (HR : Z.of_nat RETRIES = 100000).
  { Transparent RETRIES. unfold RETRIES. rewrite Z2Nat.id; [done|lia]. }
  Opaque RETRIES.
  assert (wp (send port byte) (fun _ d' => exists vs v,
    log d' = log d ++ (Rd (line_sts port) <$> vs ++ [v]) ++ [Wr (data port) byte] /\
    Z.of_nat (length vs) < 100000 /\ Forall (fun v => tx_empty v = false) vs /\
    (tx_empty v = true \/ Z.of_nat (length vs) = 99999)) d) as ([] & d' & Hr & vs & v & Hlog)%wp_elim;
    [|exists d', vs, v; exact (conj Hr Hlog)].
  unfold send. apply wp_bind. eapply wp_mono; [apply wait_for_log; lia|].
  intros [] d1 (vs & v & Hlog & Hlen & Hf & He). apply wp_port_write. exists vs, v.
  split_and!; [by simpl; rewrite Hlog, <- app_assoc|lia|done|].
  destruct He as [He|He]; [by left|right; lia].
Qed.
