(* ===== verification/Pic.v ===== *)
(** * The legacy interrupt controllers: [pic.rs]

    The driver of the two chained 8259 chips over the port interface, and what it
    does to chips that follow the data sheet. *)

From S2P Require Import Prelude Io.

Definition CMD_INIT : Z := 0x11.
Definition CMD_END_OF_INTERRUPT : Z := 0x20.
Definition MODE_8086 : Z := 0x01.

Definition u8_max : Z := 255.

Record Pic := mkPic {
  offset : Z;
  command : Z;
  data : Z
}.

Definition handles_interrupt (self : Pic) (interrupt_id : Z) : outcome bool :=
  if offset self <=? interrupt_id then
    e ← chk_add u8_max (offset self) 8;
    Ret (interrupt_id <? e)
  else Ret false.

(** [pics: [Pic; 2]] *)
Record ChainedPics := mkPics { pic0 : Pic; pic1 : Pic }.

Definition new (offset1 offset2 : Z) : ChainedPics :=
  mkPics (mkPic offset1 0x20 0x21) (mkPic offset2 0xA0 0xA1).

Section driver.
Context {D : Type} `{Ports D}.

Definition Pic_end_of_interrupt (self : Pic) : M D unit :=
  port_write (command self) CMD_END_OF_INTERRUPT.

(** The closure [wait]: a write to an unused port. *)
Definition wait : M D unit := port_write 0x80 0.

Definition initialize (self : ChainedPics) : M D unit :=
  saved_mask1 ← port_read (data (pic0 self));
  saved_mask2 ← port_read (data (pic1 self));
  _ ← port_write (command (pic0 self)) CMD_INIT;
  _ ← wait;
  _ ← port_write (command (pic1 self)) CMD_INIT;
  _ ← wait;
  _ ← port_write (data (pic0 self)) (offset (pic0 self));
  _ ← wait;
  _ ← port_write (data (pic1 self)) (offset (pic1 self));
  _ ← wait;
  _ ← port_write (data (pic0 self)) 4;
  _ ← wait;
  _ ← port_write (data (pic1 self)) 2;
  _ ← wait;
  _ ← port_write (data (pic0 self)) MODE_8086;
  _ ← wait;
  _ ← port_write (data (pic1 self)) MODE_8086;
  _ ← wait;
  _ ← port_write (data (pic0 self)) saved_mask1;
  port_write (data (pic1 self)) saved_mask2.

Definition notify_end_of_interrupt (self : ChainedPics) (interrupt_id : Z) : M D unit :=
  b ← lift (handles_interrupt (pic1 self) interrupt_id);
  _ ← (if b : bool then Pic_end_of_interrupt (pic1 self) else mret tt);
  Pic_end_of_interrupt (pic0 self).

Definition mask_irq (self : ChainedPics) (irq : Z) : M D unit :=
  _ ← guard_or (irq <? 16) (Panic "assertion failed: irq < 16");
  if irq <? 8 then
    mask ← port_read (data (pic0 self));
    bit ← lift (chk_shl1 8 irq);
    port_write (data (pic0 self)) (Z.lor mask bit)
  else
    mask ← port_read (data (pic1 self));
    bit ← lift (chk_shl1 8 (irq - 8));
    port_write (data (pic1 self)) (Z.lor mask bit).

Definition mask_all (self : ChainedPics) : M D unit :=
  _ ← port_write (data (pic0 self)) 0xFF;
  port_write (data (pic1 self)) 0xFF.
End driver.

(** ** The 8259A, by its data sheet

    [expect] says which initialisation word comes next on the data port, [Ready]
    that writes there set the mask. [isr] holds the lines in service; a
    non-specific end-of-interrupt clears the one of highest priority, the lowest
    set bit. *)

Inductive icw := Icw2 | Icw3 | Icw4 | Ready.

Record chip := mkChip {
  expect : icw;
  vector_base : Z;
  cascade : Z;
  mode : Z;
  imr : Z;
  isr : Z
}.

(** [x] without its lowest set bit. *)
Definition clear_lowest (x : Z) : Z := Z.land x (x - 1).

(** A write to the command port: bit 4 starts an initialisation (whose word [0x11]
    announces all four words), [0x20] is the non-specific end-of-interrupt. *)
Definition chip_command (v : Z) (c : chip) : chip :=
  let '(mkChip e b s m i r) := c in
  if Z.testbit v 4 then mkChip Icw2 b s m 0 0
  else if v =? 0x20 then mkChip e b s m i (clear_lowest r)
  else c.

Definition chip_data (v : Z) (c : chip) : chip :=
  let '(mkChip e b s m i r) := c in
  match e with
  | Icw2 => mkChip Icw3 (Z.land v 0xF8) s m i r
  | Icw3 => mkChip Icw4 b v m i r
  | Icw4 => mkChip Ready b s v i r
  | Ready => mkChip Ready b s m v r
  end.

Class Pic8259Pair (D : Type) `{Ports D} := {
  chips : D -> chip * chip;
  pic_command0 d v : v = 0x11 \/ v = 0x20 ->
    chips (outb 0x20 v d) = (chip_command v (chips d).1, (chips d).2);
  pic_command1 d v : v = 0x11 \/ v = 0x20 ->
    chips (outb 0xA0 v d) = ((chips d).1, chip_command v (chips d).2);
  pic_data0 d v : chips (outb 0x21 v d) = (chip_data v (chips d).1, (chips d).2);
  pic_data1 d v : chips (outb 0xA1 v d) = ((chips d).1, chip_data v (chips d).2);
  pic_mask0 d : (inb 0x21 d).1 = imr (chips d).1 /\ chips (inb 0x21 d).2 = chips d;
  pic_mask1 d : (inb 0xA1 d).1 = imr (chips d).2 /\ chips (inb 0xA1 d).2 = chips d;
  pic_other d v : chips (outb 0x80 v d) = chips d
}.

Section driver_spec.
Context {D : Type} `{Ports D} `{!Pic8259Pair D}.
Implicit Types (d : D).

Lemma initialize_chips o1 o2 d :
  wp (initialize (new o1 o2)) (fun _ d' => chips d' =
    (mkChip Ready (Z.land o1 0xF8) 4 1 (imr (chips d).1) 0,
     mkChip Ready (Z.land o2 0xF8) 2 1 (imr (chips d).2) 0)) d.
Proof.
  unfold initialize, wait, new. cbn [offset command data pic0 pic1].
  apply wp_bind, wp_port_read. destruct (pic_mask0 d) as [-> H0].
  set (d1 := (inb 0x21 d).2) in *. apply wp_bind, wp_port_read. destruct (pic_mask1 d1) as [-> H1].
  rewrite H0 in H1 |- *. set (d2 := (inb 0xA1 d1).2) in *. clearbody d1 d2.
  repeat (apply wp_bind, wp_port_write). apply wp_port_write.
  do 30 first [rewrite pic_other | rewrite pic_data1 | rewrite pic_data0
              | rewrite pic_command0 by auto | rewrite pic_command1 by auto | idtac].
  rewrite H1. destruct (chips d) as [[e0 b0 s0 m0 i0 r0] [e1 b1 s1 m1 i1 r1]]. reflexivity.
Qed.

Lemma notify_chips o1 o2 i d : 0 <= o2 <= 247 ->
  wp (notify_end_of_interrupt (new o1 o2) i) (fun _ d' => chips d' =
    (chip_command 0x20 (chips d).1,
     if (o2 <=? i) && (i <? o2 + 8) then chip_command 0x20 (chips d).2 else (chips d).2)) d.
Proof.
  intros Ho. unfold notify_end_of_interrupt, handles_interrupt, Pic_end_of_interrupt, new. cbn [pic0 pic1 offset command].
  apply wp_bind, wp_lift. destruct (o2 <=? i).
  - apply returns_bind, returns_chk_add; [unfold u8_max; lia|]. apply returns_ret. apply wp_bind. simpl.
    destruct (i <? o2 + 8).
    + apply wp_port_write, wp_port_write. unfold CMD_END_OF_INTERRUPT. rewrite pic_command0, pic_command1 by auto. done.
    + apply wp_ret, wp_port_write. unfold CMD_END_OF_INTERRUPT. by rewrite pic_command0 by auto.
  - apply returns_ret, wp_bind, wp_ret, wp_port_write. unfold CMD_END_OF_INTERRUPT. by rewrite pic_command0 by auto.
Qed.

Lemma mask_all_chips o1 o2 d :
  wp (mask_all (new o1 o2)) (fun _ d' => chips d' = (chip_data 0xFF (chips d).1, chip_data 0xFF (chips d).2)) d.
Proof. apply wp_bind, wp_port_write, wp_port_write. cbn [data pic0 pic1 new]. by rewrite pic_data1, pic_data0. Qed.

Lemma mask_irq_chips o1 o2 irq d : 0 <= irq < 16 ->
  wp (mask_irq (new o1 o2) irq) (fun _ d' => chips d' =
    if irq <? 8 then (chip_data (Z.lor (imr (chips d).1) (2 ^ irq)) (chips d).1, (chips d).2)
    else ((chips d).1, chip_data (Z.lor (imr (chips d).2) (2 ^ (irq - 8))) (chips d).2)) d.
Proof.
  intros Hi. unfold mask_irq, new. cbn [data pic0 pic1]. apply wp_bind, wp_guard; [apply Z.ltb_lt; lia|]. case_test H8.
  - apply wp_bind, wp_port_read. destruct (pic_mask0 d) as [-> Hc].
    apply wp_bind, wp_lift, returns_chk_shl1; [lia|]. apply wp_port_write. by rewrite pic_data0, Hc.
  - apply wp_bind, wp_port_read. destruct (pic_mask1 d) as [-> Hc].
    apply wp_bind, wp_lift, returns_chk_shl1; [lia|]. apply wp_port_write. by rewrite pic_data1, Hc.
Qed.
End driver_spec.

(** ** End of interrupt *)

(** [k] is the line of highest priority in service. *)
Definition highest (x k : Z) : Prop :=
  0 <= k /\ Z.testbit x k = true /\ forall j, 0 <= j < k -> Z.testbit x j = false.

Lemma testbit_high x q n j : 0 <= n <= j -> x / 2 ^ n = q -> Z.testbit x j = Z.testbit q (j - n).
Proof. intros Hj <-. rewrite Z.div_pow2_bits by lia. f_equal. lia. Qed.

Lemma low_bits_zero x k : 0 <= k -> (forall j, 0 <= j < k -> Z.testbit x j = false) -> x mod 2 ^ k = 0.
Proof.
  intros Hk Hj. apply Z.bits_inj'. intros j Hn. rewrite Z.testbit_0_l.
  destruct (Z.lt_ge_cases j k).
  - rewrite Z.mod_pow2_bits_low by lia. apply Hj. lia.
  - by rewrite Z.mod_pow2_bits_high by lia.
Qed.

Lemma highest_split x k : highest x k -> x = x / 2 ^ (k + 1) * 2 ^ (k + 1) + 2 ^ k.
Proof.
  intros (Hk & Hb & Hj). pose proof (pow2_pos k Hk). pose proof (low_bits_zero x k Hk Hj) as Hm.
  rewrite Z.testbit_true in Hb by done.
  pose proof (Z.div_mod x (2 ^ k) ltac:(lia)) as Hd.
  pose proof (Z.div_mod (x / 2 ^ k) 2 ltac:(lia)) as Hd2.
  rewrite Z.div_div in Hd2 by lia. rewrite pow2_S by lia. rewrite (Z.mul_comm 2). nia.
Qed.

(** An end-of-interrupt takes exactly that line out of service. *)
Lemma clear_lowest_highest x k : highest x k -> clear_lowest x = Z.clearbit x k.
Proof.
  intros Hh. pose proof (highest_split _ _ Hh) as Hx. destruct Hh as (Hk & Hb & Hj).
  set (q := x / 2 ^ (k + 1)) in *. pose proof (pow2_pos k Hk). pose proof (pow2_S k Hk).
  assert (Hd : (x - 1) / 2 ^ (k + 1) = q).
  { symmetry. apply (Z.div_unique_pos _ _ _ (2 ^ k - 1)); [lia|]. nia. }
  assert (Hbk : Z.testbit (x - 1) k = false).
  { apply Z.testbit_false; [done|]. replace ((x - 1) / 2 ^ k) with (q * 2).
    - by apply Z.mod_mul.
    - apply (Z.div_unique_pos _ _ _ (2 ^ k - 1)); [lia|]. nia. }
  unfold clear_lowest. apply Z.bits_inj'. intros j Hn. rewrite Z.land_spec, Z.clearbit_eqb.
  destruct (Z.eqb_spec k j) as [<-|Hne]; simpl; [by rewrite Hbk, !andb_false_r|]. rewrite andb_true_r.
  destruct (Z.lt_ge_cases j k); [by rewrite Hj by lia|].
  rewrite (testbit_high (x - 1) q (k + 1) j), (testbit_high x q (k + 1) j) by first [lia|done].
  apply andb_diag.
Qed.
