(* ===== verification/Apic.v ===== *)
(** * ACPI tables and the APICs: [apic/mod.rs], [apic/lapic.rs], [apic/ioapic.rs]

    The walk from the RSDP to the MADT over raw memory, the drivers of the local
    and the I/O APIC over memory-mapped registers, and [init], which routes the
    timer and the keyboard through them.

    The tables' integer fields are read in two ways: fields of [repr(packed)]
    structures at any address, and [*(p as *const u32)] through a raw pointer. The
    language requires the pointer to be aligned in the latter, and a debug build
    checks it. *)

From S2P Require Import Prelude Memory Io Str.
From Stdlib Require Import Ascii.
Local Open Scope rust_scope.

Definition MAX_IOAPICS : Z := 4.
Definition MAX_OVERRIDES : Z := 16.

Record IrqOverride := mkOverride {
  source : Z;
  gsi : Z;
  flags : Z
}.

Record ApicInfo := mkApicInfo {
  lapic_phys_base : Z;
  ioapic_count : Z;
  ioapic_addrs : list Z;
  ioapic_gsi_bases : list Z;
  override_count : Z;
  overrides : list IrqOverride
}.

(** ** Raw reads *)

(** A field of a packed structure. *)
Definition field (n : nat) (m : memory) (a : Z) : outcome Z :=
  match load n m a with
  | Some v => Ret v
  | None => Crash (UB "load of an unmapped or uninitialised address")
  end.

(** [*(p as *const uN)] *)
Definition deref (n : nat) (m : memory) (a : Z) : outcome Z :=
  if a mod Z.of_nat n =? 0 then field n m a else Crash (Panic "misaligned pointer dereference").

(** [n] bytes from [a]: a [&[u8]] or a [&[u8; n]]. *)
Fixpoint bytes (n : nat) (m : memory) (a : Z) : outcome (list Z) :=
  match n with
  | O => Ret []
  | S n' => b ← field 1 m a; bs ← bytes n' m (a + 1); Ret (b :: bs)
  end.

(** The bytes of a byte-string literal. *)
Definition byte_lit (s : string) : list Z := (fun c => Z.of_N (N_of_ascii c)) <$> lit s.

Definition SDT_HEADER : Z := 36.

Definition phys_to_virt (phys offset : Z) : outcome Z := offset +? phys.

Definition check_signature (m : memory) (ptr : Z) (expected : list Z) : outcome bool :=
  if ptr =? 0 then Ret false
  else s ← bytes 4 m ptr; Ret (bool_decide (s = expected)).

(** [header.length] *)
Definition sdt_length (m : memory) (table : Z) : outcome Z := field 4 m (table + 4).

(** The loops of [find_madt_*]; [width] is the size of an entry. *)
Fixpoint scan_entries (width : nat) (n : nat) (m : memory) (entry phys_offset : Z) : outcome (option Z) :=
  match n with
  | O => Ret None
  | S n' =>
      entry_phys ← deref width m entry;
      entry_ptr ← phys_to_virt entry_phys phys_offset;
      found ← check_signature m entry_ptr (byte_lit "APIC");
      if found : bool then Ret (Some entry_ptr)
      else scan_entries width n' m (entry + Z.of_nat width) phys_offset
  end.

Definition find_madt_rsdt (m : memory) (rsdt_ptr phys_offset : Z) : outcome (option Z) :=
  ok ← check_signature m rsdt_ptr (byte_lit "RSDT");
  if negb ok then Ret None
  else
    length ← sdt_length m rsdt_ptr;
    rest ← length -? SDT_HEADER;
    scan_entries 4 (Z.to_nat (rest / 4)) m (rsdt_ptr + SDT_HEADER) phys_offset.

Definition find_madt_xsdt (m : memory) (xsdt_ptr phys_offset : Z) : outcome (option Z) :=
  ok ← check_signature m xsdt_ptr (byte_lit "XSDT");
  if negb ok then Ret None
  else
    length ← sdt_length m xsdt_ptr;
    rest ← length -? SDT_HEADER;
    scan_entries 8 (Z.to_nat (rest / 8)) m (xsdt_ptr + SDT_HEADER) phys_offset.

Definition parse_rsdp (m : memory) (rsdp_phys phys_offset : Z) : outcome (option Z) :=
  ptr ← phys_to_virt rsdp_phys phys_offset;
  sig ← bytes 8 m ptr;
  if negb (bool_decide (sig = byte_lit "RSD PTR ")) then Ret None
  else
    revision ← field 1 m (ptr + 15);
    xsdt_address ← (if 2 <=? revision then field 8 m (ptr + 24) else Ret 0);
    if negb (xsdt_address =? 0) then
      xsdt ← phys_to_virt xsdt_address phys_offset;
      find_madt_xsdt m xsdt phys_offset
    else
      rsdt_address ← field 4 m (ptr + 16);
      rsdt ← phys_to_virt rsdt_address phys_offset;
      find_madt_rsdt m rsdt phys_offset.

(** ** The MADT *)

Definition empty_info (lapic : Z) : ApicInfo :=
  mkApicInfo lapic 0 (replicate 4 0) (replicate 4 0) 0 (replicate 16 (mkOverride 0 0 0)).

(** The arm [1 if info.ioapic_count < MAX_IOAPICS]. *)
Definition add_ioapic (m : memory) (entry : Z) (info : ApicInfo) : outcome ApicInfo :=
  _id ← field 1 m (entry + 2);
  ioapic_addr ← deref 4 m (entry + 4);
  gsi_base ← deref 4 m (entry + 8);
  addrs ← store_index (ioapic_addrs info) (ioapic_count info) ioapic_addr;
  bases ← store_index (ioapic_gsi_bases info) (ioapic_count info) gsi_base;
  Ret (mkApicInfo (lapic_phys_base info) (ioapic_count info + 1) addrs bases
         (override_count info) (overrides info)).

(** The arm [2 if info.override_count < MAX_OVERRIDES]. *)
Definition add_override (m : memory) (entry : Z) (info : ApicInfo) : outcome ApicInfo :=
  _bus ← field 1 m (entry + 2);
  source ← field 1 m (entry + 3);
  gsi ← deref 4 m (entry + 4);
  flags ← deref 2 m (entry + 8);
  ovs ← store_index (overrides info) (override_count info) (mkOverride source gsi flags);
  Ret (mkApicInfo (lapic_phys_base info) (ioapic_count info) (ioapic_addrs info)
         (ioapic_gsi_bases info) (override_count info + 1) ovs).

Fixpoint walk_madt (fuel : nat) (m : memory) (madt_ptr table_len offset : Z) (info : ApicInfo)
    : outcome ApicInfo :=
  match fuel with
  | O => Crash OutOfFuel
  | S fuel' =>
      if table_len <? offset + 2 then Ret info
      else
        entry_type ← field 1 m (madt_ptr + offset);
        entry_len ← field 1 m (madt_ptr + offset + 1);
        if entry_len <? 2 then Ret info
        else if table_len <? offset + entry_len then Ret info
        else
          info ← (if (entry_type =? 1) && (ioapic_count info <? MAX_IOAPICS) then
                    add_ioapic m (madt_ptr + offset) info
                  else if (entry_type =? 2) && (override_count info <? MAX_OVERRIDES) then
                    add_override m (madt_ptr + offset) info
                  else Ret info);
          walk_madt fuel' m madt_ptr table_len (offset + entry_len) info
  end.

Definition parse_madt (m : memory) (madt_ptr : Z) : outcome ApicInfo :=
  length ← sdt_length m madt_ptr;
  table_end ← madt_ptr +? length;
  lapic ← deref 4 m (madt_ptr + 36);
  walk_madt (S (Z.to_nat length)) m madt_ptr (table_end - madt_ptr) 44 (empty_info lapic).

(** The lines [detect] and [init] log. *)
Inductive apic_event :=
  | NoIoApic
  | Detected (lapic_base ioapics : Z)
  | LapicFound (id version base : Z)
  | TimerRouted (gsi : Z)
  | KeyboardRouted (gsi : Z)
  | SubsystemActive.

Definition detect (m : memory) (rsdp_addr phys_offset : Z) : outcome (option ApicInfo) :=
  if rsdp_addr =? 0 then Crash (Panic "RSDP address must not be 0")
  else if phys_offset <=? 0 then Crash (Panic "physical memory offset must be > 0")
  else
    madt ← parse_rsdp m rsdp_addr phys_offset;
    match madt with
    | None => Ret None
    | Some madt =>
        info ← parse_madt m madt;
        if lapic_phys_base info =? 0 then Crash (Panic "MADT parsed with zero LAPIC base")
        else if ioapic_count info =? 0 then Ret None
        else Ret (Some info)
    end.

(** What [detect] logs: nothing before the MADT is parsed. *)
Definition detect_log (m : memory) (rsdp_addr phys_offset : Z) : list apic_event :=
  match parse_rsdp m rsdp_addr phys_offset with
  | Ret (Some madt) =>
      match parse_madt m madt with
      | Ret info => if ioapic_count info =? 0 then [NoIoApic] else [Detected (lapic_phys_base info) (ioapic_count info)]
      | Crash _ => []
      end
  | _ => []
  end.
(** [build_irq_gsi_map(overrides, override_count)] *)
Definition apply_override (irq_to_gsi : list Z) (ov : IrqOverride) : list Z :=
  if source ov <? 16 then <[Z.to_nat (source ov) := gsi ov]> irq_to_gsi else irq_to_gsi.

Definition build_irq_gsi_map (overrides : list IrqOverride) (override_count : Z) : list Z :=
  fold_left apply_override (take (Z.to_nat override_count) overrides)
    (imap (fun i _ => Z.of_nat i) (replicate 16 0)).

(** ** [apic/lapic.rs] *)

Module Lapic.
Definition LAPIC_ID : Z := 0x20.
Definition LAPIC_VERSION : Z := 0x30.
Definition LAPIC_EOI : Z := 0xB0.
Definition LAPIC_SVR : Z := 0xF0.
Definition SVR_ENABLE : Z := 256.

Record Lapic := mkLapic { base : Z }.

Section driver.
Context {D : Type} `{Mmio D}.

Definition new (base : Z) : M D Lapic :=
  _ ← guard_or (negb (base =? 0)) (Panic "LAPIC base pointer must not be null");
  mret (mkLapic base).

Definition read (self : Lapic) (offset_bytes : Z) : M D Z :=
  _ ← guard_or (offset_bytes mod 4 =? 0) (Panic "assertion failed: offset_bytes.is_multiple_of(4)");
  read_volatile (base self + offset_bytes).

Definition write (self : Lapic) (offset_bytes value : Z) : M D unit :=
  _ ← guard_or (offset_bytes mod 4 =? 0) (Panic "assertion failed: offset_bytes.is_multiple_of(4)");
  write_volatile (base self + offset_bytes) value.

Definition id (self : Lapic) : M D Z :=
  r ← read self LAPIC_ID;
  let id := Z.land (Z.shiftr r 24) 0xFF in
  _ ← guard_or (id <? 16) (Panic "LAPIC ID out of expected range (0-15)");
  mret id.

Definition version (self : Lapic) : M D Z :=
  r ← read self LAPIC_VERSION;
  let v := Z.land r 0xFF in
  _ ← guard_or (0 <? v) (Panic "LAPIC version is zero");
  mret v.

Definition enable (self : Lapic) (spurious_vector : Z) : M D unit :=
  let value := Z.lor spurious_vector SVR_ENABLE in
  _ ← write self LAPIC_SVR value;
  svr ← read self LAPIC_SVR;
  guard_or (negb (Z.land svr SVR_ENABLE =? 0)) (Panic "LAPIC enable failed").

Definition end_of_interrupt (self : Lapic) : M D unit := write self LAPIC_EOI 0.
End driver.
End Lapic.

(** ** [apic/ioapic.rs] *)

Module IoApic.
Definition IOREGSEL : Z := 0x00.
Definition IOWIN : Z := 0x10.
Definition IOAPICVER : Z := 0x01.
Definition IOREDTBL_BASE : Z := 0x10.
Definition REDIR_FLAGS : Z := 0.
Definition REDIR_MASKED : Z := 65536.

Record IoApic := mkIoApic {
  base : Z;
  gsi_base : Z;
  max_redirs : Z
}.

Section driver.
Context {D : Type} `{Mmio D}.

Definition read_reg (base index : Z) : M D Z :=
  _ ← write_volatile (base + IOREGSEL) index;
  read_volatile (base + IOWIN).

Definition write_reg (base index value : Z) : M D unit :=
  _ ← write_volatile (base + IOREGSEL) index;
  write_volatile (base + IOWIN) value.

Definition new (base gsi_base : Z) : M D IoApic :=
  _ ← guard_or (negb (base =? 0)) (Panic "I/O APIC base pointer must not be null");
  version ← read_reg base IOAPICVER;
  let max_redirs := wrap 8 (Z.land (Z.shiftr version 16) 0xFF) in
  _ ← guard_or (0 <? max_redirs) (Panic "I/O APIC has no redirection entries");
  mret (mkIoApic base gsi_base max_redirs).

Definition read (self : IoApic) (index : Z) : M D Z := read_reg (base self) index.
Definition write (self : IoApic) (index value : Z) : M D unit := write_reg (base self) index value.

(** [IOREDTBL_BASE + irq * 2] in [u8] *)
Definition redir_index (irq : Z) : outcome Z :=
  d ← chk_mul 255 irq 2;
  chk_add 255 IOREDTBL_BASE d.

Definition set_irq (self : IoApic) (irq vector : Z) : M D unit :=
  _ ← guard_or (irq <=? max_redirs self) (Panic "assertion failed: irq <= self.max_redirs");
  _ ← guard_or (32 <=? vector) (Panic "IOAPIC vector would conflict with CPU exceptions");
  idx ← lift (redir_index irq);
  let lo := Z.lor vector REDIR_FLAGS in
  let hi := 0 in
  _ ← write_reg (base self) idx lo;
  idx' ← lift (chk_add 255 idx 1);
  write_reg (base self) idx' hi.

Definition mask_irq (self : IoApic) (irq : Z) : M D unit :=
  _ ← guard_or (irq <=? max_redirs self) (Panic "assertion failed: irq <= self.max_redirs");
  idx ← lift (redir_index irq);
  lo ← read self idx;
  write self idx (Z.lor lo REDIR_MASKED).
End driver.
End IoApic.

(** ** The subsystem *)

(** The vectors of [interrupts::InterruptIndex]. *)
Definition TIMER_VECTOR : Z := 32.
Definition KEYBOARD_VECTOR : Z := 33.

(** The machine with the statics [APIC] and [LAPIC_EOI_PTR]. *)
Record apic_state (D : Type) := mkApic {
  amachine : D;
  APIC : option Lapic.Lapic;
  LAPIC_EOI_PTR : Z
}.
Arguments mkApic {D}.
Arguments amachine {D}.
Arguments APIC {D}.
Arguments LAPIC_EOI_PTR {D}.

Section subsystem.
Context {D : Type} `{Mmio D}.

Definition on_apic {A} (c : M D A) : M (apic_state D) A := fun s =>
  match c (amachine s) with
  | Ret (a, d) => Ret (a, mkApic d (APIC s) (LAPIC_EOI_PTR s))
  | Crash f => Crash f
  end.

(** One of the two routes of [init]. *)
Definition route (ioapic : IoApic.IoApic) (gsi vector : Z) : M D unit :=
  let gsi_base := IoApic.gsi_base ioapic in
  _ ← guard_or (gsi_base <=? gsi) (Panic "assertion failed: gsi >= gsi_base");
  IoApic.set_irq ioapic (wrap 8 (gsi - gsi_base)) vector.

(** [init], with what it logs. *)
Definition init (info : ApicInfo) (phys_offset : Z) : M (apic_state D) (bool * list apic_event) :=
  _ ← guard_or (negb (lapic_phys_base info =? 0)) (Panic "LAPIC base must be non-zero");
  _ ← guard_or (1 <=? ioapic_count info) (Panic "at least one I/O APIC is required");
  addr0 ← lift (index (ioapic_addrs info) 0);
  _ ← guard_or (negb (addr0 =? 0)) (Panic "first I/O APIC address is zero");
  lapic_virt ← lift (phys_offset +? lapic_phys_base info);
  lapic ← on_apic (Lapic.new lapic_virt);
  lapic_id ← on_apic (Lapic.id lapic);
  lapic_ver ← on_apic (Lapic.version lapic);
  _ ← on_apic (Lapic.enable lapic 0xFF);
  let irq_to_gsi := build_irq_gsi_map (overrides info) (override_count info) in
  ioapic_virt ← lift (phys_offset +? addr0);
  base0 ← lift (index (ioapic_gsi_bases info) 0);
  ioapic ← on_apic (IoApic.new ioapic_virt base0);
  _ ← guard_or (IoApic.gsi_base ioapic <=? 256) (Panic "I/O APIC GSI base unusually large");
  timer_gsi ← lift (index irq_to_gsi 0);
  _ ← on_apic (route ioapic timer_gsi TIMER_VECTOR);
  kbd_gsi ← lift (index irq_to_gsi 1);
  _ ← on_apic (route ioapic kbd_gsi KEYBOARD_VECTOR);
  _ ← modify (fun s => mkApic (amachine s) (APIC s) (lapic_virt + Lapic.LAPIC_EOI));
  s ← get;
  _ ← guard_or (negb (LAPIC_EOI_PTR s =? 0)) (Panic "LAPIC EOI pointer was not set");
  _ ← modify (fun s => mkApic (amachine s) (Some lapic) (LAPIC_EOI_PTR s));
  mret (true, [LapicFound lapic_id lapic_ver (lapic_phys_base info); TimerRouted timer_gsi; KeyboardRouted kbd_gsi;
               SubsystemActive]).

Definition is_active (s : apic_state D) : bool := if APIC s is Some _ then true else false.

Definition end_of_interrupt : M (apic_state D) unit :=
  s ← get;
  let ptr := LAPIC_EOI_PTR s in
  _ ← guard_or (negb (ptr =? 0)) (Panic "APIC EOI called before init");
  on_apic (write_volatile ptr 0).
End subsystem.
