(* ===== verification/AcpiSpec.v ===== *)
(** * What the ACPI walk finds

    Tables are described by what they mean (lists of records) and by their bytes in
    memory; the walk of [Apic] recovers the meaning from the bytes. *)

From S2P Require Import Prelude Memory Io Str Apic.

(** ** Bytes in memory *)

Definition holds (m : memory) (a : Z) (bs : list Z) : Prop :=
  forall i b, bs !! i = Some b -> m !! (a + Z.of_nat i) = Some b.

Lemma holds_app m a xs ys :
  holds m a (xs ++ ys) <-> holds m a xs /\ holds m (a + Z.of_nat (length xs)) ys.
Proof.
  split.
  - intros H. split; intros i b Hi.
    + apply H. by apply lookup_app_l_Some.
    + replace (a + Z.of_nat (length xs) + Z.of_nat i) with (a + Z.of_nat (length xs + i)) by lia.
      apply H. rewrite lookup_app_r by lia. replace (length xs + i - length xs)%nat with i by lia. done.
  - intros [H1 H2] i b [Hi|[Hle Hi]]%lookup_app_Some; [by apply H1|].
    replace (a + Z.of_nat i) with (a + Z.of_nat (length xs) + Z.of_nat (i - length xs)) by lia. by apply H2.
Qed.

Lemma holds_cons m a b bs : holds m a (b :: bs) <-> m !! a = Some b /\ holds m (a + 1) bs.
Proof.
  change (b :: bs) with ([b] ++ bs). rewrite holds_app. change (Z.of_nat (length [b])) with 1.
  split; intros [H1 H2]; split; try done.
  - replace a with (a + Z.of_nat 0) by lia. by apply H1.
  - intros [|i] x; [|done]. intros [= <-]. by rewrite Z.add_0_r.
Qed.

(** [n] bytes of [v], the least significant first. *)
Fixpoint le (n : nat) (v : Z) : list Z :=
  match n with O => [] | S n' => v mod 256 :: le n' (v / 256) end.

Lemma le_length n : forall v, length (le n v) = n.
Proof. induction n; intros; simpl; [done|]. by f_equal. Qed.

Lemma load_le n : forall m a v, 0 <= v < 256 ^ Z.of_nat n -> holds m a (le n v) -> load n m a = Some v.
Proof.
  induction n as [|n IH]; intros m a v Hv Hh; unfold load; fold load; simpl in Hh.
  - simpl in Hv. f_equal. lia.
  - apply holds_cons in Hh as [Ha Hh]. rewrite Ha. cbn [mbind option_bind]. rewrite pow256_S in Hv.
    rewrite (IH m (a + 1) (v / 256)); [|split; [apply Z.div_pos; lia|apply Z.div_lt_upper_bound; lia]|done].
    cbn [mbind option_bind]. f_equal. pose proof (Z.div_mod v 256). lia.
Qed.

Lemma field_ok n m a v (Q : Z -> Prop) : load n m a = Some v -> Q v -> returns (field n m a) Q.
Proof. unfold field. by intros ->. Qed.

Lemma field_le n m a v (Q : Z -> Prop) : 0 <= v < 256 ^ Z.of_nat n -> holds m a (le n v) -> Q v ->
  returns (field n m a) Q.
Proof. intros Hv Hh. apply field_ok. by apply load_le. Qed.

Lemma deref_ok n m a v (Q : Z -> Prop) : a mod Z.of_nat n = 0 -> load n m a = Some v -> Q v -> returns (deref n m a) Q.
Proof. intros Ha. unfold deref. rewrite (proj2 (Z.eqb_eq _ _) Ha). apply field_ok. Qed.

Lemma deref_le n m a v (Q : Z -> Prop) : a mod Z.of_nat n = 0 -> 0 <= v < 256 ^ Z.of_nat n -> holds m a (le n v) -> Q v ->
  returns (deref n m a) Q.
Proof. intros Ha Hv Hh. apply deref_ok; [done|]. by apply load_le. Qed.

(** The check a debug build makes. *)
Definition misaligned {A} : outcome A := Crash (Panic "misaligned pointer dereference").

Lemma deref_misaligned n m a : a mod Z.of_nat n <> 0 -> deref n m a = misaligned.
Proof. intros Ha. unfold deref. by rewrite (proj2 (Z.eqb_neq _ _) Ha). Qed.

Lemma byte_ok m a b (Q : Z -> Prop) : m !! a = Some b -> Q b -> returns (field 1 m a) Q.
Proof.
  intros Ha. apply field_ok. unfold load. rewrite Ha. cbn [mbind option_bind]. f_equal. lia.
Qed.

Lemma bytes_ok bs : forall m a (Q : list Z -> Prop), holds m a bs -> Q bs -> returns (bytes (length bs) m a) Q.
Proof.
  induction bs as [|b bs IH]; intros m a Q Hh HQ; [done|]. apply holds_cons in Hh as [Ha Hh]. simpl.
  apply returns_bind. apply (byte_ok _ _ b); [done|]. apply returns_bind. by apply IH.
Qed.

(** ** The records of a MADT *)

Inductive madt_record :=
  | IoApicRec (id addr gsi_base : Z)
  | OverrideRec (bus source gsi flags : Z)
  | OtherRec (ty : Z) (payload : list Z).

Definition encode (r : madt_record) : list Z :=
  match r with
  | IoApicRec id addr g => [1; 12; id; 0] ++ le 4 addr ++ le 4 g
  | OverrideRec bus s g f => [2; 10; bus; s] ++ le 4 g ++ le 2 f
  | OtherRec ty p => [ty; 2 + Z.of_nat (length p)] ++ p
  end.

Definition record_ok (r : madt_record) : Prop :=
  match r with
  | IoApicRec id addr g => in_u8 id /\ in_u32 addr /\ in_u32 g
  | OverrideRec bus s g f => in_u8 bus /\ in_u8 s /\ in_u32 g /\ 0 <= f < 65536
  | OtherRec ty p => in_u8 ty /\ ty <> 1 /\ ty <> 2 /\ (length p <= 253)%nat
  end.

(** A record's fields are read through pointers that are aligned where the record is at
    a multiple of 4. *)
Definition record_aligned (e : Z) (r : madt_record) (ioapics overrides : nat) : bool :=
  match r with
  | IoApicRec _ _ _ => (4 <=? Z.of_nat ioapics) || (e mod 4 =? 0)
  | OverrideRec _ _ _ _ => (16 <=? Z.of_nat overrides) || (e mod 4 =? 0)
  | OtherRec _ _ => true
  end.

(** What ends the walk: the end of the table, or a record that cannot be one. *)
Definition stops (tail : list Z) : Prop :=
  match tail with
  | _ :: n :: _ => 0 <= n < 2 \/ Z.of_nat (length tail) < n
  | _ => True
  end.

Definition ioapics (rs : list madt_record) : list (Z * Z) :=
  omap (fun r => match r with IoApicRec _ a g => Some (a, g) | _ => None end) rs.
Definition irq_overrides (rs : list madt_record) : list IrqOverride :=
  omap (fun r => match r with OverrideRec _ s g f => Some (mkOverride s g f) | _ => None end) rs.

(** The array of [n] slots holding the first [n] elements of [xs]. *)
Definition slots {A} (n : nat) (x : A) (xs : list A) : list A :=
  take n xs ++ replicate (n - length xs) x.

Definition info_of (lapic : Z) (rs : list madt_record) : ApicInfo :=
  mkApicInfo lapic (Z.min 4 (Z.of_nat (length (ioapics rs))))
    (slots 4 0 (fst <$> ioapics rs)) (slots 4 0 (snd <$> ioapics rs))
    (Z.min 16 (Z.of_nat (length (irq_overrides rs))))
    (slots 16 (mkOverride 0 0 0) (irq_overrides rs)).

(** The records from address [e] on, after those of [pre], are read through aligned
    pointers; those that find their array full are not read. *)
Fixpoint records_aligned (e : Z) (pre rs : list madt_record) : bool :=
  match rs with
  | [] => true
  | r :: rs' =>
      record_aligned e r (length (ioapics pre)) (length (irq_overrides pre)) &&
      records_aligned (e + Z.of_nat (length (encode r))) (pre ++ [r]) rs'
  end.

(** A table at [a]; the rest of the header does not matter. *)
Definition madt_at (m : memory) (a lapic : Z) (rs : list madt_record) (tail : list Z) : Prop :=
  let body := concat (encode <$> rs) ++ tail in
  Forall record_ok rs /\ stops tail /\ in_u32 lapic /\ 44 + Z.of_nat (length body) <= u32_max /\
  0 <= a /\ a + 44 + Z.of_nat (length body) <= u64_max /\
  load 4 m (a + 4) = Some (44 + Z.of_nat (length body)) /\
  load 4 m (a + 36) = Some lapic /\ holds m (a + 44) body.

Lemma slots_length {A} n (x : A) xs : length (slots n x xs) = n.
Proof. unfold slots. rewrite length_app, length_take, length_replicate. lia. Qed.

(** Appending to the collection stores into the next slot. *)
Lemma slots_snoc {A} n (x y : A) xs : (length xs < n)%nat ->
  <[length xs := y]> (slots n x xs) = slots n x (xs ++ [y]).
Proof.
  intros Hn. unfold slots. rewrite take_ge by lia. rewrite (take_ge (xs ++ [y])) by (rewrite length_app; simpl; lia).
  rewrite insert_app_r_alt, Nat.sub_diag by lia. rewrite length_app. simpl.
  replace (n - length xs)%nat with (S (n - (length xs + 1))) by lia. simpl. by rewrite <- app_assoc.
Qed.

Lemma slots_full {A} n (x y : A) xs : (n <= length xs)%nat -> slots n x (xs ++ [y]) = slots n x xs.
Proof.
  intros Hn. unfold slots. rewrite take_app_le by lia.
  rewrite length_app. simpl. by replace (n - (length xs + 1))%nat with (n - length xs)%nat by lia.
Qed.

(** ** The walk over the records *)

Lemma ioapics_snoc rs r : ioapics (rs ++ [r]) =
  ioapics rs ++ match r with IoApicRec _ a g => [(a, g)] | _ => [] end.
Proof. unfold ioapics. rewrite omap_app. by destruct r. Qed.

Lemma irq_overrides_snoc rs r : irq_overrides (rs ++ [r]) =
  irq_overrides rs ++ match r with OverrideRec _ s g f => [mkOverride s g f] | _ => [] end.
Proof. unfold irq_overrides. rewrite omap_app. by destruct r. Qed.

Ltac at_multiple := Z.to_euclidean_division_equations; lia.

Lemma add_ioapic_ok m e lapic rs id addr g :
  e mod 4 = 0 -> in_u32 addr -> in_u32 g -> holds m e (encode (IoApicRec id addr g)) -> Z.of_nat (length (ioapics rs)) < 4 ->
  returns (add_ioapic m e (info_of lapic rs)) (fun i => i = info_of lapic (rs ++ [IoApicRec id addr g])).
Proof.
  intros He Ha Hg Hh Hn. cbn [encode] in Hh. rewrite !app_assoc, !holds_app in Hh. destruct Hh as [[Hh H4] H8].
  rewrite length_app, le_length in H8. simpl length in H4, H8. repeat apply holds_cons in Hh as [? Hh].
  unfold add_ioapic. apply returns_bind, (byte_ok _ _ id).
  { replace (e + 2) with (e + 1 + 1) by lia. done. }
  unfold in_u32, u32_max in *.
  apply returns_bind, (deref_le _ _ _ addr); [simpl Z.of_nat; by at_multiple|simpl; lia|done|].
  apply returns_bind, (deref_le _ _ _ g); [simpl Z.of_nat; by at_multiple|simpl; lia|done|]. cbn [info_of ioapic_count ioapic_addrs ioapic_gsi_bases].
  rewrite Z.min_r by lia.
  apply returns_bind, returns_store_index; [rewrite slots_length; lia|].
  apply returns_bind, returns_store_index; [rewrite slots_length; lia|]. apply returns_ret.
  unfold info_of. rewrite ioapics_snoc, irq_overrides_snoc, app_nil_r, !fmap_app, !length_app. cbn [fmap list_fmap fst snd].
  rewrite Nat2Z.id, <- !slots_snoc by (rewrite length_fmap; lia). rewrite !length_fmap.
  simpl. f_equal. lia.
Qed.

Lemma add_override_ok m e lapic rs bus s g f :
  e mod 4 = 0 -> in_u32 g -> 0 <= f < 65536 -> holds m e (encode (OverrideRec bus s g f)) ->
  Z.of_nat (length (irq_overrides rs)) < 16 ->
  returns (add_override m e (info_of lapic rs)) (fun i => i = info_of lapic (rs ++ [OverrideRec bus s g f])).
Proof.
  intros He Hg Hf Hh Hn. cbn [encode] in Hh. rewrite !app_assoc, !holds_app in Hh. destruct Hh as [[Hh H4] H8].
  rewrite length_app, le_length in H8. simpl length in H4, H8. repeat apply holds_cons in Hh as [? Hh].
  unfold add_override. apply returns_bind, (byte_ok _ _ bus).
  { replace (e + 2) with (e + 1 + 1) by lia. done. }
  apply returns_bind, (byte_ok _ _ s).
  { replace (e + 3) with (e + 1 + 1 + 1) by lia. done. }
  unfold in_u32, u32_max in *.
  apply returns_bind, (deref_le _ _ _ g); [simpl Z.of_nat; by at_multiple|simpl; lia|done|].
  apply returns_bind, (deref_le _ _ _ f); [simpl Z.of_nat; by at_multiple|simpl; lia|done|]. cbn [info_of override_count overrides].
  rewrite Z.min_r by lia.
  apply returns_bind, returns_store_index; [rewrite slots_length; lia|]. apply returns_ret.
  unfold info_of. rewrite ioapics_snoc, irq_overrides_snoc, app_nil_r, !length_app.
  rewrite Nat2Z.id, <- slots_snoc by lia. simpl. f_equal. lia.
Qed.

Lemma add_ioapic_misaligned m e info id addr g : e mod 4 <> 0 -> holds m e (encode (IoApicRec id addr g)) ->
  add_ioapic m e info = misaligned.
Proof.
  intros He Hh. do 3 apply holds_cons in Hh as [? Hh]. unfold add_ioapic.
  destruct (returns_elim _ _ (byte_ok m (e + 2) id (fun v => v = id) ltac:(by replace (e + 2) with (e + 1 + 1) by lia) eq_refl))
    as (? & -> & ->). cbn [mbind outcome_bind]. rewrite (deref_misaligned 4 m (e + 4)); [done|simpl; at_multiple].
Qed.

Lemma add_override_misaligned m e info bus s g f : e mod 4 <> 0 -> holds m e (encode (OverrideRec bus s g f)) ->
  add_override m e info = misaligned.
Proof.
  intros He Hh. do 4 apply holds_cons in Hh as [? Hh]. unfold add_override.
  destruct (returns_elim _ _ (byte_ok m (e + 2) bus (fun v => v = bus) ltac:(by replace (e + 2) with (e + 1 + 1) by lia) eq_refl))
    as (? & -> & ->). cbn [mbind outcome_bind].
  destruct (returns_elim _ _ (byte_ok m (e + 3) s (fun v => v = s) ltac:(by replace (e + 3) with (e + 1 + 1 + 1) by lia) eq_refl))
    as (? & -> & ->). cbn [mbind outcome_bind]. rewrite (deref_misaligned 4 m (e + 4)); [done|simpl; at_multiple].
Qed.

(** A record that finds its array full is skipped. *)
Lemma info_of_skip lapic rs r :
  match r with
  | IoApicRec _ _ _ => 4 <= Z.of_nat (length (ioapics rs))
  | OverrideRec _ _ _ _ => 16 <= Z.of_nat (length (irq_overrides rs))
  | OtherRec _ _ => True
  end -> info_of lapic (rs ++ [r]) = info_of lapic rs.
Proof.
  intros Hr. unfold info_of. rewrite ioapics_snoc, irq_overrides_snoc.
  destruct r; rewrite ?app_nil_r; [| |done]; rewrite ?fmap_app, ?length_app; cbn [fmap list_fmap];
    rewrite !slots_full by (rewrite ?length_fmap; lia); f_equal; lia.
Qed.

Definition rec_type (r : madt_record) : Z :=
  match r with IoApicRec _ _ _ => 1 | OverrideRec _ _ _ _ => 2 | OtherRec ty _ => ty end.

Lemma encode_head r : record_ok r -> exists rest,
  encode r = rec_type r :: Z.of_nat (length (encode r)) :: rest /\ 2 <= Z.of_nat (length (encode r)) <= 255.
Proof.
  destruct r as [| |ty p]; intros Hr; simpl in *; try by eexists; split; [done|].
  eexists. split; [repeat f_equal; lia|lia].
Qed.

Lemma returns_equal {A} (c : outcome A) x : returns c (fun y => y = x) -> c = Ret x.
Proof. intros (y & Hy & ->)%returns_elim. done. Qed.

Lemma chk_add_ok bound a b : a + b <= bound -> chk_add bound a b = Ret (a + b).
Proof. intros H. by apply returns_equal, returns_chk_add. Qed.

Lemma chk_sub_ok a b : b <= a -> chk_sub a b = Ret (a - b).
Proof. intros H. by apply returns_equal, returns_chk_sub. Qed.

Lemma step_record m e lapic rs r : record_ok r -> holds m e (encode r) ->
  (let info := info_of lapic rs in
     if (rec_type r =? 1) && (ioapic_count info <? MAX_IOAPICS) then add_ioapic m e info
     else if (rec_type r =? 2) && (override_count info <? MAX_OVERRIDES) then add_override m e info
     else Ret info) =
  if record_aligned e r (length (ioapics rs)) (length (irq_overrides rs)) then Ret (info_of lapic (rs ++ [r])) else misaligned.
Proof.
  intros Hr Hh. unfold MAX_IOAPICS, MAX_OVERRIDES. cbn [info_of ioapic_count override_count].
  destruct r as [id a g|bus s g f|ty p]; cbn [rec_type record_aligned]; simpl in Hr.
  - cbn [Z.eqb Pos.eqb andb]. case_test H4.
    + rewrite (proj2 (Z.leb_gt 4 _)) by lia. cbn [orb]. case_test He; [|by eapply add_ioapic_misaligned].
      apply returns_equal, add_ioapic_ok; [done|tauto|tauto|done|lia].
    + rewrite (proj2 (Z.leb_le 4 _)) by lia. rewrite info_of_skip; [done|lia].
  - cbn [Z.eqb Pos.eqb andb]. case_test H16.
    + rewrite (proj2 (Z.leb_gt 16 _)) by lia. cbn [orb]. case_test He; [|by eapply add_override_misaligned].
      apply returns_equal, add_override_ok; [done|tauto|tauto|done|lia].
    + rewrite (proj2 (Z.leb_le 16 _)) by lia. rewrite info_of_skip; [done|lia].
  - destruct Hr as (_ & H1 & H2 & _). rewrite (proj2 (Z.eqb_neq ty 1)), (proj2 (Z.eqb_neq ty 2)) by done.
    by rewrite info_of_skip.
Qed.

Lemma walk_stops fuel m a off tail info : (0 < fuel)%nat -> stops tail -> holds m (a + off) tail ->
  walk_madt fuel m a (off + Z.of_nat (length tail)) off info = Ret info.
Proof.
  intros Hf Hs Hh. apply returns_equal. revert Hf Hs Hh. intros Hf Hs Hh. destruct fuel as [|fuel]; [lia|]. cbn [walk_madt]. case_test Hl; [done|].
  destruct tail as [|t [|n tail]]; simpl in Hl; try lia.
  apply holds_cons in Hh as [Ht Hh]. apply holds_cons in Hh as [Hn Hh].
  apply returns_bind, (byte_ok _ _ t); [done|]. apply returns_bind, (byte_ok _ _ n); [done|].
  simpl in Hs |- *. case_test H2; [done|]. case_test H3; [done|lia].
Qed.

Lemma walk_records m a lapic tail : stops tail -> forall todo pre off fuel,
  Forall record_ok todo -> (length todo < fuel)%nat ->
  holds m (a + off) (concat (encode <$> todo) ++ tail) ->
  walk_madt fuel m a (off + Z.of_nat (length (concat (encode <$> todo) ++ tail))) off (info_of lapic pre) =
    if records_aligned (a + off) pre todo then Ret (info_of lapic (pre ++ todo)) else misaligned.
Proof.
  intros Hs. induction todo as [|r todo IH]; intros pre off fuel Hok Hf Hh.
  { rewrite app_nil_r. simpl in Hf. apply walk_stops; [lia|done|done]. }
  destruct fuel as [|fuel]; [lia|]. apply Forall_cons in Hok as [Hr Hok].
  cbn [fmap list_fmap concat] in Hh |- *. rewrite <- app_assoc in Hh |- *. rewrite length_app.
  apply holds_app in Hh as [Hr1 Hh]. destruct (encode_head r Hr) as (rest & He & Hlen). cbn [walk_madt].
  rewrite (proj2 (Z.ltb_ge _ _)) by lia. pose proof Hr1 as Hr2. rewrite He in Hr2.
  apply holds_cons in Hr2 as [Ht Hr2]. apply holds_cons in Hr2 as [Hn _].
  rewrite (returns_equal _ _ (byte_ok _ _ _ _ Ht eq_refl)), (returns_equal _ _ (byte_ok _ _ _ _ Hn eq_refl)).
  cbn [mbind outcome_bind]. rewrite (proj2 (Z.ltb_ge _ _)) by lia. rewrite (proj2 (Z.ltb_ge _ _)) by lia.
  pose proof (step_record _ _ lapic pre r Hr Hr1) as Hi. cbv zeta in Hi. rewrite Hi. cbn [records_aligned].
  destruct (record_aligned _ _ _ _); [|done]. cbn [mbind outcome_bind andb]. rewrite <- Z.add_assoc.
  replace (off + _) with (off + Z.of_nat (length (encode r)) + Z.of_nat (length (concat (encode <$> todo) ++ tail))) by lia.
  replace (pre ++ r :: todo) with ((pre ++ [r]) ++ todo) by by rewrite <- app_assoc.
  apply IH; [done|simpl in Hf; lia|]. by rewrite Z.add_assoc.
Qed.

Lemma records_short rs : Forall record_ok rs -> (length rs <= length (concat (encode <$> rs)))%nat.
Proof.
  induction 1 as [|r rs Hr _ IH]; [done|]. rewrite fmap_cons. cbn [concat length].
  rewrite length_app. destruct (encode_head r Hr) as (? & _ & ?). lia.
Qed.

(** Where the MADT at [a] is read through aligned pointers. *)
Definition madt_aligned (a : Z) (rs : list madt_record) : bool := (a mod 4 =? 0) && records_aligned (a + 44) [] rs.

Lemma parse_madt_ok m a lapic rs tail : madt_at m a lapic rs tail ->
  parse_madt m a = if madt_aligned a rs then Ret (info_of lapic rs) else misaligned.
Proof.
  intros (Hok & Hs & Hl & H32 & Ha & H64 & Hlen & Hbase & Hh). unfold parse_madt, sdt_length, madt_aligned.
  unfold field at 1. rewrite Hlen. cbn [mbind outcome_bind].
  rewrite (chk_add_ok u64_max) by lia. cbn [mbind outcome_bind].
  destruct (Z.eqb_spec (a mod 4) 0) as [Ha4|Ha4]; [|by rewrite deref_misaligned by (simpl; at_multiple)].
  rewrite (returns_equal _ _ (deref_ok 4 m (a + 36) lapic _ ltac:(simpl; at_multiple) Hbase eq_refl)).
  cbn [mbind outcome_bind andb]. rewrite Z.add_simpl_l.
  change (empty_info lapic) with (info_of lapic []).
  apply (walk_records m a lapic tail Hs rs [] 44); [done| |done].
  pose proof (records_short rs Hok). rewrite length_app. lia.
Qed.

(** ** From the RSDP to the MADT *)

Inductive root_table := RSDT | XSDT.

Definition entry_width (r : root_table) : nat := match r with RSDT => 4 | XSDT => 8 end.
Definition root_signature (r : root_table) : string := match r with RSDT => "RSDT" | XSDT => "XSDT" end.

(** The root pointer names the root table at physical address [table]: the XSDT
    from revision 2 on, unless its address is null. *)
Definition rsdp_at (m : memory) (ptr : Z) (r : root_table) (table : Z) : Prop :=
  holds m ptr (byte_lit "RSD PTR ") /\
  exists rev, m !! (ptr + 15) = Some rev /\
    match r with
    | XSDT => 2 <= rev /\ load 8 m (ptr + 24) = Some table /\ table <> 0
    | RSDT => load 4 m (ptr + 16) = Some table /\ (rev < 2 \/ load 8 m (ptr + 24) = Some 0)
    end.

Definition root_at (m : memory) (a : Z) (r : root_table) (entries : list Z) : Prop :=
  let w := Z.of_nat (entry_width r) in
  holds m a (byte_lit (root_signature r)) /\ 0 < a /\
  load 4 m (a + 4) = Some (36 + w * Z.of_nat (length entries)) /\
  forall i e, entries !! i = Some e -> load (entry_width r) m (a + 36 + w * Z.of_nat i) = Some e.

(** A table that is not the MADT. *)
Definition other_table (m : memory) (off phys : Z) : Prop :=
  0 <= phys /\ off + phys <= u64_max /\
  exists sig, length sig = 4%nat /\ holds m (off + phys) sig /\ sig <> byte_lit "APIC".

Lemma check_signature_ok m p sig want (Q : bool -> Prop) : length sig = 4%nat -> 0 < p ->
  holds m p sig -> Q (bool_decide (sig = want)) -> returns (check_signature m p want) Q.
Proof.
  intros Hl Hp Hh HQ. unfold check_signature. rewrite (proj2 (Z.eqb_neq p 0)) by lia.
  apply returns_bind. rewrite <- Hl. by apply bytes_ok.
Qed.

Lemma scan_ok m off w phys post pre : 0 < off -> 0 <= phys -> off + phys <= u64_max ->
  holds m (off + phys) (byte_lit "APIC") -> Forall (other_table m off) pre -> forall a,
  (forall i e, (pre ++ phys :: post) !! i = Some e -> load w m (a + Z.of_nat w * Z.of_nat i) = Some e) ->
  a mod Z.of_nat w = 0 ->
  returns (scan_entries w (length (pre ++ phys :: post)) m a off) (fun r => r = Some (off + phys)).
Proof.
  intros Hoff Hphys Hmax Hsig. induction 1 as [|p pre (Hp & Hpm & sig & Hl & Hs & Hne) _ IH]; intros a He Ha.
  - simpl. apply returns_bind, (deref_ok _ _ _ phys); [done|..].
    { rewrite <- (He O phys) by done. f_equal. lia. }
    apply returns_bind, returns_chk_add; [done|].
    apply returns_bind, (check_signature_ok _ _ (byte_lit "APIC")); [done|lia|done|].
    by rewrite bool_decide_eq_true_2.
  - simpl. apply returns_bind, (deref_ok _ _ _ p); [done|..].
    { rewrite <- (He O p) by done. f_equal. lia. }
    apply returns_bind, returns_chk_add; [done|].
    apply returns_bind, (check_signature_ok _ _ sig); [done|lia|done|].
    rewrite bool_decide_eq_false_2 by done. apply IH; [|by rewrite Zplus_mod, Ha, Z_mod_same_full, Zmod_0_l].
    intros i e Hi. rewrite <- (He (S i) e) by done. f_equal. lia.
Qed.

(** Where the root table at [a] is read through aligned pointers. *)
Definition root_aligned (a : Z) (r : root_table) : bool := (a + 36) mod Z.of_nat (entry_width r) =? 0.

Definition find_madt (r : root_table) : memory -> Z -> Z -> outcome (option Z) :=
  match r with RSDT => find_madt_rsdt | XSDT => find_madt_xsdt end.

Lemma root_signed m a s : 0 < a -> holds m a (byte_lit (root_signature s)) ->
  check_signature m a (byte_lit (root_signature s)) = Ret true.
Proof.
  intros Ha Hs. apply returns_equal, (check_signature_ok _ _ (byte_lit (root_signature s))); [by destruct s|done|done|].
  by rewrite bool_decide_eq_true_2.
Qed.

Lemma find_madt_ok r m a off pre phys post : 0 < off -> 0 <= phys -> off + phys <= u64_max ->
  root_at m a r (pre ++ phys :: post) -> holds m (off + phys) (byte_lit "APIC") ->
  Forall (other_table m off) pre ->
  find_madt r m a off = if root_aligned a r then Ret (Some (off + phys)) else misaligned.
Proof.
  intros Hoff Hphys Hmax (Hsig & Ha & Hlen & He) Hm Hpre.
  pose proof (root_signed m a r Ha Hsig) as Hcs.
  assert (Hscan : find_madt r m a off =
    scan_entries (entry_width r) (length (pre ++ phys :: post)) m (a + 36) off).
  { destruct r; cbn [root_signature] in Hcs; unfold find_madt, find_madt_rsdt, find_madt_xsdt, sdt_length; rewrite Hcs; cbn [negb mbind outcome_bind]; unfold field; rewrite Hlen;
      cbn [mbind outcome_bind]; rewrite chk_sub_ok by (unfold SDT_HEADER; cbn; lia);
      unfold SDT_HEADER; cbn [mbind outcome_bind entry_width];
      rewrite Z.add_simpl_l, Z.mul_comm, Z.div_mul, Nat2Z.id by done; done. }
  rewrite Hscan. unfold root_aligned. case_test Hw; [by apply returns_equal, scan_ok|].
  rewrite length_app, Nat.add_comm. cbn [length Nat.add scan_entries]. by rewrite deref_misaligned.
Qed.

Lemma parse_rsdp_ok m rsdp off r table o : 0 <= off -> off + rsdp <= u64_max -> off + table <= u64_max ->
  rsdp_at m (off + rsdp) r table -> find_madt r m (off + table) off = o -> parse_rsdp m rsdp off = o.
Proof.
  intros Hoff Hr Ht (Hsig & rev & Hrev & Hroot) Hf. unfold parse_rsdp, phys_to_virt.
  rewrite (chk_add_ok _ _ _ Hr). cbn [mbind outcome_bind].
  pose proof (returns_equal _ _ (bytes_ok _ _ _ _ Hsig eq_refl)) as Hb. change (length (byte_lit "RSD PTR ")) with 8%nat in Hb.
  rewrite Hb. cbn [mbind outcome_bind].
  rewrite bool_decide_eq_true_2 by done. cbn [negb].
  rewrite (returns_equal _ _ (byte_ok _ _ _ _ Hrev eq_refl)). cbn [mbind outcome_bind].
  pose proof (chk_add_ok _ _ _ Ht) as Hadd.
  destruct r.
  - destruct Hroot as [Hr32 Hx]. assert (Hz : (if 2 <=? rev then field 8 m (off + rsdp + 24) else Ret 0) = Ret 0).
    { case_test H2; [|done]. destruct Hx as [|Hx]; [lia|]. unfold field. by rewrite Hx. }
    rewrite Hz. cbn [mbind outcome_bind Z.eqb negb]. unfold field. rewrite Hr32. cbn [mbind outcome_bind].
    by rewrite Hadd.
  - destruct Hroot as (H2 & Hx & Hne). rewrite (proj2 (Z.leb_le _ _) H2).
    unfold field. rewrite Hx. cbn [mbind outcome_bind]. rewrite (proj2 (Z.eqb_neq _ _) Hne). cbn [negb]. by rewrite Hadd.
Qed.

(** C23: for tables laid out in memory as ACPI describes (root pointer, RSDT or XSDT,
    MADT) below [2^64], whatever tables precede the MADT and whatever records it holds:
    when every entry and record that is read lies at an aligned address (the root table's
    entries at multiples of their width, the MADT and its I/O APIC and override records at
    multiples of 4), the walk returns the local APIC's address, if not zero, with the
    first four I/O APICs and the first sixteen interrupt overrides, in order and with
    their fields, a malformed record ends the walk, and there is no result exactly when
    no I/O APIC is listed. When one does not, the debug build's alignment check panics. *)
Theorem acpi_detect_roundtrip m rsdp off r table pre phys post lapic rs tail :
  0 < off -> rsdp <> 0 -> off + rsdp <= u64_max -> off + table <= u64_max -> 0 <= phys ->
  rsdp_at m (off + rsdp) r table -> root_at m (off + table) r (pre ++ phys :: post) ->
  Forall (other_table m off) pre -> holds m (off + phys) (byte_lit "APIC") ->
  madt_at m (off + phys) lapic rs tail -> lapic <> 0 ->
  detect m rsdp off =
    if root_aligned (off + table) r && madt_aligned (off + phys) rs then
      Ret (if bool_decide (ioapics rs = []) then None else Some (info_of lapic rs))
    else misaligned.
Proof.
  intros Hoff Hne Hr Ht Hphys Hrsdp Hroot Hpre Hsig Hmadt Hl.
  assert (Hmax : off + phys <= u64_max) by (destruct Hmadt as (_ & _ & _ & _ & ? & ? & _); lia).
  pose proof (parse_rsdp_ok m rsdp off r table _ ltac:(lia) Hr Ht Hrsdp
    (find_madt_ok r m _ off pre phys post Hoff Hphys Hmax Hroot Hsig Hpre)) as Ho.
  pose proof (parse_madt_ok _ _ _ _ _ Hmadt) as Hi. unfold detect. rewrite (proj2 (Z.eqb_neq rsdp 0)), (proj2 (Z.leb_gt off 0)) by lia.
  rewrite Ho. destruct (root_aligned _ _); [|done]. cbn [mbind outcome_bind andb]. rewrite Hi.
  destruct (madt_aligned _ _); [|done]. cbn [mbind outcome_bind info_of lapic_phys_base ioapic_count].
  rewrite (proj2 (Z.eqb_neq lapic 0)) by done.
  destruct (ioapics rs) as [|x xs] eqn:E; [done|]. rewrite bool_decide_eq_false_2 by done.
  rewrite (proj2 (Z.eqb_neq _ 0)) by (simpl; lia). unfold info_of. by rewrite E.
Qed.

(** ** A machine with ACPI tables

    One processor, one I/O APIC and two overrides, with a record for the non-maskable
    interrupt after each that leaves what follows at a multiple of 4, behind an RSDT. *)

Fixpoint holdsb (m : memory) (a : Z) (bs : list Z) : bool :=
  match bs with
  | [] => true
  | b :: bs' => bool_decide (m !! a = Some b) && holdsb m (a + 1) bs'
  end.

Lemma holdsb_holds bs : forall m a, holdsb m a bs = true -> holds m a bs.
Proof.
  induction bs as [|b bs IH]; intros m a; [by intros _ i x|]. simpl.
  intros [H1%bool_decide_eq_true H2]%andb_true_iff. apply holds_cons. auto.
Qed.

Fixpoint place (a : Z) (bs : list Z) (m : memory) : memory :=
  match bs with [] => m | b :: bs' => place (a + 1) bs' (<[a := b]> m) end.

Definition pc_records : list madt_record :=
  [OtherRec 0 [0; 0; 1; 0; 0; 0]; IoApicRec 0 0xFEC00000 0;
   OverrideRec 0 0 2 0; OtherRec 4 [255; 0; 0; 1]; OverrideRec 0 9 9 13; OtherRec 4 [255; 0; 0; 0]].

(** The five overrides of a common PC, one after the other. *)
Definition packed_records : list madt_record :=
  [OtherRec 0 [0; 0; 1; 0; 0; 0]; IoApicRec 0 0xFEC00000 0;
   OverrideRec 0 0 2 0; OverrideRec 0 5 5 13; OverrideRec 0 9 9 13;
   OverrideRec 0 10 10 13; OverrideRec 0 11 11 13; OtherRec 4 [255; 0; 0; 1]].

Definition pc_table (sig : string) (body : list Z) : list Z :=
  byte_lit sig ++ le 4 (36 + Z.of_nat (length body)) ++ replicate 28 0 ++ body.

Definition tables (records : list madt_record) : memory :=
  place 0x10100 (byte_lit "RSD PTR " ++ replicate 8 0 ++ le 4 0x200)
  (place 0x10200 (pc_table "RSDT" (le 4 0x300 ++ le 4 0x400))
  (place 0x10300 (pc_table "FACP" [])
  (place 0x10400 (pc_table "APIC" (le 4 0xFEE00000 ++ le 4 1 ++ concat (encode <$> records))) ∅))).

Definition pc_memory : memory := tables pc_records.

Lemma pc_madt : madt_at pc_memory 0x10400 0xFEE00000 pc_records [].
Proof.
  split; [|split; [exact I|]].
  { repeat constructor; unfold in_u8, in_u32, u32_max; simpl; lia. }
  do 4 (split; [vm_compute; intuition congruence|]).
  do 2 (split; [vm_compute; reflexivity|]). apply holdsb_holds. vm_compute. reflexivity.
Qed.

Lemma pc_root : root_at pc_memory 0x10200 RSDT [0x300; 0x400].
Proof.
  split_and!; [apply holdsb_holds; vm_compute; reflexivity|lia|vm_compute; reflexivity|].
  intros [|[|i]] e; intros [= <-]; vm_compute; reflexivity.
Qed.

Lemma acpi_detect_witness : detect pc_memory 0x100 0x10000 =
  Ret (Some (mkApicInfo 0xFEE00000 1 [0xFEC00000; 0; 0; 0] [0; 0; 0; 0] 2
    ([mkOverride 0 2 0; mkOverride 9 9 13] ++ replicate 14 (mkOverride 0 0 0)))).
Proof.
  refine (acpi_detect_roundtrip pc_memory 0x100 0x10000 RSDT 0x200 [0x300] 0x400 [] 0xFEE00000
    pc_records [] _ _ _ _ _ _ _ _ _ _ _); try (unfold u64_max; lia).
  - split; [apply holdsb_holds; vm_compute; reflexivity|]. exists 0.
    split; [vm_compute; reflexivity|]. split; [vm_compute; reflexivity|left; lia].
  - exact pc_root.
  - apply Forall_cons. split; [|constructor]. split_and!; [lia|unfold u64_max; lia|].
    exists (byte_lit "FACP"). split_and!; [reflexivity|apply holdsb_holds; vm_compute; reflexivity|discriminate].
  - apply holdsb_holds. vm_compute. reflexivity.
  - exact pc_madt.
Defined.

(** Records of the overrides' size, 10, leave the next record's 32-bit fields at
    addresses that are no multiple of 4: the walk over the tables of a common PC panics
    at the second override (without debug assertions it is undefined behaviour). *)
Lemma acpi_walk_misaligned : detect (tables packed_records) 0x100 0x10000 = misaligned.
Proof. vm_compute. reflexivity. Qed.

(** An XSDT at a multiple of 8, where firmware puts it, has its entries 4 bytes off. *)
Lemma xsdt_misaligned a : (8 | a) -> root_aligned a XSDT = false.
Proof. intros [q ->]. unfold root_aligned. cbn [entry_width]. apply Z.eqb_neq. simpl. at_multiple. Qed.

(** ** More memory

    The walk reads memory and nothing else decides what it finds, so a walk that
    succeeds does the same where more of the memory is readable. *)

Definition improves {A} (o o' : outcome A) : Prop := forall a, o = Ret a -> o' = Ret a.

Lemma improves_refl {A} (o : outcome A) : improves o o.
Proof. by intros a. Qed.
Lemma improves_bind {A B} (o o' : outcome A) (f g : A -> outcome B) :
  improves o o' -> (forall a, improves (f a) (g a)) -> improves (o ≫= f) (o' ≫= g).
Proof. intros Ho Hf b. destruct o as [a|]; [|done]. rewrite (Ho a eq_refl). apply Hf. Qed.

Section mono.
Context (m m' : memory) (Hm : m ⊆ m').

Lemma load_mono n : forall a v, load n m a = Some v -> load n m' a = Some v.
Proof.
  induction n as [|n IH]; intros a v; [done|]. change (load (S n) ?m a) with (b ← m !! a; r ← load n m (a + 1); Some (b + 256 * r)).
  destruct (m !! a) as [b|] eqn:Ea; [|done]. rewrite (lookup_weaken _ _ _ _ Ea Hm). simpl.
  destruct (load n m (a + 1)) as [r|] eqn:Er; [|done]. by rewrite (IH _ _ Er).
Qed.

Lemma field_mono n a : improves (field n m a) (field n m' a).
Proof. intros v. unfold field. destruct (load n m a) eqn:E; [|done]. by rewrite (load_mono _ _ _ E). Qed.

Lemma deref_mono n a : improves (deref n m a) (deref n m' a).
Proof.
  unfold deref. case_match; [apply field_mono|by intros v].
Qed.

(** Sequencing, tests and the reads above. *)
Ltac mono := repeat first [ apply improves_refl | apply field_mono | apply deref_mono
  | apply improves_bind; [|intros ?] | case_match ].

Lemma bytes_mono n : forall a, improves (bytes n m a) (bytes n m' a).
Proof. induction n as [|n IH]; intros a; cbn [bytes]; mono. apply IH. Qed.

Lemma check_signature_mono p s : improves (check_signature m p s) (check_signature m' p s).
Proof. unfold check_signature. case_match; [apply improves_refl|]. apply improves_bind; [apply bytes_mono|intros ?; apply improves_refl]. Qed.

Lemma scan_entries_mono w n off : forall e, improves (scan_entries w n m e off) (scan_entries w n m' e off).
Proof.
  induction n as [|n IH]; intros e; cbn [scan_entries]; [apply improves_refl|].
  repeat first [apply check_signature_mono | progress mono]. apply IH.
Qed.

Lemma parse_rsdp_mono a off : improves (parse_rsdp m a off) (parse_rsdp m' a off).
Proof.
  unfold parse_rsdp, find_madt_xsdt, find_madt_rsdt, sdt_length.
  repeat first [apply check_signature_mono | apply scan_entries_mono | apply bytes_mono | progress mono].
Qed.

Lemma walk_madt_mono fuel p len : forall o info,
  improves (walk_madt fuel m p len o info) (walk_madt fuel m' p len o info).
Proof.
  induction fuel as [|fuel IH]; intros o info; cbn [walk_madt]; [apply improves_refl|].
  unfold add_ioapic, add_override. repeat first [apply IH | progress mono].
Qed.

Lemma parse_madt_mono p : improves (parse_madt m p) (parse_madt m' p).
Proof. unfold parse_madt, sdt_length. repeat first [apply walk_madt_mono | progress mono]. Qed.

Lemma detect_mono a off : improves (detect m a off) (detect m' a off).
Proof.
  unfold detect. do 2 (case_match; [apply improves_refl|]).
  apply improves_bind; [apply parse_rsdp_mono|intros [p|]]; [|apply improves_refl].
  apply improves_bind; [apply parse_madt_mono|intros ?; apply improves_refl].
Qed.

(** What is logged is decided by the memory [detect] reads. *)
Lemma detect_log_mono a off r : detect m a off = Ret r -> detect_log m' a off = detect_log m a off.
Proof.
  unfold detect, detect_log. do 2 (case_match; [done|]). intros Hd.
  destruct (parse_rsdp m a off) as [[p|]|] eqn:Er; [| |done]; rewrite (parse_rsdp_mono _ _ _ Er); [|done].
  unfold mbind, outcome_bind in Hd. destruct (parse_madt m p) as [info|] eqn:Em; [|done].
  by rewrite (parse_madt_mono _ _ Em).
Qed.
End mono.
