(* ===== verification/ApicSpec.v ===== *)
(** * Interrupt routing through the APICs

    The legacy interrupt map against its definition, and [init] on any machine whose
    APICs follow their data sheets. *)

From S2P Require Import Prelude Io Apic.
Local Open Scope rust_scope.

(** ** The legacy interrupt map *)

(** The override in force for a line is the last one that names it. *)
Definition gsi_of (ovs : list IrqOverride) (irq : Z) : Z :=
  default irq (gsi <$> last (filter (fun ov => source ov = irq) ovs)).

Lemma apply_override_length ovs : forall l, length (fold_left apply_override ovs l) = length l.
Proof.
  induction ovs as [|ov ovs IH]; intros l; [done|]. simpl. rewrite IH. unfold apply_override.
  case_match; [by rewrite length_insert|done].
Qed.

Lemma fold_overrides ovs : forall l irq, Forall (fun ov => 0 <= source ov) ovs -> 0 <= irq < 16 ->
  length l = 16%nat ->
  fold_left apply_override ovs l !! Z.to_nat irq =
    match last (filter (fun ov => source ov = irq) ovs) with
    | Some ov => Some (gsi ov)
    | None => l !! Z.to_nat irq
    end.
Proof.
  induction ovs as [|ov ovs IH] using rev_ind; intros l irq Hs Hi Hl; [done|].
  apply Forall_app in Hs as [Hs Hov]. apply Forall_cons in Hov as [Hov _].
  rewrite fold_left_app, filter_app. simpl. unfold apply_override at 1. rewrite filter_cons, filter_nil.
  destruct (decide (source ov = irq)) as [He|He].
  - rewrite last_snoc, He. rewrite (proj2 (Z.ltb_lt irq 16)) by lia.
    apply list_lookup_insert_eq. rewrite apply_override_length. lia.
  - rewrite app_nil_r. case_test H16; [|by apply IH].
    rewrite list_lookup_insert_ne by lia. by apply IH.
Qed.

Lemma irq_map_spec ovs n irq : Forall (fun ov => 0 <= source ov) ovs -> 0 <= irq < 16 ->
  build_irq_gsi_map ovs n !! Z.to_nat irq = Some (gsi_of (take (Z.to_nat n) ovs) irq).
Proof.
  intros Hs Hi. unfold build_irq_gsi_map, gsi_of.
  rewrite fold_overrides by (done || by apply Forall_take).
  destruct (last _); [done|]. rewrite list_lookup_imap, lookup_replicate_2 by lia. simpl. f_equal. lia.
Qed.

(** [build_irq_gsi_map] agrees with the definition of the map: sixteen entries,
    each the interrupt named by the last override of its line among the first
    [override_count], and the identity for lines without an override. *)
Theorem irq_gsi_map_last_override ovs n :
  Forall (fun ov => 0 <= source ov <= 255) ovs -> 0 <= n ->
  build_irq_gsi_map ovs n =
    (fun irq => gsi_of (take (Z.to_nat n) ovs) (Z.of_nat irq)) <$> seq 0 16.
Proof.
  intros Hs Hn. assert (Hs0 : Forall (fun ov => 0 <= source ov) ovs) by (eapply Forall_impl; [done|]; simpl; lia).
  assert (Hl : length (build_irq_gsi_map ovs n) = 16%nat).
  { unfold build_irq_gsi_map. by rewrite apply_override_length. }
  apply list_eq. intros i. destruct (decide (i < 16)%nat) as [Hi|Hi].
  - rewrite list_lookup_fmap, lookup_seq_lt by done. simpl.
    rewrite <- (irq_map_spec ovs n (Z.of_nat i)) by (done || lia). by rewrite Nat2Z.id.
  - rewrite !lookup_ge_None_2; [done|rewrite length_fmap, length_seq; lia|lia].
Qed.

Lemma irq_gsi_map_witness : build_irq_gsi_map [mkOverride 0 2 0; mkOverride 9 20 0; mkOverride 9 9 13] 2 =
  [2; 1; 2; 3; 4; 5; 6; 7; 8; 20; 10; 11; 12; 13; 14; 15].
Proof.
  rewrite irq_gsi_map_last_override; [vm_compute; reflexivity| |lia].
  repeat constructor; simpl; lia.
Defined.

(** ** The chips, by their data sheets *)

Record lapic_regs := mkLapicRegs {
  l_id : Z;
  l_version : Z;
  l_svr : Z;
  l_eois : nat
}.

(** [io_max] is the number of the last input pin; [io_redir] the redirection table,
    by register index. *)
Record ioapic_regs := mkIoApicRegs {
  io_sel : Z;
  io_max : Z;
  io_redir : gmap Z Z
}.

Class ApicMachine (D : Type) `{Mmio D} (lbase iobase : Z) := {
  lapic_of : D -> lapic_regs;
  ioapic_of : D -> ioapic_regs;
  lapic_id_law d : let r := mmio_read (lbase + 0x20) d in
    r.1 = Z.shiftl (l_id (lapic_of d)) 24 /\ lapic_of r.2 = lapic_of d /\ ioapic_of r.2 = ioapic_of d;
  lapic_version_law d : let r := mmio_read (lbase + 0x30) d in
    Z.land r.1 0xFF = l_version (lapic_of d) /\ lapic_of r.2 = lapic_of d /\ ioapic_of r.2 = ioapic_of d;
  lapic_svr_read_law d : let r := mmio_read (lbase + 0xF0) d in
    r.1 = l_svr (lapic_of d) /\ lapic_of r.2 = lapic_of d /\ ioapic_of r.2 = ioapic_of d;
  lapic_svr_write_law d v : let d' := mmio_write (lbase + 0xF0) v d in
    let l := lapic_of d in
    lapic_of d' = mkLapicRegs (l_id l) (l_version l) v (l_eois l) /\ ioapic_of d' = ioapic_of d;
  lapic_eoi_law d : let d' := mmio_write (lbase + 0xB0) 0 d in
    let l := lapic_of d in
    lapic_of d' = mkLapicRegs (l_id l) (l_version l) (l_svr l) (S (l_eois l)) /\ ioapic_of d' = ioapic_of d;
  ioapic_select_law d v : let d' := mmio_write (iobase + 0) v d in
    let i := ioapic_of d in
    ioapic_of d' = mkIoApicRegs v (io_max i) (io_redir i) /\ lapic_of d' = lapic_of d;
  ioapic_version_law d : io_sel (ioapic_of d) = 1 -> let r := mmio_read (iobase + 0x10) d in
    Z.land (Z.shiftr r.1 16) 0xFF = io_max (ioapic_of d) /\
    lapic_of r.2 = lapic_of d /\ ioapic_of r.2 = ioapic_of d;
  ioapic_redir_law d v : let i := ioapic_of d in
    0x10 <= io_sel i <= 0x11 + 2 * io_max i -> let d' := mmio_write (iobase + 0x10) v d in
    ioapic_of d' = mkIoApicRegs (io_sel i) (io_max i) (<[io_sel i := v]> (io_redir i)) /\
    lapic_of d' = lapic_of d
}.

Section drivers.
Context {D : Type} `{Mmio D} {lbase iobase : Z} `{!ApicMachine D lbase iobase}.
Implicit Types (d : D).

Hypothesis laligned : lbase mod 4 = 0.
Hypothesis ioaligned : iobase mod 4 = 0.

Lemma off_aligned b o : b mod 4 = 0 -> o mod 4 = 0 -> (b + o) mod 4 = 0.
Proof. intros Hb Ho. rewrite Z.add_mod, Hb, Ho by lia. done. Qed.

Definition lapic : Lapic.Lapic := Lapic.mkLapic lbase.

Lemma lapic_id_ok d : 0 <= l_id (lapic_of d) < 16 ->
  wp (Lapic.id lapic) (fun v d' => v = l_id (lapic_of d) /\
    lapic_of d' = lapic_of d /\ ioapic_of d' = ioapic_of d) d.
Proof.
  intros Hid. destruct (lapic_id_law d) as (Hv & Hl & Hi). unfold Lapic.id, Lapic.read.
  apply wp_bind, wp_bind, wp_guard; [done|]. apply wp_read_volatile; [by apply off_aligned|].
  change (Lapic.base lapic + Lapic.LAPIC_ID) with (lbase + 0x20). rewrite Hv, Z.shiftr_shiftl_l by lia.
  simpl Z.sub. rewrite Z.shiftl_0_r. change 255 with (2 ^ 8 - 1). rewrite land_mask, Z.mod_small by lia.
  apply wp_bind, wp_guard; [apply Z.ltb_lt; lia|]. by apply wp_ret.
Qed.

Lemma lapic_version_ok d : 0 < l_version (lapic_of d) ->
  wp (Lapic.version lapic) (fun v d' => v = l_version (lapic_of d) /\
    lapic_of d' = lapic_of d /\ ioapic_of d' = ioapic_of d) d.
Proof.
  intros Hp. destruct (lapic_version_law d) as (Hv & Hl & Hi). unfold Lapic.version, Lapic.read.
  apply wp_bind, wp_bind, wp_guard; [done|]. apply wp_read_volatile; [by apply off_aligned|].
  change (Lapic.base lapic + Lapic.LAPIC_VERSION) with (lbase + 0x30). rewrite Hv.
  apply wp_bind, wp_guard; [by apply Z.ltb_lt|]. by apply wp_ret.
Qed.

Lemma lapic_enable_ok d v : negb (Z.land (Z.lor v 256) 256 =? 0) = true ->
  wp (Lapic.enable lapic v) (fun _ d' => ioapic_of d' = ioapic_of d /\
    lapic_of d' = mkLapicRegs (l_id (lapic_of d)) (l_version (lapic_of d)) (Z.lor v 256) (l_eois (lapic_of d))) d.
Proof.
  intros Hb. unfold Lapic.enable, Lapic.read, Lapic.write.
  apply wp_bind, wp_bind, wp_guard; [done|]. apply wp_write_volatile; [by apply off_aligned|].
  change (Lapic.base lapic + Lapic.LAPIC_SVR) with (lbase + 0xF0).
  destruct (lapic_svr_write_law d (Z.lor v 256)) as [Hl Hi]. set (d1 := mmio_write _ _ d) in *.
  apply wp_bind, wp_bind, wp_guard; [done|]. apply wp_read_volatile; [by apply off_aligned|].
  destruct (lapic_svr_read_law d1) as (Hv & Hl1 & Hi1). rewrite Hv, Hl. apply wp_guard; [done|].
  by rewrite Hl1, Hi1, Hl, Hi.
Qed.

(** An indirect write to a register of the redirection table. *)
Lemma write_reg_ok d idx v : 0x10 <= idx <= 0x11 + 2 * io_max (ioapic_of d) ->
  wp (IoApic.write_reg iobase idx v) (fun _ d' => lapic_of d' = lapic_of d /\
    ioapic_of d' = mkIoApicRegs idx (io_max (ioapic_of d)) (<[idx := v]> (io_redir (ioapic_of d)))) d.
Proof.
  intros Hi. unfold IoApic.write_reg, IoApic.IOREGSEL, IoApic.IOWIN.
  apply wp_bind, wp_write_volatile; [by apply off_aligned|].
  destruct (ioapic_select_law d idx) as [H1 H2]. set (d1 := mmio_write _ _ d) in *.
  apply wp_write_volatile; [by apply off_aligned|].
  destruct (ioapic_redir_law d1 v) as [H3 H4]; [by rewrite H1|]. by rewrite H4, H3, H1, H2.
Qed.

Lemma ioapic_new_ok d g : iobase <> 0 -> 0 < io_max (ioapic_of d) <= 255 ->
  wp (IoApic.new iobase g) (fun a d' => a = IoApic.mkIoApic iobase g (io_max (ioapic_of d)) /\
    lapic_of d' = lapic_of d /\ io_max (ioapic_of d') = io_max (ioapic_of d) /\
    io_redir (ioapic_of d') = io_redir (ioapic_of d)) d.
Proof.
  intros Hn Hm. unfold IoApic.new, IoApic.read_reg, IoApic.IOREGSEL, IoApic.IOWIN, IoApic.IOAPICVER.
  apply wp_bind, wp_guard; [by apply negb_true_iff, Z.eqb_neq|].
  apply wp_bind, wp_bind, wp_write_volatile; [by apply off_aligned|].
  destruct (ioapic_select_law d 1) as [H1 H2].
  set (d1 := mmio_write _ _ d) in *. apply wp_read_volatile; [by apply off_aligned|].
  destruct (ioapic_version_law d1) as (Hv & H3 & H4); [by rewrite H1|].
  rewrite Hv, H1. cbn [io_max]. unfold wrap. rewrite Z.mod_small by lia.
  apply wp_bind, wp_guard; [apply Z.ltb_lt; lia|]. apply wp_ret. by rewrite H3, H4, H1, H2.
Qed.

(** Pin [p] of the first I/O APIC delivers [v]: unmasked, edge-triggered, to the
    processor with identifier 0. *)
Definition routed (p v : Z) (t : gmap Z Z) : gmap Z Z := <[0x10 + p * 2 + 1 := 0]> (<[0x10 + p * 2 := v]> t).

Lemma set_irq_ok d g p v : 0 <= p <= io_max (ioapic_of d) -> io_max (ioapic_of d) <= 119 -> 32 <= v ->
  wp (IoApic.set_irq (IoApic.mkIoApic iobase g (io_max (ioapic_of d))) p v)
    (fun _ d' => lapic_of d' = lapic_of d /\ io_max (ioapic_of d') = io_max (ioapic_of d) /\
       io_redir (ioapic_of d') = routed p v (io_redir (ioapic_of d))) d.
Proof.
  intros Hp Hm Hv. unfold IoApic.set_irq, IoApic.redir_index. cbn [IoApic.base IoApic.max_redirs].
  apply wp_bind, wp_guard; [apply Z.leb_le; lia|]. apply wp_bind, wp_guard; [by apply Z.leb_le|].
  apply wp_bind, wp_lift, returns_bind, returns_chk_mul; [lia|].
  unfold IoApic.IOREDTBL_BASE, IoApic.REDIR_FLAGS. rewrite Z.lor_0_r.
  apply returns_chk_add; [lia|]. apply wp_bind. eapply wp_mono; [apply write_reg_ok; lia|].
  intros [] d1 [H1 H2]. apply wp_bind, wp_lift, returns_chk_add; [lia|].
  eapply wp_mono; [apply write_reg_ok; rewrite H2; simpl; lia|].
  intros [] d2 [H3 H4]. by rewrite H3, H4, H1, H2.
Qed.

Lemma route_ok d g gsi v : g <= gsi <= g + io_max (ioapic_of d) -> io_max (ioapic_of d) <= 119 -> 32 <= v ->
  wp (route (IoApic.mkIoApic iobase g (io_max (ioapic_of d))) gsi v)
    (fun _ d' => lapic_of d' = lapic_of d /\ io_max (ioapic_of d') = io_max (ioapic_of d) /\
       io_redir (ioapic_of d') = routed (gsi - g) v (io_redir (ioapic_of d))) d.
Proof.
  intros Hg Hm Hv. unfold route. cbn [IoApic.gsi_base]. apply wp_bind, wp_guard; [apply Z.leb_le; lia|].
  unfold wrap. rewrite Z.mod_small by lia. by apply set_irq_ok; [lia|..].
Qed.
End drivers.

(** ** Initialisation *)

(** What [init] asks of the tables and of the chips: addresses within range, a local
    APIC with an identifier below 16, an I/O APIC with at most 120 pins (so that
    register numbers fit in a byte) that serves the two interrupts. *)
Record init_ready {D : Type} `{Mmio D} (lbase iobase : Z) `{!ApicMachine D lbase iobase}
    (info : ApicInfo) (off : Z) (d : D) (addr g t k : Z) : Prop := {
  r_lapic : lapic_phys_base info <> 0 /\ off + lapic_phys_base info = lbase;
  r_count : 1 <= ioapic_count info;
  r_addr : ioapic_addrs info !! 0%nat = Some addr /\ addr <> 0 /\ off + addr = iobase;
  r_base : ioapic_gsi_bases info !! 0%nat = Some g /\ g <= 256;
  r_range : 0 < lbase <= u64_max /\ 0 < iobase <= u64_max;
  r_aligned : lbase mod 4 = 0 /\ iobase mod 4 = 0;
  r_id : 0 <= l_id (lapic_of d) < 16 /\ 0 < l_version (lapic_of d);
  r_pins : 0 < io_max (ioapic_of d) <= 119;
  r_map : build_irq_gsi_map (overrides info) (override_count info) !! 0%nat = Some t /\
          build_irq_gsi_map (overrides info) (override_count info) !! 1%nat = Some k;
  r_served : g <= t <= g + io_max (ioapic_of d) /\ g <= k <= g + io_max (ioapic_of d)
}.

Section init.
Context {D : Type} `{Mmio D} {lbase iobase : Z} `{!ApicMachine D lbase iobase}.
Implicit Types (s : apic_state D).

Lemma wp_on_apic {A} (c : M D A) (Q : A -> apic_state D -> Prop) s :
  wp c (fun a d => Q a (mkApic d (APIC s) (LAPIC_EOI_PTR s))) (amachine s) -> wp (on_apic c) Q s.
Proof. unfold wp, on_apic. by destruct (c (amachine s)) as [[? ?]|]. Qed.

Definition init_done (s s' : apic_state D) (g t k : Z) : Prop :=
  let l := lapic_of (amachine s) in
  APIC s' = Some (Lapic.mkLapic lbase) /\ LAPIC_EOI_PTR s' = lbase + 0xB0 /\
  lapic_of (amachine s') = mkLapicRegs (l_id l) (l_version l) 0x1FF (l_eois l) /\
  io_redir (ioapic_of (amachine s')) =
    routed (k - g) KEYBOARD_VECTOR (routed (t - g) TIMER_VECTOR (io_redir (ioapic_of (amachine s)))).

(** What [init] logs on a local APIC [l]. *)
Definition init_log (info : ApicInfo) (l : lapic_regs) (t k : Z) : list apic_event :=
  [LapicFound (l_id l) (l_version l) (lapic_phys_base info); TimerRouted t; KeyboardRouted k; SubsystemActive].

Lemma apic_init_ok info off s addr g t k : init_ready lbase iobase info off (amachine s) addr g t k ->
  wp (init info off) (fun r s' => r = (true, init_log info (lapic_of (amachine s)) t k) /\ init_done s s' g t k) s.
Proof.
  intros [[Hl0 Hl] Hc (Ha & Ha0 & Hio) [Hb Hg] [Hlr Hir] [Hla Hia] [Hid Hver] Hp [Ht Hk] [Hst Hsk]].
  unfold init. apply wp_bind, wp_guard; [by apply negb_true_iff, Z.eqb_neq|].
  apply wp_bind, wp_guard; [by apply Z.leb_le|]. apply wp_bind, wp_lift, (returns_index _ _ addr); [lia|done|].
  apply wp_bind, wp_guard; [by apply negb_true_iff, Z.eqb_neq|].
  apply wp_bind, wp_lift, returns_chk_add; [lia|]. rewrite Hl.
  apply wp_bind, wp_on_apic. unfold Lapic.new. apply wp_bind, wp_guard; [apply negb_true_iff, Z.eqb_neq; lia|]. apply wp_ret.
  apply wp_bind, wp_on_apic. eapply wp_mono; [by apply (lapic_id_ok (iobase := iobase))|]. intros ? d1 (-> & L1 & I1).
  apply wp_bind, wp_on_apic. eapply wp_mono; [apply (lapic_version_ok (iobase := iobase)); [done|by cbn [amachine]; rewrite L1]|].
  intros ? d2 (-> & L2 & I2). apply wp_bind, wp_on_apic.
  eapply wp_mono; [by apply (lapic_enable_ok (iobase := iobase))|]. intros [] d3 (I3 & L3).
  cbn [amachine APIC LAPIC_EOI_PTR] in *. rewrite L2, L1 in L3. rewrite I2, I1 in I3.
  apply wp_bind, wp_lift, returns_chk_add; [lia|]. rewrite Hio.
  apply wp_bind, wp_lift, (returns_index _ _ g); [lia|done|].
  apply wp_bind, wp_on_apic. eapply wp_mono; [apply (ioapic_new_ok (lbase := lbase)); [done|lia|cbn [amachine]; rewrite I3; lia]|].
  intros ioapic d4 (-> & L4 & M4 & R4). cbn [amachine APIC LAPIC_EOI_PTR] in *. rewrite I3 in *.
  apply wp_bind, wp_guard; [by apply Z.leb_le|]. apply wp_bind, wp_lift, (returns_index _ _ t); [lia|done|].
  apply wp_bind, wp_on_apic. cbn [amachine APIC LAPIC_EOI_PTR]. rewrite <- M4.
  eapply wp_mono; [apply (route_ok (lbase := lbase)); rewrite ?M4; [done|lia|lia|done]|].
  intros [] d5 (L5 & M5 & R5). apply wp_bind, wp_lift, (returns_index _ _ k); [lia|done|].
  apply wp_bind, wp_on_apic. cbn [amachine APIC LAPIC_EOI_PTR]. rewrite <- M5.
  eapply wp_mono; [apply (route_ok (lbase := lbase)); rewrite ?M5, ?M4; [done|lia|lia|done]|].
  intros [] d6 (L6 & M6 & R6). apply wp_bind, wp_modify, wp_bind, wp_get. cbn [amachine APIC LAPIC_EOI_PTR].
  apply wp_bind, wp_guard; [apply negb_true_iff, Z.eqb_neq; unfold Lapic.LAPIC_EOI; lia|].
  apply wp_bind, wp_modify, wp_ret. split; [by rewrite L1|]. split_and!; cbn [amachine APIC LAPIC_EOI_PTR]; [done..| |].
  - by rewrite L6, L5, L4, L3.
  - by rewrite R6, R5, R4.
Qed.

Lemma end_of_interrupt_ok s : LAPIC_EOI_PTR s = lbase + 0xB0 -> lbase mod 4 = 0 -> 0 < lbase ->
  wp end_of_interrupt (fun _ s' => APIC s' = APIC s /\ LAPIC_EOI_PTR s' = LAPIC_EOI_PTR s /\
    l_eois (lapic_of (amachine s')) = S (l_eois (lapic_of (amachine s))) /\
    ioapic_of (amachine s') = ioapic_of (amachine s)) s.
Proof.
  intros Hp Ha Hl. unfold end_of_interrupt. apply wp_bind, wp_get.
  apply wp_bind, wp_guard; [apply negb_true_iff, Z.eqb_neq; lia|].
  apply wp_on_apic, wp_write_volatile; rewrite Hp; [by apply off_aligned|].
  destruct (lapic_eoi_law (amachine s)) as [H1 H2]. cbn [amachine APIC LAPIC_EOI_PTR]. by rewrite H1, H2.
Qed.

(** The entry of pin [p]: its vector and its destination. *)
Definition redirection (p : Z) (d : D) : option Z * option Z :=
  (io_redir (ioapic_of d) !! (0x10 + p * 2), io_redir (ioapic_of d) !! (0x10 + p * 2 + 1)).

Lemma routed_lookup p v (r : gmap Z Z) q :
  ((routed p v r) !! (0x10 + q * 2), (routed p v r) !! (0x10 + q * 2 + 1)) =
  if q =? p then (Some v, Some 0) else (r !! (0x10 + q * 2), r !! (0x10 + q * 2 + 1)).
Proof.
  unfold routed. destruct (Z.eqb_spec q p) as [->|Hne].
  - rewrite lookup_insert_ne, !lookup_insert_eq by lia. done.
  - by rewrite !lookup_insert_ne by lia.
Qed.

(** On any machine whose APICs follow their data sheets, [init] succeeds without
    panic and leaves the local APIC enabled with spurious vector 255, the timer's pin
    delivering vector 32 and the keyboard's vector 33 (each the pin of the interrupt
    the MADT assigns, unmasked, edge-triggered, to processor 0), every other pin as it
    was, and the end-of-interrupt pointer at the local APIC's register. *)
Theorem apic_init_routes info off s addr g t k :
  init_ready lbase iobase info off (amachine s) addr g t k -> t <> k ->
  exists s', init info off s = Ret ((true, init_log info (lapic_of (amachine s)) t k), s') /\ is_active s' = true /\
    LAPIC_EOI_PTR s' = lbase + 0xB0 /\ l_svr (lapic_of (amachine s')) = 0x1FF /\
    redirection (t - g) (amachine s') = (Some 32, Some 0) /\
    redirection (k - g) (amachine s') = (Some 33, Some 0) /\
    forall p, p <> t - g -> p <> k - g -> redirection p (amachine s') = redirection p (amachine s).
Proof.
  intros Hr Htk. destruct (wp_elim _ _ _ (apic_init_ok _ _ _ _ _ _ _ Hr)) as (b & s' & He & -> & HA & HE & HL & HR).
  exists s'. unfold redirection. rewrite HR, HL. split_and!; [done|by unfold is_active; rewrite HA|done|done|..].
  - rewrite routed_lookup, (proj2 (Z.eqb_neq _ _)), routed_lookup, Z.eqb_refl by lia. done.
  - rewrite routed_lookup, Z.eqb_refl. done.
  - intros p Hp1 Hp2. rewrite routed_lookup, (proj2 (Z.eqb_neq _ _)), routed_lookup, (proj2 (Z.eqb_neq _ _)) by lia. done.
Qed.
End init.

(** ** Chips that show the laws can hold *)

Definition demo_lbase : Z := 0xFEE10000.
Definition demo_iobase : Z := 0xFEC10000.

Definition demo_chips : Type := lapic_regs * ioapic_regs.

#[export] Instance demo_mmio : Mmio demo_chips := {|
  mmio_read a '(l, i) :=
    (if a =? demo_lbase + 0x20 then Z.shiftl (l_id l) 24
     else if a =? demo_lbase + 0x30 then Z.land (l_version l) 0xFF
     else if a =? demo_lbase + 0xF0 then l_svr l
     else if a =? demo_iobase + 0x10 then Z.shiftl (io_max i) 16
     else 0, (l, i));
  mmio_write a v '(l, i) :=
    if a =? demo_lbase + 0xF0 then (mkLapicRegs (l_id l) (l_version l) v (l_eois l), i)
    else if a =? demo_lbase + 0xB0 then (mkLapicRegs (l_id l) (l_version l) (l_svr l) (S (l_eois l)), i)
    else if a =? demo_iobase then (l, mkIoApicRegs v (io_max i) (io_redir i))
    else if a =? demo_iobase + 0x10 then (l, mkIoApicRegs (io_sel i) (io_max i) (<[io_sel i := v]> (io_redir i)))
    else (l, i)
|}.

(** The views keep the registers within their width. *)
Definition demo_lapic (d : demo_chips) : lapic_regs :=
  mkLapicRegs (l_id d.1) (Z.land (l_version d.1) 0xFF) (l_svr d.1) (l_eois d.1).
Definition demo_ioapic (d : demo_chips) : ioapic_regs :=
  mkIoApicRegs (io_sel d.2) (Z.land (io_max d.2) 0xFF) (io_redir d.2).

#[export] Program Instance demo_apic_machine : ApicMachine demo_chips demo_lbase demo_iobase := {|
  lapic_of := demo_lapic; ioapic_of := demo_ioapic
|}.
Next Obligation. by intros [l i]. Qed.
Next Obligation.
  intros [l i]. simpl. split; [|done]. rewrite <- Z.land_assoc. done.
Qed.
Next Obligation. by intros [l i]. Qed.
Next Obligation. by intros [l i] v. Qed.
Next Obligation. by intros [l i]. Qed.
Next Obligation. by intros [l i] v. Qed.
Next Obligation.
  intros [l i] _. simpl. split; [|done]. by rewrite Z.shiftr_shiftl_l, Z.shiftl_0_r by lia.
Qed.
Next Obligation. by intros [l i] v r Hr. Qed.

Definition demo_info : ApicInfo :=
  mkApicInfo 0xFEE00000 1 [0xFEC00000; 0; 0; 0] [0; 0; 0; 0] 1 (mkOverride 0 2 0 :: replicate 15 (mkOverride 0 0 0)).

Definition demo_apic : apic_state demo_chips :=
  mkApic (mkLapicRegs 0 0x14 0xFF 0, mkIoApicRegs 0 23 ∅) None 0.

Lemma demo_init_ready : init_ready demo_lbase demo_iobase demo_info 0x10000 (amachine demo_apic) 0xFEC00000 0 2 1.
Proof.
  constructor; vm_compute; intuition congruence.
Qed.

Lemma apic_init_witness : exists s', init demo_info 0x10000 demo_apic =
    Ret ((true, [LapicFound 0 0x14 0xFEE00000; TimerRouted 2; KeyboardRouted 1; SubsystemActive]), s') /\
  redirection 2 (amachine s') = (Some 32, Some 0) /\ redirection 1 (amachine s') = (Some 33, Some 0).
Proof.
  destruct (apic_init_routes demo_info 0x10000 demo_apic 0xFEC00000 0 2 1 demo_init_ready)
    as (s' & H1 & _ & _ & _ & H2 & H3 & _); [lia|].
  exists s'. split; [exact H1|]. split; [exact H2|exact H3].
Defined.
