(* ===== verification/Interrupts.v ===== *)
(** * Interrupt handlers: [interrupts.rs]

    The interrupt descriptor table and the handlers, whole: they count, record,
    feed the keyboard queue, and acknowledge the interrupt at whichever controller
    delivers it. The kernel's state joins the components' statics with the machine. *)

From S2P Require Import Prelude Monitor Queue Trace Task Io Pic Apic ApicSpec.

Definition PIC_1_OFFSET : Z := 32.
Definition PIC_2_OFFSET : Z := PIC_1_OFFSET + 8.

Definition PICS : ChainedPics := Pic.new PIC_1_OFFSET PIC_2_OFFSET.

Inductive InterruptIndex := Timer | Keyboard.

Definition as_u8 (i : InterruptIndex) : Z :=
  match i with Timer => PIC_1_OFFSET | Keyboard => PIC_1_OFFSET + 1 end.

(** [IDT]: the handlers set, by vector; [Some 0] is the stack of the double fault. *)
Inductive handler := BreakpointHandler | PageFaultHandler | DoubleFaultHandler (ist : option Z)
  | TimerHandler | KeyboardHandler.

Definition DOUBLE_FAULT_IST_INDEX : Z := 0.

Definition IDT : gmap Z handler :=
  <[as_u8 Keyboard := KeyboardHandler]> (<[as_u8 Timer := TimerHandler]>
  (<[8 := DoubleFaultHandler (Some DOUBLE_FAULT_IST_INDEX)]>
  (<[14 := PageFaultHandler]> (<[3 := BreakpointHandler]> ∅)))).

(** The executor with its statics, the APIC statics with the machine, the trace, how
    often the time stamp counter was read, and the interrupt flag. *)
Record kernel (E D : Type) := mkKernel {
  ksys : sys E;
  kapic : apic_state D;
  ktrace : TraceBuffer;
  kreads : Z;
  iflag : bool
}.
Arguments mkKernel {E D}.
Arguments ksys {E D}.
Arguments kapic {E D}.
Arguments ktrace {E D}.
Arguments kreads {E D}.
Arguments iflag {E D}.

Section handlers.
Context {E D : Type} `{Ports D} `{Mmio D}.
Context (rdtsc : Z -> Z).
Notation K := (kernel E D).

Definition on_sys {A} (c : M (sys E) A) : M K A := fun k =>
  match c (ksys k) with
  | Ret (a, w) => Ret (a, mkKernel w (kapic k) (ktrace k) (kreads k) (iflag k))
  | Crash f => Crash f
  end.
Definition on_apics {A} (c : M (apic_state D) A) : M K A := fun k =>
  match c (kapic k) with
  | Ret (a, s) => Ret (a, mkKernel (ksys k) s (ktrace k) (kreads k) (iflag k))
  | Crash f => Crash f
  end.
Definition on_ports {A} (c : M D A) : M K A := on_apics (on_apic c).

(** [trace_event!(id, a0)] *)
Definition trace_event (id : TraceEventId) (a0 : Z) : M K unit := fun k =>
  match record (rdtsc (kreads k)) id a0 0 (ktrace k) with
  | Ret (_, t) => Ret (tt, mkKernel (ksys k) (kapic k) t (kreads k + 1) (iflag k))
  | Crash f => Crash f
  end.

(** The end of both handlers. *)
Definition acknowledge (i : InterruptIndex) : M K unit :=
  k ← get;
  if is_active (kapic k) then on_apics end_of_interrupt
  else on_ports (notify_end_of_interrupt PICS (as_u8 i)).

Definition keyboard_interrupt_handler : M K unit :=
  scancode ← on_ports (port_read 0x60);
  _ ← on_sys (modify (fun w => set_metrics (inc_interrupt (as_u8 Keyboard) (metrics w)) w));
  _ ← on_sys (add_scancode scancode);
  acknowledge Keyboard.

Definition timer_interrupt_handler : M K unit :=
  _ ← on_sys (modify (fun w => set_metrics (inc_interrupt (as_u8 Timer) (metrics w)) w));
  _ ← on_sys (modify (fun w => set_metrics (inc_timer_tick (metrics w)) w));
  _ ← trace_event Interrupt (as_u8 Timer);
  acknowledge Timer.

(** What the exception handlers print of the processor's state: the stack frame
    ([{:#?}]), the address in CR2 and the error code ([{:?}]), in the [x86_64] crate's
    formats. *)
Record exception_text := mkException {
  frame_text : string;
  address_text : string;
  code_text : string
}.

(** Lines of a message. *)
Definition lines (l : list string) : string := String.concat (String (Ascii.ascii_of_nat 10) EmptyString) l.

Definition double_fault_text (x : exception_text) : string := lines ["EXCEPTION: DOUBLE FAULT"; frame_text x].

(** What runs when vector [v] is delivered. A vector whose gate is not present
    raises a segment-not-present fault, whose gate is not present either: a double
    fault. *)
Definition deliver (x : exception_text) (v : Z) : M K unit :=
  match IDT !! v with
  | Some BreakpointHandler => on_sys (modify (print_line (lines ["EXCEPTION: BREAKPOINT"; frame_text x])))
  | Some PageFaultHandler =>
      crash (Panic (lines ["EXCEPTION: PAGE FAULT"; String.append "Accessed Address: " (address_text x);
        String.append "Error Code: " (code_text x); frame_text x]))
  | Some (DoubleFaultHandler _) => crash (Panic (double_fault_text x))
  | Some TimerHandler => timer_interrupt_handler
  | Some KeyboardHandler => keyboard_interrupt_handler
  | None => crash (Panic (double_fault_text x))
  end.

Lemma wp_on_sys {A} (c : M (sys E) A) (Q : A -> K -> Prop) k :
  wp c (fun a w => Q a (mkKernel w (kapic k) (ktrace k) (kreads k) (iflag k))) (ksys k) -> wp (on_sys c) Q k.
Proof. unfold wp, on_sys. by destruct (c (ksys k)) as [[? ?]|]. Qed.

Lemma wp_on_apics {A} (c : M (apic_state D) A) (Q : A -> K -> Prop) k :
  wp c (fun a s => Q a (mkKernel (ksys k) s (ktrace k) (kreads k) (iflag k))) (kapic k) -> wp (on_apics c) Q k.
Proof. unfold wp, on_apics. by destruct (c (kapic k)) as [[? ?]|]. Qed.

Lemma wp_on_ports {A} (c : M D A) (Q : A -> K -> Prop) k :
  wp c (fun a d => Q a (mkKernel (ksys k) (mkApic d (APIC (kapic k)) (LAPIC_EOI_PTR (kapic k)))
    (ktrace k) (kreads k) (iflag k))) (amachine (kapic k)) -> wp (on_ports c) Q k.
Proof. intros Hc. by apply wp_on_apics, wp_on_apic. Qed.
End handlers.

(** ** A board with both controllers

    Ports and memory-mapped registers do not interfere, and reading a scancode
    does not touch the controllers. *)
Class Board (D : Type) `{Ports D} `{Mmio D} (lbase iobase : Z)
    `{!Pic8259Pair D} `{!ApicMachine D lbase iobase} := {
  board_out p v d : lapic_of (outb p v d) = lapic_of d /\ ioapic_of (outb p v d) = ioapic_of d;
  board_in p d : lapic_of (inb p d).2 = lapic_of d /\ ioapic_of (inb p d).2 = ioapic_of d;
  board_scancode d : chips (inb 0x60 d).2 = chips d;
  board_read a d : chips (mmio_read a d).2 = chips d;
  board_write a v d : chips (mmio_write a v d) = chips d
}.

Section handled.
Context {E D : Type} `{Ports D} `{Mmio D} {lbase iobase : Z}.
Context `{!Pic8259Pair D} `{!ApicMachine D lbase iobase} `{!Board D lbase iobase}.
Context (rdtsc : Z -> Z).
Notation K := (kernel E D).
Implicit Types (k : K).

(** The APIC, when active, is reached through its end-of-interrupt register. *)
Definition apic_ok (s : apic_state D) : Prop :=
  is_active s = true -> LAPIC_EOI_PTR s = lbase + 0xB0 /\ lbase mod 4 = 0 /\ 0 < lbase.

(** One end-of-interrupt, at the controller in use, and nothing else. The lines of
    both interrupts are on the first chip. *)
Definition acknowledged (s s' : apic_state D) : Prop :=
  APIC s' = APIC s /\ LAPIC_EOI_PTR s' = LAPIC_EOI_PTR s /\
  ioapic_of (amachine s') = ioapic_of (amachine s) /\
  if is_active s then
    l_eois (lapic_of (amachine s')) = S (l_eois (lapic_of (amachine s))) /\
    chips (amachine s') = chips (amachine s)
  else
    lapic_of (amachine s') = lapic_of (amachine s) /\
    chips (amachine s') = (chip_command 0x20 (chips (amachine s)).1, (chips (amachine s)).2).

Lemma acknowledge_ok i k : apic_ok (kapic k) ->
  wp (acknowledge i) (fun _ k' => ksys k' = ksys k /\ ktrace k' = ktrace k /\ kreads k' = kreads k /\
    iflag k' = iflag k /\ acknowledged (kapic k) (kapic k')) k.
Proof.
  intros Ha. unfold acknowledge, acknowledged. apply wp_bind, wp_get.
  destruct (is_active (kapic k)) eqn:Ac.
  - destruct (Ha Ac) as (Hp & Hal & Hl). apply wp_on_apics. unfold end_of_interrupt. apply wp_bind, wp_get.
    apply wp_bind, wp_guard; [apply negb_true_iff, Z.eqb_neq; lia|].
    apply wp_on_apic, wp_write_volatile; rewrite Hp; [by apply off_aligned|]. simpl.
    destruct (lapic_eoi_law (amachine (kapic k))) as [H1 H2]. rewrite H1, H2, board_write. by split_and!.
  - apply wp_on_ports. destruct (wp_elim _ _ _ (notify_chips 32 40 (as_u8 i) (amachine (kapic k)) ltac:(lia)))
      as ([] & d & Hd & Hc).
    assert (Hlo : lapic_of d = lapic_of (amachine (kapic k)) /\ ioapic_of d = ioapic_of (amachine (kapic k))).
    { destruct i; vm_compute in Hd; injection Hd as <-; apply board_out. }
    apply (wp_intro _ _ _ _ _ Hd). destruct Hlo as [Hl Hi]. simpl. rewrite Hl, Hi, Hc. by destruct i.
Qed.

Lemma trace_ok id a0 k (Q : unit -> K -> Prop) es : trace_holds es (ktrace k) ->
  Z.of_nat (length es) + 1 < 2 ^ 64 ->
  (forall t, trace_holds (es ++ [mkEvent (rdtsc (kreads k)) id a0 0]) t ->
     Q tt (mkKernel (ksys k) (kapic k) t (kreads k + 1) (iflag k))) ->
  wp (trace_event rdtsc id a0) Q k.
Proof.
  intros Ht Hl HQ. unfold wp, trace_event.
  destruct (wp_elim _ _ _ (record_holds es (ktrace k) (mkEvent (rdtsc (kreads k)) id a0 0) Ht Hl)) as ([] & t & Hr & Ht').
  simpl in Hr. rewrite Hr. by apply HQ.
Qed.

(** The line of an interrupt on the first chip. *)
Definition line (i : InterruptIndex) : Z := match i with Timer => 0 | Keyboard => 1 end.

Lemma acknowledged_line i s s' : acknowledged s s' -> is_active s = false ->
  highest (isr (chips (amachine s)).1) (line i) ->
  isr (chips (amachine s')).1 = Z.clearbit (isr (chips (amachine s)).1) (line i).
Proof.
  intros (_ & _ & _ & Hc) Ha Hh. rewrite Ha in Hc. destruct Hc as [_ ->].
  rewrite <- (clear_lowest_highest _ _ Hh). by destruct (chips (amachine s)) as [[] ?].
Qed.

Lemma timer_ok k es : apic_ok (kapic k) -> trace_holds es (ktrace k) -> Z.of_nat (length es) + 1 < 2 ^ 64 ->
  wp (timer_interrupt_handler rdtsc) (fun _ k' => acknowledged (kapic k) (kapic k') /\ iflag k' = iflag k /\
    ksys k' = set_metrics (inc_timer_tick (inc_interrupt 32 (metrics (ksys k)))) (ksys k) /\
    trace_holds (es ++ [mkEvent (rdtsc (kreads k)) Interrupt 32 0]) (ktrace k')) k.
Proof.
  intros Ha Ht Hl. unfold timer_interrupt_handler.
  do 2 apply wp_bind, wp_on_sys, wp_modify. apply wp_bind. eapply trace_ok; [done|done|].
  intros t Ht'. eapply wp_mono; [by apply acknowledge_ok|].
  intros [] k' (Hs & Htr & _ & Hf & Hak). cbn [ksys ktrace kapic iflag] in *. by rewrite Hs, Htr.
Qed.

Lemma keyboard_ok k w' :
  Task.keyboard_interrupt_handler (inb 0x60 (amachine (kapic k))).1 (ksys k) = Ret (tt, w') ->
  apic_ok (kapic k) ->
  wp keyboard_interrupt_handler (fun _ k' => acknowledged (kapic k) (kapic k') /\ iflag k' = iflag k /\
    ksys k' = w' /\ ktrace k' = ktrace k) k.
Proof.
  intros Hw Ha. unfold keyboard_interrupt_handler. apply wp_bind, wp_on_ports, wp_port_read.
  apply wp_bind, wp_on_sys, wp_modify, wp_bind, wp_on_sys.
  eapply (wp_intro (add_scancode _)); [exact Hw|]. eapply wp_mono; [by apply acknowledge_ok|].
  intros [] k' (Hs & Htr & _ & Hf & Hak). cbn [ksys ktrace kapic iflag] in *. split_and!; try done.
  unfold acknowledged in *. cbn [amachine APIC LAPIC_EOI_PTR] in Hak.
  destruct (board_in 0x60 (amachine (kapic k))) as [Hl Hi]. rewrite Hl, Hi, board_scancode in Hak. exact Hak.
Qed.

(** C14: delivering the timer's or the keyboard's vector runs its handler to the end:
    the tick is counted and traced, respectively the scancode read from port [0x60]
    reaches [add_scancode]; the controller in use, and only that one, gets exactly one
    end-of-interrupt; with the legacy controllers, the line that interrupted, and only
    that line, is no longer in service. *)
Theorem interrupt_handled_once x i k es w' :
  apic_ok (kapic k) -> trace_holds es (ktrace k) -> Z.of_nat (length es) + 1 < 2 ^ 64 ->
  (i = Keyboard -> Task.keyboard_interrupt_handler (inb 0x60 (amachine (kapic k))).1 (ksys k) = Ret (tt, w')) ->
  exists k', deliver rdtsc x (as_u8 i) k = Ret (tt, k') /\
    acknowledged (kapic k) (kapic k') /\
    (is_active (kapic k) = false -> highest (isr (chips (amachine (kapic k))).1) (line i) ->
       isr (chips (amachine (kapic k'))).1 = Z.clearbit (isr (chips (amachine (kapic k))).1) (line i)) /\
    match i with
    | Timer => ksys k' = set_metrics (inc_timer_tick (inc_interrupt 32 (metrics (ksys k)))) (ksys k) /\
        trace_holds (es ++ [mkEvent (rdtsc (kreads k)) Interrupt 32 0]) (ktrace k')
    | Keyboard => ksys k' = w' /\ ktrace k' = ktrace k
    end.
Proof.
  intros Ha Ht Hl Hw. destruct i.
  - destruct (wp_elim _ _ _ (timer_ok k es Ha Ht Hl)) as ([] & k' & Hk & Hak & _ & Hs & Htr).
    exists k'. split_and!; [done|done|by apply (acknowledged_line Timer)|done|done].
  - destruct (wp_elim _ _ _ (keyboard_ok k w' (Hw eq_refl) Ha)) as ([] & k' & Hk & Hak & _ & Hs & Htr).
    exists k'. split_and!; [done|done|by apply (acknowledged_line Keyboard)|done|done].
Qed.

(** The vectors without a gate, among them the spurious vector [0xFF] that
    [apic::init] gives the local APIC: an interrupt there ends in a panic. *)
Lemma unhandled_vector_panics x v k : IDT !! v = None ->
  deliver rdtsc x v k = Crash (Panic (double_fault_text x)).
Proof. unfold deliver. by intros ->. Qed.

Lemma spurious_vector_panics x k : deliver rdtsc x 0xFF k = Crash (Panic (double_fault_text x)).
Proof. by apply unhandled_vector_panics. Qed.
End handled.

(** ** A board that shows the laws can hold *)

Record demo_board := mkBoard {
  b_pics : chip * chip;
  b_apics : demo_chips;
  b_keys : list Z
}.

#[export] Instance board_ports : Ports demo_board := {|
  inb p b :=
    if p =? 0x21 then (imr (b_pics b).1, b)
    else if p =? 0xA1 then (imr (b_pics b).2, b)
    else if p =? 0x60 then (hd 0 (b_keys b), mkBoard (b_pics b) (b_apics b) (tl (b_keys b)))
    else (0, b);
  outb p v b :=
    let '(c0, c1) := b_pics b in
    let pics := if p =? 0x20 then (chip_command v c0, c1)
                else if p =? 0xA0 then (c0, chip_command v c1)
                else if p =? 0x21 then (chip_data v c0, c1)
                else if p =? 0xA1 then (c0, chip_data v c1)
                else (c0, c1) in
    mkBoard pics (b_apics b) (b_keys b)
|}.

#[export] Instance board_mmio : Mmio demo_board := {|
  mmio_read a b := let '(v, c) := mmio_read a (b_apics b) in (v, mkBoard (b_pics b) c (b_keys b));
  mmio_write a v b := mkBoard (b_pics b) (mmio_write a v (b_apics b)) (b_keys b)
|}.

#[export] Program Instance board_pics : Pic8259Pair demo_board := {| chips := b_pics |}.
Next Obligation. by intros [[] ? ?] v _. Qed.
Next Obligation. by intros [[] ? ?] v _. Qed.
Next Obligation. by intros [[] ? ?] v. Qed.
Next Obligation. by intros [[] ? ?] v. Qed.
Next Obligation. by intros [[] ? ?]. Qed.
Next Obligation. by intros [[] ? ?]. Qed.
Next Obligation. by intros [[] ? ?] v. Qed.

#[export] Program Instance board_apic_machine : ApicMachine demo_board demo_lbase demo_iobase := {|
  lapic_of b := demo_lapic (b_apics b); ioapic_of b := demo_ioapic (b_apics b)
|}.
Next Obligation. intros [p [l i] q]. exact (lapic_id_law (l, i)). Qed.
Next Obligation. intros [p [l i] q]. exact (lapic_version_law (l, i)). Qed.
Next Obligation. intros [p [l i] q]. exact (lapic_svr_read_law (l, i)). Qed.
Next Obligation. intros [p [l i] q] v. exact (lapic_svr_write_law (l, i) v). Qed.
Next Obligation. intros [p [l i] q]. exact (lapic_eoi_law (l, i)). Qed.
Next Obligation. intros [p [l i] q] v. exact (ioapic_select_law (l, i) v). Qed.
Next Obligation. intros [p [l i] q]. exact (ioapic_version_law (l, i)). Qed.
Next Obligation. intros [p [l i] q] v. exact (ioapic_redir_law (l, i) v). Qed.

#[export] Program Instance demo_board_laws : Board demo_board demo_lbase demo_iobase.
Next Obligation. by intros p v [[] [] ?]. Qed.
Next Obligation. intros p [[] [] ?]. simpl. by repeat case_match. Qed.
Next Obligation. by intros [[] [] ?]. Qed.
Next Obligation. intros a [[] [] ?]. done. Qed.
Next Obligation. by intros a v [[] [] ?]. Qed.

(** The timer's line in service, the key [A] pressed, nothing traced yet. *)
Definition demo_chip (r : Z) : chip := mkChip Ready 32 4 1 0xF8 r.
Definition demo_machine : demo_board :=
  mkBoard (demo_chip 1, mkChip Ready 40 2 1 0xFF 0) (amachine demo_apic) [0x1E].

Definition demo_sys : sys unit :=
  mkSys 0 ∅ (ArrayQueue.mkQueue 0 0 (replicate 100 None)) None OnceCell.uninit MonitorData_new [] tt.

Definition demo_kernel : kernel unit demo_board :=
  mkKernel demo_sys (mkApic demo_machine None 0) (Trace.init TRACE) 0 false.

Definition demo_exception : exception_text := mkException "InterruptStackFrame { .. }" "VirtAddr(0x0)" "(empty)".

Lemma interrupt_handled_witness : exists k',
  deliver (fun n => n) demo_exception 32 demo_kernel = Ret (tt, k') /\
  timer_ticks (metrics (ksys k')) = 1 /\ isr (chips (amachine (kapic k'))).1 = 0.
Proof.
  destruct (interrupt_handled_once (fun n => n) demo_exception Timer demo_kernel [] (print_line "WARNING: scancode queue uninitialized"
    (set_metrics (inc_interrupt 33 (metrics demo_sys)) demo_sys))) as (k' & H1 & _ & H2 & H3 & _).
  - intros H. discriminate H.
  - exact init_holds.
  - simpl. lia.
  - intros H. discriminate H.
  - exists k'. split; [exact H1|]. split; [rewrite H3; reflexivity|]. rewrite H2; [reflexivity|reflexivity|].
    split; [simpl; lia|]. split; [reflexivity|]. simpl. lia.
Defined.
