(* ===== verification/Boot.v ===== *)
(** * Start-up: [lib.rs], [sse.rs], [main.rs]

    [init] (SSE, the descriptor table, the legacy controllers), [init_apic] and
    [demo_fs] of the boot sequence, and what they leave behind: exactly one
    interrupt controller delivers, and the handlers know which. *)

From S2P Require Import Prelude Memory Str Monitor Trace Fs Task Io Pic Apic ApicSpec AcpiSpec Interrupts.
From Stdlib Require Import Ascii.

(** The kernel with the control registers and the loaded descriptor table. *)
Record boot_state (E D : Type) := mkBoot {
  bkernel : kernel E D;
  cr0 : Z;
  cr4 : Z;
  idt : option (gmap Z handler)
}.
Arguments mkBoot {E D}.
Arguments bkernel {E D}.
Arguments cr0 {E D}.
Arguments cr4 {E D}.
Arguments idt {E D}.

(** [x & !bits] in 64 bits. *)
Definition clear_bits (x bits : Z) : Z := Z.land x (Z.lxor u64_max bits).

Section boot.
Context {E D : Type} `{Ports D} `{Mmio D}.
Notation B := (boot_state E D).

Definition on_kernel {A} (c : M (kernel E D) A) : M B A := fun b =>
  match c (bkernel b) with
  | Ret (a, k) => Ret (a, mkBoot k (cr0 b) (cr4 b) (idt b))
  | Crash f => Crash f
  end.

(** [sse::init()] *)
Definition sse_init : M B unit :=
  b ← get;
  let r0 := clear_bits (cr0 b) (Z.lor (Z.shiftl 1 2) (Z.shiftl 1 3)) in
  let r0 := Z.lor r0 (Z.lor (Z.shiftl 1 1) (Z.shiftl 1 5)) in
  _ ← modify (fun b => mkBoot (bkernel b) r0 (cr4 b) (idt b));
  b ← get;
  let r4 := Z.lor (cr4 b) (Z.lor (Z.shiftl 1 9) (Z.shiftl 1 10)) in
  modify (fun b => mkBoot (bkernel b) (cr0 b) r4 (idt b)).

(** [interrupts::init_idt()] *)
Definition init_idt : M B unit := modify (fun b => mkBoot (bkernel b) (cr0 b) (cr4 b) (Some IDT)).

(** [yonti_os::init()] *)
Definition init : M B unit :=
  _ ← sse_init;
  _ ← init_idt;
  on_kernel (on_ports (initialize PICS)).

(** [interrupts::enable()], [interrupts::disable()] *)
Definition set_iflag (f : bool) : M B unit :=
  on_kernel (modify (fun k => mkKernel (ksys k) (kapic k) (ktrace k) (kreads k) f)).

(** The lines [init_apic] logs, with those of [apic/mod.rs]. *)
Inductive boot_event := NoRsdp | DetectionFailed | PicMasked | InitFailed | OfApic (e : apic_event).

(** [init_apic], with what it logs. *)
Definition init_apic (m : memory) (rsdp_addr : option Z) (phys_offset : Z) : M B (list boot_event) :=
  match rsdp_addr with
  | None =>
      _ ← set_iflag true;
      mret [NoRsdp]
  | Some addr =>
      info ← lift (detect m addr phys_offset);
      let detected := OfApic <$> detect_log m addr phys_offset in
      match info with
      | None =>
          _ ← set_iflag true;
          mret (detected ++ [DetectionFailed])
      | Some info =>
          _ ← set_iflag false;
          r ← on_kernel (on_apics (Apic.init info phys_offset));
          let '(ok, routed) := r : bool * list apic_event in
          _ ← (if ok then on_kernel (on_ports (mask_all PICS)) else mret tt);
          _ ← set_iflag true;
          mret (detected ++ (OfApic <$> routed) ++ [if ok then PicMasked else InitFailed])
      end
  end.
End boot.

(** ** [demo_fs] *)

(** The lines printed: a file's text, a directory's listing. *)
Inductive demo_line := DemoText (s : str) | DemoListing (path : str) (names : list str).

Definition bytes_of (s : string) : list Z := (fun c => Z.of_N (N_of_ascii c)) <$> lit s.

(** [r.expect(why)] *)
Definition expect_ok {S A Er} (r : result A Er) (why : string) : M S A :=
  match r with Ok a => mret a | Err _ => crash (Panic why) end.

(** The two files and the directory created at boot. The texts are ASCII, so
    [from_utf8] of what is read back succeeds. *)
Definition demo_fs : M FileSystem (list demo_line) :=
  r ← create_file (lit "/hello.txt");
  _ ← expect_ok r "create /hello.txt";
  r ← write_file (lit "/hello.txt") (bytes_of "Hello from Yonti-os filesystem!");
  _ ← expect_ok r "write /hello.txt";
  fs ← get;
  let printed := match read_file fs (lit "/hello.txt") with
                 | Ok data => [DemoText ((fun b => ascii_of_N (Z.to_N b)) <$> data)]
                 | Err _ => []
                 end in
  r ← create_dir (lit "/home");
  _ ← expect_ok r "create /home";
  r ← create_file (lit "/home/test");
  _ ← expect_ok r "create /home/test";
  r ← write_file (lit "/home/test") (bytes_of "nested file!");
  _ ← expect_ok r "write /home/test";
  fs ← get;
  contents ← expect_ok (list_dir fs (lit "/")) "list /";
  contents' ← expect_ok (list_dir fs (lit "/home")) "list /home";
  mret (printed ++ [DemoListing (lit "/") contents; DemoListing (lit "/home") contents']).

(** The demonstration runs on the empty file system without a panic and prints what
    it wrote. *)
Lemma demo_fs_runs : exists fs,
  demo_fs Fs.new = Ret ([DemoText (lit "Hello from Yonti-os filesystem!");
    DemoListing (lit "/") [lit "hello.txt"; lit "home"]; DemoListing (lit "/home") [lit "test"]], fs) /\
  read_file fs (lit "/hello.txt") = Ok (bytes_of "Hello from Yonti-os filesystem!") /\
  read_file fs (lit "/home/test") = Ok (bytes_of "nested file!") /\ inode_count fs = 4.
Proof. eexists. split; [vm_compute; reflexivity|]. split_and!; vm_compute; reflexivity. Qed.

(** ** Interrupts after boot *)

Section routing.
Context {E D : Type} `{Ports D} `{Mmio D} {lbase iobase : Z}.
Context `{!Pic8259Pair D} `{!ApicMachine D lbase iobase} `{!Board D lbase iobase}.
Notation B := (boot_state E D).
Implicit Types (b : B).

Definition mach (b : B) : D := amachine (kapic (bkernel b)).

Lemma wp_on_kernel {A} (c : M (kernel E D) A) (Q : A -> B -> Prop) b :
  wp c (fun a k => Q a (mkBoot k (cr0 b) (cr4 b) (idt b))) (bkernel b) -> wp (on_kernel c) Q b.
Proof. unfold wp, on_kernel. by destruct (c (bkernel b)) as [[? ?]|]. Qed.

Lemma wp_set_iflag f (Q : unit -> B -> Prop) b :
  Q tt (mkBoot (mkKernel (ksys (bkernel b)) (kapic (bkernel b)) (ktrace (bkernel b)) (kreads (bkernel b)) f)
          (cr0 b) (cr4 b) (idt b)) -> wp (set_iflag f) Q b.
Proof. intros HQ. by apply wp_on_kernel, wp_modify. Qed.

(** Floating point on: no emulation, no task switch pending, native errors, SSE. *)
Definition sse_enabled (b b' : B) : Prop :=
  (forall i, 0 <= i < 64 -> Z.testbit (cr0 b') i =
     if (i =? 2) || (i =? 3) then false else (i =? 1) || (i =? 5) || Z.testbit (cr0 b) i) /\
  (forall i, 0 <= i < 64 -> Z.testbit (cr4 b') i = (i =? 9) || (i =? 10) || Z.testbit (cr4 b) i).

Lemma sse_init_ok b : wp sse_init (fun _ b' => sse_enabled b b' /\ bkernel b' = bkernel b /\ idt b' = idt b) b.
Proof.
  unfold sse_init. apply wp_bind, wp_get, wp_bind, wp_modify, wp_bind, wp_get, wp_modify.
  split; [|done]. cbn [cr0 cr4 bkernel idt]. split; intros i Hi; cbn [cr0 cr4]; rewrite !Z.lor_spec; unfold clear_bits.
  - rewrite Z.land_spec, Z.lxor_spec, Z.lor_spec. change u64_max with (Z.ones 64). rewrite Z.ones_spec_low by lia.
    rewrite !Z.shiftl_1_l, !Z.pow2_bits_eqb by lia. rewrite !(Z.eqb_sym _ i).
    destruct (Z.eqb_spec i 2), (Z.eqb_spec i 3), (Z.eqb_spec i 1), (Z.eqb_spec i 5); subst; simpl;
      rewrite ?andb_false_r, ?andb_true_r, ?orb_true_r, ?orb_false_r; try done; lia.
  - rewrite !Z.shiftl_1_l, !Z.pow2_bits_eqb by lia. rewrite !(Z.eqb_sym _ i).
    destruct (i =? 9), (i =? 10), (Z.testbit (cr4 b) i); done.
Qed.

(** The legacy controllers' driver leaves the APICs alone. *)
Definition keeps_apics {A} (c : M D A) : Prop := forall d,
  wp c (fun _ d' => lapic_of d' = lapic_of d /\ ioapic_of d' = ioapic_of d) d.

Lemma keeps_read p : keeps_apics (port_read p).
Proof. intros d. apply wp_port_read, board_in. Qed.
Lemma keeps_write p v : keeps_apics (port_write p v).
Proof. intros d. apply wp_port_write, board_out. Qed.
Lemma keeps_bind {A B'} (c : M D A) (f : A -> M D B') :
  keeps_apics c -> (forall a, keeps_apics (f a)) -> keeps_apics (c ≫= f).
Proof.
  intros Hc Hf d. apply wp_bind. eapply wp_mono; [apply Hc|]. intros a d1 [H1 H2].
  eapply wp_mono; [apply Hf|]. intros b d2 [H3 H4]. by rewrite H3, H4.
Qed.

Lemma keeps_initialize p : keeps_apics (initialize p).
Proof. repeat first [apply keeps_read | apply keeps_write | apply keeps_bind; [|intros ?]]. Qed.
Lemma keeps_mask_all p : keeps_apics (mask_all p).
Proof. repeat first [apply keeps_write | apply keeps_bind; [|intros ?]]. Qed.

(** What [init] leaves: the chips remapped with the firmware's masks, the rest alone. *)
Definition remapped (m0 m1 : Z) : chip * chip :=
  (mkChip Ready 32 4 1 m0 0, mkChip Ready 40 2 1 m1 0).

(** The executor and the trace of [b'] are those of [b]. *)
Definition same_kernel (b b' : B) : Prop :=
  ksys (bkernel b') = ksys (bkernel b) /\ ktrace (bkernel b') = ktrace (bkernel b).

Lemma init_boot_ok b : wp init (fun _ b' => same_kernel b b' /\
    sse_enabled b b' /\ idt b' = Some IDT /\ iflag (bkernel b') = iflag (bkernel b) /\
    APIC (kapic (bkernel b')) = APIC (kapic (bkernel b)) /\
    chips (mach b') = remapped (imr (chips (mach b)).1) (imr (chips (mach b)).2) /\
    lapic_of (mach b') = lapic_of (mach b) /\ ioapic_of (mach b') = ioapic_of (mach b)) b.
Proof.
  unfold init. apply wp_bind. eapply wp_mono; [apply sse_init_ok|]. intros [] b1 (Hs & Hk & _).
  apply wp_bind, wp_modify, wp_on_kernel, wp_on_ports. cbn [bkernel]. rewrite Hk.
  eapply wp_mono; [apply wp_and; [apply (initialize_chips 32 40)|apply keeps_initialize]|].
  intros [] d' [Hc [Hl Hi]]. unfold mach, same_kernel. simpl. split_and!; done.
Qed.

Lemma pics_read p : preserves (chips (D := D)) (read_volatile p).
Proof.
  intros d v d'. unfold read_volatile. case_match; [|done]. pose proof (board_read p d).
  destruct (mmio_read p d). intros Heq. by simplify_eq.
Qed.
Lemma pics_write p v : preserves (chips (D := D)) (write_volatile p v).
Proof. intros d u d'. unfold write_volatile. case_match; [|done]. intros [= <- <-]. apply board_write. Qed.
Lemma pics_on_apic {A} (c : M D A) : preserves chips c -> preserves (fun s => chips (amachine s)) (on_apic c).
Proof.
  intros Hc s a s'. unfold on_apic. destruct (c (amachine s)) as [[? ?]|] eqn:Ec; [|done].
  intros [= <- <-]. by eapply Hc.
Qed.
Lemma pics_modify (g : apic_state D -> apic_state D) : (forall s, amachine (g s) = amachine s) ->
  preserves (fun s => chips (amachine s)) (modify g).
Proof. intros Hg s a s' [= _ <-]. by rewrite Hg. Qed.

Create HintDb pics.
#[local] Hint Resolve preserves_ret preserves_lift preserves_guard preserves_get pics_read pics_write : pics.

Lemma pics_apic_init info off : preserves (fun s => chips (amachine s)) (Apic.init (D := D) info off).
Proof.
  unfold Apic.init, Lapic.new, Lapic.id, Lapic.version, Lapic.enable, Lapic.read, Lapic.write,
    IoApic.new, IoApic.read_reg, route, IoApic.set_irq, IoApic.write_reg.
  repeat first [ solve [auto with pics] | apply preserves_bind; [|intros ?] | apply pics_on_apic
               | apply pics_modify; done ].
Qed.

(** What the firmware offers: no root pointer, no usable MADT, or APICs that serve
    the timer and the keyboard on two pins of the first I/O APIC. *)
Inductive firmware (m : memory) (off : Z) (d : D) : option Z -> option (Z * Z) -> Prop :=
  | FwNone : firmware m off d None None
  | FwNoApic a : detect m a off = Ret None -> firmware m off d (Some a) None
  | FwApic a info addr g t k :
      detect m a off = Ret (Some info) -> init_ready lbase iobase info off d addr g t k -> t <> k ->
      firmware m off d (Some a) (Some (t - g, k - g)).

Lemma init_ready_frame info off d d' addr g t k : lapic_of d' = lapic_of d -> ioapic_of d' = ioapic_of d ->
  init_ready lbase iobase info off d addr g t k -> init_ready lbase iobase info off d' addr g t k.
Proof. intros Hl Hi []. constructor; rewrite ?Hl, ?Hi; done. Qed.

(** The state of the controllers when boot is over. *)
Definition controllers (b b' : B) (pins : option (Z * Z)) : Prop :=
  match pins with
  | None =>
      is_active (kapic (bkernel b')) = false /\
      chips (mach b') = remapped (imr (chips (mach b)).1) (imr (chips (mach b)).2) /\
      lapic_of (mach b') = lapic_of (mach b) /\ ioapic_of (mach b') = ioapic_of (mach b)
  | Some (pt, pk) =>
      is_active (kapic (bkernel b')) = true /\ chips (mach b') = remapped 0xFF 0xFF /\
      l_svr (lapic_of (mach b')) = 0x1FF /\
      redirection pt (mach b') = (Some 32, Some 0) /\ redirection pk (mach b') = (Some 33, Some 0)
  end.

(** What [init_apic] logs, by what the firmware offers. *)
Definition boot_log (m : memory) (off : Z) (d : D) (rsdp : option Z) : list boot_event :=
  match rsdp with
  | None => [NoRsdp]
  | Some a =>
      (OfApic <$> detect_log m a off) ++
      match detect m a off with
      | Ret (Some info) =>
          let gsi := fun irq => default 0 (build_irq_gsi_map (overrides info) (override_count info) !! irq) in
          (OfApic <$> init_log info (lapic_of d) (gsi 0%nat) (gsi 1%nat)) ++ [PicMasked]
      | _ => [DetectionFailed]
      end
  end.

Lemma boot_log_mono mem mem' off d rsdp pins : mem ⊆ mem' -> firmware mem off d rsdp pins ->
  boot_log mem' off d rsdp = boot_log mem off d rsdp.
Proof.
  intros Hs [|a Hd|a info addr g t k Hd _ _]; [done|..]; cbn [boot_log];
    by rewrite (detect_log_mono _ _ Hs _ _ _ Hd), (detect_mono _ _ Hs _ _ _ Hd), Hd.
Qed.

Lemma init_apic_ok m off b b1 rsdp pins :
  firmware m off (mach b) rsdp pins -> APIC (kapic (bkernel b1)) = None ->
  chips (mach b1) = remapped (imr (chips (mach b)).1) (imr (chips (mach b)).2) ->
  lapic_of (mach b1) = lapic_of (mach b) -> ioapic_of (mach b1) = ioapic_of (mach b) ->
  wp (init_apic m rsdp off) (fun evs b' => evs = boot_log m off (mach b) rsdp /\ same_kernel b1 b' /\ iflag (bkernel b') = true /\ cr0 b' = cr0 b1 /\ cr4 b' = cr4 b1 /\
    idt b' = idt b1 /\ apic_ok (lbase := lbase) (kapic (bkernel b')) /\ controllers b b' pins) b1.
Proof.
  intros Hfw HA Hc Hl Hi. unfold init_apic.
  assert (Hno : apic_ok (lbase := lbase) (kapic (bkernel b1))) by (unfold apic_ok, is_active; by rewrite HA).
  destruct Hfw as [|a Hd|a info addr g t k Hd Hr Htk].
  - apply wp_bind, wp_set_iflag, wp_ret. split_and!; try done. unfold controllers, is_active. cbn [bkernel kapic]. by rewrite HA.
  - apply wp_bind, wp_lift. rewrite Hd. apply returns_ret, wp_bind, wp_set_iflag, wp_ret.
    split_and!; try done; [by cbn [boot_log]; rewrite Hd|]. unfold controllers, is_active. cbn [bkernel kapic]. by rewrite HA.
  - apply wp_bind, wp_lift. rewrite Hd. apply returns_ret, wp_bind, wp_set_iflag, wp_bind, wp_on_kernel, wp_on_apics.
    cbn [bkernel kapic ksys ktrace kreads iflag cr0 cr4 idt].
    destruct (wp_elim _ _ _ (apic_init_ok info off (kapic (bkernel b1)) addr g t k (init_ready_frame _ _ _ _ _ _ _ _ Hl Hi Hr)))
      as (r & s & Hs & -> & HA' & HE & HL & HR).
    apply (wp_intro _ _ _ _ _ Hs). pose proof (pics_apic_init info off _ _ _ Hs) as Hp. lazy beta in Hp.
    apply wp_bind, wp_on_kernel, wp_on_ports. cbn [bkernel kapic ksys ktrace kreads iflag cr0 cr4 idt].
    eapply wp_mono; [apply wp_and; [apply (mask_all_chips 32 40)|apply keeps_mask_all]|].
    intros [] d' [Hc' [Hl' Hi']]. apply wp_bind, wp_set_iflag, wp_ret. unfold controllers, mach in *.
    cbn [bkernel kapic ksys ktrace kreads iflag cr0 cr4 idt amachine APIC LAPIC_EOI_PTR].
    split; [by cbn [boot_log]; destruct (r_map _ _ _ _ _ _ _ _ _ Hr) as [Ht Hk]; rewrite Hd, Ht, Hk, Hl|].
    destruct Hr as [_ _ _ _ [? _] [? _] _ _ _ _]. rewrite Hp, Hc in Hc'. unfold is_active, apic_ok.
    cbn [APIC LAPIC_EOI_PTR]. rewrite HA', Hc', Hl', HL. split_and!; try done; try lia.
    + unfold redirection. rewrite Hi', HR, routed_lookup, (proj2 (Z.eqb_neq _ _)), routed_lookup, Z.eqb_refl by lia. done.
    + unfold redirection. rewrite Hi', HR, routed_lookup, Z.eqb_refl. done.
Qed.

(** C13: boot brings the interrupt system up. On firmware that gives no root pointer, or
    tables over which the walk returns, with no I/O APIC listed or with controllers that
    [init] accepts (local APIC id below 16, at most 120 pins, the timer's and the
    keyboard's interrupts on two pins of the first I/O APIC): [init] followed
    by [init_apic] returns with interrupts enabled, the descriptor table loaded and
    floating point on; without usable APICs the legacy chips deliver on vectors 32 and
    40 with the firmware's masks and no APIC register is touched; with them, every
    legacy line is masked and the I/O APIC delivers the timer on vector 32 and the
    keyboard on 33, through an enabled local APIC. In both cases the handlers'
    end-of-interrupt goes to the controller that delivers. What was found and routed is
    logged. *)
Theorem boot_routes_interrupts m off b rsdp pins :
  APIC (kapic (bkernel b)) = None -> firmware m off (mach b) rsdp pins ->
  exists b', (_ ← init; init_apic m rsdp off) b = Ret (boot_log m off (mach b) rsdp, b') /\
    iflag (bkernel b') = true /\ idt b' = Some IDT /\ sse_enabled b b' /\
    apic_ok (lbase := lbase) (kapic (bkernel b')) /\ controllers b b' pins.
Proof.
  intros HA Hfw.
  assert (wp (_ ← init; init_apic m rsdp off) (fun evs b' => evs = boot_log m off (mach b) rsdp /\ iflag (bkernel b') = true /\ idt b' = Some IDT /\
    sse_enabled b b' /\ apic_ok (lbase := lbase) (kapic (bkernel b')) /\ controllers b b' pins) b)
    as (evs & b' & Hb & -> & Hrest)%wp_elim; [|by exists b'].
  apply wp_bind. eapply wp_mono; [apply init_boot_ok|]. intros [] b1 (_ & Hs & Hidt & _ & HA1 & Hc & Hl & Hi).
  eapply wp_mono; [apply (init_apic_ok m off b); try done; by rewrite HA1|].
  intros evs b2 (-> & _ & Hf & Hc0 & Hc4 & Hi2 & Hok & Hctl). split_and!; [done|done|by rewrite Hi2| |done|done].
  unfold sse_enabled. by rewrite Hc0, Hc4.
Qed.
End routing.

(** ** A boot that shows the hypotheses can hold *)

Definition demo_boot_state : boot_state unit demo_board :=
  mkBoot (mkKernel demo_sys (mkApic (mkBoard (mkChip Ready 8 0 0 0xB8 0, mkChip Ready 112 0 0 0x8F 0)
    (amachine demo_apic) []) None 0) (Trace.init TRACE) 0 false) 0x80000011 0x20 None.

Lemma boot_routes_witness : exists b',
  (_ ← init; init_apic pc_memory (Some 0x100) 0x10000) demo_boot_state =
    Ret ((OfApic <$> [Detected 0xFEE00000 1; LapicFound 0 0x14 0xFEE00000; TimerRouted 2; KeyboardRouted 1; SubsystemActive]) ++
         [PicMasked], b') /\
  iflag (bkernel b') = true /\ chips (mach b') = remapped 0xFF 0xFF /\
  redirection 2 (mach b') = (Some 32, Some 0) /\ redirection 1 (mach b') = (Some 33, Some 0).
Proof.
  destruct (boot_routes_interrupts pc_memory 0x10000 demo_boot_state (Some 0x100) (Some (2 - 0, 1 - 0)))
    as (b' & H1 & H2 & _ & _ & _ & _ & H3 & _ & H4 & H5).
  - reflexivity.
  - eapply (FwApic _ _ _ _ _ 0xFEC00000); [vm_compute; reflexivity| |lia].
    constructor; vm_compute; intuition congruence.
  - exists b'. split; [exact H1|]. split; [exact H2|]. split; [exact H3|]. split; [exact H4|exact H5].
Defined.
