(* ===== verification/Fmt.v ===== *)
(** * Formatting and parsing

    What the kernel uses of [core::fmt] and [core::str] to print and read text.
    Text is a list of bytes; a [&str] of [Str] is such a list with each byte as a
    character. *)

From S2P Require Import Prelude Str.
From Stdlib Require Import Ascii.

Definition to_bytes (s : str) : list Z := (fun c => Z.of_N (N_of_ascii c)) <$> s.
Definition of_bytes (bs : list Z) : str := (fun b => ascii_of_N (Z.to_N b)) <$> bs.

(** The bytes of a literal. *)
Definition text (s : string) : list Z := to_bytes (lit s).

Definition is_byte (b : Z) : Prop := 0 <= b < 256.

Lemma of_to_bytes s : of_bytes (to_bytes s) = s.
Proof.
  unfold of_bytes, to_bytes. rewrite <- list_fmap_compose. rewrite <- (list_fmap_id s) at 2.
  apply list_fmap_ext. intros i c _. simpl. by rewrite N2Z.id, ascii_N_embedding.
Qed.

Lemma to_of_bytes bs : Forall is_byte bs -> to_bytes (of_bytes bs) = bs.
Proof.
  induction 1 as [|b bs Hb _ IH]; [done|]. unfold to_bytes, of_bytes in *. rewrite !fmap_cons, IH. f_equal.
  unfold is_byte in Hb. rewrite N_ascii_embedding by lia. lia.
Qed.

Lemma to_bytes_byte s : Forall is_byte (to_bytes s).
Proof.
  apply Forall_fmap, Forall_forall. intros c _. unfold compose, is_byte. pose proof (N_ascii_bounded c). lia.
Qed.

(** ** Numbers *)

Definition digit (d : Z) : Z := if d <? 10 then 48 + d else 87 + d.

Fixpoint digits (base : Z) (fuel : nat) (n : Z) (acc : list Z) : list Z :=
  match fuel with
  | O => acc
  | S fuel' =>
      let acc := digit (n mod base) :: acc in
      if n / base =? 0 then acc else digits base fuel' (n / base) acc
  end.

(** [{}] of an unsigned integer of at most 64 bits, which has at most 64 digits in
    any base. *)
Definition dec (n : Z) : list Z := digits 10 64 n [].
(** [{:x}] *)
Definition hex (n : Z) : list Z := digits 16 64 n [].

(** [{:0w}]: zeros on the left. *)
Definition zeros (w : nat) (s : list Z) : list Z := replicate (w - length s) 48 ++ s.
(** [{:#0wx}]: the width counts the prefix. *)
Definition hex_prefixed (w : nat) (n : Z) : list Z := text "0x" ++ zeros (w - 2) (hex n).
(** [{:<w}]: spaces on the right. *)
Definition left_aligned (w : nat) (s : list Z) : list Z := s ++ replicate (w - length s) 32.

(** *** Templates

    A template of [format_args!] with its arguments, for stating what a line looks like
    in the words of the source: [{}], [{:<w}] of text, and [{:0wx}], [{:#0wx}], [{:#x}]
    of numbers. *)
Inductive arg := Num (n : Z) | Txt (s : list Z).

Fixpoint read_width (acc : Z) (spec : list Z) : Z :=
  match spec with
  | c :: spec' => if (48 <=? c) && (c <=? 57) then read_width (acc * 10 + (c - 48)) spec' else acc
  | [] => acc
  end.

Definition show_arg (spec : list Z) (a : arg) : list Z :=
  match spec, a with
  | [], Num n => dec n
  | [], Txt s => s
  | 58 :: 60 :: w, Txt s => left_aligned (Z.to_nat (read_width 0 w)) s
  | 58 :: 35 :: w, Num n => hex_prefixed (Z.to_nat (read_width 0 w)) n
  | 58 :: w, Num n => zeros (Z.to_nat (read_width 0 w)) (hex n)
  | _, Txt s => s
  | _, Num n => dec n
  end.

(** [hole] is what has been read of the placeholder one is in, the last character first. *)
Fixpoint fill_from (hole : option (list Z)) (template : list Z) (args : list arg) : list Z :=
  match template with
  | [] => []
  | c :: rest =>
      match hole with
      | None => if c =? 123 then fill_from (Some []) rest args else c :: fill_from None rest args
      | Some spec =>
          if c =? 125 then
            match args with
            | a :: args' => show_arg (rev_append spec []) a ++ fill_from None rest args'
            | [] => fill_from None rest []
            end
          else fill_from (Some (c :: spec)) rest args
      end
  end.

Definition fill (template : string) (args : list arg) : list Z := fill_from None (text template) args.

(** [s.parse::<usize>().ok()]: an optional plus sign, then digits, within range. *)
Fixpoint parse_from (acc : Z) (s : list Z) : option Z :=
  match s with
  | [] => Some acc
  | b :: s' =>
      if (48 <=? b) && (b <=? 57) then
        let v := acc * 10 + (b - 48) in
        if v <=? u64_max then parse_from v s' else None
      else None
  end.

Definition parse_usize (s : list Z) : option Z :=
  match s with
  | [] => None
  | 43 :: [] => None
  | 43 :: s' => parse_from 0 s'
  | _ => parse_from 0 s
  end.

(** ** Reading back what was printed *)

Fixpoint value (acc : Z) (s : list Z) : Z :=
  match s with [] => acc | b :: s' => value (acc * 10 + (b - 48)) s' end.

Lemma digits_app base fuel : forall n acc, digits base fuel n acc = digits base fuel n [] ++ acc.
Proof.
  induction fuel as [|f IH]; intros n acc; [done|]. cbn [digits]. case_test H; [done|].
  rewrite IH, (IH _ [_]). by rewrite <- app_assoc.
Qed.

Lemma digit_dec d : 0 <= d < 10 -> digit d = 48 + d.
Proof. intros. unfold digit. by rewrite (proj2 (Z.ltb_lt d 10)) by lia. Qed.

Lemma value_app s1 : forall acc s2, value acc (s1 ++ s2) = value (value acc s1) s2.
Proof. induction s1; intros; simpl; auto. Qed.

Lemma digits_value fuel : forall n, 0 <= n < 10 ^ Z.of_nat fuel -> (0 < fuel)%nat ->
  value 0 (digits 10 fuel n []) = n /\ Forall (fun b => 48 <= b <= 57) (digits 10 fuel n []) /\
  digits 10 fuel n [] <> [].
Proof.
  induction fuel as [|f IH]; intros n Hn Hf; [lia|]. cbn [digits].
  pose proof (Z.mod_pos_bound n 10 ltac:(lia)) as Hm. pose proof (Z.div_mod n 10 ltac:(lia)) as Hd.
  rewrite digit_dec by lia. case_test H0.
  - simpl. split_and!; [lia| |done]. repeat constructor; lia.
  - rewrite digits_app. replace (Z.of_nat (S f)) with (Z.of_nat f + 1) in Hn by lia.
    rewrite Z.pow_add_r, Z.pow_1_r in Hn by lia.
    assert (Hq : 0 <= n / 10 < 10 ^ Z.of_nat f) by (split; [apply Z.div_pos; lia|apply Z.div_lt_upper_bound; lia]).
    destruct f as [|f]; [simpl in Hq; lia|]. destruct (IH (n / 10)) as (Hv & Hfa & Hne); [done|lia|].
    rewrite value_app, Hv. simpl. split_and!; [lia| |by intros [? ?]%app_eq_nil].
    apply Forall_app. split; [done|]. repeat constructor; lia.
Qed.

Lemma value_ge s : forall acc, 0 <= acc -> Forall (fun b => 48 <= b <= 57) s -> acc <= value acc s.
Proof.
  induction s as [|b s IH]; intros acc Ha Hs; simpl; [lia|]. apply Forall_cons in Hs as [Hb Hs].
  specialize (IH (acc * 10 + (b - 48)) ltac:(lia) Hs). lia.
Qed.

Lemma parse_from_value s : forall acc, 0 <= acc -> Forall (fun b => 48 <= b <= 57) s ->
  value acc s <= u64_max -> parse_from acc s = Some (value acc s).
Proof.
  induction s as [|b s IH]; intros acc Ha Hs Hv; simpl in *; [done|]. apply Forall_cons in Hs as [Hb Hs].
  rewrite (proj2 (Z.leb_le 48 b)), (proj2 (Z.leb_le b 57)) by lia. cbn [andb].
  pose proof (value_ge s (acc * 10 + (b - 48)) ltac:(lia) Hs).
  rewrite (proj2 (Z.leb_le _ u64_max)) by lia. apply IH; [lia|done|done].
Qed.

Lemma dec_ok n : in_u64 n ->
  value 0 (dec n) = n /\ Forall (fun b => 48 <= b <= 57) (dec n) /\ dec n <> [].
Proof.
  intros Hn. apply digits_value; [|lia]. unfold in_u64, u64_max in Hn.
  assert (2 ^ 64 <= 10 ^ Z.of_nat 64) by (vm_compute; congruence). lia.
Qed.

(** [n.to_string().parse() == Ok(n)] *)
Lemma parse_dec n : in_u64 n -> parse_usize (dec n) = Some n.
Proof.
  intros Hn. destruct (dec_ok n Hn) as (Hv & Hd & Hne). unfold parse_usize.
  destruct (dec n) as [|b s] eqn:E; [done|].
  assert (Hp : parse_from 0 (b :: s) = Some n).
  { rewrite parse_from_value; [by rewrite Hv|lia|done|]. rewrite Hv. apply Hn. }
  apply Forall_cons in Hd as [Hb _]. repeat (case_match; try done; try lia).
Qed.

(** ** UTF-8 *)

Definition cont (b : Z) : bool := (0x80 <=? b) && (b <=? 0xBF).
Definition between (lo b hi : Z) : bool := (lo <=? b) && (b <=? hi).

(** [core::str::from_utf8(s).is_ok()] *)
Fixpoint utf8_ok (s : list Z) : bool :=
  match s with
  | [] => true
  | b0 :: s1 =>
      if b0 <? 0x80 then utf8_ok s1
      else match s1 with
        | [] => false
        | b1 :: s2 =>
            if between 0xC2 b0 0xDF then cont b1 && utf8_ok s2
            else match s2 with
              | [] => false
              | b2 :: s3 =>
                  if b0 =? 0xE0 then between 0xA0 b1 0xBF && cont b2 && utf8_ok s3
                  else if b0 =? 0xED then between 0x80 b1 0x9F && cont b2 && utf8_ok s3
                  else if between 0xE1 b0 0xEF then cont b1 && cont b2 && utf8_ok s3
                  else match s3 with
                    | [] => false
                    | b3 :: s4 =>
                        (if b0 =? 0xF0 then between 0x90 b1 0xBF
                         else if b0 =? 0xF4 then between 0x80 b1 0x8F
                         else between 0xF1 b0 0xF3 && cont b1)
                        && cont b2 && cont b3 && utf8_ok s4
                    end
              end
        end
  end.

Lemma ascii_utf8_app s t : Forall (fun b => b < 0x80) s -> utf8_ok (s ++ t) = utf8_ok t.
Proof. induction 1 as [|b s Hb _ IH]; [done|]. simpl. by rewrite (proj2 (Z.ltb_lt b 128)). Qed.

Lemma ascii_utf8 s : Forall (fun b => b < 0x80) s -> utf8_ok s = true.
Proof. intros Hs. rewrite <- (app_nil_r s). by rewrite ascii_utf8_app. Qed.

(** [char::encode_utf8] *)
Definition encode_utf8 (c : Z) : list Z :=
  if c <? 0x80 then [c]
  else if c <? 0x800 then [0xC0 + c / 64; 0x80 + c mod 64]
  else if c <? 0x10000 then [0xE0 + c / 4096; 0x80 + c / 64 mod 64; 0x80 + c mod 64]
  else [0xF0 + c / 262144; 0x80 + c / 4096 mod 64; 0x80 + c / 64 mod 64; 0x80 + c mod 64].

(** A [char]: a Unicode scalar value. *)
Definition is_char (c : Z) : Prop := 0 <= c < 0xD800 \/ 0xDFFF < c <= 0x10FFFF.

(** Where two, three and four bytes are accepted. *)
Ltac utf8_tests :=
  cbn [utf8_ok]; unfold between, cont;
  repeat match goal with
  | |- (if ?c then _ else _) = _ =>
      first [replace c with true by lia | replace c with false by lia | destruct (Z.eqb_spec _ _ : reflect _ c)]
  | |- ?c && utf8_ok _ = _ => replace c with true by (repeat case_match; lia); reflexivity
  end.

Lemma utf8_two b0 b1 s : 0xC2 <= b0 <= 0xDF -> 0x80 <= b1 <= 0xBF -> utf8_ok (b0 :: b1 :: s) = utf8_ok s.
Proof. intros. utf8_tests. Qed.

Lemma utf8_three b0 b1 b2 s :
  0xE0 <= b0 <= 0xEF -> 0x80 <= b1 <= 0xBF -> 0x80 <= b2 <= 0xBF ->
  (b0 = 0xE0 -> 0xA0 <= b1) -> (b0 = 0xED -> b1 <= 0x9F) ->
  utf8_ok (b0 :: b1 :: b2 :: s) = utf8_ok s.
Proof. intros. utf8_tests. Qed.

Lemma utf8_four b0 b1 b2 b3 s :
  0xF0 <= b0 <= 0xF4 -> 0x80 <= b1 <= 0xBF -> 0x80 <= b2 <= 0xBF -> 0x80 <= b3 <= 0xBF ->
  (b0 = 0xF0 -> 0x90 <= b1) -> (b0 = 0xF4 -> b1 <= 0x8F) ->
  utf8_ok (b0 :: b1 :: b2 :: b3 :: s) = utf8_ok s.
Proof. intros. utf8_tests. Qed.

Lemma encode_utf8_ok c s : is_char c -> utf8_ok (encode_utf8 c ++ s) = utf8_ok s.
Proof.
  intros Hc. unfold is_char in Hc. unfold encode_utf8.
  assert (Hdd : c / 4096 = c / 64 / 64) by by rewrite Z.div_div.
  assert (Hddd : c / 262144 = c / 64 / 64 / 64) by by rewrite !Z.div_div.
  rewrite Hdd, Hddd.
  pose proof (Z.div_mod c 64 ltac:(lia)). pose proof (Z.mod_pos_bound c 64 ltac:(lia)).
  pose proof (Z.div_mod (c / 64) 64 ltac:(lia)). pose proof (Z.mod_pos_bound (c / 64) 64 ltac:(lia)).
  pose proof (Z.div_mod (c / 64 / 64) 64 ltac:(lia)).
  pose proof (Z.mod_pos_bound (c / 64 / 64) 64 ltac:(lia)).
  generalize dependent (c / 64 / 64 / 64). generalize dependent (c / 64 / 64 mod 64).
  generalize dependent (c / 64 / 64). generalize dependent (c / 64 mod 64).
  generalize dependent (c / 64). generalize dependent (c mod 64). intros.
  destruct (Z.ltb_spec c 0x80); [cbn [app utf8_ok]; by rewrite (proj2 (Z.ltb_lt c 128))|].
  destruct (Z.ltb_spec c 0x800); [apply utf8_two; lia|].
  destruct (Z.ltb_spec c 0x10000); [apply utf8_three; lia|apply utf8_four; lia].
Qed.

(** ** Words *)

(** [char::is_whitespace] of an ASCII character. *)
Definition is_space (c : ascii) : bool :=
  let n := N_of_ascii c in ((9 <=? n)%N && (n <=? 13)%N) || (n =? 32)%N.

Fixpoint trim_left (s : str) : str :=
  match s with c :: s' => if is_space c then trim_left s' else s | [] => [] end.

(** [s.trim()] *)
Definition trim (s : str) : str := reverse (trim_left (reverse (trim_left s))).

(** [s.split_whitespace()], as the list of the words. *)
Fixpoint words (s : str) : list str :=
  match s with
  | [] => []
  | c :: s' =>
      if is_space c then words s'
      else match s' with
           | [] => [[c]]
           | c' :: _ =>
               if is_space c' then [c] :: words s'
               else match words s' with
                    | w :: ws => (c :: w) :: ws
                    | [] => [[c]]
                    end
           end
  end.

(** [ws.join(" ")] *)
Fixpoint join (ws : list str) : str :=
  match ws with
  | [] => []
  | [w] => w
  | w :: ws' => w ++ lit " " ++ join ws'
  end.

(** Surrounding blanks do not change the words. *)
Lemma words_trim_left s : words (trim_left s) = words s.
Proof. induction s as [|c s IH]; [done|]. simpl. by destruct (is_space c) eqn:E; [|simpl; rewrite E]. Qed.

Lemma words_snoc s b : is_space b = true -> words (s ++ [b]) = words s.
Proof.
  intros Hb. induction s as [|c s IH]; [simpl; by rewrite Hb|]. cbn [app words]. destruct (is_space c); [done|].
  destruct s as [|c' s]; [cbn [app]; by rewrite Hb; simpl; rewrite Hb|]. cbn [app] in *. destruct (is_space c'); by rewrite IH.
Qed.

Lemma words_trim s : words (trim s) = words s.
Proof.
  unfold trim. rewrite <- (words_trim_left s). generalize (trim_left s). clear s. intros s.
  rewrite <- (reverse_involutive s) at 2. generalize (reverse s). clear s. intros s.
  induction s as [|c s IH]; [done|]. simpl. destruct (is_space c) eqn:E; [|done].
  by rewrite reverse_cons, words_snoc.
Qed.

(** A word, and a line made of words. *)
Definition is_word (s : str) : Prop := s <> [] /\ Forall (fun c => is_space c = false) s.

Lemma words_word s : is_word s -> words s = [s].
Proof.
  intros [Hne Hs]. induction Hs as [|c s Hc Hs IH]; [done|]. simpl. rewrite Hc.
  destruct s as [|c' s]; [done|]. apply Forall_cons in Hs as [Hc' _]. rewrite Hc'. by rewrite IH.
Qed.

Lemma words_app_word s rest : is_word s -> words (s ++ lit " " ++ rest) = s :: words rest.
Proof.
  intros [Hne Hs]. induction Hs as [|c s Hc Hs IH]; [done|]. cbn [app words]. rewrite Hc.
  destruct s as [|c' s]; [done|]. apply Forall_cons in Hs as [Hc' _]. cbn [app] in IH |- *. rewrite Hc', IH by done. done.
Qed.

(** Splitting a line undoes joining the words with spaces. *)
Lemma words_join ws : Forall is_word ws -> words (join ws) = ws.
Proof.
  induction 1 as [|s ws Hs Hws IH]; [done|]. destruct ws as [|s' ws]; [by apply words_word|].
  change (join (s :: s' :: ws)) with (s ++ lit " " ++ join (s' :: ws)).
  by rewrite words_app_word, IH.
Qed.
