(* ===== verification/Log.v ===== *)
(** * Kernel logging: [log.rs], and what is logged by [monitor.rs] and [trace.rs]

    The [log] crate keeps the registered logger and the maximum level; its macros
    hand a record to the logger when its level is within the maximum. *)

From S2P Require Import Prelude Str Fmt Io Uart Monitor Trace.

Inductive Level := Error | Warn | Info | Debug | TraceLevel.

(** [level as usize], the order of levels; [LevelFilter::Off] is 0. *)
Definition level_num (l : Level) : Z :=
  match l with Error => 1 | Warn => 2 | Info => 3 | Debug => 4 | TraceLevel => 5 end.

Definition level_name (l : Level) : string :=
  match l with
  | Error => "ERROR" | Warn => "WARN" | Info => "INFO" | Debug => "DEBUG" | TraceLevel => "TRACE"
  end.

(** The crate's two statics. *)
Record logger := mkLogger {
  registered : bool;
  max_level : Z
}.

(** Before [init]: no logger, [LevelFilter::Off]. *)
Definition no_logger : logger := mkLogger false 0.

(** [init(level)]: the crate refuses a second logger. *)
Definition init (level : Z) (lg : logger) : result unit unit * logger :=
  if registered lg then (Err tt, lg) else (Ok tt, mkLogger true level).

(** [KernelLogger::enabled] *)
Definition enabled (lg : logger) (l : Level) : bool := level_num l <=? max_level lg.

Definition color (l : Level) : string :=
  match l with Error => "31" | Warn => "33" | Info => "37" | Debug => "36" | TraceLevel => "35" end.

Definition esc : list Z := [27].

(** The line of [KernelLogger::log]. *)
Definition log_line (l : Level) (target args : list Z) : list Z :=
  esc ++ text "[" ++ text (color l) ++ text "m[" ++ left_aligned 5 (text (level_name l)) ++ text "]" ++
  esc ++ text "[0m " ++ target ++ text ": " ++ args ++ [10].

Section logging.
Context {D : Type} `{Ports D}.

(** [KernelLogger::log] *)
Definition log (lg : logger) (l : Level) (target args : list Z) : M (serial D) unit :=
  if negb (enabled lg l) then mret tt else _print [log_line l target args].

(** The macros [error!] .. [trace!] of the crate, in a build with debug assertions. *)
Definition log_macro (lg : logger) (l : Level) (target args : list Z) : M (serial D) unit :=
  if (level_num l <=? max_level lg) && registered lg then log lg l target args else mret tt.

(** ** [monitor::dump_to_serial] *)

Definition monitor_target : list Z := text "yonti_os::monitor".

Definition metrics_text (m : MonitorData) : list Z :=
  text "metrics: alloc=" ++ dec (alloc_count m) ++ text " free=" ++ dec (free_count m) ++
  text " cur=" ++ dec (current_allocated m) ++ text " peak=" ++ dec (peak_allocated m) ++
  text " frames=" ++ dec (allocated_frames m) ++ text "/" ++ dec (mon_total_frames m) ++
  text " tasks=" ++ dec (tasks_spawned m) ++ text "/" ++ dec (tasks_completed m) ++ text "/" ++
  dec (active_tasks m) ++ text " drops=" ++ dec (dropped_wakes m) ++ text " ticks=" ++ dec (timer_ticks m).

(** [irq 0x..: count] *)
Definition irq_text (i : nat) (count : Z) : list Z :=
  text "  irq 0x" ++ zeros 2 (hex (0x20 + Z.of_nat i)) ++ text ": " ++ dec count.

(** The lines of the loop over [interrupt_counts], with those counted only. *)
Definition irq_lines (m : MonitorData) : list (list Z) :=
  concat (imap (fun i count => if 0 <? count then [irq_text i count] else []) (interrupt_counts m)).

Definition dump_to_serial (lg : logger) (m : MonitorData) : M (serial D) unit :=
  _ ← log_macro lg Info monitor_target (metrics_text m);
  for_each (irq_lines m) (log_macro lg Info monitor_target).

(** ** [trace::dump_last] *)

Definition trace_target : list Z := text "yonti_os::trace".

(** [{:#x}] *)
Definition hex_short (n : Z) : list Z := text "0x" ++ hex n.

Definition trace_line (e : Z * string * Z * Z) : list Z :=
  let '(ts, name, a0, a1) := e in
  text "  [" ++ zeros 16 (hex ts) ++ text "] " ++ text name ++
  text " arg0=" ++ hex_short a0 ++ text " arg1=" ++ hex_short a1.

Definition dump_trace (lg : logger) (t : TraceBuffer) (n : Z) : M (serial D) unit :=
  d ← lift (dump_last t n);
  let '(total, overflow, n, lines) := d in
  _ ← log_macro lg Info trace_target
        (text "trace events: total=" ++ dec total ++ text " overflow=" ++ dec overflow ++
         text " (showing last " ++ dec n ++ text ")");
  for_each lines (fun e => log_macro lg Info trace_target (trace_line e)).
End logging.
