(* ===== verification/Shell.v ===== *)
(** * The shell: [shell.rs], and printing ([vga_buffer.rs])

    The line editor, the commands and the task that feeds them decoded keys. The
    world holds what the commands reach: the serial line, the screen, the file
    system, and the heap with the metrics and the trace. Temporary vectors and
    strings are values; the heap they come from is not charged for them. The
    keyboard decoder is the [pc_keyboard] crate's, a parameter. *)

From S2P Require Import Prelude Str Fmt Io Uart Framebuffer Fs Monitor Trace Heap KernelHeap Log.
From Stdlib Require Import Ascii.

Record world (D : Type) := mkWorld {
  wserial : serial D;
  wscreen : option FrameBufferWriter;
  wfs : FileSystem;
  wheap : kworld;
  wlog : logger
}.
Arguments mkWorld {D}.
Arguments wserial {D}.
Arguments wscreen {D}.
Arguments wfs {D}.
Arguments wheap {D}.
Arguments wlog {D}.

(** ** Printing *)

Section printing.
Context {D : Type} `{Ports D}.

Definition on_serial {A} (c : M (serial D) A) : M (world D) A := fun w =>
  match c (wserial w) with
  | Ret (a, s) => Ret (a, mkWorld s (wscreen w) (wfs w) (wheap w) (wlog w))
  | Crash f => Crash f
  end.
Definition on_screen {A} (c : M (option FrameBufferWriter) A) : M (world D) A := fun w =>
  match c (wscreen w) with
  | Ret (a, s) => Ret (a, mkWorld (wserial w) s (wfs w) (wheap w) (wlog w))
  | Crash f => Crash f
  end.
Definition on_kheap {A} (c : M kworld A) : M (world D) A := fun w =>
  match c (wheap w) with
  | Ret (a, h) => Ret (a, mkWorld (wserial w) (wscreen w) (wfs w) h (wlog w))
  | Crash f => Crash f
  end.

(** [framebuffer::_print] *)
Definition screen_print (s : list Z) : M (option FrameBufferWriter) unit :=
  _ ← with_framebuffer_mut (write_string s);
  mret tt.

(** [print!]: [vga_buffer::_print]. *)
Definition print (s : list Z) : M (world D) unit :=
  _ ← on_serial (_print [s]);
  on_screen (screen_print s).

(** [println!] *)
Definition println (s : list Z) : M (world D) unit := print (s ++ [10]).
End printing.

(** ** Keys *)

(** The key codes the code tells apart. *)
Inductive KeyCode := Backspace | OemPlus | NumpadAdd | OemMinus | NumpadSubtract | OtherCode (n : Z).

Inductive DecodedKey := Unicode (c : Z) | RawKey (k : KeyCode).

#[global] Instance KeyCode_eq : EqDecision KeyCode.
Proof. solve_decision. Defined.

(** [c.is_ascii_graphic()] *)
Definition is_ascii_graphic (c : Z) : bool := (33 <=? c) && (c <=? 126).

(** ** [Shell] *)

Record Shell := mkShell {
  buf : list Z;
  pos : Z
}.

Definition new : Shell := mkShell (replicate 256 0) 0.

(** The shell's methods change the shell and the world. *)
Notation state D := (Shell * world D)%type.

Section commands.
Context {D : Type} `{Ports D} (rdtsc : Z -> Z).

Definition on_world {A} (c : M (world D) A) : M (state D) A := fun '(s, w) =>
  match c w with
  | Ret (a, w') => Ret (a, (s, w'))
  | Crash f => Crash f
  end.

Definition print_prompt : M (world D) unit := print (esc ++ text "[32m$ " ++ esc ++ text "[0m").

Definition push (c : Z) : M (state D) unit :=
  '(s, _) ← get;
  if pos s <? Z.of_nat (length (buf s)) then
    b ← lift (store_index (buf s) (pos s) c);
    _ ← modify (fun '(s, w) => (mkShell b (pos s + 1), w));
    on_world (print [c])
  else mret tt.

Definition backspace : M (state D) unit :=
  '(s, _) ← get;
  if 0 <? pos s then
    _ ← modify (fun '(s, w) => (mkShell (buf s) (pos s - 1), w));
    on_world (print [8; 32; 8])
  else mret tt.

Definition cmd_help : M (world D) unit :=
  println (text "commands: help, mem, trace [n], ls <path>, cat <path>, alloc <n>, uptime, clear, echo <text>").

Definition mem_lines (m : MonitorData) : list (list Z) :=
  [text "alloc: " ++ dec (alloc_count m) ++ text " allocs, " ++ dec (free_count m) ++ text " frees, " ++
     dec (current_allocated m) ++ text " bytes in use (peak: " ++ dec (peak_allocated m) ++ text ")";
   text "frames: " ++ dec (allocated_frames m) ++ text "/" ++ dec (mon_total_frames m) ++
     text "  tasks: spawned=" ++ dec (tasks_spawned m) ++ text " completed=" ++ dec (tasks_completed m) ++
     text " active=" ++ dec (active_tasks m);
   text "dropped wakes: " ++ dec (dropped_wakes m) ++ text "  ticks: " ++ dec (timer_ticks m)]
  ++ irq_lines m.

Definition cmd_mem : M (world D) unit :=
  w ← get;
  for_each (mem_lines (snapshot (kmon (wheap w)))) println.

Definition cmd_trace (n_arg : option str) : M (world D) unit :=
  let n := default 10 (n_arg ≫= fun s => parse_usize (to_bytes s)) in
  _ ← println (text "dumping last " ++ dec n ++ text " trace events to serial...");
  w ← get;
  on_serial (dump_trace (wlog w) (ktrace (wheap w)) n).

(** [{:?}] of an error *)
Definition error_text (e : FsError) : list Z :=
  text match e with
       | NotFound => "NotFound" | AlreadyExists => "AlreadyExists" | NotAFile => "NotAFile"
       | NotADirectory => "NotADirectory" | InvalidPath => "InvalidPath" | FileTooLarge => "FileTooLarge"
       | TooManyChildren => "TooManyChildren" | PathTooDeep => "PathTooDeep"
       | TooManyInodes => "TooManyInodes" | DirectoryNotEmpty => "DirectoryNotEmpty"
       end.

Definition cmd_ls (path : option str) : M (world D) unit :=
  let path := default (lit "/") path in
  let p := to_bytes path in
  w ← get;
  match list_dir (wfs w) path with
  | Ok children =>
      _ ← println (p ++ text " (" ++ dec (Fs.len children) ++ text " entries):");
      for_each children (fun name => println (text "  " ++ to_bytes name))
  | Err NotADirectory =>
      match read_file (wfs w) path with
      | Ok data => println (p ++ text " (file, " ++ dec (Fs.len data) ++ text " bytes)")
      | Err _ => println (text "ls: " ++ p ++ text ": not found")
      end
  | Err e => println (text "ls: " ++ p ++ text ": " ++ error_text e)
  end.

Definition cmd_cat (path : option str) : M (world D) unit :=
  match path with
  | None => println (text "cat: missing path")
  | Some path =>
      let p := to_bytes path in
      w ← get;
      match read_file (wfs w) path with
      | Ok data =>
          if utf8_ok data then print data
          else println (text "(binary file, " ++ dec (Fs.len data) ++ text " bytes)")
      | Err NotAFile => println (text "cat: " ++ p ++ text ": is a directory")
      | Err e => println (text "cat: " ++ p ++ text ": " ++ error_text e)
      end
  end.

(** [Layout::from_size_align(size, 8).unwrap()]: the size, rounded up to the
    alignment, must not exceed [isize::MAX]. *)
Definition layout_of (size : Z) : outcome Layout :=
  if size <=? 2 ^ 63 - 8 then Ret (mkLayout size 8)
  else Crash (Panic "called `Result::unwrap()` on an `Err` value: LayoutError").

Definition cmd_alloc (size_arg : option str) : M (world D) unit :=
  match size_arg ≫= fun s => parse_usize (to_bytes s) with
  | Some size =>
      if 0 <? size then
        layout ← lift (layout_of size);
        ptr ← on_kheap (KernelHeap.alloc rdtsc layout);
        if ptr =? 0 then println (text "alloc: allocation of " ++ dec size ++ text " bytes failed")
        else
          _ ← println (text "alloc: " ++ dec size ++ text " bytes at " ++ hex_prefixed 18 ptr);
          on_kheap (KernelHeap.dealloc rdtsc ptr layout)
      else println (text "alloc: invalid size")
  | None => println (text "alloc: invalid size")
  end.

Definition cmd_uptime : M (world D) unit :=
  w ← get;
  println (text "uptime: " ++ dec (uptime_ticks (kmon (wheap w))) ++ text " ticks").

Definition cmd_clear : M (world D) unit :=
  _ ← on_screen (with_framebuffer_mut clear_screen);
  print_prompt.

Definition cmd_echo (t : str) : M (world D) unit :=
  if Str.is_empty t then println [] else println (to_bytes t).

(** The [match] of [execute]; [parts] are the words after the command. *)
Definition run_command (cmd : str) (parts : list str) : M (world D) unit :=
  if str_eqb cmd (lit "help") then cmd_help
  else if str_eqb cmd (lit "mem") then cmd_mem
  else if str_eqb cmd (lit "trace") then cmd_trace (head parts)
  else if str_eqb cmd (lit "ls") then cmd_ls (head parts)
  else if str_eqb cmd (lit "cat") then cmd_cat (head parts)
  else if str_eqb cmd (lit "alloc") then cmd_alloc (head parts)
  else if str_eqb cmd (lit "uptime") then cmd_uptime
  else if str_eqb cmd (lit "clear") then cmd_clear
  else if str_eqb cmd (lit "echo") then cmd_echo (join parts)
  else if str_eqb cmd [] then mret tt
  else println (text "unknown command: " ++ to_bytes cmd).

(** [&self.buf[..self.pos]] *)
Definition typed (s : Shell) : outcome (list Z) :=
  if pos s <=? Z.of_nat (length (buf s)) then Ret (take (Z.to_nat (pos s)) (buf s))
  else Crash (Panic "range end index out of range for slice").

Definition execute : M (state D) unit :=
  '(s, _) ← get;
  line ← lift (typed s);
  let input := if utf8_ok line then of_bytes line else [] in
  let parts := words (trim input) in
  _ ← on_world (run_command (default [] (head parts)) (tail parts));
  modify (fun '(s, w) => (mkShell (buf s) 0, w)).

Definition handle_key (key : DecodedKey) : M (state D) unit :=
  match key with
  | Unicode c =>
      if c =? 10 then
        _ ← on_world (println []);
        _ ← execute;
        on_world print_prompt
      else if c =? 8 then backspace
      else if is_ascii_graphic c || (c =? 32) then push c
      else mret tt
  | RawKey k => if decide (k = Backspace) then backspace else mret tt
  end.
End commands.

(** ** [shell_task] *)

(** [pc_keyboard]'s decoder: scancodes to key events, key events to keys. *)
Class KeyboardDecoder (KB Ev : Type) := {
  add_byte : Z -> KB -> result (option Ev) unit * KB;
  event_code : Ev -> KeyCode;
  process_keyevent : Ev -> KB -> option DecodedKey * KB;
  is_ctrl : KB -> bool
}.

Section task.
Context {D KB Ev : Type} `{Ports D} `{KeyboardDecoder KB Ev} (rdtsc : Z -> Z).

Definition is_scale_up (c : KeyCode) : bool := bool_decide (c = OemPlus) || bool_decide (c = NumpadAdd).
Definition is_scale_down (c : KeyCode) : bool := bool_decide (c = OemMinus) || bool_decide (c = NumpadSubtract).

(** [framebuffer::scale_up()] and [scale_down()]: false without a screen. *)
Definition rescale (up : bool) : M (world D) bool :=
  r ← on_screen (with_framebuffer_mut (if up then scale_up else scale_down));
  mret (default false r).

(** The branch of a scaling key. *)
Definition handle_scale (up : bool) : M (world D) unit :=
  changed ← rescale up;
  if changed : bool then
    w ← get;
    let factor := default 1 (scale_factor <$> wscreen w) in
    _ ← print (esc ++ text "[33m[scale " ++ dec factor ++ text "x]" ++ esc ++ text "[0m" ++ [10]);
    print_prompt
  else mret tt.

(** The body of the loop, for one scancode. *)
Definition handle_scancode (scancode : Z) : M (KB * state D) unit := fun '(kb, st) =>
  match add_byte scancode kb with
  | (Ok (Some ev), kb) =>
      let code := event_code ev in
      let '(key, kb) := process_keyevent ev kb in
      match key with
      | Some key =>
          let r := if (is_scale_up code || is_scale_down code) && is_ctrl kb
                   then on_world (handle_scale (is_scale_up code)) st
                   else handle_key rdtsc key st in
          match r with Ret (_, st') => Ret (tt, (kb, st')) | Crash f => Crash f end
      | None => Ret (tt, (kb, st))
      end
  | (_, kb) => Ret (tt, (kb, st))
  end.

(** The task from its start: the prompt, then the scancodes as they come. *)
Definition shell_task (scancodes : list Z) (kb : KB) (w : world D) : outcome (KB * state D) :=
  match print_prompt w with
  | Ret (_, w') =>
      match for_each scancodes handle_scancode (kb, (new, w')) with
      | Ret (_, st) => Ret st
      | Crash f => Crash f
      end
  | Crash f => Crash f
  end.
End task.
