(* ===== verification/ShellSpec.v ===== *)
(** * What a shell session does

    The shell against its promise: a line editor whose line is what was typed, and
    commands whose answers go, byte for byte, to the serial line and to the screen,
    without a panic. Over any machine with a 16550 and any sequence of keys. *)

From S2P Require Import Prelude Str Fmt Io Uart UartSpec Framebuffer FramebufferInv FramebufferOps FramebufferSpec.
From S2P Require Import Fs FsInv FsSim FsSpec Monitor Trace Heap Tlsf TlsfInv TlsfSpec KernelHeap Log Shell.
From Stdlib Require Import Ascii.

Section shell.
Context {D : Type} `{Ports D} {latency : nat} `{!Uart16550 D 0x3F8 latency}.
Context (rdtsc : Z -> Z) (lo hi : Z) (A : list (Z * Layout)).
Hypothesis patient : (latency < RETRIES)%nat.
Notation W := (world D).
Implicit Types (w : W).

Definition console_ok (w : W) : Prop :=
  serial_ok (latency := latency) (wserial w) /\
  match wscreen w with Some f => con_ok f | None => True end.

(** [A] is what the rest of the kernel has allocated. *)
Definition world_ok (w : W) : Prop := console_ok w /\ kernel_inv lo hi (wheap w) A.

(** The bytes transmitted so far. *)
Definition output (w : W) : list Z := sent (uview (machine (wserial w))).

(** Printing [out], and nothing else. *)
Definition prints (out : list Z) (w w' : W) : Prop :=
  console_ok w' /\ output w' = output w ++ out /\
  wfs w' = wfs w /\ wheap w' = wheap w /\ wlog w' = wlog w.

Lemma prints_nil w : console_ok w -> prints [] w w.
Proof. intros. unfold prints. by rewrite app_nil_r. Qed.

Lemma prints_trans o1 o2 w1 w2 w3 : prints o1 w1 w2 -> prints o2 w2 w3 -> prints (o1 ++ o2) w1 w3.
Proof.
  intros (_ & H1 & H2 & H3 & H4) (H5 & H6 & H7 & H8 & H9). unfold prints.
  split_and!; [done|by rewrite H6, H1, <- app_assoc|congruence..].
Qed.

Lemma wp_on_serial {X} (c : M (serial D) X) (Q : X -> W -> Prop) w :
  wp c (fun a s => Q a (mkWorld s (wscreen w) (wfs w) (wheap w) (wlog w))) (wserial w) -> wp (on_serial c) Q w.
Proof. unfold wp, on_serial. by destruct (c (wserial w)) as [[? ?]|]. Qed.

Lemma wp_on_screen {X} (c : M (option FrameBufferWriter) X) (Q : X -> W -> Prop) w :
  wp c (fun a s => Q a (mkWorld (wserial w) s (wfs w) (wheap w) (wlog w))) (wscreen w) -> wp (on_screen c) Q w.
Proof. unfold wp, on_screen. by destruct (c (wscreen w)) as [[? ?]|]. Qed.

Lemma wp_on_kheap {X} (c : M kworld X) (Q : X -> W -> Prop) w :
  wp c (fun a h => Q a (mkWorld (wserial w) (wscreen w) (wfs w) h (wlog w))) (wheap w) -> wp (on_kheap c) Q w.
Proof. unfold wp, on_kheap. by destruct (c (wheap w)) as [[? ?]|]. Qed.

(** What a writer operation does to the static. *)
Lemma wp_framebuffer {X} (c : M FrameBufferWriter X) (Q : option X -> option FrameBufferWriter -> Prop) o :
  (match o with Some f => con_ok f | None => True end) -> (o = None -> Q None None) ->
  (forall f, o = Some f -> wp c (fun a f' => Q (Some a) (Some f')) f) ->
  wp (with_framebuffer_mut c) Q o.
Proof.
  intros Hok Hn Hs. unfold wp, with_framebuffer_mut. destruct o as [f|]; [|by apply Hn].
  specialize (Hs f eq_refl). unfold wp in Hs. by destruct (c f) as [[? ?]|].
Qed.

Lemma screen_print_ok s o : (match o with Some f => con_ok f | None => True end) ->
  wp (screen_print s) (fun _ o' => match o' with Some f => con_ok f | None => True end) o.
Proof.
  intros Ho. apply wp_bind, wp_framebuffer; [done|done|]. intros f ->.
  eapply wp_mono; [by apply write_string_ok|]. by intros [] f' [Hf _].
Qed.

Lemma print_wp s w : console_ok w -> wp (print s) (fun _ w' => prints s w w') w.
Proof.
  intros [Hs Ho]. unfold print. apply wp_bind, wp_on_serial.
  eapply wp_mono; [apply print_ok; [exact patient|exact Hs]|]. intros [] s' (Hs' & _ & Hse).
  apply wp_on_screen. eapply wp_mono; [by apply screen_print_ok|]. intros [] o' Ho'.
  unfold prints, output. cbn [wserial wscreen wfs wheap wlog]. split; [done|]. split; [|done].
  rewrite Hse. simpl. by rewrite app_nil_r.
Qed.

Lemma println_wp s w : console_ok w -> wp (println s) (fun _ w' => prints (s ++ [10]) w w') w.
Proof. apply print_wp. Qed.

(** The lines, each with its line feed. *)
Definition unlines (ls : list (list Z)) : list Z := concat ((fun l => l ++ [10]) <$> ls).

Lemma print_lines_wp {X} (f : X -> list Z) (xs : list X) : forall w, console_ok w ->
  wp (for_each xs (fun x => println (f x))) (fun _ w' => prints (unlines (f <$> xs)) w w') w.
Proof.
  induction xs as [|x xs IH]; intros w Hw.
  - by apply wp_ret, prints_nil.
  - apply wp_bind. eapply wp_mono; [by apply println_wp|]. intros [] w1 H1.
    eapply wp_mono; [apply IH, H1|]. intros [] w2 H2. by eapply (prints_trans (f x ++ [10])).
Qed.

(** ** The commands *)

Definition prompt : list Z := esc ++ text "[32m$ " ++ esc ++ text "[0m".

Definition help_text : list Z :=
  text "commands: help, mem, trace [n], ls <path>, cat <path>, alloc <n>, uptime, clear, echo <text>".

(** The answer of [ls]: the entries in order, or the size of a file. *)
Definition ls_answer (fs : FileSystem) (path : str) : list Z :=
  match list_dir fs path with
  | Ok names => unlines ((to_bytes path ++ text " (" ++ dec (Fs.len names) ++ text " entries):")
                         :: ((fun n => text "  " ++ to_bytes n) <$> names))
  | Err NotADirectory =>
      match read_file fs path with
      | Ok data => unlines [to_bytes path ++ text " (file, " ++ dec (Fs.len data) ++ text " bytes)"]
      | Err _ => unlines [text "ls: " ++ to_bytes path ++ text ": not found"]
      end
  | Err e => unlines [text "ls: " ++ to_bytes path ++ text ": " ++ error_text e]
  end.

(** The answer of [cat]: the file's bytes when they are text. *)
Definition cat_answer (fs : FileSystem) (path : str) : list Z :=
  match read_file fs path with
  | Ok data => if utf8_ok data then data else unlines [text "(binary file, " ++ dec (Fs.len data) ++ text " bytes)"]
  | Err NotAFile => unlines [text "cat: " ++ to_bytes path ++ text ": is a directory"]
  | Err e => unlines [text "cat: " ++ to_bytes path ++ text ": " ++ error_text e]
  end.

(** The commands whose answer is a function of the file system and of what was
    typed. *)
Definition answer (fs : FileSystem) (cmd : str) (args : list str) : option (list Z) :=
  if decide (cmd = lit "help") then Some (unlines [help_text])
  else if decide (cmd ∈ [lit "mem"; lit "trace"; lit "alloc"; lit "uptime"; lit "clear"]) then None
  else if decide (cmd = lit "ls") then Some (ls_answer fs (default (lit "/") (head args)))
  else if decide (cmd = lit "cat") then
    Some (match head args with Some p => cat_answer fs p | None => unlines [text "cat: missing path"] end)
  else if decide (cmd = lit "echo") then Some (unlines [to_bytes (join args)])
  else if decide (cmd = []) then Some []
  else Some (unlines [text "unknown command: " ++ to_bytes cmd]).

(** Requests the heap is specified for. *)
Definition sane (cmd : str) (args : list str) : Prop :=
  cmd = lit "alloc" -> forall a n, head args = Some a -> parse_usize (to_bytes a) = Some n -> n <= 2 ^ 56.

(** What any command leaves alone. *)
Definition answers (fs : FileSystem) (w w' : W) : Prop :=
  world_ok w' /\ wfs w' = fs /\ wlog w' = wlog w /\ exists out, output w' = output w ++ out.

Lemma prints_world out w w' : world_ok w -> prints out w w' -> world_ok w'.
Proof. intros [_ Hk] (Hc & _ & _ & Hh & _). split; [done|by rewrite Hh]. Qed.

Lemma prints_answers out w w' : world_ok w -> prints out w w' -> answers (wfs w) w w'.
Proof.
  intros Hw Hp. pose proof (prints_world _ _ _ Hw Hp). destruct Hp as (_ & H2 & H3 & _ & H5).
  split_and!; [done..|by exists out].
Qed.

(** *** Logging *)

Definition logs (s s' : serial D) : Prop :=
  serial_ok (latency := latency) s' /\ exists out, sent (uview (machine s')) = sent (uview (machine s)) ++ out.

Lemma logs_refl s : serial_ok (latency := latency) s -> logs s s.
Proof. intros. split; [done|]. exists []. by rewrite app_nil_r. Qed.

Lemma logs_trans s1 s2 s3 : logs s1 s2 -> logs s2 s3 -> logs s1 s3.
Proof. intros [_ [o1 H1]] [Hs [o2 H2]]. split; [done|]. exists (o1 ++ o2). by rewrite H2, H1, <- app_assoc. Qed.

Lemma log_macro_ok lg l t args s : serial_ok (latency := latency) s -> wp (log_macro lg l t args) (fun _ s' => logs s s') s.
Proof.
  intros Hs. unfold log_macro, log. case_match; [|by apply wp_ret, logs_refl].
  case_match; [by apply wp_ret, logs_refl|].
  eapply wp_mono; [apply print_ok; [exact patient|exact Hs]|]. intros [] s' (Hs' & _ & Hse). split; [done|by eexists].
Qed.

Lemma log_each_ok {X} (f : X -> list Z) lg l t xs : forall s, serial_ok (latency := latency) s ->
  wp (for_each xs (fun x => log_macro lg l t (f x))) (fun _ s' => logs s s') s.
Proof.
  induction xs as [|x xs IH]; intros s Hs; [by apply wp_ret, logs_refl|].
  apply wp_bind. eapply wp_mono; [by apply log_macro_ok|]. intros [] s1 H1.
  eapply wp_mono; [apply IH, H1|]. intros [] s2 H2. by eapply logs_trans.
Qed.

Lemma dump_from_returns t n : forall i, length (entries t) = Z.to_nat BUFFER_SIZE ->
  returns (dump_from t n i) (fun _ => True).
Proof.
  induction n as [|n IH]; intros i Hl; [done|]. cbn [dump_from].
  pose proof (Z.mod_pos_bound i BUFFER_SIZE ltac:(done)) as Hi.
  destruct (lookup_lt_is_Some_2 (entries t) (Z.to_nat (i mod BUFFER_SIZE))) as [e He]; [rewrite Hl; lia|].
  apply returns_bind, (returns_index _ _ e); [lia|done|]. apply returns_bind.
  destruct (returns_elim _ _ (IH (i + 1) Hl)) as (ls & -> & _). done.
Qed.

Lemma dump_trace_ok lg t n s : serial_ok (latency := latency) s -> length (entries t) = Z.to_nat BUFFER_SIZE ->
  wp (dump_trace lg t n) (fun _ s' => logs s s') s.
Proof.
  intros Hs Hl. unfold dump_trace, dump_last. apply wp_bind, wp_lift, returns_bind.
  destruct (returns_elim _ _ (dump_from_returns t (Z.to_nat (write_idx t - saturating_sub (write_idx t) n)) (saturating_sub (write_idx t) n) Hl)) as (ls & -> & _).
  apply returns_ret, returns_ret, wp_bind. eapply wp_mono; [by apply log_macro_ok|]. intros [] s1 H1.
  eapply wp_mono; [apply log_each_ok, H1|]. intros [] s2 H2. by eapply logs_trans.
Qed.

(** *** One command *)

Lemma answers_trans w1 w2 w3 : answers (wfs w1) w1 w2 -> answers (wfs w2) w2 w3 -> answers (wfs w1) w1 w3.
Proof.
  intros (_ & H2 & H3 & o1 & H4) (H5 & H6 & H7 & o2 & H8). split_and!; [done|congruence|congruence|].
  exists (o1 ++ o2). by rewrite H8, H4, <- app_assoc.
Qed.

Lemma answer_println s w : world_ok w -> wp (println s) (fun _ w' => answers (wfs w) w w') w.
Proof. intros Hw. eapply wp_mono; [apply println_wp, Hw|]. intros [] w'. by apply prints_answers. Qed.

Lemma cmd_mem_ok w : world_ok w -> wp cmd_mem (fun _ w' => answers (wfs w) w w') w.
Proof.
  intros Hw. unfold cmd_mem. apply wp_bind, wp_get.
  eapply wp_mono; [apply (print_lines_wp (fun l => l)), Hw|]. intros [] w'. by apply prints_answers.
Qed.

Lemma cmd_trace_ok arg w : world_ok w -> wp (cmd_trace arg) (fun _ w' => answers (wfs w) w w') w.
Proof.
  intros Hw. unfold cmd_trace. apply wp_bind. eapply wp_mono; [by apply answer_println|].
  intros [] w1 H1. pose proof H1 as [[[Hs Ho] Hk] _]. apply wp_bind, wp_get, wp_on_serial.
  eapply wp_mono; [apply dump_trace_ok; [done|apply Hk]|]. intros [] s' [Hs' [out Hout]].
  eapply answers_trans; [done|]. unfold answers, world_ok, console_ok, output. cbn [wserial wscreen wfs wheap wlog].
  split_and!; try done. by exists out.
Qed.

Lemma cmd_alloc_ok arg w : world_ok w ->
  (forall a n, arg = Some a -> parse_usize (to_bytes a) = Some n -> n <= 2 ^ 56) ->
  wp (cmd_alloc rdtsc arg) (fun _ w' => answers (wfs w) w w') w.
Proof.
  intros Hw Hn. unfold cmd_alloc. destruct arg as [a|]; cbn [mbind option_bind]; [|by apply answer_println].
  destruct (parse_usize (to_bytes a)) as [n|] eqn:En; [|by apply answer_println].
  specialize (Hn a n eq_refl En). case_test Hp; [|by apply answer_println].
  unfold layout_of. rewrite (proj2 (Z.leb_le n _)) by lia. apply wp_bind, wp_lift, returns_ret.
  destruct Hw as [Hc Hk]. apply wp_bind, wp_on_kheap.
  assert (Hl : small_align (mkLayout n 8)). { split; [simpl; lia|]. exists 3. simpl. lia. }
  eapply wp_mono; [by apply (kernel_alloc_wp rdtsc lo hi)|]. intros p k' [(-> & Hk' & _)|[Hp0 Hk']].
  - rewrite Z.eqb_refl. eapply wp_mono; [by apply answer_println|]. intros [] w' Ha. exact Ha.
  - rewrite (proj2 (Z.eqb_neq p 0)) by done. apply wp_bind. eapply wp_mono; [by apply println_wp|].
    intros [] w1 (Hc1 & Ho1 & Hf1 & Hh1 & Hg1). apply wp_on_kheap. rewrite Hh1. cbn [wheap] in *.
    eapply wp_mono; [by apply (kernel_dealloc_wp rdtsc lo hi k' [] p)|]. intros [] k2 Hk2.
    unfold answers, world_ok, output in *. cbn [wserial wscreen wfs wheap wlog] in *.
    split_and!; [done|done|done|done|]. by eexists.
Qed.

Lemma screen_op_ok {X} (c : M FrameBufferWriter X) w : (forall f, con_ok f -> wp c (fun _ f' => con_ok f') f) ->
  console_ok w -> wp (on_screen (with_framebuffer_mut c)) (fun _ w' => prints [] w w') w.
Proof.
  intros Hc [Hs Ho]. apply wp_on_screen, wp_framebuffer; [done| |].
  - intros E. unfold prints, console_ok, output. cbn [wserial wscreen wfs wheap wlog]. by rewrite app_nil_r.
  - intros f E. rewrite E in Ho. eapply wp_mono; [by apply Hc|]. intros x f' Hf.
    unfold prints, console_ok, output. cbn [wserial wscreen wfs wheap wlog]. by rewrite app_nil_r.
Qed.

Lemma clear_keeps f : con_ok f -> wp clear_screen (fun _ f' => con_ok f') f.
Proof. intros Hf. eapply wp_mono; [exact (perform_ok Clear f Hf)|]. by intros [] f' [? _]. Qed.

Lemma cmd_clear_ok w : world_ok w -> wp cmd_clear (fun _ w' => answers (wfs w) w w') w.
Proof.
  intros Hw. unfold cmd_clear. apply wp_bind. eapply wp_mono; [apply screen_op_ok; [exact clear_keeps|apply Hw]|].
  intros ? w1 H1. eapply wp_mono; [apply print_wp, H1|]. intros [] w2 H2.
  apply (prints_answers ([] ++ prompt)); [done|].
  exact (prints_trans _ _ _ _ _ H1 H2).
Qed.

(** The commands answered by the file system. *)
Lemma cmd_ls_ok path w : world_ok w ->
  wp (cmd_ls path) (fun _ w' => prints (ls_answer (wfs w) (default (lit "/") path)) w w') w.
Proof.
  intros [Hc _]. unfold cmd_ls, ls_answer. apply wp_bind, wp_get. set (p := default (lit "/") path).
  destruct (list_dir (wfs w) p) as [names|e].
  - apply wp_bind. eapply wp_mono; [by apply println_wp|]. intros [] w1 H1.
    eapply wp_mono; [apply (print_lines_wp (fun n => text "  " ++ to_bytes n)), H1|]. intros [] w2 H2.
    exact (prints_trans _ _ _ _ _ H1 H2).
  - destruct e; try destruct (read_file (wfs w) p);
      (eapply wp_mono; [by apply println_wp|]); intros [] w1 H1; unfold unlines; simpl; by rewrite app_nil_r.
Qed.

Lemma cmd_cat_ok path w : world_ok w ->
  wp (cmd_cat (Some path)) (fun _ w' => prints (cat_answer (wfs w) path) w w') w.
Proof.
  intros [Hc _]. unfold cmd_cat, cat_answer. apply wp_bind, wp_get.
  destruct (read_file (wfs w) path) as [data|e].
  - destruct (utf8_ok data); [by apply print_wp|].
    eapply wp_mono; [by apply println_wp|]. intros [] w1 H1. unfold unlines. simpl. by rewrite app_nil_r.
  - destruct e; (eapply wp_mono; [by apply println_wp|]); intros [] w1 H1; unfold unlines; simpl; by rewrite app_nil_r.
Qed.

Lemma println_one s w : world_ok w -> wp (println s) (fun _ w' => prints (unlines [s]) w w') w.
Proof.
  intros [Hc _]. eapply wp_mono; [by apply println_wp|]. intros [] w1 H1. unfold unlines. simpl. by rewrite app_nil_r.
Qed.

Definition command_post (cmd : str) (args : list str) (w w' : W) : Prop :=
  answers (wfs w) w w' /\
  match answer (wfs w) cmd args with Some out => prints out w w' | None => True end.

Lemma post_answer cmd args out w w' : world_ok w -> answer (wfs w) cmd args = Some out ->
  prints out w w' -> command_post cmd args w w'.
Proof. intros Hw Ha Hp. split; [by eapply prints_answers|]. by rewrite Ha. Qed.

Lemma post_state cmd args w w' : answer (wfs w) cmd args = None -> answers (wfs w) w w' -> command_post cmd args w w'.
Proof. intros Ha Hs. split; [done|]. by rewrite Ha. Qed.

Lemma run_command_ok cmd args w : world_ok w -> sane cmd args ->
  wp (run_command rdtsc cmd args) (fun _ w' => command_post cmd args w w') w.
Proof.
  intros Hw Hsane. unfold run_command, str_eqb.
  repeat match goal with |- context [bool_decide (cmd = ?x)] =>
    destruct (decide (cmd = x)) as [->|?]; [rewrite (bool_decide_eq_true_2 (x = x)) by done | rewrite bool_decide_eq_false_2 by done]
  end.
  - eapply wp_mono; [by apply println_one|]. intros [] w'. by apply post_answer.
  - eapply wp_mono; [by apply cmd_mem_ok|]. intros [] w'. by apply post_state.
  - eapply wp_mono; [by apply cmd_trace_ok|]. intros [] w'. by apply post_state.
  - eapply wp_mono; [by apply cmd_ls_ok|]. intros [] w'. by apply post_answer.
  - destruct (head args) as [p|] eqn:E.
    + eapply wp_mono; [by apply cmd_cat_ok|]. intros [] w'. apply post_answer; [done|]. unfold answer. simpl. by rewrite E.
    + eapply wp_mono; [by apply println_one|]. intros [] w'. apply post_answer; [done|]. unfold answer. simpl. by rewrite E.
  - eapply wp_mono; [apply cmd_alloc_ok; [done|]|].
    + intros a v Ha. by apply (Hsane eq_refl).
    + intros [] w'. by apply post_state.
  - unfold cmd_uptime. apply wp_bind, wp_get. eapply wp_mono; [by apply answer_println|]. intros [] w'. by apply post_state.
  - eapply wp_mono; [by apply cmd_clear_ok|]. intros [] w'. by apply post_state.
  - unfold cmd_echo. destruct (Str.is_empty (join args)) eqn:E.
    + destruct (join args) eqn:Ej; [|done]. eapply wp_mono; [by apply println_one|]. intros [] w'.
      apply post_answer; [done|]. unfold answer. simpl. by rewrite Ej.
    + eapply wp_mono; [by apply println_one|]. intros [] w'. by apply post_answer.
  - apply wp_ret. apply (post_answer _ _ []); [done|done|apply prints_nil, Hw].
  - eapply wp_mono; [by apply println_one|]. intros [] w'. apply post_answer; [done|].
    unfold answer. rewrite !decide_False; [done|try done..]. set_solver.
Qed.

(** ** The line editor *)

Definition printable (c : Z) : bool := is_ascii_graphic c || (c =? 32).

Inductive key_class := Enter | Erase | Char (c : Z) | Ignored.

Definition classify (k : DecodedKey) : key_class :=
  match k with
  | Unicode c => if c =? 10 then Enter else if c =? 8 then Erase else if printable c then Char c else Ignored
  | RawKey Backspace => Erase
  | RawKey _ => Ignored
  end.

(** The line after a key: at most 256 characters, and empty after Enter. *)
Definition edit (line : list Z) (k : DecodedKey) : list Z :=
  match classify k with
  | Enter => []
  | Erase => removelast line
  | Char c => if decide (length line < 256)%nat then line ++ [c] else line
  | Ignored => line
  end.

Definition parts (line : list Z) : list str := words (of_bytes line).

(** What a key makes the shell print, where that is determined by the file system
    and the line: the echo, or the answer between a line feed and a prompt. *)
Definition reply (fs : FileSystem) (line : list Z) (k : DecodedKey) : option (list Z) :=
  match classify k with
  | Enter =>
      a ← answer fs (default [] (head (parts line))) (tail (parts line));
      Some ([10] ++ a ++ prompt)
  | Erase => Some (if decide (line = []) then [] else [8; 32; 8])
  | Char c => Some (if decide (length line < 256)%nat then [c] else [])
  | Ignored => Some []
  end.

(** The shell's buffer holds [line]. *)
Definition holds_line (s : Shell) (line : list Z) : Prop :=
  length (buf s) = 256%nat /\ pos s = Z.of_nat (length line) /\ (length line <= 256)%nat /\
  take (length line) (buf s) = line /\ Forall (fun c => printable c = true) line.

Lemma printable_range c : printable c = true -> 32 <= c <= 126.
Proof. unfold printable, is_ascii_graphic. lia. Qed.

Lemma line_utf8 line : Forall (fun c => printable c = true) line -> utf8_ok line = true.
Proof.
  intros Hl. apply ascii_utf8. eapply Forall_impl; [exact Hl|]. intros c Hc%printable_range. simpl. lia.
Qed.

Lemma removelast_take {X} (l : list X) : removelast l = take (length l - 1) l.
Proof.
  induction l as [|x [|y l] IH]; [done|done|]. change (removelast (x :: y :: l)) with (x :: removelast (y :: l)).
  rewrite IH. simpl. by rewrite Nat.sub_0_r.
Qed.

Definition key_post (fs : FileSystem) (line : list Z) (k : DecodedKey) (w : W) (st : Shell * W) : Prop :=
  holds_line st.1 (edit line k) /\ answers fs w st.2 /\
  match reply fs line k with Some out => prints out w st.2 | None => True end.

Lemma wp_on_world {X} (c : M W X) (Q : X -> Shell * W -> Prop) s w :
  wp c (fun a w' => Q a (s, w')) w -> wp (on_world c) Q (s, w).
Proof. unfold wp, on_world. by destruct (c w) as [[? ?]|]. Qed.

Lemma shell_push_ok c s w line : printable c = true -> holds_line s line -> world_ok w ->
  wp (push c) (fun _ st => holds_line st.1 (if decide (length line < 256)%nat then line ++ [c] else line) /\
    prints (if decide (length line < 256)%nat then [c] else []) w st.2) (s, w).
Proof.
  intros Hc (Hb & Hp & Hle & Ht & Hf) Hw. unfold push. apply wp_bind, wp_get. rewrite Hp, Hb.
  destruct (decide (length line < 256)%nat) as [Hl|Hl].
  - rewrite (proj2 (Z.ltb_lt _ _)) by lia. apply wp_bind, wp_lift, returns_store_index; [lia|].
    apply wp_bind, wp_modify, wp_on_world. eapply wp_mono; [apply print_wp, Hw|]. intros [] w' Hpr. split; [|done].
    unfold holds_line. simpl. rewrite length_insert, length_app, Nat2Z.id. simpl.
    split_and!; [done|lia|lia| |].
    + rewrite Nat.add_1_r, (take_S_r _ _ c) by (apply list_lookup_insert_eq; lia).
      by rewrite take_insert_ge, Ht by lia.
    + apply Forall_app. split; [done|]. by constructor.
  - rewrite (proj2 (Z.ltb_ge _ _)) by lia. apply wp_ret. split; [by split_and!|apply prints_nil, Hw].
Qed.

Lemma backspace_ok s w line : holds_line s line -> world_ok w ->
  wp backspace (fun _ st => holds_line st.1 (removelast line) /\
    prints (if decide (line = []) then [] else [8; 32; 8]) w st.2) (s, w).
Proof.
  intros (Hb & Hp & Hle & Ht & Hf) Hw. unfold backspace. apply wp_bind, wp_get. rewrite Hp.
  destruct (decide (line = [])) as [->|Hne].
  - apply wp_ret. split; [by split_and!|apply prints_nil, Hw].
  - assert (length line <> 0%nat) by (by intros ?%length_zero_iff_nil).
    rewrite (proj2 (Z.ltb_lt _ _)) by lia. apply wp_bind, wp_modify, wp_on_world.
    eapply wp_mono; [apply print_wp, Hw|]. intros [] w' Hpr. split; [|done].
    rewrite removelast_take. unfold holds_line. simpl. rewrite length_take. split_and!; [done|lia|lia| |by apply Forall_take].
    replace (take (length line - 1) line) with (take (length line - 1) (take (length line) (buf s))) by by rewrite Ht.
    by rewrite take_take.
Qed.

Lemma execute_ok s w line : holds_line s line -> world_ok w ->
  sane (default [] (head (parts line))) (tail (parts line)) ->
  wp (execute rdtsc) (fun _ st => holds_line st.1 [] /\
    command_post (default [] (head (parts line))) (tail (parts line)) w st.2) (s, w).
Proof.
  intros (Hb & Hp & Hle & Ht & Hf) Hw Hs. unfold execute. apply wp_bind, wp_get. apply wp_bind, wp_lift.
  unfold typed. rewrite (proj2 (Z.leb_le _ _)) by lia. apply returns_ret. rewrite Hp, Nat2Z.id, Ht, line_utf8, words_trim by done.
  apply wp_bind, wp_on_world. eapply wp_mono; [by apply run_command_ok|]. intros [] w' Hc.
  apply wp_modify. split; [|done]. by split_and!; simpl; [|lia|lia|..].
Qed.

(** The commands typed so far are within what the heap is specified for. *)
Definition sane_key (line : list Z) (k : DecodedKey) : Prop :=
  classify k = Enter -> sane (default [] (head (parts line))) (tail (parts line)).

Lemma handle_key_ok k s w line : holds_line s line -> world_ok w -> sane_key line k ->
  wp (handle_key rdtsc k) (fun _ st => key_post (wfs w) line k w st) (s, w).
Proof.
  intros Hl Hw Hs. unfold key_post, edit, reply, sane_key in *.
  assert (Hh : handle_key rdtsc k = match classify k with
    | Enter => _ ← on_world (println []); _ ← execute rdtsc; on_world print_prompt
    | Erase => backspace | Char c => push c | Ignored => mret tt end).
  { destruct k as [c|k]; simpl; unfold printable; repeat case_match; try done; destruct k; done. }
  rewrite Hh. destruct (classify k) eqn:Ek.
  - specialize (Hs eq_refl). apply wp_bind, wp_on_world. eapply wp_mono; [apply println_wp, Hw|]. intros [] w1 H1.
    pose proof (prints_world _ _ _ Hw H1) as Hw1. apply wp_bind. eapply wp_mono; [by apply execute_ok|].
    intros [] [s2 w2] [Hl2 [Ha2 Hr2]]. simpl in *. apply wp_on_world.
    eapply wp_mono; [apply print_wp, Ha2|]. intros [] w3 H3. cbn [fst snd].
    pose proof H1 as (_ & _ & Hfs & _ & _). split; [done|]. split.
    + eapply answers_trans; [by eapply prints_answers|]. eapply answers_trans; [exact Ha2|]. eapply prints_answers; [apply Ha2|done].
    + rewrite Hfs in Hr2. destruct (answer _ _ _) as [out|]; [|done]. cbn [mbind option_bind].
      exact (prints_trans [10] (out ++ prompt) _ _ _ H1 (prints_trans _ _ _ _ _ Hr2 H3)).
  - eapply wp_mono; [by apply backspace_ok|]. intros [] st [Hl' Hp]. split_and!; [done|by eapply prints_answers|done].
  - assert (printable c = true) as Hc.
    { destruct k as [x|x]; simpl in Ek; [|by destruct x]. repeat case_match; congruence. }
    eapply wp_mono; [by apply shell_push_ok|]. intros [] st [Hl' Hp]. split_and!; [done|by eapply prints_answers|done].
  - apply wp_ret. assert (prints [] w w) by apply prints_nil, Hw. split_and!; [done|by eapply prints_answers|done].
Qed.

(** ** Sessions *)

(** What a scancode leads to: a key for the shell, or a change of scale. *)
Inductive action := Key (k : DecodedKey) | Scale (up : bool).

Definition run_action (a : action) : M (Shell * W) unit :=
  match a with Key k => handle_key rdtsc k | Scale up => on_world (handle_scale up) end.

Definition edit_action (line : list Z) (a : action) : list Z :=
  match a with Key k => edit line k | Scale _ => line end.

(** The line after a sequence of actions. *)
Definition line_after (line : list Z) (acts : list action) : list Z := fold_left edit_action acts line.

Fixpoint sane_session (line : list Z) (acts : list action) : Prop :=
  match acts with
  | [] => True
  | a :: acts' =>
      match a with Key k => sane_key line k | Scale _ => True end /\ sane_session (edit_action line a) acts'
  end.

(** No line executed is an [alloc]: a sufficient test. *)
Fixpoint no_alloc (line : list Z) (acts : list action) : bool :=
  match acts with
  | [] => true
  | a :: acts' =>
      match a with
      | Key k =>
          match classify k with
          | Enter => negb (bool_decide (default [] (head (parts line)) = lit "alloc"))
          | _ => true
          end
      | Scale _ => true
      end && no_alloc (edit_action line a) acts'
  end.

Lemma no_alloc_sane acts : forall line, no_alloc line acts = true -> sane_session line acts.
Proof.
  induction acts as [|a acts IH]; intros line Hn; [done|]. apply andb_true_iff in Hn as [Ha Hn].
  split; [|by apply IH]. destruct a as [k|]; [|done]. intros He. rewrite He in Ha.
  apply negb_true_iff, bool_decide_eq_false in Ha. by intros Hc.
Qed.

(** What is printed in a session of commands answered by the file system. *)
Fixpoint transcript (fs : FileSystem) (line : list Z) (acts : list action) : option (list Z) :=
  match acts with
  | [] => Some []
  | a :: acts' =>
      r ← match a with Key k => reply fs line k | Scale _ => None end;
      rest ← transcript fs (edit_action line a) acts';
      Some (r ++ rest)
  end.

Definition session_post (line : list Z) (acts : list action) (w : W) (st : Shell * W) : Prop :=
  holds_line st.1 (line_after line acts) /\ answers (wfs w) w st.2 /\
  match transcript (wfs w) line acts with Some out => prints out w st.2 | None => True end.

Lemma rescale_keeps (up : bool) f : con_ok f ->
  wp (if up then scale_up else scale_down) (fun _ f' => con_ok f') f.
Proof.
  intros Hf. destruct up.
  - eapply wp_mono; [exact (wp_unbind _ _ _ _ (perform_ok ScaleUp f Hf))|]. by intros b f' [Hf' _].
  - eapply wp_mono; [exact (wp_unbind _ _ _ _ (perform_ok ScaleDown f Hf))|]. by intros b f' [Hf' _].
Qed.

Lemma handle_scale_ok up w : world_ok w -> wp (handle_scale up) (fun _ w' => answers (wfs w) w w') w.
Proof.
  intros Hw. unfold handle_scale, rescale. apply wp_bind, wp_bind.
  eapply wp_mono; [apply screen_op_ok; [apply rescale_keeps|apply Hw]|]. intros r w1 H1. apply wp_ret.
  destruct (default false r); [|apply wp_ret; exact (prints_answers _ _ _ Hw H1)].
  apply wp_bind, wp_get, wp_bind. eapply wp_mono; [apply print_wp, H1|]. intros [] w2 H2.
  eapply wp_mono; [apply print_wp, H2|]. intros [] w3 H3.
  eapply prints_answers; [done|]. exact (prints_trans _ _ _ _ _ H1 (prints_trans _ _ _ _ _ H2 H3)).
Qed.

Lemma run_action_ok a s w line : holds_line s line -> world_ok w ->
  (match a with Key k => sane_key line k | Scale _ => True end) ->
  wp (run_action a) (fun _ st => holds_line st.1 (edit_action line a) /\ answers (wfs w) w st.2 /\
    match match a with Key k => reply (wfs w) line k | Scale _ => None end with
    | Some out => prints out w st.2 | None => True end) (s, w).
Proof.
  intros Hl Hw Hs. destruct a as [k|up]; [by apply handle_key_ok|]. apply wp_on_world.
  eapply wp_mono; [by apply handle_scale_ok|]. by intros [] w' Ha.
Qed.

Lemma session_ok acts : forall s w line, holds_line s line -> world_ok w -> sane_session line acts ->
  wp (for_each acts run_action) (fun _ st => session_post line acts w st) (s, w).
Proof.
  induction acts as [|a acts IH]; intros s w line Hl Hw Hs.
  - apply wp_ret. assert (prints [] w w) by apply prints_nil, Hw. split_and!; [done|by eapply prints_answers|done].
  - destruct Hs as [Hk Hs]. apply wp_bind. eapply wp_mono; [by apply run_action_ok|].
    intros [] [s1 w1] (Hl1 & Ha1 & Hr1). cbn [fst snd] in *.
    eapply wp_mono; [apply IH; [done|apply Ha1|done]|]. intros [] st (Hl2 & Ha2 & Ht2).
    pose proof Ha1 as (_ & Hfs & _). rewrite Hfs in Ht2. split; [done|]. split; [by eapply answers_trans|].
    cbn [transcript]. destruct (match a with Key k => reply (wfs w) line k | Scale _ => None end) as [o1|]; [|done].
    cbn [mbind option_bind]. destruct (transcript (wfs w) (edit_action line a) acts) as [o2|]; [|done].
    by eapply prints_trans.
Qed.

Lemma holds_new : holds_line new [].
Proof. clear patient. split_and!; [done|done|simpl; lia|done|constructor]. Qed.

(** *** From scancodes to actions *)

Section decoding.
Context {KB Ev : Type} `{!KeyboardDecoder KB Ev}.

Definition decode1 (scancode : Z) (kb : KB) : option action * KB :=
  match add_byte scancode kb with
  | (Ok (Some ev), kb) =>
      let '(key, kb) := process_keyevent ev kb in
      (key ≫= fun key =>
         Some (if (is_scale_up (event_code ev) || is_scale_down (event_code ev)) && is_ctrl kb
               then Scale (is_scale_up (event_code ev)) else Key key), kb)
  | (_, kb) => (None, kb)
  end.

Fixpoint decode (scancodes : list Z) (kb : KB) : list action * KB :=
  match scancodes with
  | [] => ([], kb)
  | sc :: scs =>
      let '(a, kb) := decode1 sc kb in
      let '(acts, kb) := decode scs kb in
      (match a with Some a => a :: acts | None => acts end, kb)
  end.

Lemma handle_scancode_decode sc kb st : handle_scancode rdtsc sc (kb, st) =
  match decode1 sc kb with
  | (Some a, kb') => match run_action a st with Ret (_, st') => Ret (tt, (kb', st')) | Crash f => Crash f end
  | (None, kb') => Ret (tt, (kb', st))
  end.
Proof.
  unfold handle_scancode, decode1. destruct (add_byte sc kb) as [[[ev|]|e] kb1]; [|done|done].
  destruct (process_keyevent ev kb1) as [[key|] kb2]; [|done]. cbn [mbind option_bind].
  by destruct ((is_scale_up (event_code ev) || is_scale_down (event_code ev)) && is_ctrl kb2).
Qed.

Lemma scancodes_decode scs : forall kb st, for_each scs (handle_scancode rdtsc) (kb, st) =
  match for_each (decode scs kb).1 run_action st with
  | Ret (_, st') => Ret (tt, ((decode scs kb).2, st'))
  | Crash f => Crash f
  end.
Proof.
  induction scs as [|sc scs IH]; intros kb st; [done|]. cbn [for_each decode]. unfold mbind, M_bind.
  rewrite handle_scancode_decode. destruct (decode1 sc kb) as [[a|] kb1].
  - destruct (decode scs kb1) as [acts kb2] eqn:E. cbn [fst snd for_each]. unfold mbind, M_bind.
    destruct (run_action a st) as [[[] st1]|]; [|done]. rewrite IH, E. done.
  - rewrite IH. by destruct (decode scs kb1).
Qed.

Lemma shell_task_ok scancodes kb w : world_ok w -> sane_session [] (decode scancodes kb).1 ->
  exists w1 s' w', shell_task rdtsc scancodes kb w = Ret ((decode scancodes kb).2, (s', w')) /\
    prints prompt w w1 /\ session_post [] (decode scancodes kb).1 w1 (s', w').
Proof.
  intros Hw Hs. destruct (wp_elim _ _ _ (print_wp prompt w (proj1 Hw))) as ([] & w1 & Hp & H1).
  pose proof (prints_world _ _ _ Hw H1) as Hw1.
  destruct (wp_elim _ _ _ (session_ok _ new w1 [] holds_new Hw1 Hs)) as ([] & [s' w'] & Hr & Hpost).
  exists w1, s', w'. split; [|done]. unfold shell_task, print_prompt. unfold prompt in Hp.
  by rewrite Hp, scancodes_decode, Hr.
Qed.

(** C9: the shell task is a line editor in front of the file system: from a world in
    order, whatever the keyboard decoder makes of whatever scancodes arrive, as long as no
    command line among them is an [alloc] of more than [2^56] bytes (which panics), every
    scancode is handled without a panic; the buffer then holds
    the line as typed and edited, of at most 256 characters; the file system is
    untouched, the heap holds exactly the allocations it held, and the screen and the
    serial line stay in order. While the commands are those the file system alone
    answers, the bytes transmitted are exactly the prompt, the echo of the keys, and the
    answers, each after a line feed and before a prompt. *)
Theorem shell_session scancodes kb w :
  world_ok w -> sane_session [] (decode scancodes kb).1 ->
  exists s' w', shell_task rdtsc scancodes kb w = Ret ((decode scancodes kb).2, (s', w')) /\
    holds_line s' (line_after [] (decode scancodes kb).1) /\ world_ok w' /\ wfs w' = wfs w /\
    (forall out, transcript (wfs w) [] (decode scancodes kb).1 = Some out -> output w' = output w ++ prompt ++ out).
Proof.
  intros Hw Hs. destruct (shell_task_ok scancodes kb w Hw Hs) as
    (w1 & s' & w' & Hr & (_ & Ho1 & Hf1 & _) & Hl & (Hw' & Hfs & _) & Ht).
  exists s', w'. cbn [fst snd] in *. split_and!; [done|done|done|congruence|].
  intros out Hout. rewrite Hf1, Hout in Ht. destruct Ht as (_ & Ho & _). by rewrite Ho, Ho1, <- app_assoc.
Qed.
End decoding.

End shell.

(** ** Typing a command *)

(** The keys that type a text. *)
Definition type_text (s : str) : list action := (fun b => Key (Unicode b)) <$> to_bytes s.

(** Visible characters. *)
Definition visible (s : str) : Prop := Forall (fun b => 33 <= b <= 126) (to_bytes s).

Lemma classify_visible b : 32 <= b <= 126 -> classify (Unicode b) = Char b.
Proof.
  intros Hb. simpl. rewrite (proj2 (Z.eqb_neq b 10)), (proj2 (Z.eqb_neq b 8)) by lia.
  unfold printable, is_ascii_graphic. destruct (Z.eq_dec b 32) as [->|]; [done|].
  by rewrite (proj2 (Z.leb_le 33 b)), (proj2 (Z.leb_le b 126)) by lia.
Qed.

Lemma type_ok fs bs : forall line, Forall (fun b => 32 <= b <= 126) bs -> (length line + length bs <= 256)%nat ->
  forall ks, line_after line (((fun b => Key (Unicode b)) <$> bs) ++ ks) = line_after (line ++ bs) ks /\
    transcript fs line (((fun b => Key (Unicode b)) <$> bs) ++ ks) = (o ← transcript fs (line ++ bs) ks; Some (bs ++ o)) /\
    (sane_session line (((fun b => Key (Unicode b)) <$> bs) ++ ks) <-> sane_session (line ++ bs) ks).
Proof.
  induction bs as [|b bs IH]; intros line Hb Hl ks.
  - rewrite app_nil_r. split_and!; [done| |done]. simpl. by destruct (transcript fs line ks).
  - apply Forall_cons in Hb as [Hb Hbs]. simpl in Hl. rewrite fmap_cons. cbn [app].
    assert (He : edit line (Unicode b) = line ++ [b]).
    { unfold edit. rewrite classify_visible by done. rewrite decide_True by lia. done. }
    assert (Hr : reply fs line (Unicode b) = Some [b]).
    { unfold reply. rewrite classify_visible by done. rewrite decide_True by lia. done. }
    destruct (IH (line ++ [b]) Hbs ltac:(rewrite length_app; simpl; lia) ks) as (H1 & H2 & H3).
    rewrite <- app_assoc in H1, H2, H3. cbn [app] in *.
    unfold line_after in *. cbn [fold_left transcript sane_session edit_action]. rewrite He, Hr, H1, H2, H3. split_and!; [done| |].
    + cbn [mbind option_bind]. by destruct (transcript fs (line ++ b :: bs) ks).
    + split; [tauto|]. intros Hs. split; [|done]. unfold sane_key. by rewrite classify_visible.
Qed.

Lemma visible_word s : visible s -> s <> [] -> is_word s.
Proof.
  intros Hv Hne. split; [done|]. unfold visible, to_bytes in Hv. rewrite Forall_fmap in Hv.
  eapply Forall_impl; [exact Hv|]. intros c Hc. unfold compose in Hc. unfold is_space.
  apply orb_false_iff. split; [apply andb_false_iff; right; apply N.leb_gt; lia|apply N.eqb_neq; lia].
Qed.

(** Typing [cat], a path and Enter. *)
Definition cat_keys (path : str) : list action := type_text (lit "cat " ++ path) ++ [Key (Unicode 10)].

Lemma cat_session fs path d : read_file fs path = Ok d -> utf8_ok d = true ->
  visible path -> path <> [] -> (length path <= 252)%nat ->
  sane_session [] (cat_keys path) /\
  transcript fs [] (cat_keys path) = Some (to_bytes (lit "cat " ++ path) ++ [10] ++ d ++ prompt).
Proof.
  intros Hread Hu Hv Hne Hlen. unfold cat_keys, type_text.
  assert (Hb : Forall (fun b => 32 <= b <= 126) (to_bytes (lit "cat " ++ path))).
  { unfold to_bytes. rewrite fmap_app. apply Forall_app. split; [repeat constructor; simpl; lia|].
    eapply Forall_impl; [exact Hv|]. simpl. lia. }
  destruct (type_ok fs (to_bytes (lit "cat " ++ path)) [] Hb) with (ks := [Key (Unicode 10)]) as (_ & Ht & Hs).
  { unfold to_bytes. rewrite length_fmap, length_app. simpl. lia. }
  cbn [app] in Ht, Hs.
  assert (Hp : parts (to_bytes (lit "cat " ++ path)) = [lit "cat"; path]).
  { unfold parts. rewrite of_to_bytes. change (lit "cat " ++ path) with (join [lit "cat"; path]).
    apply words_join. repeat constructor; [done|by apply visible_word|by apply visible_word]. }
  split; [apply Hs; split; [|done]; intros _; rewrite Hp; discriminate|]. rewrite Ht. cbn [transcript].
  unfold reply. change (classify (Unicode 10)) with Enter. cbv iota beta. rewrite Hp.
  change (default [] (head [lit "cat"; path])) with (lit "cat"). change (tail [lit "cat"; path]) with [path].
  unfold answer. simpl. unfold cat_answer. rewrite Hread, Hu. cbn [mbind option_bind]. by rewrite app_nil_r.
Qed.

Section cat.
Context {D : Type} `{Ports D} {latency : nat} `{!Uart16550 D 0x3F8 latency}.
Context (rdtsc : Z -> Z) (lo hi : Z) (A : list (Z * Layout)).
Hypothesis patient : (latency < RETRIES)%nat.

(** From the file system through the shell to the wire: after [write_file] of a
    text, typing [cat], the path and Enter transmits the echo of the line, a line feed,
    the text exactly, and the prompt. *)
Theorem shell_cat_shows_file fs fs' path d w :
  reachable fs -> write_file path d fs = Ret (Ok tt, fs') -> utf8_ok d = true ->
  visible path -> path <> [] -> (length path <= 252)%nat -> world_ok (latency := latency) lo hi A w -> wfs w = fs' ->
  exists s' w', for_each (cat_keys path) (run_action rdtsc) (new, w) = Ret (tt, (s', w')) /\
    output (latency := latency) w' = output (latency := latency) w ++ to_bytes (lit "cat " ++ path) ++ [10] ++ d ++ prompt.
Proof.
  intros Hr Hwr Hu Hv Hne Hlen Hw Hfs. destruct (write_read fs fs' path d Hr Hwr) as (Hread & _ & _).
  destruct (cat_session fs' path d (Hread path eq_refl) Hu Hv Hne Hlen) as [Hsane Ht].
  destruct (wp_elim _ _ _ (session_ok rdtsc lo hi A patient (cat_keys path) new w [] holds_new Hw Hsane)) as ([] & [s' w'] & He & _ & _ & Hpr).
  exists s', w'. split; [done|]. rewrite Hfs, Ht in Hpr. apply Hpr.
Qed.
End cat.

(** ** A session that shows the hypotheses can hold *)

(** A decoder whose scancodes are the characters. *)
Definition plain_decoder : KeyboardDecoder unit Z := {|
  add_byte sc kb := (Ok (Some sc), kb);
  event_code _ := OtherCode 0;
  process_keyevent sc kb := (Some (Unicode sc), kb);
  is_ctrl _ := false
|}.

Definition demo_file : FileSystem :=
  match write_file (lit "/a/x") (text "hi") demo_fs with Ret (_, fs) => fs | Crash _ => demo_fs end.

Definition demo_world : world uart :=
  mkWorld demo_serial (Some small_console) demo_file demo_kernel no_logger.

Lemma demo_patient : (2 < RETRIES)%nat.
Proof. apply Nat.ltb_lt. vm_compute. reflexivity. Qed.

Lemma demo_world_ok : world_ok (latency := 2) 65536 69632 [] demo_world.
Proof.
  split; [split; [split; [simpl; lia|exact I]|exact small_console_ok]|].
  apply (kernel_start blank_heap MonitorData_new (Trace.init TRACE) 0 65536 4096 demo_heap).
  - reflexivity.
  - lia.
  - exists 8192. reflexivity.
  - unfold class_ok. lia.
  - exists 512. reflexivity.
  - unfold u64_max. lia.
  - exact demo_heap_run.
  - reflexivity.
  - reflexivity.
Qed.

(** [ls /a], with a typing mistake corrected. *)
Definition demo_keys : list Z := text "ls x" ++ [8] ++ text "/a" ++ [10].

Lemma shell_session_witness : exists s' w',
  shell_task (H0 := plain_decoder) (fun n => n) demo_keys tt demo_world = Ret (tt, (s', w')) /\
  output (latency := 2) w' = prompt ++ text "ls x" ++ [8; 32; 8] ++ text "/a" ++ [10] ++
    unlines [text "/a (2 entries):"; text "  x"; text "  y"] ++ prompt.
Proof.
  destruct (shell_session (latency := 2) (fun n => n) 65536 69632 [] demo_patient
    (KeyboardDecoder0 := plain_decoder) demo_keys tt demo_world demo_world_ok) as (s' & w' & H1 & _ & _ & _ & H2).
  - apply no_alloc_sane. vm_compute. reflexivity.
  - exists s', w'. split; [exact H1|]. apply (H2 (text "ls x" ++ [8; 32; 8] ++ text "/a" ++ [10] ++
      unlines [text "/a (2 entries):"; text "  x"; text "  y"] ++ prompt)). vm_compute. reflexivity.
Defined.

Lemma shell_cat_witness : exists s' w',
  for_each (type_text (lit "cat /a/x") ++ [Key (Unicode 10)]) (run_action (fun n => n)) (new, demo_world) = Ret (tt, (s', w')) /\
  output (latency := 2) w' = text "cat /a/x" ++ [10] ++ text "hi" ++ prompt.
Proof.
  destruct (shell_cat_shows_file (latency := 2) (fun n => n) 65536 69632 [] demo_patient demo_fs demo_file (lit "/a/x")
    (text "hi") demo_world) as (s' & w' & H1 & H2).
  - exact demo_reachable.
  - vm_compute. reflexivity.
  - reflexivity.
  - unfold visible. vm_compute. repeat constructor; discriminate.
  - discriminate.
  - simpl. lia.
  - exact demo_world_ok.
  - reflexivity.
  - exists s', w'. split; [exact H1|]. rewrite H2. vm_compute. reflexivity.
Defined.

(** ** [alloc] with a size out of range

    The request of the largest [usize] is refused by [Layout], whose error is
    unwrapped; a slightly smaller one overflows in the heap's class computation. In
    both cases a line typed at the shell ends in a panic. *)
Lemma shell_alloc_layout_panics : exists f,
  cmd_alloc (D := uart) (fun n => n) (Some (lit "9223372036854775807")) demo_world = Crash (Panic f).
Proof. eexists. vm_compute. reflexivity. Qed.

Lemma shell_alloc_overflow_panics : exists f,
  cmd_alloc (D := uart) (fun n => n) (Some (lit "9223372036854775768")) demo_world = Crash (Panic f).
Proof. eexists. vm_compute. reflexivity. Qed.
