(* ===== verification/Async.v ===== *)
(** * Futures: [async_utils.rs], and the tasks of [shell.rs] and [task/keyboard.rs]

    The stream trait and its adapters, and the asynchronous functions as the futures
    the executor polls. [while let Some(x) = s.next().await { body }] is a loop that a
    poll enters at the await: it goes round while the stream is ready and suspends
    when it is not. Polled in whatever portions the scancodes arrive, the shell's
    future does what [Shell.shell_task] does with all of them. *)

From S2P Require Import Prelude Str Fmt Monitor Queue Task TaskInv TaskSpec Io Uart UartSpec Framebuffer Fs Heap KernelHeap Log Shell ShellSpec.
Import ArrayQueue OnceCell.

(** ** Streams *)

(** [trait Stream], over the state it runs in. *)
Class Stream (S Item : Type) := stream_poll_next : TaskWaker -> M S (Poll (option Item)).

(** [struct Next]: the borrowed stream. *)
Record Next (S Item : Type) := mkNext { stream : Stream S Item }.
Arguments mkNext {S Item}.
Arguments stream {S Item}.

Section streams.
Context {S Item : Type}.

(** [StreamExt::next] *)
Definition next (self : Stream S Item) : Next S Item := mkNext self.

(** [Future::poll] of [Next] *)
Definition Next_poll (self : Next S Item) (cx : TaskWaker) : M S (Poll (option Item)) := stream self cx.

(** A poll of the loop [while let Some(x) = self.next().await { body(x) }]. *)
Fixpoint while_next (fuel : nat) (self : Stream S Item) (body : Item -> M S unit) (cx : TaskWaker)
    : M S (Poll unit) :=
  match fuel with
  | O => crash OutOfFuel
  | Datatypes.S fuel' =>
      r ← Next_poll (next self) cx;
      match r with
      | Ready (Some x) => _ ← body x; while_next fuel' self body cx
      | Ready None => mret (Ready tt)
      | Pending => mret Pending
      end
  end.
End streams.

(** [impl Stream for ScancodeStream] *)
#[export] Instance ScancodeStream {E} : Stream (sys E) Z := poll_next.

(** ** A task that awaits scancodes

    Its future is not polled yet, or suspended in the loop with its local variables
    [L]; what it prints on, and what the commands reach, is the [world]. *)

Section loop.
Context {D L : Type}.
Notation E := (option L * world D)%type.

(** An operation on the console. *)
Definition on_console {A} (c : M (world D) A) : M (sys E) A := fun w =>
  match c (futures w).2 with
  | Ret (a, x) => Ret (a, set_futures ((futures w).1, x) w)
  | Crash f => Crash f
  end.

(** The loop's body, with the local variables. *)
Definition on_locals (c : M (L * world D) unit) : M (sys E) unit := fun w =>
  match futures w with
  | (Some l, x) =>
      match c (l, x) with
      | Ret (_, (l', x')) => Ret (tt, set_futures (Some l', x') w)
      | Crash f => Crash f
      end
  | (None, _) => Ret (tt, w)
  end.

Definition set_locals (l : L) : M (sys E) unit := modify (fun w => set_futures (Some l, (futures w).2) w).

(** A poll goes round the loop once for each scancode in the queue, and once more. *)
Definition poll_fuel : nat := S (Z.to_nat MAX_SCANCODES).

(** A poll: from the start of the function, or from the await. *)
Definition resume (start : M (sys E) unit) (body : Z -> M (L * world D) unit) (cx : TaskWaker)
    : M (sys E) (Poll unit) :=
  w ← get;
  _ ← match (futures w).1 with None => start | Some _ => mret tt end;
  while_next poll_fuel ScancodeStream (fun scancode => on_locals (body scancode)) cx.
End loop.

Section tasks.
Context {D KB Ev : Type} `{Ports D} `{KeyboardDecoder KB Ev} (rdtsc : Z -> Z).

(** [shell_task()]; [kb0] is [PS2Keyboard::new(..)]. *)
Definition shell_start (kb0 : KB) : M (sys (option (KB * Shell) * world D)) unit :=
  _ ← ScancodeStream_new;
  _ ← set_locals (kb0, Shell.new);
  on_console print_prompt.

Definition shell_body (scancode : Z) : M ((KB * Shell) * world D) unit := fun '((kb, s), x) =>
  match handle_scancode rdtsc scancode (kb, (s, x)) with
  | Ret (_, (kb', (s', x'))) => Ret (tt, ((kb', s'), x'))
  | Crash f => Crash f
  end.

Definition shell_poll (kb0 : KB) (cx : TaskWaker) : M (sys (option (KB * Shell) * world D)) (Poll unit) :=
  resume (shell_start kb0) shell_body cx.

(** [print_keypresses()]: [{}] of a character is its UTF-8, [{:?}] of a key code its
    name, which the [pc_keyboard] crate derives. *)
Context (key_name : KeyCode -> list Z).

Definition key_text (key : DecodedKey) : list Z :=
  match key with Unicode c => encode_utf8 c | RawKey k => key_name k end.

Definition keypress_body (scancode : Z) : M (KB * world D) unit := fun '(kb, x) =>
  match add_byte scancode kb with
  | (Ok (Some ev), kb) =>
      match process_keyevent ev kb with
      | (Some key, kb) =>
          match print (key_text key) x with Ret (_, x') => Ret (tt, (kb, x')) | Crash f => Crash f end
      | (None, kb) => Ret (tt, (kb, x))
      end
  | (_, kb) => Ret (tt, (kb, x))
  end.

Definition print_keypresses_poll (kb0 : KB) (cx : TaskWaker) : M (sys (option KB * world D)) (Poll unit) :=
  resume (_ ← ScancodeStream_new; set_locals kb0) keypress_body cx.
End tasks.

(** ** Polling in rounds *)

(** Scancodes arrive, each by its interrupt, and then the task is polled. *)
Fixpoint poll_rounds {E} (poll : M (sys E) (Poll unit)) (rounds : list (list Z)) : M (sys E) (list (Poll unit)) :=
  match rounds with
  | [] => mret []
  | keys :: rounds' =>
      _ ← for_each keys keyboard_interrupt_handler;
      r ← poll;
      rs ← poll_rounds poll rounds';
      mret (r :: rs)
  end.

(** [l] waits in the scancode queue; the task queue is in order. *)
Definition holding {E} (n : Z) (w : sys E) (l : list Z) : Prop :=
  exists q tl, SCANCODE_QUEUE w = mkCell true (Some q) /\ queue_ok n q l /\ queue_ok n (task_queue w) tl.

(** Only queues, wakers and metrics differ. *)
Definition same_shell {E} (w w' : sys E) : Prop :=
  futures w' = futures w /\ console w' = console w /\ tasks w' = tasks w /\ next_id w' = next_id w.

Lemma holding_mono {E} n n' (w : sys E) l : holding n w l -> n <= n' -> holding n' w l.
Proof. intros (q & tl & Hc & Hq & Ht) Hn. exists q, tl. split_and!; [done|by eapply queue_ok_mono|by eapply queue_ok_mono]. Qed.

Lemma wake_returns {E} n (w : sys E) l : holding n w l -> n < 2 ^ 63 ->
  exists w', wake w = Ret (tt, w') /\ holding (n + 1) w' l /\ same_shell w w'.
Proof.
  intros (q & tl & Hc & Hq & Ht) Hn. unfold wake, take, mbind, M_bind, get, modify. simpl.
  assert (Hq1 : queue_ok (n + 1) q l) by (apply (queue_ok_mono n); [done|lia]).
  destruct (WAKER w) as [k|].
  - unfold wake_task, mbind, M_bind, on_queue. simpl.
    destruct (queue_push n _ tl (wtask k) Ht Hn) as (r & tq & tl' & -> & Ht' & [[-> _]|(-> & _)]);
      (eexists; split; [done|]; split; [exists q, tl'; split_and!; done|done]).
  - eexists. split; [done|]. split; [|done]. exists q, tl. split_and!; [done|done|].
    apply (queue_ok_mono n); [done|lia].
Qed.

Lemma key_arrives {E} n (w : sys E) l key : holding n w l -> n + 1 < 2 ^ 63 -> (length l < 100)%nat ->
  exists w', keyboard_interrupt_handler key w = Ret (tt, w') /\ holding (n + 2) w' (l ++ [key]) /\ same_shell w w'.
Proof.
  intros (q & tl & Hc & Hq & Ht) Hn Hl.
  unfold keyboard_interrupt_handler, add_scancode, mbind, M_bind, get, lift, modify. simpl. rewrite Hc.
  unfold try_get, on_scancodes. simpl.
  destruct (queue_push n q l key Hq) as (r & q' & l' & -> & Hq' & Hr); [lia|].
  destruct Hr as [[-> ->]|(_ & _ & ?)]; [|lia].
  destruct (wake_returns (n + 1) (set_cell (mkCell true (Some q')) (set_metrics (inc_interrupt 33 (metrics w)) w)) (l ++ [key]))
    as (w' & Hw & Hh & Hs); [|lia|].
  - exists q', tl. split_and!; [done|done|apply (queue_ok_mono n); [done|lia]].
  - exists w'. split; [exact Hw|]. split; [|exact Hs]. by replace (n + 2) with (n + 1 + 1) by lia.
Qed.

Lemma keys_arrive {E} keys : forall n (w : sys E) l, holding n w l -> n + 2 * Z.of_nat (length keys) < 2 ^ 63 ->
  (length l + length keys <= 100)%nat ->
  exists w', for_each keys keyboard_interrupt_handler w = Ret (tt, w') /\
    holding (n + 2 * Z.of_nat (length keys)) w' (l ++ keys) /\ same_shell w w'.
Proof.
  induction keys as [|key keys IH]; intros n w l Hh Hn Hl.
  - exists w. simpl. rewrite app_nil_r. split; [done|]. split; [|done]. apply (holding_mono n); [done|lia].
  - cbn [length] in *. destruct (key_arrives n w l key Hh) as (w1 & H1 & Hh1 & Hs1); [lia|lia|].
    destruct (IH (n + 2) w1 (l ++ [key]) Hh1) as (w2 & H2 & Hh2 & Hs2); [lia|rewrite length_app; simpl; lia|].
    exists w2. cbn [for_each]. unfold mbind, M_bind. rewrite H1. split; [done|]. split.
    + rewrite <- app_assoc in Hh2. by replace (n + 2 * Z.of_nat (S (length keys))) with (n + 2 + 2 * Z.of_nat (length keys)) by lia.
    + unfold same_shell in *. destruct_and!. split_and!; congruence.
Qed.

(** *** The stream *)

Lemma stream_ready {E} n (w : sys E) v l cx : holding n w (v :: l) ->
  exists c, poll_next cx w = Ret (Ready (Some v), set_cell c w) /\ holding n (set_cell c w) l.
Proof.
  intros (q & tl & Hc & Hq & Ht). destruct (queue_pop n q _ Hq) as (q' & Hp & Hq').
  unfold poll_next, pop_scancode, mbind, M_bind, get, lift, try_get, on_scancodes. rewrite Hc. simpl. rewrite Hp.
  eexists. split; [done|]. by exists q', tl.
Qed.

Lemma stream_empty {E} n (w : sys E) cx : holding n w [] ->
  exists c, poll_next cx w = Ret (Pending, set_waker (Some cx) (set_cell c w)) /\
    holding n (set_waker (Some cx) (set_cell c w)) [].
Proof.
  intros (q & tl & Hc & Hq & Ht). pose proof (queue_pop n q _ Hq) as Hp. simpl in Hp.
  exists (mkCell true (Some q)). split; [|by exists q, tl].
  unfold poll_next, pop_scancode, mbind, M_bind, get, lift, try_get, on_scancodes. rewrite Hc. simpl. rewrite Hp. simpl.
  by rewrite Hp.
Qed.

Section rounds.
Context {D L : Type} (start : M (sys (option L * world D)) unit) (body : Z -> M (L * world D) unit) (cx : TaskWaker).
Notation E := (option L * world D)%type.

(** Suspended at the await, nothing waiting, the waker in the cell. *)
Definition suspended_at (n : Z) (w : sys E) (l : L) (x : world D) : Prop :=
  holding n w [] /\ futures w = (Some l, x) /\ WAKER w = Some cx /\ console w = [].

Lemma drain_loop keys : forall fuel n (w : sys E) l x l' x', holding n w keys -> futures w = (Some l, x) ->
  console w = [] -> for_each keys body (l, x) = Ret (tt, (l', x')) -> (length keys < fuel)%nat ->
  exists w', while_next fuel ScancodeStream (fun sc => on_locals (body sc)) cx w = Ret (Pending, w') /\
    suspended_at n w' l' x'.
Proof.
  induction keys as [|key keys IH]; intros [|fuel] n w l x l' x' Hh Hf Hc Hb Hl; try (simpl in Hl; lia);
    cbn [while_next]; unfold Next_poll, next, stream, ScancodeStream; unfold mbind at 1, M_bind.
  - destruct (stream_empty n w cx Hh) as (c & -> & Hh'). injection Hb as <- <-. eexists. by split.
  - destruct (stream_ready n w key keys cx Hh) as (c & -> & Hh').
    cbn [for_each] in Hb. unfold mbind, M_bind in Hb.
    destruct (body key (l, x)) as [[[] [l1 x1]]|] eqn:E; [|done].
    unfold mbind at 1, M_bind, on_locals at 1. cbn [futures set_cell]. rewrite Hf, E.
    apply (IH fuel n _ l1 x1); [|done|done|done|simpl in Hl; lia].
    destruct Hh' as (q & tl & Hq). by exists q, tl.
Qed.

Lemma resume_drains keys n (w : sys E) l x l' x' : holding n w keys -> futures w = (Some l, x) ->
  console w = [] -> for_each keys body (l, x) = Ret (tt, (l', x')) -> (length keys <= 100)%nat ->
  exists w', resume start body cx w = Ret (Pending, w') /\ suspended_at n w' l' x'.
Proof.
  intros Hh Hf Hc Hb Hl. unfold resume, mbind at 1, M_bind, get. rewrite Hf. cbn [fst].
  eapply drain_loop; try done. unfold poll_fuel. change (Z.to_nat MAX_SCANCODES) with 100%nat. lia.
Qed.

Lemma rounds_drain rounds : forall n (w : sys E) l x l' x', suspended_at n w l x ->
  Forall (fun keys => (length keys <= 100)%nat) rounds -> n + 2 * Z.of_nat (length (concat rounds)) < 2 ^ 63 ->
  for_each (concat rounds) body (l, x) = Ret (tt, (l', x')) ->
  exists w', poll_rounds (resume start body cx) rounds w = Ret (replicate (length rounds) Pending, w') /\
    suspended_at (n + 2 * Z.of_nat (length (concat rounds))) w' l' x'.
Proof.
  induction rounds as [|keys rounds IH]; intros n w l x l' x' Hs Hr Hn Hb.
  - injection Hb as <- <-. exists w. split; [done|]. simpl. by rewrite Z.add_0_r.
  - apply Forall_cons in Hr as [Hk Hr]. cbn [concat] in *. rewrite length_app in *. rewrite for_each_app in Hb.
    unfold mbind, M_bind in Hb. destruct (for_each keys body (l, x)) as [[[] [l1 x1]]|] eqn:E1; [|done].
    destruct Hs as (Hh & Hf & Hw & Hc). destruct (keys_arrive keys n w [] Hh) as (w1 & H1 & Hh1 & Hs1 & Hs2 & _); [lia|done|].
    destruct (resume_drains keys _ w1 l x l1 x1 Hh1) as (w2 & H2 & Hs'); [congruence|congruence|done|done|].
    destruct (IH _ w2 l1 x1 l' x' Hs' Hr) as (w3 & H3 & Hs3); [lia|done|].
    exists w3. cbn [poll_rounds]. unfold mbind, M_bind. rewrite H1, H2, H3. split; [done|].
    by replace (n + 2 * Z.of_nat (length keys + length (concat rounds))) with
      (n + 2 * Z.of_nat (length keys) + 2 * Z.of_nat (length (concat rounds))) by lia.
Qed.
End rounds.

(** *** From the executor's start *)

Lemma start_creates {E} n (w : sys E) : 0 <= n -> SCANCODE_QUEUE w = uninit -> (exists tl, queue_ok n (task_queue w) tl) ->
  exists c, ScancodeStream_new w = Ret (tt, set_cell c w) /\ holding n (set_cell c w) [].
Proof.
  intros Hn Hc [tl Ht]. destruct queue_new as (q & Hq & Hok). unfold ScancodeStream_new.
  rewrite Hc. unfold try_init_once, mbind, M_bind, get, lift. cbn [initialized uninit].
  unfold MAX_SCANCODES. rewrite Hq. eexists. split; [done|]. exists q, tl. split_and!; [done| |done].
  apply (queue_ok_mono 0); [done|lia].
Qed.

(** The first poll, then one after each round. *)
Lemma polls_from_start {D L} (start : M (sys (option L * world D)) unit) body cx k w rounds x l x1 l' x' :
  enrolled (None, x) k w -> Forall (fun keys => (length keys <= 100)%nat) rounds ->
  Z.of_nat k + 2 * Z.of_nat (length (concat rounds)) < 2 ^ 63 ->
  (forall c, ScancodeStream_new w = Ret (tt, set_cell c w) ->
    start w = Ret (tt, set_futures (Some l, x1) (set_cell c w))) ->
  for_each (concat rounds) body (l, x1) = Ret (tt, (l', x')) ->
  exists w' n, poll_rounds (resume start body cx) ([] :: rounds) w = Ret (replicate (S (length rounds)) Pending, w') /\
    suspended_at cx n w' l' x'.
Proof.
  intros (_ & Hq & _ & _ & Hc & Hl & Hf) Hr Hn Hst Hb.
  destruct (start_creates (Z.of_nat k) w) as (c & H1 & Hh); [lia|done|by eexists|].
  destruct (drain_loop body cx [] poll_fuel (Z.of_nat k) (set_futures (Some l, x1) (set_cell c w)) l x1 l x1)
    as (w2 & H2 & Hs2); [by destruct Hh as (q & tl & ?); exists q, tl|done|done|done|apply Nat.lt_0_succ|].
  destruct (rounds_drain start body cx rounds _ w2 _ _ l' x' Hs2 Hr Hn Hb) as (w3 & H3 & Hs3).
  exists w3. eexists. split; [|exact Hs3]. cbn [poll_rounds for_each]. unfold mbind, M_bind, mret, M_ret.
  unfold resume at 1, mbind, M_bind, get. rewrite Hf. cbn [fst]. by rewrite (Hst c H1), H2, H3.
Qed.

Section shell.
Context {D KB Ev : Type} `{Ports D} `{KeyboardDecoder KB Ev} (rdtsc : Z -> Z).

Lemma shell_body_task keys : forall (kb : KB) (s : Shell) (x : world D),
  for_each keys (shell_body rdtsc) ((kb, s), x) =
  match for_each keys (handle_scancode rdtsc) (kb, (s, x)) with
  | Ret (_, (kb', (s', x'))) => Ret (tt, ((kb', s'), x'))
  | Crash f => Crash f
  end.
Proof.
  induction keys as [|key keys IH]; intros kb s x; [done|]. cbn [for_each]. unfold mbind, M_bind, shell_body at 1.
  destruct (handle_scancode rdtsc key (kb, (s, x))) as [[[] [kb1 [s1 x1]]]|]; [apply IH|done].
Qed.

(** C10: the asynchronous shell is the sequential one. The executor polls the future of
    [shell_task] once, and then again after each round of at most 100 keyboard
    interrupts, whatever portions they come in; every poll returns [Pending], with the
    queue drained and the task's waker in the cell for the next interrupt, no scancode
    was refused, and the decoder, the line buffer and the console are exactly what the
    loop of [shell_task] makes of the whole sequence of scancodes. *)
Theorem shell_future_refines_task k (w : sys (option (KB * Shell) * world D)) rounds cx kb0 x kb' s' x' :
  enrolled (None, x) k w -> Forall (fun keys => (length keys <= 100)%nat) rounds ->
  Z.of_nat k + 2 * Z.of_nat (length (concat rounds)) < 2 ^ 63 ->
  shell_task rdtsc (concat rounds) kb0 x = Ret (kb', (s', x')) ->
  exists w', poll_rounds (shell_poll rdtsc kb0 cx) ([] :: rounds) w =
      Ret (replicate (S (length rounds)) Pending, w') /\
    futures w' = (Some (kb', s'), x') /\ WAKER w' = Some cx /\ console w' = [] /\
    exists n, holding n w' [].
Proof.
  intros He Hr Hn Ht. unfold shell_task in Ht.
  destruct (print_prompt x) as [[[] x1]|] eqn:Hp; [|done].
  destruct (for_each _ _ _) as [[[] [kb2 [s2 x2]]]|] eqn:Hb; [|done]. injection Ht as -> -> ->.
  destruct (polls_from_start (shell_start kb0) (shell_body rdtsc) cx k w rounds x (kb0, Shell.new) x1 (kb', s') x' He Hr Hn)
    as (w' & n & H1 & Hh & Hf & Hw & Hc).
  - intros c H1. unfold shell_start, mbind, M_bind. rewrite H1. unfold set_locals, modify, on_console. simpl.
    destruct He as (_ & _ & _ & _ & _ & _ & Hf). rewrite Hf. cbn [snd]. by rewrite Hp.
  - by rewrite shell_body_task, Hb.
  - exists w'. split; [exact H1|by eauto].
Qed.
End shell.

Lemma shell_future_witness : exists w w' s' x',
  enrolled (None, demo_world) 2 w /\
  poll_rounds (shell_poll (H0 := plain_decoder) (fun n => n) tt (mkWaker 1)) [[]; text "ls x"; [8]; text "/a" ++ [10]] w =
    Ret (replicate 4 Pending, w') /\ futures w' = (Some (tt, s'), x') /\ WAKER w' = Some (mkWaker 1).
Proof.
  destruct (boot_spawned (None : option (unit * Shell), demo_world) 2) as (w & _ & Hw & _); [lia|].
  destruct (shell_task_ok (latency := 2) (fun n => n) 65536 69632 [] demo_patient
    (KeyboardDecoder0 := plain_decoder) ShellSpec.demo_keys tt demo_world demo_world_ok) as (_ & s' & x' & Ht & _).
  { apply no_alloc_sane. vm_compute. reflexivity. }
  destruct (shell_future_refines_task (H0 := plain_decoder) (fun n => n) 2 w [text "ls x"; [8]; text "/a" ++ [10]]
    (mkWaker 1) tt demo_world tt s' x') as (w' & H1 & H2 & H3 & _).
  - exact Hw.
  - repeat constructor; vm_compute; lia.
  - vm_compute. reflexivity.
  - exact Ht.
  - exists w, w', s', x'. split; [exact Hw|]. split; [exact H1|]. split; [exact H2|exact H3].
Defined.

(** ** What [print_keypresses] prints *)

Section keypresses.
Context {D : Type} `{Ports D} {latency : nat} `{!Uart16550 D 0x3F8 latency}.
Context {KB Ev : Type} `{!KeyboardDecoder KB Ev} (key_name : KeyCode -> list Z).
Hypothesis patient : (latency < RETRIES)%nat.

(** The keys the decoder makes of the scancodes. *)
Fixpoint decode_keys (scancodes : list Z) (kb : KB) : list DecodedKey * KB :=
  match scancodes with
  | [] => ([], kb)
  | sc :: scs =>
      let '(key, kb) :=
        match add_byte sc kb with
        | (Ok (Some ev), kb) => process_keyevent ev kb
        | (_, kb) => (None, kb)
        end in
      let '(keys, kb) := decode_keys scs kb in
      (match key with Some key => key :: keys | None => keys end, kb)
  end.

Definition typed_text (keys : list DecodedKey) : list Z := concat (key_text key_name <$> keys).

Lemma keypresses_print scs : forall kb (x : world D), console_ok (latency := latency) x ->
  exists x', for_each scs (keypress_body key_name) (kb, x) = Ret (tt, ((decode_keys scs kb).2, x')) /\
    prints (latency := latency) (typed_text (decode_keys scs kb).1) x x'.
Proof.
  induction scs as [|sc scs IH]; intros kb x Hx; [by exists x; split; [|apply prints_nil]|].
  cbn [for_each decode_keys]. unfold mbind, M_bind, keypress_body at 1.
  destruct (add_byte sc kb) as [[[ev|]|e] kb1]; [destruct (process_keyevent ev kb1) as [[key|] kb2]| |].
  - destruct (wp_elim _ _ _ (print_wp patient (key_text key_name key) x Hx)) as ([] & x1 & -> & H1).
    destruct (IH kb2 x1) as (x' & -> & H2); [apply H1|]. destruct (decode_keys scs kb2) as [keys kb3].
    exists x'. split; [done|]. exact (prints_trans _ _ _ _ _ H1 H2).
  - destruct (IH kb2 x Hx) as (x' & -> & H2). destruct (decode_keys scs kb2) as [keys kb3]. by exists x'.
  - destruct (IH kb1 x Hx) as (x' & -> & H2). destruct (decode_keys scs kb1) as [keys kb3]. by exists x'.
  - destruct (IH kb1 x Hx) as (x' & -> & H2). destruct (decode_keys scs kb1) as [keys kb3]. by exists x'.
Qed.

(** What is printed is UTF-8, the names of the keys being so. *)
Lemma typed_text_utf8 keys :
  Forall (fun key => match key with
          | Unicode c => is_char c
          | RawKey k => Forall (fun b => b < 0x80) (key_name k)
          end) keys -> utf8_ok (typed_text keys) = true.
Proof.
  induction 1 as [|[c|k] keys Hk _ IH]; [done| |]; unfold typed_text; rewrite fmap_cons; cbn [concat key_text].
  - by rewrite encode_utf8_ok.
  - by rewrite ascii_utf8_app.
Qed.

(** Polled in rounds, the task prints every key typed, in order, and nothing else. *)
Theorem print_keypresses_echoes k w rounds cx kb0 x :
  enrolled (None, x) k w -> Forall (fun keys => (length keys <= 100)%nat) rounds ->
  Z.of_nat k + 2 * Z.of_nat (length (concat rounds)) < 2 ^ 63 -> console_ok (latency := latency) x ->
  exists w' x', poll_rounds (print_keypresses_poll key_name kb0 cx) ([] :: rounds) w =
      Ret (replicate (S (length rounds)) Pending, w') /\
    futures w' = (Some (decode_keys (concat rounds) kb0).2, x') /\ WAKER w' = Some cx /\
    output (latency := latency) x' = output (latency := latency) x ++ typed_text (decode_keys (concat rounds) kb0).1.
Proof.
  intros He Hr Hn Hx. destruct (keypresses_print (concat rounds) kb0 x Hx) as (x' & Hb & _ & Ho & _).
  destruct (polls_from_start (_ ← ScancodeStream_new; set_locals kb0) (keypress_body key_name) cx k w rounds x kb0 x
    (decode_keys (concat rounds) kb0).2 x' He Hr Hn) as (w' & n & H1 & Hh & Hf & Hw & Hc).
  - intros c H1. unfold mbind, M_bind. rewrite H1. unfold set_locals, modify. simpl.
    destruct He as (_ & _ & _ & _ & _ & _ & Hf). by rewrite Hf.
  - exact Hb.
  - exists w', x'. split; [exact H1|by eauto].
Qed.
End keypresses.
