(* ===== verification/Terminal.v ===== *)
(** * The terminal, from the key to the answer

    The executor machine of [Task] with what its steps do to the shell and the
    console: the keyboard task is the shell, whose loop body runs when a scancode is
    handled; other tasks print when polled; the interrupt handlers count, trace and
    warn. Every interleaving with the keyboard interrupt ends in the same session:
    the keys that were typed, edited and answered in order. *)

From S2P Require Import Prelude Str Fmt Monitor Trace Queue Task TaskInv TaskSpec Io Uart UartSpec Framebuffer Fs.
From S2P Require Import Heap Tlsf TlsfInv KernelHeap Log Shell ShellSpec Async.
Import ArrayQueue OnceCell.

(** ** The machine *)

(** The executor with the keyboard task's local variables and the console. *)
Record terminal (D KB : Type) := mkTerm {
  tpc : pc;
  texec : sys keyboard;
  tlocals : option (KB * Shell);
  tconsole : world D
}.
Arguments mkTerm {D KB}.
Arguments tpc {D KB}.
Arguments texec {D KB}.
Arguments tlocals {D KB}.
Arguments tconsole {D KB}.

Inductive tlabel := TMain (c : choice) | TKey (scancode : Z) | TOther (out : list Z) | TQuiet.

(** The executor's steps among them. *)
Definition exec_labels (ls : list tlabel) : list label :=
  omap (fun l => match l with TMain c => Some (LMain c) | TKey s => Some (LKey s) | _ => None end) ls.

(** What the other tasks print. *)
Definition said_by_others (ls : list tlabel) : list Z :=
  concat (omap (fun l => match l with TOther out => Some out | _ => None end) ls).

(** Counting and tracing: all an interrupt handler does to the state below, its
    warnings aside. *)
Definition quiet {D} (x x' : world D) : Prop :=
  wserial x' = wserial x /\ wscreen x' = wscreen x /\ wfs x' = wfs x /\ wlog x' = wlog x /\
  kheap (wheap x') = kheap (wheap x) /\
  current_allocated (kmon (wheap x')) = current_allocated (kmon (wheap x)) /\
  length (entries (ktrace (wheap x'))) = length (entries (ktrace (wheap x))).

Section machine.
Context {D KB Ev : Type} `{Ports D} `{KeyboardDecoder KB Ev} (rdtsc : Z -> Z) (kb : Z) (kb0 : KB).
Notation T := (terminal D KB).

(** A step of the executor. The body of the loop is one step: an interrupt during it
    is taken before or after it. *)
Definition tmain (c : choice) : M T unit := fun t =>
  match main_step kb c (tpc t) (texec t) with
  | Crash f => Crash f
  | Ret (p', w') =>
      match tpc t, tlocals t with
      | Creating _, _ =>
          match print_prompt (tconsole t) with
          | Ret (_, x') => Ret (tt, mkTerm p' w' (Some (kb0, Shell.new)) x')
          | Crash f => Crash f
          end
      | Handling _ scancode, Some l =>
          match shell_body rdtsc scancode (l, tconsole t) with
          | Ret (_, (l', x')) => Ret (tt, mkTerm p' w' (Some l') x')
          | Crash f => Crash f
          end
      | _, l => Ret (tt, mkTerm p' w' l (tconsole t))
      end
  end.

(** The keyboard interrupt; its warnings go to the console. *)
Definition tkey (scancode : Z) : M T unit := fun t =>
  match keyboard_interrupt_handler scancode (texec t) with
  | Crash f => Crash f
  | Ret (_, w') =>
      match for_each (drop (length (console (texec t))) (console w')) (fun line => println (text line)) (tconsole t) with
      | Ret (_, x') => Ret (tt, mkTerm (after_irq (tpc t)) w' (tlocals t) x')
      | Crash f => Crash f
      end
  end.

Inductive term_step : T -> tlabel -> T -> Prop :=
  | ts_main c t t' : tmain c t = Ret (tt, t') -> term_step t (TMain c) t'
  | ts_key s t t' : tpc t <> Checking -> tkey s t = Ret (tt, t') -> term_step t (TKey s) t'
  | ts_other i cx out t x' : tpc t = PollOther i cx -> print out (tconsole t) = Ret (tt, x') ->
      term_step t (TOther out) (mkTerm (tpc t) (texec t) (tlocals t) x')
  | ts_quiet t x' : quiet (tconsole t) x' -> term_step t TQuiet (mkTerm (tpc t) (texec t) (tlocals t) x').
End machine.

(** ** What the steps change *)

Definition step_futures (p : pc) (f : keyboard) : keyboard :=
  match p with
  | Creating _ => mkKeyboard true (handled f)
  | Handling _ s => mkKeyboard (started f) (handled f ++ [s])
  | _ => f
  end.

Lemma main_effect kb c p w p' w' : main_step kb c p w = Ret (p', w') ->
  console w' = console w /\ futures w' = step_futures p (futures w).
Proof.
  destruct p; cbn [main_step step_futures];
    unfold complete, wake_task, ScancodeStream_new, pop_scancode, register, take, on_queue, on_scancodes, lift, modify, get,
      mbind, M_bind, mret, M_ret; intros Hm;
    simplify_eq/=; repeat (case_match; simplify_eq/=); done.
Qed.

Lemma key_effect s (w w' : sys keyboard) : keyboard_interrupt_handler s w = Ret (tt, w') ->
  (exists ls, console w' = console w ++ ls) /\ futures w' = futures w.
Proof.
  unfold keyboard_interrupt_handler, add_scancode, wake, take, wake_task, on_queue, on_scancodes, lift, modify, get,
    mbind, M_bind, mret, M_ret. intros Hm.
  repeat (case_match; simplify_eq/=); (split; [|done]); first [by eexists|exists []; by rewrite app_nil_r].
Qed.

Lemma decide_pc p : p = Halted \/ p <> Halted.
Proof. destruct p; (by left) || by right. Qed.

(** ** Sessions, one action at a time *)

Lemma sane_app acts1 acts2 : forall line, sane_session line (acts1 ++ acts2) <->
  sane_session line acts1 /\ sane_session (line_after line acts1) acts2.
Proof.
  induction acts1 as [|a acts1 IH]; intros line; [simpl; tauto|]. cbn [app sane_session].
  rewrite IH. unfold line_after. simpl. tauto.
Qed.

Lemma transcript_app fs acts1 acts2 : forall line, transcript fs line (acts1 ++ acts2) =
  (o1 ← transcript fs line acts1; o2 ← transcript fs (line_after line acts1) acts2; Some (o1 ++ o2)).
Proof.
  induction acts1 as [|a acts1 IH]; intros line.
  - cbn [app transcript mbind option_bind line_after fold_left]. unfold line_after. simpl.
    by destruct (transcript fs line acts2).
  - cbn [app transcript]. destruct (match a with Key k => reply fs line k | Scale _ => None end) as [o|]; [|done].
    cbn [mbind option_bind]. rewrite IH. unfold line_after. cbn [fold_left].
    destruct (transcript fs (edit_action line a) acts1) as [o1|]; [|done]. cbn [mbind option_bind].
    destruct (transcript _ _ acts2); [|done]. cbn [mbind option_bind]. by rewrite app_assoc.
Qed.

Section session.
Context {D : Type} `{Ports D} {latency : nat} `{!Uart16550 D 0x3F8 latency}.
Context (rdtsc : Z -> Z) (lo hi : Z) (A : list (Z * Layout)).
Hypothesis patient : (latency < RETRIES)%nat.
Context {KB Ev : Type} `{!KeyboardDecoder KB Ev} (kb : Z) (kb0 : KB).
Notation T := (terminal D KB).
Notation world_ok := (world_ok (latency := latency) lo hi A).
Notation prints := (prints (latency := latency)).
Notation output := (output (latency := latency)).

Lemma decode_app scs1 scs2 : forall k : KB, decode (scs1 ++ scs2) k =
  ((decode scs1 k).1 ++ (decode scs2 (decode scs1 k).2).1, (decode scs2 (decode scs1 k).2).2).
Proof.
  induction scs1 as [|sc scs1 IH]; intros k; cbn [app decode]; [simpl; by destruct (decode scs2 k)|].
  destruct (decode1 sc k) as [a k1]. rewrite IH. destruct (decode scs1 k1) as [acts k2]. cbn [fst snd].
  by destruct a.
Qed.

(** The shell after the scancodes [got]. *)
Definition shell_at (got : list Z) (l : KB * Shell) : Prop :=
  l.1 = (decode got kb0).2 /\ holds_line l.2 (line_after [] (decode got kb0).1).

(** What the shell has printed then; [None] when a command's answer is not determined
    by the file system. *)
Definition shell_said (fs : FileSystem) (got : list Z) : option (list Z) :=
  out ← transcript fs [] (decode got kb0).1; Some (prompt ++ out).

Lemma body_ok got sc l (x : world D) : shell_at got l -> world_ok x ->
  sane_session [] (decode (got ++ [sc]) kb0).1 ->
  exists l' x', shell_body rdtsc sc (l, x) = Ret (tt, (l', x')) /\ shell_at (got ++ [sc]) l' /\
    world_ok x' /\ wfs x' = wfs x /\
    forall said, shell_said (wfs x) (got ++ [sc]) = Some said ->
      exists before new, shell_said (wfs x) got = Some before /\ said = before ++ new /\ prints new x x'.
Proof.
  intros [Hk Hl] Hx Hs. destruct l as [k s]. cbn [fst snd] in *. unfold shell_said, shell_at. rewrite decode_app in *.
  cbn [decode] in *. unfold shell_body. rewrite handle_scancode_decode. rewrite <- Hk in *.
  destruct (decode1 sc k) as [[a|] k1]; cbn [fst snd] in *.
  - apply sane_app in Hs as [_ [Ha _]].
    destruct (wp_elim _ _ _ (run_action_ok rdtsc lo hi A patient a s x _ Hl Hx Ha)) as ([] & [s' x'] & -> & Hl' & Han & Hp).
    exists (k1, s'), x'. split; [done|]. split; [split; [done|]; unfold line_after in *; by rewrite fold_left_app|].
    split; [apply Han|]. split; [apply Han|]. intros said. rewrite transcript_app.
    destruct (transcript (wfs x) [] _) as [before|]; [|done]. cbn [mbind option_bind transcript].
    destruct (match a with Key _ => _ | Scale _ => _ end) as [new|]; [|done]. cbn [mbind option_bind].
    intros [= <-]. exists (prompt ++ before), new. by rewrite app_nil_r, <- app_assoc.
  - exists (k1, s), x. rewrite !app_nil_r. split_and!; try done. intros said Hsaid. exists said, [].
    rewrite app_nil_r. split_and!; [done|done|apply prints_nil, Hx].
Qed.

(** *** Interleaved output *)

(** Pieces of output, marked by whether the shell printed them. *)
Definition heard (chunks : list (bool * list Z)) : list Z := concat (snd <$> chunks).
Definition by_shell (chunks : list (bool * list Z)) : list Z := concat (snd <$> filter (fun c => c.1 = true) chunks).
Definition by_others (chunks : list (bool * list Z)) : list Z := concat (snd <$> filter (fun c => c.1 = false) chunks).

(** [out] is [mine] and [theirs], interleaved. *)
Definition interleaves (mine theirs out : list Z) : Prop :=
  exists chunks, by_shell chunks = mine /\ by_others chunks = theirs /\ heard chunks = out.

Lemma interleaves_nil : interleaves [] [] [].
Proof. by exists []. Qed.

Lemma interleaves_mine m t o new : interleaves m t o -> interleaves (m ++ new) t (o ++ new).
Proof.
  intros (ch & <- & <- & <-). exists (ch ++ [(true, new)]). unfold by_shell, by_others, heard.
  rewrite !filter_app, !fmap_app, !concat_app. simpl. by rewrite !app_nil_r.
Qed.

Lemma interleaves_theirs m t o new : interleaves m t o -> interleaves m (t ++ new) (o ++ new).
Proof.
  intros (ch & <- & <- & <-). exists (ch ++ [(false, new)]). unfold by_shell, by_others, heard.
  rewrite !filter_app, !fmap_app, !concat_app. simpl. by rewrite !app_nil_r.
Qed.

Lemma interleaves_alone m o : interleaves m [] o -> o = m.
Proof.
  intros (ch & <- & Ht & <-). unfold by_shell, by_others, heard in *.
  induction ch as [|[b c] ch IH]; [done|]. rewrite !filter_cons in *. destruct b; simpl in *.
  - f_equal. by apply IH.
  - apply app_nil in Ht as [-> Ht]. by apply IH.
Qed.

Lemma quiet_ok x x' : world_ok x -> quiet x x' -> world_ok x' /\ wfs x' = wfs x /\ output x' = output x.
Proof.
  intros [Hc (HB & Hm & Ht)] (Hs & Hsc & Hf & _ & Hh & Hcu & Hl). unfold ShellSpec.world_ok, console_ok, ShellSpec.output, kernel_inv.
  rewrite Hs, Hsc, Hf, Hh, Hcu, Hl. by split_and!; try apply Hc.
Qed.

(** ** The invariant *)

Context (others : gset Z) (Hkb : kb ∉ others) (Hsize : (base.size others <= 99)%nat) (x0 : world D).

Definition said_so_far (w : sys keyboard) : option (list Z) :=
  if started (futures w) then shell_said (wfs x0) (handled (futures w)) else Some [].

Record tinv (theirs : list Z) (t : T) : Prop := {
  ti_world : world_ok (tconsole t);
  ti_fs : wfs (tconsole t) = wfs x0;
  ti_locals : match tlocals t with
    | None => started (futures (texec t)) = false /\ handled (futures (texec t)) = []
    | Some l => started (futures (texec t)) = true /\ shell_at (handled (futures (texec t))) l
    end;
  ti_output : console (texec t) = [] -> forall mine, said_so_far (texec t) = Some mine ->
    exists out, output (tconsole t) = output x0 ++ out /\ interleaves mine theirs out
}.

(** Whatever part of the input arrives asks for nothing out of range. *)
Definition sane_input (typed : list Z) : Prop :=
  forall got, got `sublist_of` typed -> sane_session [] (decode got kb0).1.

Definition terminal_ok (n : Z) (typed theirs : list Z) (t : T) : Prop :=
  holds kb others n typed (tpc t) (texec t) /\ tinv theirs t.

Lemma tinv_same theirs t p' w' : tinv theirs t -> console w' = console (texec t) -> futures w' = futures (texec t) ->
  tinv theirs (mkTerm p' w' (tlocals t) (tconsole t)).
Proof.
  intros [H1 H2 H3 H4] Hc Hf. split; cbn [tconsole texec tlocals]; unfold said_so_far; rewrite ?Hf, ?Hc; try done.
Qed.

Lemma tmain_ok n typed theirs c t tl sl : 0 <= n < 2 ^ 63 -> sane_input typed ->
  inv kb others n typed (tpc t) (texec t) tl sl -> tinv theirs t ->
  exists t' tl' sl', tmain rdtsc kb kb0 c t = Ret (tt, t') /\ inv kb others (n + 1) typed (tpc t') (texec t') tl' sl' /\
    tinv theirs t' /\ (tpc t <> Halted -> c <> Yield -> cost (tpc t') tl' sl' < cost (tpc t) tl sl).
Proof.
  intros Hn Hsane Hinv Ht.
  destruct (main_ok kb others Hkb Hsize n typed c _ _ tl sl Hn Hinv) as (p' & w' & tl' & sl' & Hm & Hinv' & Hcost).
  destruct (main_effect _ _ _ _ _ _ Hm) as [Hc Hf]. unfold tmain. rewrite Hm.
  pose proof (inv_pc _ _ _ _ _ _ _ _ Hinv) as Hpc. pose proof (inv_delivery _ _ _ _ _ _ _ _ Hinv) as [Hsub _].
  destruct t as [p w l x]. cbn [tpc texec tlocals tconsole] in *.
  assert (Hsame : futures w' = futures w -> exists t' tl' sl', Ret (tt, mkTerm p' w' l x) = Ret (tt, t') /\
    inv kb others (n + 1) typed (tpc t') (texec t') tl' sl' /\ tinv theirs t' /\
    (p <> Halted -> c <> Yield -> cost (tpc t') tl' sl' < cost p tl sl)).
  { intros Hf'. exists (mkTerm p' w' l x), tl', sl'. split; [done|]. split; [done|].
    split; [by apply (tinv_same theirs (mkTerm p w l x))|done]. }
  destruct Ht as [Hw Hfs Hlo Hout]. cbn [tpc texec tlocals tconsole] in *.
  destruct p; cbn [step_futures] in Hf; try (by apply Hsame).
  - destruct Hpc as [_ Hst]. rewrite Hst in Hlo. destruct l; [by destruct Hlo|]. destruct Hlo as [_ Hh].
    destruct (wp_elim _ _ _ (print_wp patient prompt x (proj1 Hw))) as ([] & x' & Hp & Hpr).
    unfold print_prompt. unfold prompt in Hp. rewrite Hp. do 3 eexists. split; [done|]. split; [exact Hinv'|].
    split; [|exact Hcost]. pose proof (prints_world _ _ _ _ _ _ Hw Hpr) as Hw'.
    destruct Hpr as (_ & Ho & Hf' & _). split; cbn [tpc texec tlocals tconsole]; [done|congruence| |].
    + rewrite Hf, Hh. split; [done|]. split; [done|apply holds_new].
    + rewrite Hc. intros Hn0 mine. unfold said_so_far. rewrite Hf, Hh. intros [= <-].
      destruct (Hout Hn0 []) as (out & Ho1 & Hi); [by unfold said_so_far; rewrite Hst|].
      exists (out ++ prompt). split; [by rewrite Ho, Ho1, app_assoc|]. by apply (interleaves_mine [] theirs out).
  - destruct Hpc as [_ Hst]. rewrite Hst in Hlo. destruct l as [l|]; [|by destruct Hlo]. destruct Hlo as [_ Hl].
    destruct (body_ok (handled (futures w)) scancode l x Hl Hw) as (l' & x' & -> & Hl' & Hw' & Hf' & Hsaid).
    { apply Hsane. etrans; [|exact Hsub]. simpl. apply sublist_app; [done|]. apply sublist_skip, sublist_nil_l. }
    do 3 eexists. split; [done|]. split; [exact Hinv'|]. split; [|exact Hcost].
    split; cbn [tpc texec tlocals tconsole]; [done|congruence|by rewrite Hf|].
    rewrite Hc. intros Hn0 mine. unfold said_so_far. rewrite Hf. simpl. rewrite Hst, <- Hfs. intros Hmine.
    destruct (Hsaid mine Hmine) as (before & new & Hb & -> & _ & Ho & _).
    destruct (Hout Hn0 before) as (out & Ho1 & Hi); [by unfold said_so_far; rewrite Hst, <- Hfs|].
    exists (out ++ new). split; [by rewrite Ho, Ho1, app_assoc|]. by apply interleaves_mine.
Qed.

Lemma warnings_ok ls x : world_ok x -> exists x' out,
  for_each ls (fun line => println (text line)) x = Ret (tt, x') /\ prints out x x' /\ (ls = [] -> x' = x).
Proof.
  intros Hx. destruct (wp_elim _ _ _ (print_lines_wp patient text ls x (proj1 Hx))) as ([] & x' & Hr & Hp).
  exists x'. eexists. split; [exact Hr|]. split; [exact Hp|]. intros ->. by injection Hr.
Qed.

Lemma tkey_ok n typed theirs s t : 0 <= n < 2 ^ 63 -> terminal_ok n typed theirs t ->
  exists t', tkey s t = Ret (tt, t') /\ terminal_ok (n + 1) (typed ++ [s]) theirs t' /\ tpc t' = after_irq (tpc t).
Proof.
  intros Hn [Hh [Hw Hfs Hlo Hout]].
  destruct (key_ok kb others Hkb Hsize n typed s _ _ Hn Hh) as (w' & Hk & Hh').
  destruct (key_effect _ _ _ Hk) as [[ls Hc] Hf]. unfold tkey. rewrite Hk, Hc, drop_app_length.
  destruct (warnings_ok ls (tconsole t) Hw) as (x' & out & -> & Hp & Hnil).
  eexists. split; [done|]. split; [|done]. split; [exact Hh'|]. pose proof (prints_world _ _ _ _ _ _ Hw Hp) as Hw'.
  destruct Hp as (_ & Ho & Hf' & _). split; cbn [tpc texec tlocals tconsole]; unfold said_so_far; rewrite ?Hf; [done|congruence|done|].
  rewrite Hc. intros [Hn0 Hls]%app_nil mine Hm. rewrite (Hnil Hls). by apply Hout.
Qed.

Lemma other_prints n typed theirs t x' out : terminal_ok n typed theirs t -> prints out (tconsole t) x' ->
  terminal_ok n typed (theirs ++ out) (mkTerm (tpc t) (texec t) (tlocals t) x').
Proof.
  intros [Hh [Hw Hfs Hlo Hout]] Hp. split; [done|]. pose proof (prints_world _ _ _ _ _ _ Hw Hp).
  destruct Hp as (_ & Ho & Hf & _). split; cbn [tpc texec tlocals tconsole]; [done|congruence|done|].
  intros Hn mine Hm. destruct (Hout Hn mine Hm) as (o & Ho1 & Hi). exists (o ++ out).
  split; [by rewrite Ho, Ho1, app_assoc|by apply interleaves_theirs].
Qed.

Lemma quiet_keeps n typed theirs t x' : terminal_ok n typed theirs t -> quiet (tconsole t) x' ->
  terminal_ok n typed theirs (mkTerm (tpc t) (texec t) (tlocals t) x').
Proof.
  intros [Hh [Hw Hfs Hlo Hout]] Hq. split; [done|]. destruct (quiet_ok _ _ Hw Hq) as (Hw' & Hf & Ho).
  split; cbn [tpc texec tlocals tconsole]; [done|congruence|done|by rewrite Ho].
Qed.

Notation term_step := (term_step rdtsc kb kb0).

Lemma trun_ok ls : forall n typed theirs t t',
  0 <= n -> n + Z.of_nat (length ls) < 2 ^ 63 -> sane_input (typed ++ typed_of (exec_labels ls)) ->
  terminal_ok n typed theirs t -> run term_step t ls t' ->
  terminal_ok (n + Z.of_nat (length ls)) (typed ++ typed_of (exec_labels ls)) (theirs ++ said_by_others ls) t'.
Proof.
  assert (Hmono : forall n m typed theirs t, terminal_ok n typed theirs t -> n <= m -> terminal_ok m typed theirs t).
  { intros n m typed theirs t [(tl & sl & [H1 H2 H3 H4 H5 H6]) Ht] Hle. split; [|done]. exists tl, sl.
    split; [by eapply tq_ok_mono|by eapply sq_ok_mono|done..]. }
  induction ls as [|l ls IH]; intros n typed theirs t t' Hn Hlt Hs Hok Hr.
  - inversion Hr; subst. cbn. by rewrite !app_nil_r, Z.add_0_r.
  - inversion Hr as [|? ? t1 ? ? Hst Hrest]; subst. cbn [length] in *.
    replace (n + Z.of_nat (S (length ls))) with (n + 1 + Z.of_nat (length ls)) by lia.
    inversion Hst as [c ? ? Hm|key ? ? Hp Hm|i cx out ? x' Hp Hm|? x' Hq]; subst.
    + destruct Hok as [(tl & sl & Hinv) Ht].
      destruct (tmain_ok n typed theirs c t tl sl) as (t2 & tl2 & sl2 & He & Hinv2 & Ht2 & _);
        [lia|intros got Hg; apply Hs; by apply sublist_inserts_r|done|done|].
      rewrite Hm in He. injection He as <-. apply (IH _ _ _ t1); [lia|lia|done|by split; [exists tl2, sl2|]|done].
    + destruct (tkey_ok n typed theirs key t) as (t2 & He & Hok2 & _); [lia|done|].
      rewrite Hm in He. injection He as <-.
      change (typed_of (exec_labels (TKey key :: ls))) with ([key] ++ typed_of (exec_labels ls)) in *.
      rewrite app_assoc in *. by apply (IH _ _ _ t1); [lia|lia| | |].
    + destruct (wp_elim _ _ _ (print_wp patient out (tconsole t) (proj1 (ti_world _ _ (proj2 Hok))))) as ([] & x2 & He & Hpr).
      rewrite Hm in He. injection He as <-.
      change (said_by_others (TOther out :: ls)) with (out ++ said_by_others ls). rewrite app_assoc.
      eapply (IH (n + 1) typed); [lia|lia|exact Hs| |exact Hrest].
      apply (Hmono n); [by apply other_prints|lia].
    + eapply (IH (n + 1) typed); [lia|lia|exact Hs| |exact Hrest].
      apply (Hmono n); [by apply quiet_keeps|lia].
Qed.

Lemma tdrain_ok m : forall n typed theirs t tl sl cs,
  0 <= n -> n + Z.of_nat m < 2 ^ 63 -> sane_input typed -> inv kb others n typed (tpc t) (texec t) tl sl ->
  tinv theirs t -> cost (tpc t) tl sl <= Z.of_nat m -> length cs = m -> Yield ∉ cs ->
  exists cs' t', cs' `prefix_of` cs /\ run term_step t (map TMain cs') t' /\ tpc t' = Halted /\
    terminal_ok (n + Z.of_nat m) typed theirs t'.
Proof.
  induction m as [|m IH]; intros n typed theirs t tl sl cs Hn Hlt Hs Hinv Ht Hc Hl Hy.
  - assert (tpc t = Halted) by (unfold cost in Hc; destruct (tpc t); done || (repeat case_match; lia)).
    exists [], t. split_and!; [apply prefix_nil|constructor|done|rewrite Z.add_0_r; by split; [exists tl, sl|]].
  - destruct (decide_pc (tpc t)) as [Hp|Hp].
    { exists [], t. split_and!; [apply prefix_nil|constructor|done|]. split; [|done]. exists tl, sl.
      destruct Hinv as [H1 H2 H3 H4 H5 H6]. split; [eapply tq_ok_mono; [done|lia]|eapply sq_ok_mono; [done|lia]|done..]. }
    destruct cs as [|c cs]; [done|]. apply not_elem_of_cons in Hy as [Hyc Hy].
    destruct (tmain_ok n typed theirs c t tl sl) as (t1 & tl1 & sl1 & He & Hinv1 & Ht1 & Hcost); [lia|done..|].
    destruct (IH (n + 1) typed theirs t1 tl1 sl1 cs) as (cs' & t2 & Hpre & Hrun & Hh & Hok); [lia|lia|done..| |by injection Hl|done|].
    { specialize (Hcost Hp ltac:(congruence)). lia. }
    exists (c :: cs'), t2. split; [by apply prefix_cons|]. split; [econstructor; [by constructor|done]|]. split; [done|].
    by replace (n + Z.of_nat (S m)) with (n + 1 + Z.of_nat m) by lia.
Qed.

(** *** Runs of the executor are runs of the terminal *)

Definition lift_label (l : label) : tlabel := match l with LMain c => TMain c | LKey s => TKey s end.

Lemma tmain_exec c (t t' : T) : tmain rdtsc kb kb0 c t = Ret (tt, t') ->
  main_step kb c (tpc t) (texec t) = Ret (tpc t', texec t').
Proof. unfold tmain. intros Hm. repeat (case_match; simplify_eq/=); done. Qed.

Lemma tkey_exec s (t t' : T) : tkey s t = Ret (tt, t') ->
  keyboard_interrupt_handler s (texec t) = Ret (tt, texec t') /\ tpc t' = after_irq (tpc t).
Proof.
  unfold tkey. intros Hm. destruct (keyboard_interrupt_handler s (texec t)) as [[[] w']|]; [|done].
  destruct (for_each _ _ _) as [[[] x']|]; [|done]. by injection Hm as <-.
Qed.

Lemma exec_lifts ls : forall n typed theirs t s', 0 <= n -> n + Z.of_nat (length ls) < 2 ^ 63 ->
  sane_input (typed ++ typed_of ls) -> terminal_ok n typed theirs t ->
  exec kb ls (tpc t, texec t) = Some s' ->
  exists t', run term_step t (lift_label <$> ls) t' /\ (tpc t', texec t') = s'.
Proof.
  induction ls as [|[c|key] ls IH]; intros n typed theirs t s' Hn Hlt Hs Hok He; cbn [length exec fst snd] in *.
  - injection He as <-. exists t. by split; [constructor|].
  - destruct Hok as [(tl & sl & Hinv) Ht].
    destruct (tmain_ok n typed theirs c t tl sl) as (t1 & tl1 & sl1 & Hm & Hinv1 & Ht1 & _);
      [lia|intros got Hg; apply Hs; by apply sublist_inserts_r|done..|].
    rewrite (tmain_exec _ _ _ Hm) in He.
    destruct (IH (n + 1) typed theirs t1 s') as (t' & Hr & Hst); [lia|lia|done|by split; [exists tl1, sl1|]|done|].
    exists t'. split; [|done]. econstructor; [by constructor|done].
  - destruct (tkey_ok n typed theirs key t) as (t1 & Hm & Hok1 & _); [lia|done|].
    destruct (tkey_exec _ _ _ Hm) as [Hk Hp1].
    assert (Hpc : tpc t <> Checking) by (intros E; by rewrite E in He).
    assert (He1 : exec kb ls (tpc t1, texec t1) = Some s').
    { rewrite Hp1. rewrite Hk in He. by destruct (tpc t). }
    destruct (IH (n + 1) (typed ++ [key]) theirs t1 s') as (t' & Hr & Hst); [lia|lia| |done|done|].
    { by rewrite <- app_assoc. }
    exists t'. split; [|done]. econstructor; [by constructor|done].
Qed.

(** *** Typing ahead *)

(** As many keys as fit in the queue are taken without a warning. *)
Lemma keys_typed keys : forall n typed theirs t l, 0 <= n -> n + 2 * Z.of_nat (length keys) + 1 < 2 ^ 63 ->
  terminal_ok n typed theirs t -> tpc t <> Checking -> holding n (texec t) l -> (length l + length keys <= 100)%nat ->
  exists t', run term_step t (map TKey keys) t' /\ console (texec t') = console (texec t).
Proof.
  induction keys as [|key keys IH]; intros n typed theirs t l Hn Hlt Hok Hp Hh Hl; [by exists t; split; [constructor|]|].
  cbn [length] in *. destruct (tkey_ok n typed theirs key t) as (t1 & Hk & Hok1 & Hp1); [lia|done|].
  destruct (key_arrives n (texec t) l key Hh) as (w1 & Hw & Hh1 & _ & Hc & _); [lia|lia|].
  destruct (tkey_exec _ _ _ Hk) as [Hk1 _]. rewrite Hw in Hk1. injection Hk1 as ->.
  assert (Hok2 : terminal_ok (n + 2) (typed ++ [key]) theirs t1).
  { destruct Hok1 as [(tl & sl & [H1 H2 H3 H4 H5 H6]) Ht]. split; [|done]. exists tl, sl.
    split; [eapply tq_ok_mono; [done|lia]|eapply sq_ok_mono; [done|lia]|done..]. }
  destruct (IH (n + 2) (typed ++ [key]) theirs t1 (l ++ [key])) as (t' & Hr & Hc'); [lia|lia|done| |done|rewrite length_app; simpl; lia|].
  { rewrite Hp1. by destruct (tpc t). }
  exists t'. split; [econstructor; [by constructor|done]|congruence].
Qed.
End session.

Lemma mains_console {D KB Ev} `{Ports D} `{KeyboardDecoder KB Ev} rdtsc kb (kb0 : KB) cs :
  forall t t' : terminal D KB, run (term_step rdtsc kb kb0) t (map TMain cs) t' -> console (texec t') = console (texec t).
Proof.
  induction cs as [|c cs IH]; intros t t' Hr; inversion Hr as [|? ? t1 ? ? Hs Hrest]; subst; [done|].
  inversion Hs as [c' ? ? Hm| | |]; subst. rewrite (IH _ _ Hrest).
  apply tmain_exec in Hm. by destruct (main_effect _ _ _ _ _ _ Hm).
Qed.

(** ** The terminal from the executor's start *)

Section terminal.
Context {D : Type} `{Ports D} {latency : nat} `{!Uart16550 D 0x3F8 latency}.
Context (rdtsc : Z -> Z) (lo hi : Z) (A : list (Z * Layout)).
Hypothesis patient : (latency < RETRIES)%nat.
Context {KB Ev : Type} `{!KeyboardDecoder KB Ev} (kb0 : KB).
Notation world_ok := (world_ok (latency := latency) lo hi A).
Notation output := (output (latency := latency)).

(** [t] is reached by [ls] from the executor with [k] tasks, of which [kb] is the
    shell, and the console [x0]. *)
Definition treaches (k : nat) (kb : Z) (x0 : world D) (ls : list tlabel) (t : terminal D KB) : Prop :=
  (k <= 100)%nat /\ 0 <= kb < Z.of_nat k /\ Z.of_nat (length ls) < 2 ^ 62 /\
  exists w, enrolled (mkKeyboard false []) k w /\ run (term_step rdtsc kb kb0) (mkTerm Popping w None x0) ls t.

(** The scancodes of the interrupts. *)
Definition keys_of (ls : list tlabel) : list Z := typed_of (exec_labels ls).

Lemma start_ok k kb w x0 : (k <= 100)%nat -> 0 <= kb < Z.of_nat k -> enrolled (mkKeyboard false []) k w -> world_ok x0 ->
  terminal_ok (latency := latency) lo hi A kb kb0 (others_of k kb) x0 100 [] [] (mkTerm Popping w None x0).
Proof.
  intros Hk Hkb He Hx. split; [by apply enrolled_holds|]. destruct He as (_ & _ & _ & _ & _ & _ & Hf).
  split; cbn [tpc texec tlocals tconsole]; [done|done|by rewrite Hf|]. intros _ mine. unfold said_so_far. rewrite Hf.
  intros [= <-]. exists []. rewrite app_nil_r. split; [done|apply interleaves_nil].
Qed.

Lemma treaches_ok k kb x0 ls t : treaches k kb x0 ls t -> world_ok x0 -> sane_input kb0 (keys_of ls) ->
  terminal_ok (latency := latency) lo hi A kb kb0 (others_of k kb) x0 (100 + Z.of_nat (length ls))
    (keys_of ls) (said_by_others ls) t.
Proof.
  intros (Hk & Hkb & Hls & w & He & Hr) Hx Hs.
  apply (trun_ok rdtsc lo hi A patient kb kb0 (others_of k kb) (others_not_kb k kb) (others_size k kb Hk Hkb) x0
    ls 100 [] [] (mkTerm Popping w None x0)); [lia|lia|done|by apply start_ok|done].
Qed.

(** The terminal never panics. However the keyboard's interrupts and the other
    handlers interleave with the executor, whatever is typed (with [alloc] requests of
    at most [2^56] bytes), the executor can take its next step, the shell's commands
    included, and an interrupt its handler; the screen, the serial line and the heap
    stay in order and the file system is untouched. *)
Theorem terminal_never_panics k kb x0 ls t :
  treaches k kb x0 ls t -> world_ok x0 -> sane_input kb0 (keys_of ls) ->
  (forall c, exists t', tmain rdtsc kb kb0 c t = Ret (tt, t')) /\
  (forall s, exists t', tkey s t = Ret (tt, t')) /\
  world_ok (tconsole t) /\ wfs (tconsole t) = wfs x0.
Proof.
  intros Hr Hx Hs. pose proof (treaches_ok _ _ _ _ _ Hr Hx Hs) as [Hh Ht]. destruct Hr as (Hk & Hkb & Hls & _).
  pose proof (others_not_kb k kb) as Ho. pose proof (others_size k kb Hk Hkb) as Hsz. split_and!; [| |apply Ht|apply Ht].
  - intros c. destruct Hh as (tl & sl & Hinv).
    destruct (tmain_ok rdtsc lo hi A patient kb kb0 _ Ho Hsz x0 (100 + Z.of_nat (length ls)) _ _ c t tl sl ltac:(lia) Hs Hinv Ht) as (t' & _ & _ & He & _).
    by exists t'.
  - intros s. destruct (tkey_ok lo hi A patient kb kb0 _ Ho Hsz x0 (100 + Z.of_nat (length ls)) _ _ s t ltac:(lia) (conj Hh Ht)) as (t' & He & _).
    by exists t'.
Qed.

Lemma terminal_halts k kb x0 ls t cs :
  treaches k kb x0 ls t -> world_ok x0 -> sane_input kb0 (keys_of ls) -> length cs = 1409%nat -> Yield ∉ cs ->
  exists cs' t', cs' `prefix_of` cs /\ run (term_step rdtsc kb kb0) t (map TMain cs') t' /\ tpc t' = Halted /\
    terminal_ok (latency := latency) lo hi A kb kb0 (others_of k kb) x0 (1509 + Z.of_nat (length ls))
      (keys_of ls) (said_by_others ls) t'.
Proof.
  intros Hr Hx Hs Hl Hy. pose proof (treaches_ok _ _ _ _ _ Hr Hx Hs) as [(tl & sl & Hinv) Ht].
  destruct Hr as (Hk & Hkb & Hls & _). pose proof (cost_bound _ _ _ _ _ _ _ _ Hinv).
  destruct (tdrain_ok rdtsc lo hi A patient kb kb0 _ (others_not_kb k kb) (others_size k kb Hk Hkb) x0 1409
    (100 + Z.of_nat (length ls)) _ _ t tl sl cs ltac:(lia) ltac:(lia) Hs Hinv Ht ltac:(lia) Hl Hy)
    as (cs' & t' & Hpre & Hrun & Hp & Hok).
  exists cs', t'. split_and!; try done. by replace (1509 + Z.of_nat (length ls)) with (100 + Z.of_nat (length ls) + Z.of_nat 1409) by lia.
Qed.

(** With nothing refused, the halted terminal has handled everything typed. *)
Lemma halted_session k kb x0 n typed theirs t :
  terminal_ok (latency := latency) lo hi A kb kb0 (others_of k kb) x0 n typed theirs t -> tpc t = Halted ->
  console (texec t) = [] ->
  exists s, tlocals t = Some ((decode typed kb0).2, s) /\ holds_line s (line_after [] (decode typed kb0).1) /\
    forall out, transcript (wfs x0) [] (decode typed kb0).1 = Some out ->
      exists o, output (tconsole t) = output x0 ++ o /\ interleaves (prompt ++ out) theirs o.
Proof.
  intros [(tl & sl & [_ _ _ _ Hpc [_ Hd]]) [Hw Hf Hlo Hout]] Hp Hc. rewrite Hp in Hpc, Hd. specialize (Hd Hc).
  destruct Hpc as [[Hin|(Hst & _ & ->)] ->]; [by apply not_elem_of_nil in Hin|]. simpl in Hd. rewrite app_nil_r in Hd.
  rewrite Hst, Hd in Hlo. destruct (tlocals t) as [[kb' s]|]; [|by destruct Hlo]. destruct Hlo as (_ & Hkb' & Hline).
  simpl in Hkb'. subst kb'. exists s. split; [done|]. split; [done|]. intros out Hout'. apply (Hout Hc).
  unfold said_so_far, shell_said. by rewrite Hst, Hd, Hout'.
Qed.

(** C7: a typed line is answered. From any state the terminal reaches from a world in
    order, as long as no command line that can arise from the keys typed is an [alloc] of
    more than [2^56] bytes: when the keys stop and the other tasks finish or suspend when
    polled, the executor halts within 1409 steps; if no scancode was refused with a
    warning, the shell has then decoded all of them and its line is the line as edited;
    and if the commands entered are ones the file system alone answers, what has been
    transmitted is the prompt, the echo and the answers of the whole session, in order,
    interleaved with what the other tasks printed and with nothing else. *)
Theorem terminal_answers k kb x0 ls t cs :
  treaches k kb x0 ls t -> world_ok x0 -> sane_input kb0 (keys_of ls) ->
  length cs = 1409%nat -> Yield ∉ cs ->
  exists cs' t', cs' `prefix_of` cs /\ run (term_step rdtsc kb kb0) t (map TMain cs') t' /\ tpc t' = Halted /\
    world_ok (tconsole t') /\ wfs (tconsole t') = wfs x0 /\
    (console (texec t') = [] ->
      let acts := (decode (keys_of ls) kb0).1 in
      exists s, tlocals t' = Some ((decode (keys_of ls) kb0).2, s) /\ holds_line s (line_after [] acts) /\
        forall out, transcript (wfs x0) [] acts = Some out ->
          exists o, output (tconsole t') = output x0 ++ o /\ interleaves (prompt ++ out) (said_by_others ls) o).
Proof.
  intros Hr Hx Hs Hl Hy. destruct (terminal_halts k kb x0 ls t cs Hr Hx Hs Hl Hy) as (cs' & t' & Hpre & Hrun & Hp & Hok).
  exists cs', t'. split_and!; try done; [apply Hok|apply Hok|]. intros Hc. by eapply halted_session.
Qed.
End terminal.

(** *** What the interrupt handlers do is quiet *)

Lemma counting_quiet {D} rdtsc (x : world D) m k' (id : TraceEventId) a0 a1 :
  length (entries (ktrace (wheap x))) = Z.to_nat BUFFER_SIZE ->
  current_allocated m = current_allocated (kmon (wheap x)) ->
  trace_event rdtsc id a0 a1 (mkKworld (kheap (wheap x)) m (ktrace (wheap x)) (kreads (wheap x))) = Ret (tt, k') ->
  quiet x (mkWorld (wserial x) (wscreen x) (wfs x) k' (wlog x)).
Proof.
  intros Hl Hm Ht.
  assert (Hw : wp (trace_event rdtsc id a0 a1) (fun _ k => kheap k = kheap (wheap x) /\ kmon k = m /\
    length (entries (ktrace k)) = Z.to_nat BUFFER_SIZE) (mkKworld (kheap (wheap x)) m (ktrace (wheap x)) (kreads (wheap x)))).
  { by apply trace_event_wp. }
  destruct (wp_elim _ _ _ Hw) as ([] & k1 & He & H1 & H2 & H3). rewrite Ht in He. injection He as <-.
  unfold quiet. simpl. rewrite H1, H2, H3, Hl. by split_and!.
Qed.

(** The timer's handler counts the interrupt and the tick, and records an event. *)
Lemma timer_quiet {D} rdtsc (x : world D) k' :
  length (entries (ktrace (wheap x))) = Z.to_nat BUFFER_SIZE ->
  trace_event rdtsc Interrupt 32 0 (mkKworld (kheap (wheap x)) (inc_timer_tick (inc_interrupt 32 (kmon (wheap x))))
    (ktrace (wheap x)) (kreads (wheap x))) = Ret (tt, k') ->
  quiet x (mkWorld (wserial x) (wscreen x) (wfs x) k' (wlog x)).
Proof. intros Hl. by apply counting_quiet. Qed.

(** ** A session that shows the hypotheses can hold *)

Fixpoint sublists {X} (l : list X) : list (list X) :=
  match l with
  | [] => [[]]
  | x :: l' => (cons x <$> sublists l') ++ sublists l'
  end.

Lemma elem_of_sublists {X} (l1 l2 : list X) : l1 `sublist_of` l2 -> l1 ∈ sublists l2.
Proof.
  induction 1 as [|x l1 l2 _ IH|x l1 l2 _ IH]; cbn [sublists]; [by left|apply elem_of_app..].
  - left. by apply list_elem_of_fmap_2.
  - by right.
Qed.

(** [ls] and Enter, after both tasks have been polled; the first key comes while the
    processor is halted, the others while the task is being polled. *)
Definition session_labels : list label :=
  replicate 8 (LMain Suspend) ++ [LKey 108] ++ replicate 3 (LMain Suspend) ++ [LKey 115; LKey 10].

Lemma session_sane : sane_input (KeyboardDecoder0 := plain_decoder) tt (typed_of session_labels).
Proof.
  intros got Hg%elem_of_sublists. apply no_alloc_sane.
  assert (Hall : forallb (fun got => no_alloc [] (@decode unit Z plain_decoder got tt).1)
    (sublists (typed_of session_labels)) = true) by (vm_compute; reflexivity).
  rewrite forallb_forall in Hall. apply Hall. by apply list_elem_of_In.
Qed.

(** The run of the executor, and the terminal it takes along. *)
Lemma session_runs : exists t,
  treaches (KeyboardDecoder0 := plain_decoder) (fun n => n) tt 2 1 demo_world (lift_label <$> session_labels) t /\
  console (texec t) = [].
Proof.
  pose proof (start_ok (latency := 2) 65536 69632 [] (KeyboardDecoder0 := plain_decoder) tt 2 1 demo_start demo_world
    ltac:(lia) ltac:(lia) demo_start_enrolled demo_world_ok) as Hok.
  destruct (exec 1 session_labels (Popping, demo_start)) as [[p w]|] eqn:He; [|vm_compute in He; discriminate].
  destruct (exec_lifts (latency := 2) (fun n => n) 65536 69632 [] demo_patient (KeyboardDecoder0 := plain_decoder) 1 tt
    (others_of 2 1) (others_not_kb 2 1) (others_size 2 1 ltac:(lia) ltac:(lia)) demo_world session_labels 100 [] []
    (mkTerm Popping demo_start None demo_world) (p, w)) as (t & Hr & Ht); [lia|by vm_compute|exact session_sane|exact Hok|exact He|].
  exists t. split.
  - split; [lia|]. split; [lia|]. split; [by vm_compute|]. exists demo_start. split; [exact demo_start_enrolled|exact Hr].
  - injection Ht as _ ->. vm_compute in He. by injection He as <- <-.
Qed.

Lemma terminal_never_panics_witness : exists t, forall s, exists t',
  tkey (D := uart) (KB := unit) s t = Ret (tt, t') /\ console (texec t) = [].
Proof.
  destruct session_runs as (t & Hr & Hc). exists t. intros s.
  destruct (terminal_never_panics (latency := 2) (fun n => n) 65536 69632 [] demo_patient (KeyboardDecoder0 := plain_decoder)
    tt 2 1 demo_world _ t Hr demo_world_ok session_sane) as (_ & H2 & _).
  destruct (H2 s) as (t' & H3). exists t'. split; [exact H3|exact Hc].
Defined.

(** [ls] of the root, through the whole machine. *)
Lemma terminal_answers_witness : exists t' : terminal uart unit, tpc t' = Halted /\
  output (latency := 2) (tconsole t') = prompt ++ text "ls" ++ [10] ++ unlines [text "/ (1 entries):"; text "  a"] ++ prompt.
Proof.
  destruct session_runs as (t & Hr & Hc).
  destruct (terminal_answers (latency := 2) (fun n => n) 65536 69632 [] demo_patient (KeyboardDecoder0 := plain_decoder)
    tt 2 1 demo_world _ t (replicate 1409 Suspend) Hr demo_world_ok session_sane) as (cs' & t' & _ & H1 & H2 & _ & _ & H3).
  - apply length_replicate.
  - intros Hin%elem_of_replicate. destruct Hin as [Hin _]. discriminate Hin.
  - exists t'. split; [exact H2|]. rewrite <- (mains_console _ _ _ _ _ _ H1) in Hc.
    destruct (H3 Hc) as (s & _ & _ & H4).
    destruct (H4 (text "ls" ++ [10] ++ unlines [text "/ (1 entries):"; text "  a"] ++ prompt)) as (o & H5 & H6).
    + vm_compute. reflexivity.
    + rewrite H5, (interleaves_alone _ _ H6). reflexivity.
Defined.
