(* ===== verification/Kernel.v ===== *)
(** * The kernel's two tasks

    The terminal with [example_task] of [main.rs] as its other task: the executor of
    [kernel_main], with nothing left open but when the interrupts come. The example
    runs to its end before the shell is polled at all, so that what is transmitted is
    determined by what is typed. *)

From S2P Require Import Prelude Str Fmt Monitor Trace Queue Task TaskInv TaskSpec Io Uart UartSpec Framebuffer Fs.
From S2P Require Import Heap Tlsf TlsfInv KernelHeap Log Shell ShellSpec Async Terminal.
Import ArrayQueue OnceCell.

(** ** [main.rs] *)

(** The future of [async_number()] is ready when it is polled. *)
Definition async_number_poll : Poll Z := Ready 5234.

Section tasks.
Context {D KB Ev : Type} `{Ports D} `{KeyboardDecoder KB Ev} (rdtsc : Z -> Z) (kb0 : KB).
Notation T := (terminal D KB).

(** The future of [example_task()]. *)
Definition example_task_poll : M (world D) (Poll unit) :=
  match async_number_poll with
  | Pending => mret Pending
  | Ready number => _ ← println (text "async number: " ++ dec number); mret (Ready tt)
  end.

(** A step of the executor with the tasks of [kernel_main]: 0 is the example, 1 the
    shell. *)
Definition kmain : M T unit := fun t =>
  match tpc t with
  | PollOther _ _ =>
      match example_task_poll (tconsole t) with
      | Crash f => Crash f
      | Ret (r, x') =>
          tmain rdtsc 1 kb0 (match r with Ready _ => Finish | Pending => Suspend end)
            (mkTerm (tpc t) (texec t) (tlocals t) x')
      end
  | _ => tmain rdtsc 1 kb0 Finish t
  end.

Inductive klabel := KMain | KKey (scancode : Z) | KQuiet.

Definition typed_keys (ls : list klabel) : list Z :=
  omap (fun l => match l with KKey s => Some s | _ => None end) ls.

Inductive kernel_step : T -> klabel -> T -> Prop :=
  | ks_main t t' : kmain t = Ret (tt, t') -> kernel_step t KMain t'
  | ks_key s t t' : tpc t <> Checking -> tkey s t = Ret (tt, t') -> kernel_step t (KKey s) t'
  | ks_quiet t x' : quiet (tconsole t) x' -> kernel_step t KQuiet (mkTerm (tpc t) (texec t) (tlocals t) x').
End tasks.

(** ** What the steps do to the tasks *)

Lemma main_tasks kb p w p' w' : main_step kb Finish p w = Ret (p', w') ->
  tasks w' = match p with PollOther i _ => delete i (tasks w) | _ => tasks w end /\
  (forall i cx, p' = PollOther i cx -> is_Some (tasks w' !! i)).
Proof.
  destruct p; cbn [main_step];
    unfold complete, wake_task, ScancodeStream_new, pop_scancode, register, take, on_queue, on_scancodes, lift, modify, get,
      mbind, M_bind, mret, M_ret; intros Hm;
    simplify_eq/=; repeat (case_match; simplify_eq/=); split; try done; intros ? ? E; simplify_eq/=; repeat case_match; simplify_eq/=; eauto.
Qed.

(** Before the stream is made a key only leaves a warning. *)
Lemma early_key s (w : sys keyboard) : SCANCODE_QUEUE w = uninit ->
  keyboard_interrupt_handler s w =
    Ret (tt, print_line "WARNING: scancode queue uninitialized" (set_metrics (inc_interrupt 33 (metrics w)) w)).
Proof. intros Hq. unfold keyboard_interrupt_handler, add_scancode, mbind, M_bind, modify, get, lift. simpl. by rewrite Hq. Qed.

Lemma tmain_plain {D KB Ev} `{Ports D} `{KeyboardDecoder KB Ev} rdtsc kb (kb0 : KB) c (t t' : terminal D KB) :
  tmain rdtsc kb kb0 c t = Ret (tt, t') -> match tpc t with Creating _ | Handling _ _ => False | _ => True end ->
  tlocals t' = tlocals t /\ tconsole t' = tconsole t.
Proof. unfold tmain. intros Hm Hp. repeat (case_match; simplify_eq/=); done. Qed.

Lemma two_tasks : 1 ∉ others_of 2 1 /\ (base.size (others_of 2 1) <= 99)%nat /\ forall i, i ∈ others_of 2 1 -> i = 0.
Proof.
  split; [apply others_not_kb|]. split; [by apply others_size; lia|].
  intros i. unfold others_of. rewrite elem_of_list_to_set, list_elem_of_filter, elem_of_seqZ. lia.
Qed.

Lemma key_tasks s (w w' : sys keyboard) : keyboard_interrupt_handler s w = Ret (tt, w') -> tasks w' = tasks w.
Proof.
  unfold keyboard_interrupt_handler, add_scancode, wake, take, wake_task, on_queue, on_scancodes, lift, modify, get,
    mbind, M_bind, mret, M_ret. intros Hm. repeat (case_match; simplify_eq/=); done.
Qed.

(** ** The invariant *)

Section kernel.
Context {D : Type} `{Ports D} {latency : nat} `{!Uart16550 D 0x3F8 latency}.
Context (rdtsc : Z -> Z) (lo hi : Z) (A : list (Z * Layout)).
Hypothesis patient : (latency < RETRIES)%nat.
Context {KB Ev : Type} `{!KeyboardDecoder KB Ev} (kb0 : KB) (x0 : world D).
Notation T := (terminal D KB).
Notation world_ok := (world_ok (latency := latency) lo hi A).
Notation output := (output (latency := latency)).
Notation inv := (inv 1 (others_of 2 1)).
Notation tinv := (tinv (latency := latency) lo hi A kb0).

(** What [example_task] prints. *)
Definition example_line : list Z := text "async number: 5234" ++ [10].

(** Before the example has run nothing is printed but warnings; it is next on the task
    queue, or being polled. Afterwards it is gone, and the console has been the shell's
    since [x1]. *)
Definition early (t : T) : Prop :=
  tlocals t = None /\ (console (texec t) = [] -> output (tconsole t) = output x0) /\
  (tpc t = Popping /\ (exists n, queue_ok n (task_queue (texec t)) [0; 1]) /\ is_Some (tasks (texec t) !! 0) \/
   exists cx, tpc t = PollOther 0 cx).
Definition late (x1 : world D) (t : T) : Prop :=
  tasks (texec t) !! 0 = None /\ (forall i cx, tpc t <> PollOther i cx) /\
  (console (texec t) = [] -> output x1 = output x0 ++ example_line).

Record kinv (n : Z) (typed : list Z) (t : T) (x1 : world D) (tl sl : list Z) : Prop := {
  k_exec : inv n typed (tpc t) (texec t) tl sl;
  k_term : tinv x1 [] t;
  k_fs : wfs x1 = wfs x0;
  k_phase : x1 = x0 /\ early t \/ late x1 t
}.

(** As long as the shell has not started, its output can be counted from now. *)
Lemma tinv_rebase x1 t x : tinv x1 [] t -> tlocals t = None -> world_ok x ->
  tinv x [] (mkTerm (tpc t) (texec t) (tlocals t) x).
Proof.
  intros [_ _ Hl _] Hn Hw. rewrite Hn in Hl |- *. destruct Hl as [Hst Hh].
  split; cbn [tconsole texec tlocals tpc]; try done. intros _ mine. unfold said_so_far. rewrite Hst. intros [= <-].
  exists []. rewrite app_nil_r. split; [done|apply interleaves_nil].
Qed.

Lemma example_ok x : world_ok x -> exists x', example_task_poll x = Ret (Ready tt, x') /\ world_ok x' /\
  wfs x' = wfs x /\ output x' = output x ++ example_line.
Proof.
  intros Hx. destruct (wp_elim _ _ _ (print_wp patient example_line x (proj1 Hx))) as ([] & x' & Hp & Hpr).
  exists x'. split; [|split; [by apply (prints_world _ _ _ _ _ _ Hx Hpr)|split; apply Hpr]].
  unfold example_task_poll, async_number_poll, mbind, M_bind, println.
  replace ((text "async number: " ++ dec 5234) ++ [10]) with example_line by reflexivity. by rewrite Hp.
Qed.

(** [tmain_ok] for the two tasks. *)
Lemma step_ok2 c n typed t x1 tl sl : 0 <= n < 2 ^ 63 -> sane_input kb0 typed -> inv n typed (tpc t) (texec t) tl sl ->
  tinv x1 [] t ->
  exists t' tl' sl', tmain rdtsc 1 kb0 c t = Ret (tt, t') /\ inv (n + 1) typed (tpc t') (texec t') tl' sl' /\
    tinv x1 [] t' /\ (tpc t <> Halted -> c <> Yield -> cost (tpc t') tl' sl' < cost (tpc t) tl sl).
Proof. destruct two_tasks as (Hkb & Hsz & _). by apply tmain_ok. Qed.

Lemma kmain_early n typed t tl sl : 0 <= n < 2 ^ 63 -> sane_input kb0 typed -> inv n typed (tpc t) (texec t) tl sl ->
  tinv x0 [] t -> early t ->
  exists t' x1 tl' sl', kmain rdtsc kb0 t = Ret (tt, t') /\ kinv (n + 1) typed t' x1 tl' sl' /\
    cost (tpc t') tl' sl' < cost (tpc t) tl sl.
Proof.
  intros Hn Hs Hi Ht (Hlo & Ho & [(Hp & [m Hq] & [tk Ht0])|[cx Hp]]).
  - destruct (step_ok2 Finish n typed t x0 tl sl Hn Hs Hi Ht) as (t' & tl' & sl' & Hm & Hi' & Ht' & Hc).
    pose proof (tmain_exec _ _ _ _ _ _ Hm) as He. destruct (queue_pop _ _ _ Hq) as (q & Hq' & _).
    assert (Hpc : tpc t' = PollOther 0 (mkWaker 0)).
    { rewrite Hp in He. cbn [main_step] in He. unfold mbind, M_bind, on_queue, get, lift in He. rewrite Hq' in He. simpl in He.
      rewrite Ht0, (proj2 (inv_tasks _ _ _ _ _ _ _ _ Hi) 0 tk Ht0) in He. simpl in He. by injection He as <-. }
    exists t', x0, tl', sl'. unfold kmain. rewrite Hp in *. split; [done|]. split; [|by apply Hc].
    split; [done|done|done|]. left. split; [done|]. destruct (tmain_plain _ _ _ _ _ _ Hm) as [Hl' Hx']; [by rewrite Hp|].
    destruct (main_effect _ _ _ _ _ _ He) as [Hcon _].
    split; [congruence|]. split; [by rewrite Hx', Hcon|]. right. by eexists.
  - destruct (example_ok (tconsole t) (ti_world _ _ _ _ _ _ _ Ht)) as (x' & Hx & Hw & Hf & Hout).
    destruct (step_ok2 Finish n typed (mkTerm (tpc t) (texec t) (tlocals t) x') x' tl sl Hn Hs Hi (tinv_rebase _ _ _ Ht Hlo Hw))
      as (t' & tl' & sl' & Hm & Hi' & Ht' & Hc). cbn [tpc texec tlocals tconsole] in *.
    exists t', x', tl', sl'. unfold kmain. rewrite Hp, Hx. rewrite Hp in *. split; [done|]. split; [|by apply Hc].
    pose proof (tmain_exec _ _ _ _ _ _ Hm) as He. destruct (main_effect _ _ _ _ _ _ He) as [Hcon _].
    destruct (main_tasks _ _ _ _ _ He) as [Htk _]. cbn [tpc texec] in *.
    split; [done|done|by rewrite Hf; apply Ht|]. right. split; [by rewrite Htk, lookup_delete_eq|].
    split; [|by rewrite Hcon, Hout; intros E; rewrite Ho].
    intros i cx' E. rewrite E in He. cbn [main_step] in He. by unfold mbind, M_bind in He; simpl in He.
Qed.

Lemma kmain_ok n typed t x1 tl sl : 0 <= n < 2 ^ 63 -> sane_input kb0 typed -> kinv n typed t x1 tl sl ->
  exists t' x1' tl' sl', kmain rdtsc kb0 t = Ret (tt, t') /\ kinv (n + 1) typed t' x1' tl' sl' /\
    (tpc t <> Halted -> cost (tpc t') tl' sl' < cost (tpc t) tl sl).
Proof.
  intros Hn Hs [Hi Ht Hf [[-> He]|(Ht0 & Hp & Ho)]].
  - destruct (kmain_early n typed t tl sl Hn Hs Hi Ht He) as (t' & x1' & tl' & sl' & H1 & H2 & H3). by exists t', x1', tl', sl'.
  - destruct (step_ok2 Finish n typed t x1 tl sl Hn Hs Hi Ht) as (t' & tl' & sl' & Hm & Hi' & Ht' & Hc).
    exists t', x1, tl', sl'. split; [unfold kmain; destruct (tpc t); try done; by edestruct Hp|].
    split; [|by intros; apply Hc]. split; [done|done|done|]. right.
    pose proof (tmain_exec _ _ _ _ _ _ Hm) as He. destruct (main_effect _ _ _ _ _ _ He) as [Hcon _].
    destruct (main_tasks _ _ _ _ _ He) as [Htk Hpo].
    assert (Ht0' : tasks (texec t') !! 0 = None) by (rewrite Htk; destruct (tpc t); try done; by edestruct Hp).
    split; [done|]. split; [|by rewrite Hcon]. intros i cx E. destruct (Hpo i cx E) as [tk Htk'].
    pose proof (inv_pc _ _ _ _ _ _ _ _ Hi') as Hpc. rewrite E in Hpc. destruct Hpc as (_ & Hin & _).
    apply (proj2 (proj2 two_tasks)) in Hin as ->. congruence.
Qed.

Lemma early_stays n typed s t x1 tl sl : 0 <= n < 2 ^ 63 -> kinv n typed t x1 tl sl -> early t -> x1 = x0 ->
  exists t', tkey s t = Ret (tt, t') /\ tpc t' = tpc t /\ early t'.
Proof.
  intros Hn [Hi Ht _ _] (Hlo & Ho & Hpc) ->. pose proof (ti_locals _ _ _ _ _ _ _ Ht) as Hl. rewrite Hlo in Hl.
  pose proof (inv_sq _ _ _ _ _ _ _ _ Hi) as Hq. unfold sq_ok in Hq. rewrite (proj1 Hl) in Hq. destruct Hq as [Hq _].
  unfold tkey. rewrite (early_key s _ Hq). cbn [console print_line set_metrics]. rewrite drop_app_length.
  destruct (warnings_ok lo hi A patient ["WARNING: scancode queue uninitialized"] (tconsole t) (ti_world _ _ _ _ _ _ _ Ht))
    as (x' & out & -> & _). eexists. split; [done|].
  assert (Hirq : after_irq (tpc t) = tpc t) by (destruct Hpc as [(-> & _)|[cx ->]]; done).
  split; [done|]. split; [done|]. split; [by cbn; intros [_ ?]%app_nil|]. cbn [tpc texec]. by rewrite Hirq.
Qed.

Lemma kkey_ok n typed s t x1 tl sl : 0 <= n < 2 ^ 63 -> kinv n typed t x1 tl sl ->
  exists t' tl' sl', tkey s t = Ret (tt, t') /\ kinv (n + 1) (typed ++ [s]) t' x1 tl' sl' /\ tpc t' = after_irq (tpc t).
Proof.
  intros Hn Hk. pose proof Hk as [Hi Ht Hf Hph]. destruct two_tasks as (Hkb & Hsz & _).
  destruct (tkey_ok lo hi A patient 1 kb0 _ Hkb Hsz x1 n typed [] s t Hn) as (t' & Hm & [(tl' & sl' & Hi') Ht'] & Hp').
  { split; [by exists tl, sl|done]. }
  exists t', tl', sl'. split; [done|]. split; [|done]. split; [done|done|done|].
  destruct Hph as [[-> He]|(Ht0 & Hp & Ho)].
  - left. split; [done|]. destruct (early_stays n typed s t x0 tl sl Hn Hk He eq_refl) as (t2 & Hm2 & _ & He2).
    rewrite Hm in Hm2. by injection Hm2 as <-.
  - right. destruct (tkey_exec _ _ _ Hm) as [Hke _]. split; [by rewrite (key_tasks _ _ _ Hke)|].
    split; [rewrite Hp'; destruct (tpc t); try done; by edestruct Hp|].
    intros Hc. apply Ho. destruct (key_effect _ _ _ Hke) as [[l Hl] _]. rewrite Hl in Hc. by apply app_nil in Hc as [? _].
Qed.

Lemma kquiet_ok n typed t x' x1 tl sl : quiet (tconsole t) x' -> kinv n typed t x1 tl sl ->
  kinv n typed (mkTerm (tpc t) (texec t) (tlocals t) x') x1 tl sl.
Proof.
  intros Hq [Hi Ht Hf Hph]. split; [done| |done|].
  - destruct (quiet_keeps lo hi A 1 kb0 (others_of 2 1) x1 n typed [] t x') as [_ Ht']; [by split; [exists tl, sl|]|done|done].
  - destruct Hph as [[-> (Hlo & Ho & Hpc)]|Hl]; [left|by right]. split; [done|]. split; [done|]. split; [|done].
    cbn [tconsole texec]. destruct (quiet_ok lo hi A _ _ (ti_world _ _ _ _ _ _ _ Ht) Hq) as (_ & _ & ->). done.
Qed.

(** ** Runs *)

Notation kstep := (kernel_step rdtsc kb0).

Lemma kinv_mono n m typed t x1 tl sl : kinv n typed t x1 tl sl -> n <= m -> kinv m typed t x1 tl sl.
Proof.
  intros [[H1 H2 H3 H4 H5 H6] Ht Hf Hp] Hle. split; [|done..].
  split; [by eapply tq_ok_mono|by eapply sq_ok_mono|done..].
Qed.

Lemma krun_ok ls : forall n typed t t' x1 tl sl,
  0 <= n -> n + Z.of_nat (length ls) < 2 ^ 63 -> sane_input kb0 (typed ++ typed_keys ls) -> kinv n typed t x1 tl sl ->
  run kstep t ls t' ->
  exists x1' tl' sl', kinv (n + Z.of_nat (length ls)) (typed ++ typed_keys ls) t' x1' tl' sl'.
Proof.
  induction ls as [|l ls IH]; intros n typed t t' x1 tl sl Hn Hlt Hs Hk Hr; inversion Hr as [|? ? t1 ? ? Hst Hrest]; subst.
  - cbn. rewrite app_nil_r, Z.add_0_r. by exists x1, tl, sl.
  - cbn [length] in *. replace (n + Z.of_nat (S (length ls))) with (n + 1 + Z.of_nat (length ls)) by lia.
    inversion Hst as [? ? Hm|s ? ? Hp Hm|? x' Hq]; subst.
    + destruct (kmain_ok n typed t x1 tl sl) as (t2 & x2 & tl2 & sl2 & Hm2 & Hk2 & _);
        [lia|intros got Hg; apply Hs; by apply sublist_inserts_r|done|].
      rewrite Hm in Hm2. injection Hm2 as <-. by apply (IH _ _ t1 _ x2 tl2 sl2); [lia|lia|..].
    + destruct (kkey_ok n typed s t x1 tl sl) as (t2 & tl2 & sl2 & Hm2 & Hk2 & _); [lia|done|].
      rewrite Hm in Hm2. injection Hm2 as <-. change (typed_keys (KKey s :: ls)) with ([s] ++ typed_keys ls) in *.
      rewrite app_assoc in *. by apply (IH _ _ t1 _ x1 tl2 sl2); [lia|lia|..].
    + eapply (IH (n + 1) typed); [lia|lia|exact Hs| |exact Hrest]. apply (kinv_mono n); [by apply kquiet_ok|lia].
Qed.

Lemma kdrain_ok m : forall n typed t x1 tl sl,
  0 <= n -> n + Z.of_nat m < 2 ^ 63 -> sane_input kb0 typed -> kinv n typed t x1 tl sl -> cost (tpc t) tl sl <= Z.of_nat m ->
  exists j t' x1' tl' sl', (j <= m)%nat /\ run kstep t (replicate j KMain) t' /\ tpc t' = Halted /\
    kinv (n + Z.of_nat m) typed t' x1' tl' sl'.
Proof.
  induction m as [|m IH]; intros n typed t x1 tl sl Hn Hlt Hs Hk Hc.
  - assert (tpc t = Halted) by (unfold cost in Hc; destruct (tpc t); done || (repeat case_match; lia)).
    exists 0%nat, t, x1, tl, sl. rewrite Z.add_0_r. by split_and!; [|constructor|..].
  - destruct (decide_pc (tpc t)) as [Hp|Hp].
    { exists 0%nat, t, x1, tl, sl. split_and!; [lia|constructor|done|]. apply (kinv_mono n); [done|lia]. }
    destruct (kmain_ok n typed t x1 tl sl) as (t1 & x2 & tl1 & sl1 & Hm & Hk1 & Hcost); [lia|done..|].
    destruct (IH (n + 1) typed t1 x2 tl1 sl1) as (j & t2 & x3 & tl2 & sl2 & Hj & Hr & Hh & Hk2); [lia|lia|done|done| |].
    { specialize (Hcost Hp). lia. }
    exists (S j), t2, x3, tl2, sl2. split; [lia|]. split; [econstructor; [by constructor|done]|]. split; [done|].
    by replace (n + Z.of_nat (S m)) with (n + 1 + Z.of_nat m) by lia.
Qed.

(** A halted kernel has run the example and answered everything typed. *)
Lemma khalted n typed t x1 tl sl : kinv n typed t x1 tl sl -> tpc t = Halted -> console (texec t) = [] ->
  let acts := (decode typed kb0).1 in
  exists s, tlocals t = Some ((decode typed kb0).2, s) /\ holds_line s (line_after [] acts) /\
    forall out, transcript (wfs x0) [] acts = Some out -> output (tconsole t) = output x0 ++ example_line ++ prompt ++ out.
Proof.
  intros [Hi Ht Hf [[_ (_ & _ & [(Hp' & _)|[cx Hp']])]|(_ & _ & Ho)]] Hp Hc acts; [congruence|congruence|].
  destruct (halted_session lo hi A kb0 2 1 x1 n typed [] t) as (s & Hl & Hh & Hout); [by split; [exists tl, sl|]|done|done|].
  exists s. split; [done|]. split; [done|]. intros out Htr. rewrite <- Hf in Htr. destruct (Hout out Htr) as (o & Hx & Hin).
  apply interleaves_alone in Hin as ->. by rewrite Hx, (Ho Hc), <- app_assoc.
Qed.

Lemma kstart_ok w : enrolled (mkKeyboard false []) 2 w -> world_ok x0 ->
  kinv 100 [] (mkTerm Popping w None x0) x0 [0; 1] [].
Proof.
  intros He Hx. split; cbn [tpc texec tlocals tconsole].
  - by apply (enrolled_inv 2 1 w ltac:(lia) ltac:(lia)).
  - apply (start_ok lo hi A kb0 2 1 w x0 ltac:(lia) ltac:(lia) He Hx).
  - done.
  - left. split; [done|]. split; [done|]. split; [done|]. left. destruct He as (_ & Hq & Ht & _). split; [done|].
    split; [by eexists|]. rewrite Ht. by eexists.
Qed.

(** *** Typing at the prompt *)

Lemma typed_run keys : forall t t' : T, run (term_step rdtsc 1 kb0) t (map TKey keys) t' -> run kstep t (map KKey keys) t'.
Proof.
  induction keys as [|key keys IH]; intros t t' Hr; inversion Hr as [|? ? t1 ? ? Hs Hrest]; subst; [constructor|].
  inversion Hs; subst. econstructor; [by constructor|by apply IH].
Qed.

Lemma krun_app (t1 t2 t3 : T) ls1 ls2 : run kstep t1 ls1 t2 -> run kstep t2 ls2 t3 -> run kstep t1 (ls1 ++ ls2) t3.
Proof. induction 1 as [|? ? ? ? ? Hs _ IH]; [done|]. intros Hr. econstructor; [exact Hs|by apply IH]. Qed.

Lemma kmains_console j : forall t t' : T, run kstep t (replicate j KMain) t' -> console (texec t') = console (texec t).
Proof.
  induction j as [|j IH]; intros t t' Hr; inversion Hr as [|? ? t1 ? ? Hs Hrest]; subst; [done|].
  inversion Hs as [? ? Hm| |]; subst. rewrite (IH _ _ Hrest). unfold kmain in Hm.
  destruct (tpc t) eqn:Hp; try by destruct (main_effect _ _ _ _ _ _ (tmain_exec _ _ _ _ _ _ Hm)).
  destruct (example_task_poll (tconsole t)) as [[r x']|]; [|done].
  by destruct (main_effect _ _ _ _ _ _ (tmain_exec _ _ _ _ _ _ Hm)).
Qed.

Lemma typed_labels j keys : typed_keys (replicate j KMain ++ map KKey keys) = keys.
Proof.
  unfold typed_keys. induction j as [|j IH]; [|done]. simpl. induction keys as [|key keys IH]; [done|]. simpl. by f_equal.
Qed.

(** From its start the kernel comes to rest at the prompt, and takes up to 100 keys. *)
Lemma kernel_types w keys : enrolled (mkKeyboard false []) 2 w -> world_ok x0 -> sane_input kb0 [] -> (length keys <= 100)%nat ->
  exists ls t, run kstep (mkTerm Popping w None x0) ls t /\ Z.of_nat (length ls) < 2 ^ 62 /\ typed_keys ls = keys /\
    console (texec t) = [].
Proof.
  intros He Hx Hs Hl. pose proof (kstart_ok w He Hx) as Hk.
  destruct (kdrain_ok 1409 100 [] _ _ _ _ ltac:(lia) ltac:(lia) Hs Hk) as (j & t1 & x1 & tl & sl & Hj & Hr1 & Hp & Hk1).
  { eapply cost_bound, (k_exec _ _ _ _ _ _ Hk). }
  pose proof (kmains_console _ _ _ Hr1) as Hc1. destruct He as (_ & _ & _ & _ & _ & Hc0 & _). destruct two_tasks as (Hkb & Hsz & _).
  destruct Hk1 as [Hi Ht _ _]. assert (Hh : holding 1509 (texec t1) []).
  { pose proof Hi as [[Htq _] Hsq _ _ Hpc _]. rewrite Hp in Hpc.
    destruct Hpc as [[Hin|(Hst & _ & ->)] ->]; [by apply not_elem_of_nil in Hin|]. unfold sq_ok in Hsq. rewrite Hst in Hsq.
    destruct Hsq as (q & Hq & Hqo). by exists q, []. }
  destruct (keys_typed rdtsc lo hi A patient 1 kb0 _ Hkb Hsz x1 keys 1509 _ _ t1 [] ltac:(lia) ltac:(lia)
    (conj (ex_intro _ tl (ex_intro _ sl Hi)) Ht)) as (t & Hr2 & Hc2); [by rewrite Hp|done|done|].
  exists (replicate j KMain ++ map KKey keys), t. split; [by eapply krun_app, typed_run|].
  rewrite length_app, length_replicate, length_map, typed_labels. split_and!; [lia|done|cbn [texec] in Hc1; congruence].
Qed.
End kernel.
