(* ===== verification/Locks.v ===== *)
(** * Spin locks and interrupts on one core

    What a function does to the kernel's spin locks and to the interrupt flag, with its
    data left out: a small language ([code]), the processor that runs it with interrupts
    coming in at any point where they are enabled, and a check of code that no lock is
    ever waited for in vain. [Deadlock] has the kernel's functions in this language. *)

From S2P Require Import Prelude.

(** The statics behind a lock; the lazily initialised ones also have the [Once] that
    runs their initialisation. *)
Inductive lock :=
  SERIAL1 | FRAMEBUFFER | ALLOCATOR | FS | PICS | APIC | ONCE_SERIAL1 | ONCE_FS | ONCE_IDT.

#[export] Instance lock_eq_dec : EqDecision lock.
Proof. solve_decision. Defined.

(** [RwLock::read] shares the lock; [write] and [Mutex::lock] do not. *)
Inductive mode := Shared | Exclusive.

#[export] Instance mode_eq_dec : EqDecision mode.
Proof. solve_decision. Defined.

(** A branch on data is a [Choice], a loop whose length depends on data a [Loop]. *)
Inductive code :=
  | Nop
  | Acquire (m : mode) (l : lock)
  | Release (l : lock)
  | Seq (c1 c2 : code)
  | Choice (c1 c2 : code)
  | Loop (c : code)
  | Disable
  | Enable
  | EnableAndHlt
  | WithoutInterrupts (c : code).

Declare Scope code_scope.
Bind Scope code_scope with code.
Notation "c1 ;; c2" := (Seq c1 c2) (at level 100, c2 at level 200, right associativity) : code_scope.
Notation "c1 <|> c2" := (Choice c1 c2) (at level 90, right associativity) : code_scope.
Open Scope code_scope.

(** ** The processor *)

(** What is still to be done: code, the end of [without_interrupts], the return from an
    interrupt, the wait for one. *)
Inductive item := Do (c : code) | Restore (saved : bool) | Iret | Halt.

Record core := mkCore {
  iflag : bool;
  held : list (lock * mode);
  todo : list item
}.

(** A lock can be taken when nobody has it, or nobody exclusively. *)
Definition available (m : mode) (l : lock) (H : list (lock * mode)) : bool :=
  match m with
  | Exclusive => forallb (fun x => bool_decide (x.1 <> l)) H
  | Shared => forallb (fun x => bool_decide (x.1 <> l) || bool_decide (x.2 = Shared)) H
  end.

Fixpoint release (l : lock) (H : list (lock * mode)) : option (list (lock * mode)) :=
  match H with
  | [] => None
  | x :: H' => if decide (x.1 = l) then Some H' else cons x <$> release l H'
  end.

(** A step of the program: what the next item does, or [None] when it cannot be done:
    a lock that is taken is waited for. The boolean decides a [Choice] or whether a
    [Loop] goes on. *)
Definition advance (b : bool) (s : core) : option core :=
  match todo s with
  | [] => None
  | Do c :: K =>
      match c with
      | Nop => Some (mkCore (iflag s) (held s) K)
      | Acquire m l => if available m l (held s) then Some (mkCore (iflag s) ((l, m) :: held s) K) else None
      | Release l => (fun H => mkCore (iflag s) H K) <$> release l (held s)
      | Seq c1 c2 => Some (mkCore (iflag s) (held s) (Do c1 :: Do c2 :: K))
      | Choice c1 c2 => Some (mkCore (iflag s) (held s) (Do (if b then c1 else c2) :: K))
      | Loop c => Some (mkCore (iflag s) (held s) (if b then Do c :: Do (Loop c) :: K else K))
      | Disable => Some (mkCore false (held s) K)
      | Enable => Some (mkCore true (held s) K)
      | EnableAndHlt => Some (mkCore true (held s) (Halt :: K))
      | WithoutInterrupts c => Some (mkCore false (held s) (Do c :: Restore (iflag s) :: K))
      end
  | Restore saved :: K => Some (mkCore (saved || iflag s) (held s) K)
  | Iret :: K => Some (mkCore true (held s) K)
  | Halt :: _ => None
  end.

(** An interrupt ends a [hlt] and runs with the flag cleared until its [iret]. *)
Definition woken (K : list item) : list item := match K with Halt :: K' => K' | _ => K end.

Inductive core_step (handlers : list code) : core -> core -> Prop :=
  | cs_advance b s s' : advance b s = Some s' -> core_step handlers s s'
  | cs_irq c H K : c ∈ handlers -> core_step handlers (mkCore true H K) (mkCore false H (Do c :: Iret :: woken K)).

(** The program waits for a lock that is taken. *)
Definition blocked (s : core) : Prop :=
  exists m l K, todo s = Do (Acquire m l) :: K /\ available m l (held s) = false.

(** ** The check *)

Section check.
(** The locks interrupt handlers take. *)
Variable irq : lock -> bool.

(** None of the held locks is one a handler takes. *)
Definition clear (H : list (lock * mode)) : bool := forallb (fun x => negb (irq x.1)) H.

(** The flag and the locks after the code, if it keeps the rules: a lock is taken only
    when it is free, a handler's lock only with interrupts disabled, and it is released
    before they are enabled; nothing is held across a [hlt]; the branches of a choice
    agree, and a loop ends as it began. Code of a handler ([inside]) takes only the
    handlers' locks and leaves the flag alone. *)
Fixpoint check (inside : bool) (c : code) (s : bool * list (lock * mode)) : option (bool * list (lock * mode)) :=
  let '(f, H) := s in
  match c with
  | Nop => Some s
  | Acquire m l =>
      if available m l H && (if inside then irq l else negb (f && irq l)) then Some (f, (l, m) :: H) else None
  | Release l => pair f <$> release l H
  | Seq c1 c2 => s1 ← check inside c1 s; check inside c2 s1
  | Choice c1 c2 =>
      s1 ← check inside c1 s;
      s2 ← check inside c2 s;
      if decide (s1 = s2) then Some s1 else None
  | Loop c =>
      s1 ← check inside c s;
      if decide (s1 = s) then Some s else None
  | Disable => if inside then None else Some (false, H)
  | Enable => if negb inside && clear H then Some (true, H) else None
  | EnableAndHlt => if negb inside && bool_decide (H = []) then Some (true, H) else None
  | WithoutInterrupts c =>
      '(f1, H1) ← check inside c (false, H);
      if negb f1 && (negb f || clear H1) then Some (f, H1) else None
  end.

(** A handler leaves everything as it was. *)
Definition handler_ok (c : code) : bool := bool_decide (check true c (false, []) = Some (false, [])).
End check.

(** ** Soundness *)

Section rules.
Variable irq : lock -> bool.

(** What is still to be done keeps the rules from the state reached. *)
Fixpoint follows (K : list item) (s : bool * list (lock * mode)) : Prop :=
  match K with
  | [] => True
  | Do c :: K' => exists s', check irq false c s = Some s' /\ follows K' s'
  | Restore saved :: K' => (saved = true -> clear irq s.2 = true) /\ follows K' (saved || s.1, s.2)
  | Iret :: K' => clear irq s.2 = true /\ follows K' (true, s.2)
  | Halt :: K' => s = (true, []) /\ follows K' s
  end.

Definition disciplined (s : core) : Prop :=
  (iflag s = true -> clear irq (held s) = true) /\ follows (todo s) (iflag s, held s).

Lemma disciplined_not_blocked s : disciplined s -> ~ blocked s.
Proof.
  intros [_ Hf] (m & l & K & Hk & Ha). rewrite Hk in Hf. destruct Hf as (s' & Hc & _). simpl in Hc. by rewrite Ha in Hc.
Qed.

Lemma release_app l R : forall H H', release l H = Some H' -> release l (H ++ R) = Some (H' ++ R).
Proof.
  induction H as [|x H IH]; intros H' He; [done|]. simpl in *. case_decide; [by injection He as <-|].
  destruct (release l H) as [H1|]; [|done]. injection He as <-. by rewrite (IH H1).
Qed.

Lemma clear_release l : forall H H', clear irq H = true -> release l H = Some H' -> clear irq H' = true.
Proof.
  induction H as [|x H IH]; intros H' Hc He; [done|]. simpl in *. apply andb_true_iff in Hc as [Hx Hc].
  case_decide; [by injection He as <-|]. destruct (release l H) as [H1|]; [|done]. injection He as <-. simpl.
  by rewrite Hx, (IH H1).
Qed.

(** The locks code may take, and whether it leaves the flag to [without_interrupts]. *)
Fixpoint takes (c : code) : list lock :=
  match c with
  | Acquire _ l => [l]
  | Seq c1 c2 | Choice c1 c2 => takes c1 ++ takes c2
  | Loop c | WithoutInterrupts c => takes c
  | _ => []
  end.

Fixpoint flagless (c : code) : bool :=
  match c with
  | Disable | Enable | EnableAndHlt => false
  | Seq c1 c2 | Choice c1 c2 => flagless c1 && flagless c2
  | Loop c | WithoutInterrupts c => flagless c
  | _ => true
  end.

Definition apart (c : code) (R : list (lock * mode)) : Prop := forall l, l ∈ takes c -> l ∉ R.*1.

Lemma available_app m l H R : l ∉ R.*1 -> available m l (H ++ R) = available m l H.
Proof.
  intros Hl. assert (Hx : available m l R = true).
  { destruct m; simpl; apply List.forallb_forall; intros x Hx;
      (rewrite bool_decide_eq_true_2; [done|]; intros <-; apply Hl, list_elem_of_fmap_2; by apply list_elem_of_In). }
  unfold available in *. destruct m; rewrite forallb_app, Hx; by rewrite andb_true_r.
Qed.

Lemma available_false_app m l H R : available m l R = false -> available m l (H ++ R) = false.
Proof. intros HR. destruct m; simpl in *; rewrite forallb_app, HR; apply andb_false_r. Qed.

Lemma not_available l R : l ∈ R.*1 -> available Exclusive l R = false.
Proof.
  intros (x & -> & Hx)%list_elem_of_fmap. apply not_true_iff_false. simpl. rewrite List.forallb_forall. intros H.
  apply list_elem_of_In in Hx. apply H in Hx. by apply bool_decide_eq_true in Hx.
Qed.

Lemma clear_apart l R : irq l = true -> clear irq R = true -> l ∉ R.*1.
Proof.
  intros Hl HR Hin. apply list_elem_of_fmap in Hin as (x & -> & Hx).
  unfold clear in HR. rewrite List.forallb_forall in HR. specialize (HR x). rewrite Hl in HR.
  by discriminate HR; apply list_elem_of_In.
Qed.

(** Code does the same above locks it does not take. *)
Lemma check_frame R inside : forall c f H f' H', flagless c = true -> apart c R ->
  (f = true -> inside = false /\ clear irq R = true) -> check irq inside c (f, H) = Some (f', H') ->
  f' = f /\ check irq false c (f, H ++ R) = Some (f', H' ++ R).
Proof.
  intros c. induction c as [|m l|l|c1 IH1 c2 IH2|c1 IH1 c2 IH2|c IH| | | |c IH]; intros f H f' H' Hfl Hap Hf Hc; simpl in Hc, Hfl |- *.
  - by injection Hc as <- <-.
  - assert (Hl : l ∉ R.*1) by (apply Hap; simpl; set_solver). rewrite available_app by done.
    destruct (available m l H); [|done]. simpl in Hc |- *. destruct f; [destruct Hf as [-> _]; [done|]|].
    + destruct (irq l); [done|]. by injection Hc as <- <-.
    + destruct inside; [destruct (irq l); [|done]|]; by injection Hc as <- <-.
  - destruct (release l H) as [H1|] eqn:Hr; [|done]. injection Hc as <- <-. by rewrite (release_app _ R _ _ Hr).
  - apply andb_true_iff in Hfl as [Hfl1 Hfl2].
    destruct (check irq inside c1 (f, H)) as [[f1 H1]|] eqn:H1c; [|done].
    destruct (IH1 f H f1 H1) as [-> ->]; try done; [intros l Hl; apply Hap; simpl; set_solver|].
    apply IH2; try done. intros l Hl; apply Hap; simpl; set_solver.
  - apply andb_true_iff in Hfl as [Hfl1 Hfl2].
    destruct (check irq inside c1 (f, H)) as [[f1 H1]|] eqn:H1c; [|done].
    destruct (IH1 f H f1 H1) as [-> ->]; try done; [intros l Hl; apply Hap; simpl; set_solver|]. simpl in Hc |- *.
    destruct (check irq inside c2 (f, H)) as [[f2 H2]|] eqn:H2c; [|done].
    destruct (IH2 f H f2 H2) as [-> ->]; try done; [intros l Hl; apply Hap; simpl; set_solver|]. simpl in Hc |- *.
    case_decide as E; [|done]. injection E as <-. injection Hc as <- <-. by rewrite decide_True.
  - destruct (check irq inside c (f, H)) as [[f1 H1]|] eqn:H1c; [|done].
    destruct (IH f H f1 H1) as [-> ->]; try done. simpl in Hc |- *. case_decide as E; [|done]. injection E as ->.
    injection Hc as <- <-. by rewrite decide_True.
  - done.
  - done.
  - done.
  - destruct (check irq inside c (false, H)) as [[f1 H1]|] eqn:H1c; [|done].
    destruct (IH false H f1 H1) as [-> ->]; try done. simpl in Hc |- *. destruct f; simpl in Hc |- *.
    + destruct Hf as [_ HR]; [done|]. destruct (clear irq H1) eqn:E; [|done]. injection Hc as <- <-.
      unfold clear in *. by rewrite forallb_app, E, HR.
    + by injection Hc as <- <-.
Qed.

Lemma inside_plain : forall c s s', check irq true c s = Some s' ->
  flagless c = true /\ forall l, l ∈ takes c -> irq l = true.
Proof.
  intros c. induction c as [|m l|l|c1 IH1 c2 IH2|c1 IH1 c2 IH2|c IH| | | |c IH]; intros [f H] s' Hc; simpl in Hc |- *.
  - split; [done|]. set_solver.
  - split; [done|]. destruct (available m l H), (irq l) eqn:E; try done. set_solver.
  - split; [done|]. set_solver.
  - destruct (check irq true c1 (f, H)) as [s1|] eqn:H1c; [|done]. simpl in Hc.
    destruct (IH1 _ _ H1c) as [-> ?], (IH2 _ _ Hc) as [-> ?]. split; [done|]. set_solver.
  - destruct (check irq true c1 (f, H)) as [s1|] eqn:H1c; [|done]. simpl in Hc.
    destruct (check irq true c2 (f, H)) as [s2|] eqn:H2c; [|done].
    destruct (IH1 _ _ H1c) as [-> ?], (IH2 _ _ H2c) as [-> ?]. split; [done|]. set_solver.
  - destruct (check irq true c (f, H)) as [s1|] eqn:H1c; [|done]. by apply (IH _ _ H1c).
  - done.
  - done.
  - done.
  - destruct (check irq true c (false, H)) as [s1|] eqn:H1c; [|done]. by apply (IH _ _ H1c).
Qed.

Lemma inside_flag c H f' H' : check irq true c (false, H) = Some (f', H') -> f' = false.
Proof.
  intros Hc. destruct (inside_plain _ _ _ Hc) as [Hfl _]. apply (check_frame [] true c false H f' H'); try done.
  intros l _. apply not_elem_of_nil.
Qed.

Lemma advance_disciplined b s s' : advance b s = Some s' -> disciplined s -> disciplined s'.
Proof.
  intros Ha [Hi Hf]. destruct s as [f H K]. unfold advance in Ha. simpl in *. destruct K as [|[c|sv| |] K]; [done| | | |done].
  - destruct Hf as ([f1 H1] & Hc & Hf).
    destruct c as [|m l|l|c1 c2|c1 c2|c| | | |c]; simpl in Hc.
    + injection Hc as <- <-. by injection Ha as <-.
    + destruct (available m l H); [|done]. simpl in Hc. destruct (f && irq l) eqn:Hfl; [done|]. injection Hc as <- <-.
      injection Ha as <-. split; [|done]. simpl. intros ->. simpl in Hfl. rewrite Hfl. by apply Hi.
    + destruct (release l H) as [H2|] eqn:Hr; [|done]. injection Hc as <- <-. injection Ha as <-. split; [|done].
      intros E. specialize (Hi E). by apply (clear_release _ _ _ Hi Hr).
    + injection Ha as <-. destruct (check irq false c1 (f, H)) as [s1|] eqn:H1c; [|done]. split; [done|].
      exists s1. split; [done|]. by exists (f1, H1).
    + injection Ha as <-. destruct (check irq false c1 (f, H)) as [s1|] eqn:H1c; [|done]. simpl in Hc.
      destruct (check irq false c2 (f, H)) as [s2|] eqn:H2c; [|done]. simpl in Hc. case_decide as E; [|done]. injection Hc as ->.
      split; [done|]. subst s2. exists (f1, H1). by destruct b.
    + injection Ha as <-. destruct (check irq false c (f, H)) as [s1|] eqn:H1c; [|done]. simpl in Hc. case_decide as E; [|done].
      injection Hc as -> ->. subst s1. split; [done|]. destruct b; [|done]. exists (f1, H1). split; [done|]. exists (f1, H1).
      split; [|done]. simpl. rewrite H1c. simpl. by rewrite decide_True.
    + injection Hc as <- <-. injection Ha as <-. by split.
    + destruct (clear irq H) eqn:Hcl; [|done]. injection Hc as <- <-. injection Ha as <-. by split.
    + case_bool_decide as E; [|done]. injection Hc as <- <-. injection Ha as <-. subst H. by split.
    + injection Ha as <-. destruct (check irq false c (false, H)) as [[f2 H2]|] eqn:H1c; [|done]. simpl in Hc.
      destruct f2; [done|]. destruct (negb f || clear irq H2) eqn:Hcl; [|done]. injection Hc as <- <-. split; [done|].
      exists (false, H2). split; [done|]. simpl. rewrite orb_false_r. split; [|done]. by intros ->.
  - destruct Hf as [Hs Hf]. injection Ha as <-. split; [|done]. simpl. destruct sv; [by intros _; apply Hs|done].
  - destruct Hf as [Hs Hf]. injection Ha as <-. by split.
Qed.

End rules.

Section sound.
Variables (irq : lock -> bool) (handlers : list code).
Hypothesis handlers_ok : forall c, c ∈ handlers -> handler_ok irq c = true.

Lemma handler_check c R : c ∈ handlers -> clear irq R = true -> check irq false c (false, R) = Some (false, R).
Proof.
  intros Hc HR. apply handlers_ok in Hc. unfold handler_ok in Hc. apply bool_decide_eq_true in Hc.
  destruct (inside_plain irq _ _ _ Hc) as [Hfl Ht]. apply (check_frame irq R true c false [] false []); try done.
  intros l Hl. by apply (clear_apart irq); [apply Ht|].
Qed.

Lemma step_disciplined s s' : core_step handlers s s' -> disciplined irq s -> disciplined irq s'.
Proof.
  intros [b t t' Ha|c H K Hc] Hd; [by eapply advance_disciplined|]. destruct Hd as [Hi Hf]. simpl in *.
  specialize (Hi eq_refl). split; [done|]. exists (false, H). split; [by apply handler_check|]. split; [done|].
  destruct K as [|[]]; try done. by destruct Hf.
Qed.

(** Code that passes the check never waits for a lock, whatever interrupts come in
    between; when they are enabled the locks held are none of the handlers', and when
    the processor halts none is held. *)
Lemma check_sound c f H s' s : check irq false c (f, H) = Some s' -> (f = true -> clear irq H = true) ->
  rtc (core_step handlers) (mkCore f H [Do c]) s ->
  ~ blocked s /\ (iflag s = true -> clear irq (held s) = true) /\
  (forall K, todo s = Halt :: K -> iflag s = true /\ held s = []).
Proof.
  intros Hc Hf Hr. assert (Hd : disciplined irq s).
  { remember (mkCore f H [Do c]) as s0 eqn:E. assert (Hd : disciplined irq s0) by (subst s0; split; [done|by exists s']).
    clear E. induction Hr as [|x y z Hs _ IH]; [done|]. apply IH. by eapply step_disciplined. }
  split; [by eapply disciplined_not_blocked|]. split; [apply Hd|]. intros K Hk. destruct Hd as [_ Hd]. rewrite Hk in Hd.
  destruct Hd as [E _]. by injection E.
Qed.

(** ** Handlers end *)

(** The steps that some decisions lead to. *)
Fixpoint decided (bs : list bool) (s : core) : option core :=
  match bs with
  | [] => Some s
  | b :: bs' => s' ← advance b s; decided bs' s'
  end.

Lemma decided_steps hs bs : forall s s', decided bs s = Some s' -> rtc (core_step hs) s s'.
Proof using Type.
  induction bs as [|b bs IH]; intros s s' Hd; simpl in Hd; [injection Hd as <-; constructor|].
  destruct (advance b s) as [s1|] eqn:Ha; [|done]. eapply rtc_l; [by econstructor|]. by apply IH.
Qed.

Lemma decided_app bs1 bs2 : forall s, decided (bs1 ++ bs2) s = (s' ← decided bs1 s; decided bs2 s').
Proof using Type. induction bs1 as [|b bs1 IH]; intros s; simpl; [done|]. destruct (advance b s); simpl; [apply IH|done]. Qed.

(** The steps code without a loop takes at most; [None] when it has one. *)
Fixpoint bound (c : code) : option nat :=
  match c with
  | Seq c1 c2 => n1 ← bound c1; n2 ← bound c2; Some (S (n1 + n2))
  | Choice c1 c2 => n1 ← bound c1; n2 ← bound c2; Some (S (max n1 n2))
  | WithoutInterrupts c => n ← bound c; Some (S (n + 1))
  | Loop _ => None
  | _ => Some 1%nat
  end.

(** Whatever is decided, code of a handler ends within its bound. *)
Definition ends (n : nat) (bs : list bool) (s s' : core) : Prop :=
  exists bs1 bs2, bs = bs1 ++ bs2 /\ (length bs1 <= n)%nat /\ decided bs1 s = Some s'.

Lemma ends_one n bs s s' : (S n <= length bs)%nat -> (forall b, advance b s = Some s') -> ends (S n) bs s s'.
Proof using Type.
  intros Hn Ha. destruct bs as [|b bs]; [simpl in Hn; lia|]. exists [b], bs. split; [done|]. split; [simpl; lia|].
  simpl. by rewrite Ha.
Qed.

Lemma ends_step n bs s s' : (S n <= length bs)%nat ->
  (forall b bs', bs = b :: bs' -> exists s1, advance b s = Some s1 /\ ends n bs' s1 s') -> ends (S n) bs s s'.
Proof using Type.
  intros Hn Ha. destruct bs as [|b bs]; [simpl in Hn; lia|]. destruct (Ha b bs eq_refl) as (s1 & Hs & bs1 & bs2 & -> & Hl & Hd).
  exists (b :: bs1), bs2. split; [done|]. split; [simpl; lia|]. simpl. by rewrite Hs.
Qed.

Lemma ends_trans n1 n2 bs s1 s2 s3 : (n1 + n2 <= length bs)%nat -> ends n1 bs s1 s2 ->
  (forall bs', (n2 <= length bs')%nat -> ends n2 bs' s2 s3) -> ends (n1 + n2) bs s1 s3.
Proof using Type.
  intros Hn (bs1 & bs2 & -> & Hl & Hd) Hs. rewrite length_app in Hn. destruct (Hs bs2) as (bs3 & bs4 & -> & Hl' & Hd'); [lia|].
  exists (bs1 ++ bs3), bs4. rewrite <- app_assoc, length_app, decided_app, Hd. by split_and!; [|lia|].
Qed.

Lemma ends_mono n m bs s s' : ends n bs s s' -> (n <= m)%nat -> ends m bs s s'.
Proof using Type. intros (bs1 & bs2 & H1 & H2 & H3) Hle. exists bs1, bs2. split_and!; [done|lia|done]. Qed.

Lemma code_ends R : clear irq R = true -> forall c n H H' bs K, bound c = Some n ->
  check irq true c (false, H) = Some (false, H') -> (n <= length bs)%nat ->
  ends n bs (mkCore false (H ++ R) (Do c :: K)) (mkCore false (H' ++ R) K).
Proof using Type.
  intros HR c. induction c as [|m l|l|c1 IH1 c2 IH2|c1 IH1 c2 IH2|c IH| | | |c IH]; intros n H H' bs K Hb Hc Hn; simpl in Hb, Hc.
  - injection Hb as <-. injection Hc as <-. by apply ends_one.
  - injection Hb as <-. destruct (available m l H) eqn:Ha; [|done]. destruct (irq l) eqn:Hl; [|done]. injection Hc as <-.
    apply ends_one; [done|]. intros b. unfold advance. cbn [todo held iflag].
    by rewrite available_app, Ha by by apply (clear_apart irq).
  - injection Hb as <-. destruct (release l H) as [H1|] eqn:Hr; [|done]. injection Hc as <-.
    apply ends_one; [done|]. intros b. unfold advance. cbn [todo held iflag]. by rewrite (release_app _ R _ _ Hr).
  - destruct (bound c1) as [n1|]; [|done]. destruct (bound c2) as [n2|]; [|done]. injection Hb as <-.
    destruct (check irq true c1 (false, H)) as [[f1 H1]|] eqn:H1c; [|done]. pose proof (inside_flag irq _ _ _ _ H1c) as ->.
    apply ends_step; [done|]. intros b bs' ->. eexists. split; [done|]. simpl in Hn.
    apply (ends_trans n1 n2 bs' _ (mkCore false (H1 ++ R) (Do c2 :: K))); [lia|apply IH1; [done|done|lia]|]. intros bs2 Hl2. by apply IH2.
  - destruct (bound c1) as [n1|]; [|done]. destruct (bound c2) as [n2|]; [|done]. injection Hb as <-.
    destruct (check irq true c1 (false, H)) as [s1|] eqn:H1c; [|done]. simpl in Hc.
    destruct (check irq true c2 (false, H)) as [s2|] eqn:H2c; [|done]. simpl in Hc. case_decide as E; [|done].
    injection Hc as ->. subst s2. apply ends_step; [done|]. intros b bs' ->. eexists. split; [done|]. simpl in Hn.
    destruct b; [apply (ends_mono n1); [apply IH1; [done|done|lia]|lia]|apply (ends_mono n2); [apply IH2; [done|done|lia]|lia]].
  - done.
  - done.
  - done.
  - done.
  - destruct (bound c) as [n1|]; [|done]. injection Hb as <-.
    destruct (check irq true c (false, H)) as [[f1 H1]|] eqn:H1c; [|done]. pose proof (inside_flag irq _ _ _ _ H1c) as ->.
    simpl in Hc. injection Hc as <-. apply ends_step; [done|]. intros b bs' ->. eexists. split; [done|]. simpl in Hn.
    apply (ends_trans n1 1 bs' _ (mkCore false (H1 ++ R) (Restore false :: K))); [lia|apply IH; [done|done|lia]|].
    intros bs2 Hl2. by apply ends_one.
Qed.

(** ** Waiting for ever *)

(** The lock code takes first, before anything else. *)
Fixpoint first (c : code) : option (mode * lock) :=
  match c with
  | Acquire m l => Some (m, l)
  | Seq c1 _ => first c1
  | _ => None
  end.

(** The program is before taking a lock it will not get; interrupts may be running. *)
Definition waits (m : mode) (l : lock) (s : core) : Prop :=
  available m l (held s) = false /\
  exists X c K, todo s = X ++ Do c :: K /\ first c = Some (m, l) /\ (X = [] \/ last X = Some Iret).

(** What is left of a handler, from the locks it holds. *)
Fixpoint finishes (X : list item) (H : list (lock * mode)) : Prop :=
  match X with
  | [] => H = []
  | Do c :: X' => exists H', check irq true c (false, H) = Some (false, H') /\ finishes X' H'
  | Restore saved :: X' => saved = false /\ finishes X' H
  | _ => False
  end.

Lemma advance_finishes b X H R s K : finishes X H -> clear irq R = true -> X <> [] ->
  advance b (mkCore false (H ++ R) (X ++ K)) = Some s ->
  exists X' H', s = mkCore false (H' ++ R) (X' ++ K) /\ finishes X' H'.
Proof.
  intros Hf HR HX Ha. destruct X as [|[c|sv| |] X]; try done; simpl in Hf.
  - destruct Hf as (H1 & Hc & Hf). unfold advance in Ha. simpl in Ha.
    destruct c as [|m l|l|c1 c2|c1 c2|c| | | |c]; simpl in Hc.
    + injection Hc as <-. injection Ha as <-. by exists X, H.
    + destruct (available m l H) eqn:Hav; [|done]. destruct (irq l) eqn:Hl; [|done]. injection Hc as <-.
      rewrite available_app, Hav in Ha by by apply (clear_apart irq). injection Ha as <-. by exists X, ((l, m) :: H).
    + destruct (release l H) as [H2|] eqn:Hr; [|done]. injection Hc as <-. rewrite (release_app _ R _ _ Hr) in Ha.
      injection Ha as <-. by exists X, H2.
    + destruct (check irq true c1 (false, H)) as [[f1 H2]|] eqn:H1c; [|done]. simpl in Hc.
      pose proof (inside_flag irq _ _ _ _ H1c) as ->. injection Ha as <-. exists (Do c1 :: Do c2 :: X), H. split; [done|].
      exists H2. split; [done|]. by exists H1.
    + destruct (check irq true c1 (false, H)) as [s1|] eqn:H1c; [|done]. simpl in Hc.
      destruct (check irq true c2 (false, H)) as [s2|] eqn:H2c; [|done]. simpl in Hc. case_decide as E; [|done].
      injection Hc as ->. injection Ha as <-. exists (Do (if b then c1 else c2) :: X), H. split; [done|]. exists H1.
      split; [by destruct b; congruence|done].
    + destruct (check irq true c (false, H)) as [s1|] eqn:H1c; [|done]. simpl in Hc. case_decide as E; [|done].
      injection Hc as <-. subst s1. injection Ha as <-. destruct b; [|by exists X, H].
      exists (Do c :: Do (Loop c) :: X), H. split; [done|]. exists H. split; [done|]. exists H. split; [|done]. simpl.
      rewrite H1c. simpl. by rewrite decide_True.
    + done.
    + done.
    + done.
    + destruct (check irq true c (false, H)) as [[f1 H2]|] eqn:H1c; [|done]. simpl in Hc. destruct f1; [done|].
      injection Hc as <-. injection Ha as <-. exists (Do c :: Restore false :: X), H. split; [done|]. by exists H2.
  - destruct Hf as [-> Hf]. injection Ha as <-. by exists X, H.
Qed.

(** Between the wait and its interrupts. *)
Definition stuck (f : bool) (R : list (lock * mode)) (m : mode) (l : lock) (s : core) : Prop :=
  exists c K, first c = Some (m, l) /\
    (s = mkCore f R (Do c :: K) \/
     f = true /\ exists X H, s = mkCore false (H ++ R) (X ++ Iret :: Do c :: K) /\ finishes X H).

Lemma stuck_step f R m l s s' : (f = true -> clear irq R = true) -> available m l R = false ->
  core_step handlers s s' -> stuck f R m l s -> stuck f R m l s'.
Proof.
  intros HR Ha Hst (c & K & Hc & [->|(-> & X & H & -> & Hf)]).
  - inversion Hst as [b ? ? Hadv|h H' K' Hh]; subst.
    + destruct c as [|m' l'| |c1 c2| | | | | | ]; try done; simpl in Hc; unfold advance in Hadv; cbn [todo held iflag] in Hadv.
      * injection Hc as -> ->. by rewrite Ha in Hadv.
      * injection Hadv as <-. exists c1, (Do c2 :: K). by split; [|left].
    + exists c, K. split; [done|]. right. split; [done|]. exists [Do h], []. split; [done|]. exists [].
      split; [|done]. specialize (handlers_ok h Hh). by apply bool_decide_eq_true in handlers_ok.
  - specialize (HR eq_refl). inversion Hst as [b ? ? Hadv|h H' K' Hh]; subst. exists c, K. split; [done|].
    destruct (decide (X = [])) as [->|HX].
    + simpl in Hf, Hadv. subst H. injection Hadv as <-. by left.
    + right. split; [done|]. destruct (advance_finishes _ _ _ _ _ _ Hf HR HX Hadv) as (X' & H' & -> & Hf'). by exists X', H'.
Qed.

(** A program that wants a taken lock never gets it: on one core nobody else is there
    to release it. *)
Lemma waits_forever f R c K m l s : first c = Some (m, l) -> available m l R = false ->
  (f = true -> clear irq R = true) -> rtc (core_step handlers) (mkCore f R (Do c :: K)) s -> waits m l s.
Proof.
  intros Hc Ha HR Hr. assert (Hs : stuck f R m l s).
  { remember (mkCore f R (Do c :: K)) as s0 eqn:E. assert (Hs : stuck f R m l s0) by (exists c, K; split; [done|by left]).
    clear E. induction Hr as [|x y z Hs' _ IH]; [done|]. apply IH. by eapply stuck_step. }
  destruct Hs as (c' & K' & Hc' & [->|(_ & X & H & -> & _)]).
  - split; [done|]. exists [], c', K'. split_and!; [done|done|by left].
  - split; [by apply available_false_app|]. exists (X ++ [Iret]), c', K'. rewrite <- app_assoc.
    split_and!; [done|done|]. right. by rewrite last_snoc.
Qed.
End sound.
