(* ===== verification/Deadlock.v ===== *)
(** * The kernel's spin locks

    Every function of the kernel that takes a lock or touches the interrupt flag, in the
    language of [Locks], up to [executor.run] and its tasks, and the interrupt handlers.
    No lock is ever waited for, in any interleaving, unless the kernel panics while the
    lock of the heap or of the serial line is held: the report of the panic takes both. *)

From S2P Require Import Prelude Locks Task TaskInv TaskSpec Heap KernelHeap.

Definition locked (l : lock) (c : code) : code := Acquire Exclusive l ;; c ;; Release l.

(** The dereference of a [lazy_static]: the first one initialises it. *)
Definition lazy (once : lock) (init : code) : code := Nop <|> locked once init.

(** ** Printing: [serial.rs], [framebuffer.rs], [vga_buffer.rs], [log.rs] *)

Definition serial_print : code := WithoutInterrupts (lazy ONCE_SERIAL1 Nop ;; locked SERIAL1 Nop).

(** [with_framebuffer], [with_framebuffer_mut] and [_print] of [framebuffer.rs]. *)
Definition with_framebuffer : code := WithoutInterrupts (locked FRAMEBUFFER Nop).

Definition print : code := serial_print ;; with_framebuffer.

Definition framebuffer_init : code := locked FRAMEBUFFER Nop.

(** [KernelLogger::log]: the level may be filtered out. *)
Definition log : code := Nop <|> serial_print.

(** ** The heap and the trace: [allocator.rs], [trace.rs] *)

Definition trace_record : code := Nop <|> WithoutInterrupts Nop.
Definition dump_last : code := WithoutInterrupts (log ;; Loop log).

(** A panic inside, with the lock held, is a step of [kernel_run]. *)
Definition alloc : code := locked ALLOCATOR (Nop <|> trace_record).
Definition dealloc : code := locked ALLOCATOR Nop ;; trace_record.

(** Code that makes, grows and drops boxes, vectors, strings and map nodes. *)
Definition heap : code := Loop (alloc <|> dealloc).

Definition init_heap : code := locked ALLOCATOR Nop.

(** ** Queues, wakers and the interrupt handlers: [array_queue.rs], [async_utils.rs],
    [task/keyboard.rs], [interrupts.rs] *)

Definition queue_op : code := WithoutInterrupts Nop.
Definition take : code := WithoutInterrupts Nop.

(** Dropping a waker releases one reference of its [Arc]; the [last] one frees it. *)
Definition drop_waker (last : bool) : code := if last then dealloc else Nop.

(** [AtomicWaker::register] drops the waker that was in the cell. *)
Definition register : code := WithoutInterrupts (drop_waker true <|> Nop).

Definition wake (last : bool) : code := take ;; (Nop <|> (queue_op ;; drop_waker last)).

Definition add_scancode (last : bool) : code := (queue_op ;; (print <|> wake last)) <|> print.

(** The end of both handlers: [is_active], then the local APIC or the legacy pair. *)
Definition end_of_interrupt : code := locked APIC Nop ;; (Nop <|> locked PICS Nop).

Definition keyboard_interrupt_handler (last : bool) : code := add_scancode last ;; end_of_interrupt.
Definition timer_interrupt_handler : code := trace_record ;; end_of_interrupt.

(** ** The shell: [shell.rs] *)

Definition print_prompt : code := print.
Definition println_each : code := Loop print.

Definition cmd_mem : code := print ;; print ;; print ;; println_each.
Definition cmd_trace : code := print ;; dump_last.

Definition cmd_ls : code :=
  lazy ONCE_FS heap ;;
  Acquire Shared FS ;;
  heap ;;
  ((print ;; println_each ;; heap) <|> (heap ;; print ;; heap) <|> print) ;;
  Release FS.

Definition cmd_cat : code :=
  print <|>
  (lazy ONCE_FS heap ;;
   Acquire Shared FS ;;
   heap ;;
   print ;;
   heap ;;
   Release FS).

Definition cmd_alloc : code := print <|> (alloc ;; (print <|> (print ;; dealloc))).
Definition cmd_clear : code := with_framebuffer ;; print_prompt.
Definition cmd_echo : code := heap ;; print ;; heap.

(** [help], [uptime] and an unknown command print a line. *)
Definition execute : code :=
  print <|> cmd_mem <|> cmd_trace <|> cmd_ls <|> cmd_cat <|> cmd_alloc <|> cmd_clear <|> cmd_echo <|> Nop.

Definition handle_key : code := (print ;; execute ;; print_prompt) <|> print <|> Nop.

Definition handle_scale : code := with_framebuffer ;; (Nop <|> (with_framebuffer ;; print ;; print_prompt)).

Definition handle_scancode : code := Nop <|> handle_scale <|> handle_key.

(** A poll of [shell_task]: its start, when it is the first, and its loop. *)
Definition poll_next : code := queue_op ;; (Nop <|> (register ;; queue_op ;; (Nop <|> (take ;; (drop_waker true <|> Nop))))).
Definition ScancodeStream_new : code := WithoutInterrupts heap.
Definition shell_poll : code :=
  (Nop <|> (ScancodeStream_new ;; print_prompt)) ;; Loop (poll_next ;; handle_scancode) ;; poll_next.

(** ** The executor and [kernel_main]: [task/executor.rs], [lib.rs], [apic/mod.rs],
    [main.rs] *)

Definition spawn : code := heap ;; queue_op.
Definition example_task : code := print.

Definition run_ready_tasks : code :=
  Loop (queue_op ;; (Nop <|> ((example_task <|> shell_poll) ;; (heap <|> Nop)))) ;; queue_op.

Definition sleep_if_idle : code := Disable ;; (EnableAndHlt <|> Enable).

Definition executor_run : code := Loop (run_ready_tasks ;; sleep_if_idle).

Definition init : code := lazy ONCE_IDT Nop ;; locked PICS Nop.

Definition detect : code := Nop <|> (Loop log ;; log).
Definition apic_init : code := log ;; log ;; log ;; locked APIC Nop ;; log.

Definition init_apic : code :=
  (log ;; Enable) <|>
  (detect ;;
   ((log ;; Enable) <|>
    (Disable ;; apic_init ;; ((locked PICS Nop ;; log) <|> log) ;; Enable))).

Definition demo_fs : code :=
  lazy ONCE_FS heap ;;
  Acquire Exclusive FS ;;
  heap ;;
  (print <|> Nop) ;;
  heap ;;
  print ;;
  heap ;;
  print ;;
  heap ;;
  Release FS.

Definition kernel_main : code :=
  init ;;
  (framebuffer_init <|> Nop) ;;
  log ;;
  init_heap ;;
  log ;;
  init_apic ;;
  demo_fs ;;
  log ;;
  heap ;;
  spawn ;;
  spawn ;;
  executor_run.

(** [kernel_main] is entered with interrupts disabled, as the boot loader leaves them. *)
Definition at_entry : core := mkCore false [] [Do kernel_main].

Definition kernel_handlers : list code := [timer_interrupt_handler; keyboard_interrupt_handler false].

(** ** The panic handler: [main.rs], [debug.rs] *)

(** [alloc::format!]: the string is made and grown; a failed allocation panics, which
    starts again. *)
Definition format : code := (alloc ;; Loop (alloc ;; dealloc)).

Definition dump_registers : code := Loop log.
Definition stack_trace : code := log ;; Loop log.
Definition dump_to_serial : code := log ;; Loop log.
Definition crash_dump : code := log ;; log ;; dump_registers ;; stack_trace ;; dump_to_serial ;; dump_last ;; log.
Definition hlt_loop : code := Loop Nop.
Definition panic : code := format ;; Loop format ;; crash_dump ;; heap ;; hlt_loop.

(** ** Theorems *)

(** The locks the handlers take. *)
Definition irq_lock (l : lock) : bool :=
  match l with SERIAL1 | ONCE_SERIAL1 | FRAMEBUFFER | PICS | APIC => true | ALLOCATOR | FS | ONCE_FS | ONCE_IDT => false end.

Lemma kernel_handlers_ok c : c ∈ kernel_handlers -> handler_ok irq_lock c = true.
Proof. unfold kernel_handlers. rewrite !elem_of_cons, elem_of_nil. by intros [->|[->|[]]]; vm_compute. Qed.

Lemma kernel_main_checks : check irq_lock false kernel_main (false, []) = Some (true, []).
Proof. vm_compute. reflexivity. Qed.


(** The processor when the kernel panics: the handler starts where the code was, with
    the flag as it was and every lock still held. *)
Definition panics (s : core) : core := mkCore (iflag s) (held s) [Do panic].

Definition report_locks : list lock := [ALLOCATOR; SERIAL1; ONCE_SERIAL1].

Lemma panic_takes l : l ∈ takes panic -> l ∈ report_locks.
Proof.
  assert (H : forallb (fun x => bool_decide (x ∈ report_locks)) (takes panic) = true) by (vm_compute; reflexivity).
  rewrite List.forallb_forall in H. intros Hl%list_elem_of_In. by apply H, bool_decide_eq_true in Hl.
Qed.

Lemma panic_checks f : check irq_lock false panic (f, []) = Some (f, []).
Proof. destruct f; vm_compute; reflexivity. Qed.








(** If it were the last, freeing it in the handler would deadlock: the interrupt comes
    while the heap's lock is held. *)
Definition in_alloc : core := mkCore true [(ALLOCATOR, Exclusive)] [Do ((Nop <|> trace_record) ;; Release ALLOCATOR)].

Definition to_dealloc : list bool :=
  replicate 6 true ++ [false; true; true; true; true; false] ++ replicate 6 true.

Lemma last_waker_would_deadlock : exists s,
  rtc (core_step [keyboard_interrupt_handler true]) (mkCore true [] [Do alloc]) s /\ blocked s.
Proof.
  set (s2 := mkCore false (held in_alloc) (Do (keyboard_interrupt_handler true) :: Iret :: todo in_alloc)).
  exists (default at_entry (decided to_dealloc s2)). split.
  - etrans; [by apply (decided_steps _ [true; true] _ in_alloc)|].
    eapply rtc_l; [by apply (cs_irq _ (keyboard_interrupt_handler true)), list_elem_of_here|].
    apply (decided_steps _ to_dealloc). vm_compute. reflexivity.
  - vm_compute. do 3 eexists. split; reflexivity.
Qed.

(** C38: whether a panic is reported is decided by the locks held. Wherever the kernel
    panics: when neither the heap's nor the serial line's lock is held the panic handler
    never waits for a lock, so nothing keeps the report back. When the heap's lock is
    held, as it is inside [alloc] and [dealloc], the handler's [format!] waits for it
    for ever, interrupts going on, and the report does not begin. That is the end of a
    panic in the heap itself, which [malloc] reaches for a size near [isize::MAX]. *)
Theorem panic_reported_by_locks rdtsc s s' :
  rtc (core_step kernel_handlers) at_entry s -> rtc (core_step kernel_handlers) (panics s) s' ->
  ((forall l, l ∈ report_locks -> l ∉ (held s).*1) -> ~ blocked s') /\
  (ALLOCATOR ∈ (held s).*1 -> waits Exclusive ALLOCATOR s') /\
  (forall k, exists msg, KernelHeap.alloc rdtsc (mkLayout 9223372036854775768 8) k = Crash (Panic msg)).
Proof.
  intros Hr Hp. destruct (check_sound irq_lock _ kernel_handlers_ok _ _ _ _ s kernel_main_checks ltac:(done) Hr) as (_ & Hc & _).
  split; [|split].
  - intros Hno. destruct (check_frame irq_lock (held s) false panic (iflag s) [] (iflag s) []) as [_ Hch].
    + vm_compute. reflexivity.
    + intros l Hl. by apply Hno, panic_takes.
    + intros Hf. by split; [|apply Hc].
    + apply panic_checks.
    + by apply (check_sound irq_lock _ kernel_handlers_ok _ _ _ _ s' Hch Hc Hp).
  - intros Hh. eapply (waits_forever irq_lock _ kernel_handlers_ok); [|by apply not_available|exact Hc|exact Hp].
    vm_compute. reflexivity.
  - intros k. eexists. vm_compute. reflexivity.
Qed.

(** ** Applications *)

Definition to_alloc : list bool :=
  replicate 264 false ++ true :: replicate 2 false ++ true :: replicate 36 false ++ true :: replicate 5 false ++
  true :: replicate 3 false ++ true :: replicate 29 false ++ true :: replicate 4 false.



Lemma alloc_reached : exists K, rtc (core_step kernel_handlers) at_entry (mkCore true [(ALLOCATOR, Exclusive)] K).
Proof. eexists. apply (decided_steps _ to_alloc). vm_compute. reflexivity. Qed.


Lemma panic_reported_witness : exists s s', held s = [(ALLOCATOR, Exclusive)] /\ iflag s = true /\
  rtc (core_step kernel_handlers) at_entry s /\ rtc (core_step kernel_handlers) (panics s) s' /\
  waits Exclusive ALLOCATOR s'.
Proof.
  destruct alloc_reached as [K Hr].
  assert (Hp : rtc (core_step kernel_handlers) (panics (mkCore true [(ALLOCATOR, Exclusive)] K))
                 (mkCore false [(ALLOCATOR, Exclusive)] [Do timer_interrupt_handler; Iret; Do panic])).
  { eapply rtc_l; [|apply rtc_refl]. apply (cs_irq kernel_handlers timer_interrupt_handler _ [Do panic]), list_elem_of_here. }
  exists (mkCore true [(ALLOCATOR, Exclusive)] K).
  exists (mkCore false [(ALLOCATOR, Exclusive)] [Do timer_interrupt_handler; Iret; Do panic]).
  split; [reflexivity|]. split; [reflexivity|]. split; [exact Hr|]. split; [exact Hp|].
  apply (panic_reported_by_locks (fun n => n) _ _ Hr Hp). apply list_elem_of_here.
Defined.
