(* ===== verification/Debug.v ===== *)
(** * Crash diagnostics: [debug.rs]

    Register dump, frame-pointer backtrace, hex dump, and the report printed when the
    kernel panics. Registers are read by inline assembly: their values are
    arguments. The stack is raw memory. *)

From S2P Require Import Prelude Memory Str Fmt Io Uart UartSpec Monitor Trace Log.
Local Open Scope rust_scope.

Definition debug_target : list Z := text "yonti_os::debug".

(** The values [dump_registers] reads. *)
Record registers := mkRegs {
  rax : Z; rbx : Z; rcx : Z; rdx : Z; rsi : Z; rdi : Z; rbp : Z; rsp : Z;
  r8 : Z; r9 : Z; r10 : Z; r11 : Z; r12 : Z; r13 : Z; r14 : Z; r15 : Z;
  creg0 : Z; creg2 : Z; creg3 : Z; creg4 : Z
}.

(** A general-purpose register, [{:#018x}]. *)
Definition gpr (v : Z) : list Z := hex_prefixed 18 v.

Definition register_lines (r : registers) : list (list Z) :=
  [text "── REGISTERS ──────────────────────";
   text "RAX: " ++ gpr (rax r) ++ text " RBX: " ++ gpr (rbx r) ++ text " RCX: " ++ gpr (rcx r) ++ text " RDX: " ++ gpr (rdx r);
   text "RSI: " ++ gpr (rsi r) ++ text " RDI: " ++ gpr (rdi r) ++ text " RBP: " ++ gpr (rbp r) ++ text " RSP: " ++ gpr (rsp r);
   text "R8:  " ++ gpr (r8 r) ++ text " R9:  " ++ gpr (r9 r) ++ text " R10: " ++ gpr (r10 r) ++ text " R11: " ++ gpr (r11 r);
   text "R12: " ++ gpr (r12 r) ++ text " R13: " ++ gpr (r13 r) ++ text " R14: " ++ gpr (r14 r) ++ text " R15: " ++ gpr (r15 r);
   text "CR0: " ++ hex_prefixed 10 (creg0 r) ++ text " CR2: " ++ hex_prefixed 18 (creg2 r) ++
     text " CR3: " ++ hex_prefixed 18 (creg3 r) ++ text " CR4: " ++ hex_prefixed 10 (creg4 r)].

(** ** The backtrace *)

(** A line of the backtrace: depth, return address, frame pointer. *)
Definition frame_line (f : Z * Z * Z) : list Z :=
  let '(depth, return_addr, rbp) := f in
  text "  " ++ dec depth ++ text ": " ++ hex_prefixed 18 return_addr ++
  text "  (rbp=" ++ hex_prefixed 18 rbp ++ text ")".

(** The rounds [depth .. 16] of the loop of [stack_trace]. *)
Fixpoint walk_frames (rounds : nat) (depth : Z) (m : memory) (rbp : Z) : outcome (list (Z * Z * Z)) :=
  match rounds with
  | O => Ret []
  | S rounds' =>
      if (rbp =? 0) || (rbp <? 0x1000) then Ret []
      else
        a ← rbp +? 8;
        return_addr ← read_u64 m a;
        next_rbp ← read_u64 m rbp;
        if next_rbp <? rbp then Ret [(depth, return_addr, rbp)]
        else
          rest ← walk_frames rounds' (depth + 1) m next_rbp;
          Ret ((depth, return_addr, rbp) :: rest)
  end.

Section debug.
Context {D : Type} `{Ports D}.

Definition error (lg : logger) (line : list Z) : M (serial D) unit := log_macro lg Error debug_target line.

Definition dump_registers (lg : logger) (r : registers) : M (serial D) unit :=
  for_each (register_lines r) (error lg).

Definition stack_trace (lg : logger) (m : memory) (rbp : Z) : M (serial D) unit :=
  _ ← error lg (text "── STACK TRACE ─────────────────────");
  frames ← lift (walk_frames 16 0 m rbp);
  for_each (frame_line <$> frames) (error lg).

(** [crash_dump(reason, _, _)], with the values its parts read. *)
Definition crash_dump (lg : logger) (reason : list Z) (r : registers) (m : memory) (rbp : Z)
    (mon : MonitorData) (t : TraceBuffer) : M (serial D) unit :=
  _ ← error lg (text "══════════ KERNEL CRASH ══════════");
  _ ← error lg (text "reason: " ++ reason);
  _ ← dump_registers lg r;
  _ ← stack_trace lg m rbp;
  _ ← dump_to_serial lg (snapshot mon);
  _ ← dump_trace lg t 16;
  error lg (text "════════════════════════════════════").

(** ** The hex dump *)

(** One line of [hexdump]: 16 cells, blank past the end. *)
Fixpoint hex_cells (n : nat) (m : memory) (addr offset len : Z) : outcome (list Z) :=
  match n with
  | O => Ret []
  | S n' =>
      cell ← (if offset <? len then b ← read_u8 m (addr + offset); Ret (zeros 2 (hex b) ++ text " ")
              else Ret (text "   "));
      rest ← hex_cells n' m addr (offset + 1) len;
      Ret (cell ++ rest)
  end.

(** The [n] lines from [offset] on. *)
Fixpoint hex_lines (n : nat) (m : memory) (addr offset len : Z) : outcome (list (list Z)) :=
  match n with
  | O => Ret []
  | S n' =>
      a ← addr +? offset;
      cells ← hex_cells 16 m addr offset len;
      rest ← hex_lines n' m addr (offset + 16) len;
      Ret ((text "  " ++ hex_prefixed 10 a ++ text ": " ++ cells) :: rest)
  end.

(** [hexdump(addr, len)]: [(0..len).step_by(16)] has a round for each started line. *)
Definition hexdump (lg : logger) (m : memory) (addr len : Z) : M (serial D) unit :=
  _ ← error lg (text "── HEXDUMP " ++ hex_prefixed 18 addr ++ text " ──");
  lines ← lift (hex_lines (Z.to_nat ((len + 15) / 16)) m addr 0 len);
  for_each lines (error lg).
End debug.

(** ** The backtrace of a well-formed stack *)

(** A chain of frames (frame pointer, return address) in memory, each linked to the
    next, at ascending addresses; the outermost one has a null link. *)
Fixpoint chain (m : memory) (frames : list (Z * Z)) : Prop :=
  match frames with
  | [] => True
  | (rbp, ret) :: rest =>
      0x1000 <= rbp /\ rbp + 8 <= u64_max /\ rbp mod 8 = 0 /\ load 8 m (rbp + 8) = Some ret /\
      match rest with
      | [] => load 8 m rbp = Some 0
      | (next, _) :: _ => rbp <= next /\ load 8 m rbp = Some next
      end /\ chain m rest
  end.

Definition numbered (d : Z) (frames : list (Z * Z)) : list (Z * Z * Z) :=
  imap (fun i f => (d + Z.of_nat i, f.2, f.1)) frames.

Lemma numbered_cons d f fs : numbered d (f :: fs) = (d, f.2, f.1) :: numbered (d + 1) fs.
Proof.
  unfold numbered. simpl. f_equal; [f_equal; f_equal; lia|]. apply imap_ext. intros i x _. simpl. f_equal. f_equal. lia.
Qed.

Lemma walk_frames_chain m frames : forall rounds d rbp, chain m frames ->
  (match frames with [] => rbp = 0 | (p, _) :: _ => rbp = p end) ->
  walk_frames rounds d m rbp = Ret (take rounds (numbered d frames)).
Proof.
  induction frames as [|[p ret] frames IH]; intros [|rounds] d rbp Hc Hp; [done| |done|].
  - subst rbp. done.
  - subst rbp. destruct Hc as (H1 & H2 & H3 & H4 & H5 & H6). cbn [walk_frames].
    rewrite (proj2 (Z.eqb_neq p 0)), (proj2 (Z.ltb_ge p 4096)) by lia. cbn [orb].
    unfold chk_add. rewrite (proj2 (Z.leb_le _ _) H2). cbn [mbind outcome_bind].
    unfold read_int. change (Z.of_nat 8) with 8. rewrite (Z.add_mod p 8), H3 by lia.
    change ((0 + 8 mod 8) mod 8 =? 0) with true. rewrite H4. cbn [mbind outcome_bind Z.eqb].
    rewrite numbered_cons. cbn [take fst snd].
    destruct frames as [|[next ret'] frames].
    + rewrite H5. cbn [mbind outcome_bind]. rewrite (proj2 (Z.ltb_lt 0 p)) by lia. by destruct rounds.
    + destruct H5 as [Hle H5]. rewrite H5. cbn [mbind outcome_bind]. rewrite (proj2 (Z.ltb_ge next p)) by lia.
      by rewrite (IH rounds (d + 1) next H6 eq_refl).
Qed.

(** ** The report *)

Section report.
Context {D : Type} `{Ports D} {latency : nat} `{!Uart16550 D 0x3F8 latency}.
Hypothesis patient : (latency < RETRIES)%nat.
Implicit Types (s : serial D).

(** Transmitting [out], and nothing else. *)
Definition writes (out : list Z) (s s' : serial D) : Prop :=
  serial_ok (latency := latency) s' /\ sent (uview (machine s')) = sent (uview (machine s)) ++ out.

Lemma writes_trans o1 o2 s1 s2 s3 : writes o1 s1 s2 -> writes o2 s2 s3 -> writes (o1 ++ o2) s1 s3.
Proof. intros [_ H1] [H2 H3]. split; [done|]. by rewrite H3, H1, <- app_assoc. Qed.

(** The logger as [init(LevelFilter::Info)] sets it. *)
Definition info_logger : logger := mkLogger true 3.

Lemma log_writes l t args s : level_num l <= 3 -> serial_ok (latency := latency) s ->
  wp (log_macro info_logger l t args) (fun _ s' => writes (log_line l t args) s s') s.
Proof.
  intros Hl Hs. unfold log_macro, log, enabled, info_logger. cbn [max_level registered].
  rewrite (proj2 (Z.leb_le _ _) Hl). cbn [andb negb].
  eapply wp_mono; [apply print_ok; [exact patient|exact Hs]|]. intros [] s' (Hs' & _ & Hse). split; [done|].
  rewrite Hse. simpl. by rewrite app_nil_r.
Qed.

Lemma log_all_writes l t lines : level_num l <= 3 -> forall s, serial_ok (latency := latency) s ->
  wp (for_each lines (log_macro info_logger l t)) (fun _ s' => writes (concat (log_line l t <$> lines)) s s') s.
Proof.
  intros Hl. induction lines as [|x lines IH]; intros s Hs.
  - apply wp_ret. split; [done|]. by rewrite app_nil_r.
  - apply wp_bind. eapply wp_mono; [by apply log_writes|]. intros [] s1 H1.
    eapply wp_mono; [apply IH, H1|]. intros [] s2 H2. exact (writes_trans _ _ _ _ _ H1 H2).
Qed.

(** *** What the report must say

    In the templates of the sources ([log.rs], [debug.rs], [monitor.rs], [trace.rs]),
    filled with what each placeholder stands for. *)

Definition logged (color level target : string) (line : list Z) : list Z :=
  fill_from None (esc ++ text "[{}m[{:<5}]" ++ esc ++ text "[0m {}: {}" ++ [10])
    [Txt (text color); Txt (text level); Txt (text target); Txt line].

Definition errors (lines : list (list Z)) : list Z := concat (logged "31" "ERROR" "yonti_os::debug" <$> lines).
Definition infos (target : string) (lines : list (list Z)) : list Z := concat (logged "37" "INFO" target <$> lines).

Definition register_report (r : registers) : list (list Z) :=
  [fill "── REGISTERS ──────────────────────" [];
   fill "RAX: {:#018x} RBX: {:#018x} RCX: {:#018x} RDX: {:#018x}" [Num (rax r); Num (rbx r); Num (rcx r); Num (rdx r)];
   fill "RSI: {:#018x} RDI: {:#018x} RBP: {:#018x} RSP: {:#018x}" [Num (rsi r); Num (rdi r); Num (rbp r); Num (rsp r)];
   fill "R8:  {:#018x} R9:  {:#018x} R10: {:#018x} R11: {:#018x}" [Num (r8 r); Num (r9 r); Num (r10 r); Num (r11 r)];
   fill "R12: {:#018x} R13: {:#018x} R14: {:#018x} R15: {:#018x}" [Num (r12 r); Num (r13 r); Num (r14 r); Num (r15 r)];
   fill "CR0: {:#010x} CR2: {:#018x} CR3: {:#018x} CR4: {:#010x}" [Num (creg0 r); Num (creg2 r); Num (creg3 r); Num (creg4 r)]].

(** The frames from the innermost out, at most sixteen. *)
Definition stack_report (frames : list (Z * Z)) : list (list Z) :=
  fill "── STACK TRACE ─────────────────────" [] ::
  imap (fun depth f => fill "  {}: {:#018x}  (rbp={:#018x})" [Num (Z.of_nat depth); Num f.2; Num f.1]) (take 16 frames).

Definition metrics_report (m : MonitorData) : list (list Z) :=
  fill "metrics: alloc={} free={} cur={} peak={} frames={}/{} tasks={}/{}/{} drops={} ticks={}"
    [Num (alloc_count m); Num (free_count m); Num (current_allocated m); Num (peak_allocated m); Num (allocated_frames m);
     Num (mon_total_frames m); Num (tasks_spawned m); Num (tasks_completed m); Num (active_tasks m); Num (dropped_wakes m);
     Num (timer_ticks m)] ::
  ((fun x => fill "  irq 0x{:02x}: {}" [Num (0x20 + Z.of_nat x.1); Num x.2]) <$>
    filter (fun x => 0 < x.2) (imap pair (interrupt_counts m))).

Definition event_label (id : TraceEventId) : string :=
  match id with
  | Alloc => "ALLOC" | Free => "FREE" | TaskSpawn => "TASK_SPAWN" | TaskComplete => "TASK_COMPLETE"
  | Interrupt => "IRQ" | PageFault => "PAGE_FAULT"
  end.

(** The last sixteen events of the history, in order. *)
Definition trace_report (es : list event) : list (list Z) :=
  fill "trace events: total={} overflow={} (showing last {})"
    [Num (Z.of_nat (length es)); Num ((Z.of_nat (length es) + 4095) / 4096); Num 16] ::
  ((fun e => fill "  [{:016x}] {} arg0={:#x} arg1={:#x}"
     [Num (ev_tsc e); Txt (text (event_label (ev_id e))); Num (ev_a0 e); Num (ev_a1 e)]) <$> drop (length es - 16) es).

Definition crash_report (reason : list Z) (r : registers) (frames : list (Z * Z)) (mon : MonitorData)
    (es : list event) : list Z :=
  errors ([fill "══════════ KERNEL CRASH ══════════" []; fill "reason: {}" [Txt reason]] ++ register_report r ++ stack_report frames) ++
  infos "yonti_os::monitor" (metrics_report mon) ++
  infos "yonti_os::trace" (trace_report es) ++
  errors [fill "════════════════════════════════════" []].

(** *** The lines printed are those *)

(** Both sides are evaluated up to the numbers they print. *)
Ltac templates := cbv -[dec hex hex_prefixed zeros app Z.of_nat Z.add Z.div]; rewrite ?app_nil_r; reflexivity.

Lemma logged_error line : log_line Error debug_target line = logged "31" "ERROR" "yonti_os::debug" line.
Proof. templates. Qed.

Lemma logged_monitor line : log_line Info monitor_target line = logged "37" "INFO" "yonti_os::monitor" line.
Proof. templates. Qed.

Lemma logged_trace line : log_line Info trace_target line = logged "37" "INFO" "yonti_os::trace" line.
Proof. templates. Qed.

Lemma register_lines_say r : register_lines r = register_report r.
Proof. destruct r. templates. Qed.

Lemma frame_lines_say frames :
  text "── STACK TRACE ─────────────────────" :: (frame_line <$> take 16 (numbered 0 frames)) = stack_report frames.
Proof.
  unfold stack_report. f_equal. unfold numbered. generalize 16%nat. intros n.
  assert (Hx : forall fs (g : nat -> nat) k, frame_line <$> take k (imap (fun i f => (0 + Z.of_nat (g i), f.2, f.1)) fs) =
    imap (fun i f => fill "  {}: {:#018x}  (rbp={:#018x})" [Num (Z.of_nat (g i)); Num f.2; Num f.1]) (take k fs)).
  { induction fs as [|f fs IH]; intros g [|k]; [done..|]. cbn [imap take fmap list_fmap]. f_equal.
    exact (IH (g ∘ S) k). }
  exact (Hx frames id n).
Qed.

Lemma metrics_lines_say m : metrics_text m :: irq_lines m = metrics_report m.
Proof.
  unfold metrics_report, irq_lines. f_equal; [destruct m; templates|].
  assert (Hx : forall counts (g : nat -> nat), concat (imap (fun i count => if 0 <? count then [irq_text (g i) count] else []) counts) =
    (fun x => fill "  irq 0x{:02x}: {}" [Num (0x20 + Z.of_nat x.1); Num x.2]) <$>
      filter (fun x => 0 < x.2) (imap (fun i count => (g i, count)) counts)).
  { induction counts as [|c counts IH]; intros g; [done|]. cbn [imap concat]. rewrite filter_cons. specialize (IH (g ∘ S)).
    unfold compose in *. rewrite IH. destruct (Z.ltb_spec 0 c); [rewrite decide_True by done|by rewrite decide_False by (simpl; lia)].
    cbn [fmap list_fmap app]. f_equal. templates. }
  exact (Hx (interrupt_counts m) id).
Qed.

Lemma trace_line_says e : trace_line (dump_line (entry_of e)) = fill "  [{:016x}] {} arg0={:#x} arg1={:#x}"
  [Num (ev_tsc e); Txt (text (event_label (ev_id e))); Num (ev_a0 e); Num (ev_a1 e)].
Proof. destruct e as [ts [] a0 a1]; templates. Qed.

(** The report, line by line as [crash_dump] prints it. *)
Lemma crash_report_lines reason r frames mon es : crash_report reason r frames mon es =
  concat (log_line Error debug_target <$>
    [text "══════════ KERNEL CRASH ══════════"; text "reason: " ++ reason] ++ register_lines r ++
    text "── STACK TRACE ─────────────────────" :: (frame_line <$> take 16 (numbered 0 frames))) ++
  concat (log_line Info monitor_target <$> metrics_text mon :: irq_lines mon) ++
  infos "yonti_os::trace" (trace_report es) ++
  concat (log_line Error debug_target <$> [text "════════════════════════════════════"]).
Proof.
  unfold crash_report. rewrite frame_lines_say, register_lines_say, metrics_lines_say. unfold errors, infos at 1.
  assert (Hr : fill "reason: {}" [Txt reason] = text "reason: " ++ reason) by templates. rewrite Hr.
  assert (He : forall ls : list (list Z), logged "31" "ERROR" "yonti_os::debug" <$> ls = log_line Error debug_target <$> ls).
  { intros ls. apply list_fmap_ext. intros i line _. by rewrite logged_error. }
  assert (Hm : forall ls : list (list Z), logged "37" "INFO" "yonti_os::monitor" <$> ls = log_line Info monitor_target <$> ls).
  { intros ls. apply list_fmap_ext. intros i line _. by rewrite logged_monitor. }
  rewrite !He, !Hm. reflexivity.
Qed.

Lemma lines_in_order (f g : list Z -> list Z) a b c d e xs ys zs out :
  concat (f <$> [a; b] ++ xs ++ c :: ys) ++ concat (g <$> d :: zs) ++ out ++ concat (f <$> [e]) =
  f a ++ f b ++ concat (f <$> xs) ++ f c ++ concat (f <$> ys) ++ g d ++ concat (g <$> zs) ++ out ++ f e.
Proof.
  rewrite !fmap_app, !concat_app. cbn [fmap list_fmap concat]. by rewrite <- !app_assoc, !app_nil_r.
Qed.

Lemma for_each_fmap {S X Y} (f : X -> Y) (body : Y -> M S unit) (xs : list X) (s : S) :
  for_each (f <$> xs) body s = for_each xs (fun x => body (f x)) s.
Proof.
  revert s. induction xs as [|x xs IH]; intros s; [done|]. simpl. unfold mbind, M_bind.
  destruct (body (f x) s) as [[? ?]|]; [apply IH|done].
Qed.

Lemma dump_last_holds es t : trace_holds es t ->
  dump_last t 16 = Ret (Z.of_nat (length es), (Z.of_nat (length es) + 4095) / 4096, 16,
                        dump_line ∘ entry_of <$> drop (length es - 16) es).
Proof.
  intros Ht. pose proof Ht as (_ & _ & Hw & Ho & _). unfold dump_last. rewrite Hw, Ho.
  assert (Hs : saturating_sub (Z.of_nat (length es)) 16 = Z.of_nat (length es - 16)) by (unfold saturating_sub; lia).
  rewrite Hs, (dump_from_holds es t Ht) by (unfold BUFFER_SIZE; lia). by rewrite Nat2Z.id.
Qed.

Lemma dump_trace_writes es t s : trace_holds es t -> serial_ok (latency := latency) s ->
  wp (dump_trace info_logger t 16) (fun _ s' => writes (infos "yonti_os::trace" (trace_report es)) s s') s.
Proof.
  intros Ht Hs. unfold infos, trace_report. cbn [fmap list_fmap concat]. rewrite <- list_fmap_compose.
  assert (Hl : logged "37" "INFO" "yonti_os::trace" ∘ (fun e => fill "  [{:016x}] {} arg0={:#x} arg1={:#x}"
      [Num (ev_tsc e); Txt (text (event_label (ev_id e))); Num (ev_a0 e); Num (ev_a1 e)]) <$> drop (length es - 16) es =
    log_line Info trace_target <$> (trace_line <$> (dump_line ∘ entry_of <$> drop (length es - 16) es))).
  { rewrite <- !list_fmap_compose. apply list_fmap_ext. intros i e _. unfold compose. by rewrite logged_trace, trace_line_says. }
  rewrite Hl. unfold dump_trace. rewrite (dump_last_holds es t Ht). apply wp_bind, wp_lift, returns_ret.
  apply wp_bind. eapply wp_mono; [by apply log_writes|]. intros [] s1 H1.
  assert (Hx : wp (for_each (trace_line <$> (dump_line ∘ entry_of <$> drop (length es - 16) es)) (log_macro info_logger Info trace_target))
    (fun _ s' => writes (concat (log_line Info trace_target <$> (trace_line <$> (dump_line ∘ entry_of <$> drop (length es - 16) es)))) s1 s') s1)
    by (apply log_all_writes, H1; done).
  unfold wp in Hx |- *. rewrite for_each_fmap in Hx. destruct (for_each _ _ s1) as [[[] s2]|]; [|done].
  rewrite logged_trace in H1. exact (writes_trans _ _ _ _ _ H1 Hx).
Qed.

(** C28: the crash report is complete and exact. With a logger registered at level [Info],
    the trace initialised, a lawful serial chip in order and a stack whose aligned frames
    are linked upwards to a null link, [crash_dump] returns and transmits, in the sources'
    own templates, the reason, every register under its name, the return addresses of
    the first sixteen frames from the innermost out with their frame pointers, the metrics
    with the interrupts that occurred, and the last sixteen trace events in the order they
    happened; nothing else is transmitted. *)
Theorem crash_dump_reports reason r frames m mon t es s rbp :
  chain m frames -> (match frames with [] => rbp = 0 | (p, _) :: _ => rbp = p end) ->
  trace_holds es t -> serial_ok (latency := latency) s ->
  exists s', crash_dump info_logger reason r m rbp mon t s = Ret (tt, s') /\
    sent (uview (machine s')) = sent (uview (machine s)) ++ crash_report reason r frames (snapshot mon) es.
Proof.
  intros Hc Hp Ht Hs.
  assert (wp (crash_dump info_logger reason r m rbp mon t)
    (fun _ s' => writes (crash_report reason r frames (snapshot mon) es) s s') s) as ([] & s' & Hr & _ & Ho)%wp_elim.
  2: { by exists s'. }
  unfold crash_dump, error. apply wp_bind. eapply wp_mono; [by apply log_writes|]. intros [] s1 H1.
  apply wp_bind. eapply wp_mono; [apply log_writes; [done|apply H1]|]. intros [] s2 H2.
  apply wp_bind. eapply wp_mono; [apply log_all_writes; [done|apply H2]|]. intros [] s3 H3.
  apply wp_bind. unfold stack_trace, error. apply wp_bind. eapply wp_mono; [apply log_writes; [done|apply H3]|]. intros [] s4 H4.
  rewrite (walk_frames_chain m frames 16 0 rbp Hc Hp). apply wp_bind, wp_lift, returns_ret.
  eapply wp_mono; [apply log_all_writes; [done|apply H4]|]. intros [] s5 H5.
  apply wp_bind. unfold dump_to_serial. apply wp_bind. eapply wp_mono; [apply log_writes; [done|apply H5]|]. intros [] s6 H6.
  eapply wp_mono; [apply log_all_writes; [done|apply H6]|]. intros [] s7 H7.
  apply wp_bind. eapply wp_mono; [apply dump_trace_writes; [done|apply H7]|]. intros [] s8 H8.
  eapply wp_mono; [apply log_writes; [done|apply H8]|]. intros [] s9 H9.
  pose proof (writes_trans _ _ _ _ _ H1 (writes_trans _ _ _ _ _ H2 (writes_trans _ _ _ _ _ H3 (writes_trans _ _ _ _ _ H4
    (writes_trans _ _ _ _ _ H5 (writes_trans _ _ _ _ _ H6 (writes_trans _ _ _ _ _ H7 (writes_trans _ _ _ _ _ H8 H9)))))))) as Hall.
  rewrite crash_report_lines, lines_in_order. exact Hall.
Qed.
End report.

(** Two frames on a stack. *)
Definition demo_stack : memory :=
  store 8 (store 8 (store 8 (store 8 ∅ 0x2000 0x2040) 0x2008 0xAAAA) 0x2040 0) 0x2048 0xBBBB.

Definition demo_regs : registers := mkRegs 1 2 3 4 5 6 0x2000 0x1F00 8 9 10 11 12 13 14 15 0x80000011 0 0x1000 0x620.

Lemma crash_dump_witness : exists s',
  crash_dump info_logger (text "boom") demo_regs demo_stack 0x2000 MonitorData_new
    (Trace.init TRACE) demo_serial = Ret (tt, s') /\
  sent (uview (machine s')) = sent (uview (machine demo_serial)) ++ crash_report (text "boom") demo_regs
    [(0x2000, 0xAAAA); (0x2040, 0xBBBB)] (snapshot MonitorData_new) [].
Proof.
  destruct (crash_dump_reports (latency := 2) (proj1 (Nat.ltb_lt 2 RETRIES) ltac:(vm_compute; reflexivity))
    (text "boom") demo_regs [(0x2000, 0xAAAA); (0x2040, 0xBBBB)] demo_stack
    MonitorData_new (Trace.init TRACE) [] demo_serial 0x2000) as (s' & H1 & H2).
  - simpl. unfold u64_max. repeat split; try lia; vm_compute; reflexivity.
  - reflexivity.
  - exact init_holds.
  - split; [simpl; lia|exact I].
  - exists s'. split; [exact H1|exact H2].
Defined.
