(* ===== verification/Harness.v ===== *)
(** * The test harness and the host-side runner: [lib.rs], [main.rs], [runner/src]

    Tests run inside the kernel and report through QEMU's exit status: the harness of
    [lib.rs] runs the tests, its panic handler reports a failure, both end the
    emulator by a write to the debug-exit port, and the runner on the host turns the
    emulator's status into its own. *)

From S2P Require Import Prelude Memory Str Fmt Monitor Trace Queue Io Uart UartSpec Framebuffer Fs.
From S2P Require Import Heap Tlsf TlsfInv TlsfMalloc KernelHeap Log Shell ShellSpec Debug.

(** ** The host: [runner/src] *)

Record Command := mkCommand {
  program : string;
  arguments : list string
}.

Definition arg (a : string) (c : Command) : Command := mkCommand (program c) (arguments c ++ [a]).

(** [qemu_base_args] *)
Definition qemu_base_args (img : string) (no_graphic : bool) : Command :=
  let cmd := mkCommand "qemu-system-x86_64" [] in
  let cmd := if no_graphic then arg "-nographic" cmd else cmd in
  arg "isa-debug-exit,iobase=0xf4,iosize=0x04" (arg "-device" (arg "-no-reboot"
    (arg (String.append "format=raw,file=" img) (arg "-drive" cmd)))).

(** What a host program does: start a command and exit with a code computed from its
    status ([None] when a signal ended it), or exit at once. *)
Inductive host :=
  | Launch (c : Command) (exit : option Z -> Z)
  | Exit (code : Z).

Definition run_bios (img : string) (no_graphic : bool) : host :=
  Launch (qemu_base_args img no_graphic) (default 1).

(** [run_uefi]; [ovmf] is the firmware file fetched, when the feature is compiled in. *)
Definition run_uefi (ovmf : option string) (img : string) (no_graphic : bool) : host :=
  match ovmf with
  | Some file => Launch (arg file (arg "-bios" (qemu_base_args img no_graphic))) (default 1)
  | None => Exit 1
  end.

(** [main] of [runner/src/main.rs]; [args] includes the program's name. *)
Definition runner_main (bios_img uefi_img : string) (ovmf : option string) (args : list string) : host :=
  let mode := default "bios"%string (args !! 1%nat) in
  let no_graphic := negb (existsb (fun a => bool_decide (a = "--display"%string)) args) in
  if decide (mode = "bios"%string) then run_bios bios_img no_graphic
  else if decide (mode = "uefi"%string) then run_uefi ovmf uefi_img no_graphic
  else if decide (mode = "gui"%string) then run_bios bios_img false
  else Exit 1.

(** The end of [main] of [runner/src/test_runner.rs]. *)
Definition test_exit (status : option Z) : Z :=
  let code := default 1 status in
  if code =? 33 then 0 else if code =? 35 then 1 else code.

(** [main] of [runner/src/test_runner.rs]; the image built from the binary is at a
    fixed path. *)
Definition test_runner_main (args : list string) : host :=
  if (length args <? 2)%nat then Exit 1
  else Launch (qemu_base_args "/tmp/yonti-os-test-runner/test_bios.img" true) test_exit.

(** ** The debug-exit device *)

Inductive QemuExitCode := Success | Failed.

Definition exit_value (c : QemuExitCode) : Z := match c with Success => 0x10 | Failed => 0x11 end.

(** The machine as the emulator sees it: 32-bit port writes, and the status the
    emulator's process has ended with. *)
Class Emulated (D : Type) `{Ports D} := {
  outl : Z -> Z -> D -> D;
  exited : D -> option Z
}.

(** The device at port [0xf4] ends the emulator with [(val << 1) | 1], the others do
    not end it, and the first status stands. *)
Class DebugExit (D : Type) `{Emulated D} : Prop := {
  exit_law v d : exited d = None -> 0 <= v < 0x80 -> exited (outl 0xf4 v d) = Some (Z.lor (Z.shiftl v 1) 1);
  exit_out p v d : exited (outb p v d) = exited d;
  exit_in p d : exited (inb p d).2 = exited d;
  exit_stays p v d c : exited d = Some c -> exited (outl p v d) = Some c
}.

(** ** The harness: [lib.rs] *)

(** A test: its name, and its body on the kernel's state, which returns or panics with
    a [PanicInfo] (its text). *)
Record test (D : Type) := mkTest {
  tname : list Z;
  tbody : world D -> option (list Z) * world D
}.
Arguments mkTest {D}.
Arguments tname {D}.
Arguments tbody {D}.

Section harness.
Context {D : Type} `{Emulated D} (rdtsc : Z -> Z).

(** What the crash report reads of the processor (registers, stack, frame pointer) when
    the panic is [info], the sizes [alloc::format!] asks for while its string grows, and
    the message of a failed allocation. *)
Context (cpu : list Z -> registers * memory * Z).
Context (growth : list Z -> list Layout) (oom : Layout -> list Z).

Definition exit_qemu (exit_code : QemuExitCode) : M (world D) unit :=
  modify (fun w => mkWorld (mkSerialState (outl 0xf4 (exit_value exit_code) (Uart.machine (wserial w))) (SERIAL1 (wserial w)))
                     (wscreen w) (wfs w) (wheap w) (wlog w)).

(** [serial_print!] *)
Definition serial_print (args : list (list Z)) : M (world D) unit := on_serial (_print args).

(** [Testable::run]; the text of a panic is passed on. *)
Definition Testable_run (t : test D) : M (world D) (result unit (list Z)) :=
  _ ← serial_print [tname t; text "..." ++ [9]];
  r ← (fun w => Ret (tbody t w));
  match r with
  | Some info => mret (Err info)
  | None => _ ← serial_print [text "[ok]" ++ [10]]; mret (Ok tt)
  end.

Fixpoint run_each (tests : list (test D)) : M (world D) (result unit (list Z)) :=
  match tests with
  | [] => mret (Ok tt)
  | t :: tests' =>
      r ← Testable_run t;
      match r with Ok _ => run_each tests' | Err info => mret (Err info) end
  end.

Definition test_runner (tests : list (test D)) : M (world D) (result unit (list Z)) :=
  _ ← serial_print [text "Running "; dec (Z.of_nat (length tests)); text " tests" ++ [10]];
  r ← run_each tests;
  match r with
  | Ok _ => _ ← exit_qemu Success; mret (Ok tt)
  | Err info => mret (Err info)
  end.

(** [alloc::format!("{}", info)]: the string's buffer is replaced by a larger one as it
    grows; the failing request otherwise. *)
Fixpoint grow (old : option (Z * Layout)) (ls : list Layout) : M kworld (result (option (Z * Layout)) Layout) :=
  match ls with
  | [] => mret (Ok old)
  | l :: ls' =>
      p ← KernelHeap.alloc rdtsc l;
      if p =? 0 then mret (Err l)
      else
        _ ← match old with Some (q, lq) => KernelHeap.dealloc rdtsc q lq | None => mret tt end;
        grow (Some (p, l)) ls'
  end.

Definition drop_string (buf : option (Z * Layout)) : M kworld unit :=
  match buf with Some (p, l) => KernelHeap.dealloc rdtsc p l | None => mret tt end.

(** [crash_dump(&alloc::format!("{}", info), ..)]; a failed allocation panics, which is
    a call of the panic handler [again]. *)
Definition report_crash (info : list Z) (again : list Z -> M (world D) unit) (after : M (world D) unit) : M (world D) unit :=
  r ← on_kheap (grow None (growth info));
  match r with
  | Err l => again (oom l)
  | Ok buf =>
      w ← get;
      let '(regs, stack, rbp) := cpu info in
      _ ← on_serial (crash_dump (wlog w) info regs stack rbp (kmon (wheap w)) (ktrace (wheap w)));
      _ ← on_kheap (drop_string buf);
      after
  end.

(** [test_panic_handler], up to its [hlt_loop]. *)
Fixpoint test_panic_handler (fuel : nat) (info : list Z) : M (world D) unit :=
  match fuel with
  | O => crash OutOfFuel
  | S fuel' =>
      _ ← serial_print [text "[failed]" ++ [10; 10]];
      _ ← serial_print [text "Error: "; info; [10; 10]];
      report_crash info (test_panic_handler fuel') (exit_qemu Failed)
  end.

(** [panic] of [main.rs], up to its [hlt_loop]. *)
Fixpoint panic (fuel : nat) (info : list Z) : M (world D) unit :=
  match fuel with
  | O => crash OutOfFuel
  | S fuel' => report_crash info (panic fuel') (mret tt)
  end.

(** The tests, and the panic handler when one panics. *)
Definition test_main (fuel : nat) (tests : list (test D)) : M (world D) unit :=
  r ← test_runner tests;
  match r with Ok _ => mret tt | Err info => test_panic_handler fuel info end.
End harness.

(** ** What the harness does *)

Section verdict.
Context {D : Type} `{Emulated D} {latency : nat} `{!Uart16550 D 0x3F8 latency} `{!DebugExit D}.
Hypothesis patient : (latency < RETRIES)%nat.

(** The debug-exit device is not the serial chip. *)
Hypothesis exit_apart : forall v d, uview (outl 0xf4 v d) = uview d.
Notation serial_ok := (serial_ok (latency := latency)).
Notation output := (output (latency := latency)).

(** The status the emulator has ended with. *)
Definition status (w : world D) : option Z := exited (Uart.machine (wserial w)).

Lemma serial_com1 (s : serial D) : serial_ok s -> com1_ok (SERIAL1 s).
Proof. intros [_ Hs]. destruct (SERIAL1 s); [right|by left]. by destruct Hs as [-> _]. Qed.

(** [c] returns, with the line in order and the emulator running as before. *)
Definition talks {A} (c : M (serial D) A) : Prop := forall s, serial_ok s ->
  wp c (fun _ s' => serial_ok s' /\ exited (Uart.machine s') = exited (Uart.machine s) /\
    exists out, sent (uview (Uart.machine s')) = sent (uview (Uart.machine s)) ++ out) s.

Lemma talks_ret {A} (a : A) : talks (mret a).
Proof. intros s Hs. apply wp_ret. split_and!; [done|done|]. exists []. by rewrite app_nil_r. Qed.
Lemma talks_bind {A B} (c : M (serial D) A) (f : A -> M (serial D) B) :
  talks c -> (forall a, talks (f a)) -> talks (c ≫= f).
Proof.
  intros Hc Hf s Hs. apply wp_bind. eapply wp_mono; [by apply Hc|]. intros a s1 (Hs1 & He1 & o1 & Ho1).
  eapply wp_mono; [by apply Hf|]. intros b s2 (Hs2 & He2 & o2 & Ho2). split_and!; [done|congruence|].
  exists (o1 ++ o2). by rewrite Ho2, Ho1, <- app_assoc.
Qed.
Lemma talks_each {A} (f : A -> M (serial D) unit) xs : (forall x, talks (f x)) -> talks (for_each xs f).
Proof. intros Hf. induction xs; simpl; [apply talks_ret|]. by apply talks_bind. Qed.

Lemma print_talks args : forall s, serial_ok s -> wp (_print args) (fun _ s' => (serial_ok s' /\
  exited (Uart.machine s') = exited (Uart.machine s)) /\
  sent (uview (Uart.machine s')) = sent (uview (Uart.machine s)) ++ concat args) s.
Proof.
  intros s Hs. eapply wp_mono; [apply wp_and; [by apply print_ok|apply (serial_print_keeps exited)]|].
  - intros p v d _. apply exit_out.
  - intros p d _. apply exit_in.
  - by apply serial_com1.
  - by intros [] s' [(H1 & _ & H2) [H3 _]].
Qed.

Lemma talks_log lg l t args : talks (log_macro lg l t args).
Proof.
  intros s Hs. unfold log_macro, Log.log. case_match; [|by apply talks_ret]. case_match; [by apply talks_ret|].
  eapply wp_mono; [by apply print_talks|]. intros [] s' [[? ?] ?]. split_and!; [done|done|by eexists].
Qed.

Create HintDb talks.
Hint Resolve talks_ret talks_bind talks_each talks_log : talks.

Lemma talks_lift {A} (o : outcome A) (a : A) : o = Ret a -> talks (lift o).
Proof. intros -> s Hs. apply wp_lift, returns_ret. by apply (talks_ret a). Qed.

Lemma crash_dump_talks lg info r m rbp frames mon t : walk_frames 16 0 m rbp = Ret frames ->
  length (entries t) = Z.to_nat BUFFER_SIZE -> talks (crash_dump lg info r m rbp mon t).
Proof.
  intros Hf Ht. unfold crash_dump, error, dump_registers, stack_trace, dump_to_serial, dump_trace.
  destruct (returns_elim _ _ (dump_from_returns patient t (Z.to_nat (write_idx t - saturating_sub (write_idx t) 16))
    (saturating_sub (write_idx t) 16) Ht)) as (ls & Hls & _).
  assert (Hd : dump_last t 16 = Ret (write_idx t, overflow_count t, 16, ls)) by (unfold dump_last; by rewrite Hls).
  repeat (apply talks_bind; [|intros ?]); repeat case_match; eauto using talks_lift with talks.
Qed.

(** Transmitting [out], nothing else changed that matters here. *)
Definition said (out : list Z) (w w' : world D) : Prop :=
  serial_ok (wserial w') /\ status w' = status w /\ output w' = output w ++ out /\
  wheap w' = wheap w /\ wlog w' = wlog w.

Lemma said_trans o1 o2 w1 w2 w3 : said o1 w1 w2 -> said o2 w2 w3 -> said (o1 ++ o2) w1 w3.
Proof.
  intros (_ & H1 & H2 & H3 & H4) (H5 & H6 & H7 & H8 & H9). unfold said.
  split_and!; [done|congruence|by rewrite H7, H2, <- app_assoc|congruence..].
Qed.

Lemma serial_print_ok args w : serial_ok (wserial w) -> wp (serial_print args) (fun _ w' => said (concat args) w w') w.
Proof.
  intros Hs. apply wp_on_serial. eapply wp_mono; [by apply print_talks|]. intros [] s' [[H1 H2] H3].
  by split_and!.
Qed.

(** *** The tests *)

Context (rdtsc : Z -> Z) (cpu : list Z -> registers * memory * Z).
Context (growth : list Z -> list Layout) (oom : Layout -> list Z).

(** A body that does not end the emulator itself, may print, and keeps a condition [J]
    on the heap. *)
Definition steady (J : kworld -> Prop) (t : test D) : Prop :=
  forall w, serial_ok (wserial w) -> status w = None -> J (wheap w) ->
  let w' := (tbody t w).2 in
  serial_ok (wserial w') /\ status w' = None /\ J (wheap w') /\ exists out, output w' = output w ++ out.

(** The report of a run of [tests] that ends in [r]: every test that returned is
    followed by [ok]; the first one that panics ends it. *)
Inductive report : list (test D) -> result unit (list Z) -> list Z -> Prop :=
  | report_done : report [] (Ok tt) []
  | report_pass t ts r w out rest : (tbody t w).1 = None -> report ts r rest ->
      report (t :: ts) r (tname t ++ text "..." ++ [9] ++ out ++ text "[ok]" ++ [10] ++ rest)
  | report_fail t ts w info out : (tbody t w).1 = Some info ->
      report (t :: ts) (Err info) (tname t ++ text "..." ++ [9] ++ out).

Lemma run_each_ok J tests : forall w, Forall (steady J) tests -> serial_ok (wserial w) -> status w = None -> J (wheap w) ->
  exists r w' out, run_each tests w = Ret (r, w') /\ report tests r out /\ output w' = output w ++ out /\
    serial_ok (wserial w') /\ status w' = None /\ J (wheap w').
Proof.
  induction tests as [|t tests IH]; intros w Hst Hs Hn Hj.
  - exists (Ok tt), w, []. rewrite app_nil_r. by split_and!; [|constructor|..].
  - apply Forall_cons in Hst as [Ht Hst]. cbn [run_each]. unfold Testable_run, mbind, M_bind.
    destruct (wp_elim _ _ _ (serial_print_ok [tname t; text "..." ++ [9]] w Hs)) as ([] & w1 & -> & Hs1 & Hn1 & Ho1 & Hh1 & _).
    pose proof (Ht w1 Hs1 ltac:(congruence) ltac:(congruence)) as Hb. destruct (tbody t w1) as [o w2] eqn:E. cbn [fst snd] in Hb.
    destruct Hb as (Hs2 & Hn2 & Hj2 & out & Ho2). cbn [concat] in Ho1. rewrite app_nil_r in Ho1. destruct o as [info|].
    + exists (Err info), w2, (tname t ++ text "..." ++ [9] ++ out). split; [done|].
      split; [apply (report_fail t tests w1); by rewrite E|]. split; [|done].
      rewrite Ho2, Ho1. by rewrite <- !app_assoc.
    + destruct (wp_elim _ _ _ (serial_print_ok [text "[ok]" ++ [10]] w2 Hs2)) as ([] & w3 & -> & Hs3 & Hn3 & Ho3 & Hh3 & _).
      destruct (IH w3 Hst Hs3 ltac:(congruence) ltac:(congruence)) as (r & w4 & rest & Hr & Hrep & Ho4 & Hs4 & Hn4).
      exists r, w4. eexists. split; [exact Hr|]. split; [eapply (report_pass t tests r w1 out); [by rewrite E|done]|].
      split; [|done]. cbn [concat] in Ho3. rewrite Ho4, Ho3, Ho2, Ho1, app_nil_r. by rewrite <- !app_assoc.
Qed.

Lemma exit_ok c w : status w = None -> exists w', exit_qemu c w = Ret (tt, w') /\
  status w' = Some (match c with Success => 33 | Failed => 35 end) /\ output w' = output w.
Proof.
  intros Hn. eexists. split; [done|]. unfold status, ShellSpec.output. simpl. rewrite exit_apart.
  split; [|done]. rewrite exit_law; [by destruct c|done|by destruct c].
Qed.

(** *** The panic handler *)

Lemma grow_ok lo hi ls : forall old k A, kernel_inv lo hi k (option_list old ++ A) -> Forall small_align ls ->
  wp (grow rdtsc old ls) (fun r k' => match r with Ok buf => kernel_inv lo hi k' (option_list buf ++ A) | Err _ => True end) k.
Proof.
  induction ls as [|l ls IH]; intros old k A Hk Hl; [by apply wp_ret|]. apply Forall_cons in Hl as [Hl Hls].
  cbn [grow]. apply wp_bind. eapply wp_mono; [by apply kernel_alloc_wp|]. intros p k1 [[-> _]|[Hp Hk1]]; [by apply wp_ret|].
  rewrite (proj2 (Z.eqb_neq _ _) Hp). apply wp_bind. destruct old as [[q lq]|]; [|apply wp_ret; by apply IH].
  eapply wp_mono; [apply (kernel_dealloc_wp rdtsc lo hi k1 [(p, l)] q lq A); exact Hk1|]. intros [] k2 Hk2. by apply IH.
Qed.

(** The heap is in order and has room for the message; the stack can be walked. *)
Definition can_report (info : list Z) (k : kworld) : Prop :=
  exists lo hi A buf k' frames, kernel_inv lo hi k A /\ Forall small_align (growth info) /\
    grow rdtsc None (growth info) k = Ret (Ok buf, k') /\
    walk_frames 16 0 (cpu info).1.2 (cpu info).2 = Ret frames.

Lemma report_crash_ok info again after w : serial_ok (wserial w) -> can_report info (wheap w) ->
  exists w' out, report_crash rdtsc cpu growth oom info again after w = after w' /\ status w' = status w /\
    output w' = output w ++ out.
Proof.
  intros Hs (lo & hi & A & buf & k' & frames & Hk & Hsm & Hg & Hf).
  pose proof (grow_ok lo hi (growth info) None (wheap w) A Hk Hsm) as Hk'. unfold wp in Hk'. rewrite Hg in Hk'.
  unfold report_crash, mbind, M_bind, on_kheap. rewrite Hg. destruct (cpu info) as [[regs stack] rbp] eqn:Ec.
  cbn [get]. unfold on_serial. cbn [wserial wlog wheap wscreen wfs fst snd] in *.
  assert (Ht : length (entries (ktrace k')) = Z.to_nat BUFFER_SIZE) by apply Hk'.
  destruct (wp_elim _ _ _ (crash_dump_talks (wlog w) info regs stack rbp frames (kmon k') (ktrace k') Hf Ht (wserial w) Hs))
    as ([] & s' & Hc & Hs' & He & out & Ho). unfold get. cbn [wserial wlog wheap wscreen wfs].
  rewrite Hc. unfold drop_string. destruct buf as [[p l]|]; cbn [wheap].
  - destruct (wp_elim _ _ _ (kernel_dealloc_wp rdtsc lo hi k' [] p l A Hk')) as ([] & k2 & -> & _).
    by do 2 eexists.
  - by do 2 eexists.
Qed.

Lemma panic_exits info w : serial_ok (wserial w) -> status w = None -> can_report info (wheap w) ->
  exists w' rest, test_panic_handler rdtsc cpu growth oom 1 info w = Ret (tt, w') /\
    (text "[failed]" ++ [10; 10] ++ text "Error: " ++ info) `prefix_of` rest /\
    status w' = Some 35 /\ output w' = output w ++ rest.
Proof.
  intros Hs Hn Hcan. cbn [test_panic_handler]. unfold mbind, M_bind.
  destruct (wp_elim _ _ _ (serial_print_ok [text "[failed]" ++ [10; 10]] w Hs)) as ([] & w3 & -> & Hs3 & Hn3 & Ho3 & Hh3 & _).
  destruct (wp_elim _ _ _ (serial_print_ok [text "Error: "; info; [10; 10]] w3 Hs3)) as ([] & w4 & -> & Hs4 & Hn4 & Ho4 & Hh4 & _).
  destruct (report_crash_ok info (fun _ => crash OutOfFuel) (exit_qemu Failed) w4 Hs4) as (w5 & out & -> & Hn5 & Ho5);
    [by rewrite Hh4, Hh3|].
  destruct (exit_ok Failed w5 ltac:(congruence)) as (w6 & -> & Hx & Ho6).
  exists w6, (text "[failed]" ++ [10; 10] ++ text "Error: " ++ info ++ [10; 10] ++ out).
  split; [done|]. split; [by rewrite !app_assoc; apply prefix_app_r, prefix_app_r|]. split; [done|].
  rewrite Ho6, Ho5, Ho4, Ho3. cbn [concat]. by rewrite !app_nil_r, <- !app_assoc.
Qed.

(** C15: the verdict of a test run reaches the host, when a panic can be reported: the
    heap is initialised, in order and has room for the message, and the stack can be
    walked. The harness announces the tests (which leave the console in order) and
    runs them in order, printing each one's name and, when its body returns, [ok]; when
    all return, the emulator ends with status 33 and the test runner on the host exits
    with 0. When a body panics, the tests after it do not run, and the panic handler
    reports the crash and ends the emulator with status 35: the host's exit code is 1. *)
Theorem harness_verdict J tests w :
  (forall info k, J k -> can_report info k) -> Forall (steady J) tests ->
  serial_ok (wserial w) -> status w = None -> J (wheap w) ->
  exists w' r out rest, test_main rdtsc cpu growth oom 1 tests w = Ret (tt, w') /\ report tests r out /\
    output w' = output w ++ text "Running " ++ dec (Z.of_nat (length tests)) ++ text " tests" ++ [10] ++ out ++ rest /\
    match r with
    | Ok _ => rest = [] /\ status w' = Some 33 /\ test_exit (status w') = 0
    | Err info => (text "[failed]" ++ [10; 10] ++ text "Error: " ++ info) `prefix_of` rest /\
        status w' = Some 35 /\ test_exit (status w') = 1
    end.
Proof.
  intros Hcan Hst Hs Hn Hj. unfold test_main, test_runner, mbind, M_bind, mret, M_ret.
  destruct (wp_elim _ _ _ (serial_print_ok [text "Running "; dec (Z.of_nat (length tests)); text " tests" ++ [10]] w Hs))
    as ([] & w1 & -> & Hs1 & Hn1 & Ho1 & Hh1 & _).
  destruct (run_each_ok J tests w1 Hst Hs1 ltac:(congruence) ltac:(congruence)) as (r & w2 & out & -> & Hrep & Ho2 & Hs2 & Hn2 & Hj2).
  assert (Ho : output w2 = output w ++ text "Running " ++ dec (Z.of_nat (length tests)) ++ text " tests" ++ [10] ++ out).
  { rewrite Ho2, Ho1. cbn [concat]. by rewrite app_nil_r, <- !app_assoc. }
  destruct r as [[]|info].
  - destruct (exit_ok Success w2 Hn2) as (w3 & -> & Hx & Ho3). exists w3, (Ok tt), out, []. rewrite Hx, app_nil_r, Ho3.
    by split_and!.
  - destruct (panic_exits info w2 Hs2 Hn2 (Hcan info _ Hj2)) as (w3 & rest & He & Hpre & Hx & Ho3).
    exists w3, (Err info), out, rest. rewrite He, Hx, Ho3, Ho. split_and!; try done. by rewrite <- !app_assoc.
Qed.

(** *** Before the heap is there *)

(** The first request of a message is an allocation. *)
Definition needs_memory : Prop := forall info, exists l ls, growth info = l :: ls /\ small_align l.

Lemma grow_uninit info k m : needs_memory -> kheap k = mkTworld Tlsf.new m ->
  exists l, grow rdtsc None (growth info) k = Ret (Err l, k).
Proof.
  intros Hg Hk. destruct (Hg info) as (l & ls & -> & (Hsz & j & Hj & Hal)). exists l. cbn [grow].
  unfold KernelHeap.alloc, on_heap, mbind, M_bind. rewrite Hk, Hal.
  assert (Hp : 2 ^ j <= 8) by (change 8 with (2 ^ 3); apply Z.pow_le_mono_r; lia).
  destruct (wp_elim _ _ _ (malloc_uninit m (lsize l) j ltac:(lia) ltac:(lia) ltac:(lia))) as (p & w & -> & -> & ->).
  simpl. rewrite <- Hk. by destruct k.
Qed.

Lemma report_uninit info again after w m : needs_memory -> kheap (wheap w) = mkTworld Tlsf.new m ->
  exists l, report_crash rdtsc cpu growth oom info again after w = again (oom l) w.
Proof.
  intros Hg Hk. destruct (grow_uninit info (wheap w) m Hg Hk) as (l & He). exists l.
  unfold report_crash, mbind, M_bind, on_kheap. rewrite He. by destruct w.
Qed.

Lemma panic_uninit m w info fuel :
  needs_memory -> kheap (wheap w) = mkTworld Tlsf.new m -> serial_ok (wserial w) ->
  panic rdtsc cpu growth oom fuel info w = Crash OutOfFuel /\
  test_panic_handler rdtsc cpu growth oom fuel info w = Crash OutOfFuel.
Proof.
  intros Hg. revert info w. induction fuel as [|fuel IH]; intros info w Hk Hs; [done|]. split; cbn [panic test_panic_handler].
  - destruct (report_uninit info (panic rdtsc cpu growth oom fuel) (mret tt) w m Hg Hk) as (l & ->). by apply IH.
  - unfold mbind, M_bind.
    destruct (wp_elim _ _ _ (serial_print_ok [text "[failed]" ++ [10; 10]] w Hs)) as ([] & w1 & -> & Hs1 & _ & _ & Hh1 & _).
    destruct (wp_elim _ _ _ (serial_print_ok [text "Error: "; info; [10; 10]] w1 Hs1)) as ([] & w2 & -> & Hs2 & _ & _ & Hh2 & _).
    destruct (report_uninit info (test_panic_handler rdtsc cpu growth oom fuel) (exit_qemu Failed) w2 m Hg) as (l & ->);
      [congruence|]. apply IH; congruence || done.
Qed.

(** C37: a panic before the heap is initialised is never reported: formatting the
    message allocates, the allocation fails, its failure panics, and the handler is
    back where it was. Neither the kernel's handler nor the tests' gets to its crash
    report, and the emulator is not told. *)
Theorem panic_without_heap_never_ends m w info fuel :
  needs_memory -> kheap (wheap w) = mkTworld Tlsf.new m -> serial_ok (wserial w) ->
  panic rdtsc cpu growth oom fuel info w = Crash OutOfFuel /\
  test_panic_handler rdtsc cpu growth oom fuel info w = Crash OutOfFuel.
Proof. apply panic_uninit. Qed.
End verdict.

(** ** The host's programs *)

(** Which statuses count as a passed test: the harness's own, and 0, with which the
    emulator also ends when the guest resets under [-no-reboot]. *)
Lemma test_exit_zero st : test_exit st = 0 <-> st = Some 33 \/ st = Some 0.
Proof.
  unfold test_exit. destruct st as [c|]; simpl; [|split; [done|intros [?|?]; done]].
  destruct (Z.eqb_spec c 33) as [->|]; [tauto|]. destruct (Z.eqb_spec c 35) as [->|]; [split; [done|intros [?|?]; simplify_eq]|].
  split; [intros ->; by right|intros [?|?]; simplify_eq]. done.
Qed.

(** Every command started attaches the debug-exit device at the port [exit_qemu]
    writes to, and does not let the guest reboot. *)
Lemma base_args_device img no_graphic : arguments (qemu_base_args img no_graphic) =
  (if no_graphic then ["-nographic"%string] else []) ++
  ["-drive"; String.append "format=raw,file=" img; "-no-reboot"; "-device"; "isa-debug-exit,iobase=0xf4,iosize=0x04"]%string.
Proof. by destruct no_graphic. Qed.

(** ** An emulated machine that shows the laws can hold *)

(** A serial chip and the device. *)
Record emulated := mkEmulated { e_uart : uart; e_exit : option Z }.

#[export] Instance emulated_ports : Ports emulated := {|
  inb p d := ((inb p (e_uart d)).1, mkEmulated (inb p (e_uart d)).2 (e_exit d));
  outb p v d := mkEmulated (outb p v (e_uart d)) (e_exit d)
|}.

#[export] Instance emulated_exit : Emulated emulated := {|
  outl p v d := match e_exit d with
    | Some _ => d
    | None => if p =? 0xf4 then mkEmulated (e_uart d) (Some (Z.lor (Z.shiftl v 1) 1)) else d
    end;
  exited := e_exit
|}.

#[export] Instance emulated_laws : DebugExit emulated.
Proof.
  split.
  - intros v [u e] He _. cbn in *. by rewrite He.
  - done.
  - done.
  - intros p v d c Hc. cbn in *. by rewrite Hc.
Qed.

#[export] Program Instance emulated_uart : Uart16550 emulated 0x3F8 2 := {| uview := e_uart |}.
Next Obligation. intros d v. exact (uart_divisor (e_uart d) v). Qed.
Next Obligation. intros d v. exact (uart_transmit (e_uart d) v). Qed.
Next Obligation. intros d v. exact (uart_ier (e_uart d) v). Qed.
Next Obligation. intros d v. exact (uart_fcr (e_uart d) v). Qed.
Next Obligation. intros d v. exact (uart_lcr (e_uart d) v). Qed.
Next Obligation. intros d v. exact (uart_mcr (e_uart d) v). Qed.
Next Obligation. intros d. exact (uart_lsr (e_uart d)). Qed.
Next Obligation. intros d. exact (uart_poll (e_uart d)). Qed.

Lemma emulated_apart v (d : emulated) : uview (outl 0xf4 v d) = uview d.
Proof. destruct d as [u e]. cbn. by destruct e. Qed.

(** A kernel whose heap was initialised, and one whose heap was not. *)
Definition test_world (k : kworld) : world emulated :=
  mkWorld (mkSerialState (mkEmulated (Uart.machine demo_serial) None) None) None Fs.new k no_logger.

Definition no_heap_yet : kworld := mkKworld (mkTworld Tlsf.new ∅) MonitorData_new (Trace.init TRACE) 0.

(** One test that returns, one that panics. *)
Definition trivial_assertion : test emulated := mkTest (text "trivial_assertion") (fun w => (None, w)).
Definition failing_assertion : test emulated := mkTest (text "failing_assertion") (fun w => (Some (text "assertion failed"), w)).

(** A message takes one buffer of 64 bytes. *)
Definition one_buffer (info : list Z) : list Layout := [mkLayout 64 1].

Lemma tests_steady J : Forall (steady (latency := 2) J) [trivial_assertion; failing_assertion].
Proof.
  apply Forall_cons. split; [|apply Forall_singleton]; intros w Hs Hn Hj; (split; [exact Hs|]; split; [exact Hn|]; split; [exact Hj|]);
    exists []; by rewrite app_nil_r.
Qed.

Lemma test_world_ok k : serial_ok (latency := 2) (wserial (test_world k)) /\ status (test_world k) = None.
Proof. split; [split; [simpl; lia|exact I]|done]. Qed.

Definition demo_cpu (info : list Z) : registers * memory * Z := (demo_regs, demo_stack, 0x2000).

Lemma demo_can_report info : can_report (fun n => n) demo_cpu one_buffer info demo_kernel.
Proof.
  destruct demo_world_ok as [_ Hk]. cbn [wheap demo_world] in Hk.
  assert (Hg : exists buf k', grow (fun n => n) None (one_buffer info) demo_kernel = Ret (Ok buf, k')).
  { do 2 eexists. vm_compute. reflexivity. }
  destruct Hg as (buf & k' & Hg).
  exists 65536, 69632, [], buf, k', [(0, 0xAAAA, 0x2000); (1, 0xBBBB, 0x2040)]. split; [exact Hk|].
  split; [|split; [exact Hg|vm_compute; reflexivity]].
  apply Forall_singleton. split; [simpl; lia|]. exists 0. split; [lia|reflexivity].
Qed.

Lemma second_fails r out : report [trivial_assertion; failing_assertion] r out -> r = Err (text "assertion failed").
Proof.
  intros Hr. inversion Hr as [|? ? ? ? ? ? _ Hrest|? ? ? ? ? Hf]; subst; [|discriminate Hf].
  inversion Hrest as [|? ? ? ? ? ? Hf _|? ? ? ? ? Hf]; subst; [discriminate Hf|]. by injection Hf as <-.
Qed.

(** A run of both tests: the first returns, the second panics, the host is told. *)
Lemma harness_verdict_witness : exists w' out,
  test_main (fun n => n) demo_cpu one_buffer (fun _ => text "out of memory") 1 [trivial_assertion; failing_assertion]
    (test_world demo_kernel) = Ret (tt, w') /\
  report [trivial_assertion; failing_assertion] (Err (text "assertion failed")) out /\ test_exit (status w') = 1.
Proof.
  destruct (test_world_ok demo_kernel) as [Hs Hn].
  destruct (harness_verdict (latency := 2) demo_patient emulated_apart (fun n => n) demo_cpu one_buffer
    (fun _ => text "out of memory") (eq demo_kernel) [trivial_assertion; failing_assertion] (test_world demo_kernel))
    as (w' & r & out & rest & H1 & H2 & _ & H3).
  - intros info k <-. apply demo_can_report.
  - apply tests_steady.
  - exact Hs.
  - exact Hn.
  - reflexivity.
  - assert (Hr : r = Err (text "assertion failed")) by exact (second_fails _ _ H2).
    subst r. exists w', out. split; [exact H1|]. split; [exact H2|apply H3].
Defined.

Lemma one_buffer_needs : needs_memory one_buffer.
Proof. intros info. exists (mkLayout 64 1), []. split; [reflexivity|]. split; [simpl; lia|]. exists 0. split; [lia|reflexivity]. Qed.

Lemma panic_without_heap_witness :
  test_panic_handler (fun n => n) demo_cpu one_buffer (fun _ => text "out of memory") 1000
    (text "boom") (test_world no_heap_yet) = Crash OutOfFuel.
Proof.
  apply (panic_without_heap_never_ends (latency := 2) demo_patient (fun n => n) demo_cpu one_buffer (fun _ => text "out of memory") ∅
    (test_world no_heap_yet) (text "boom") 1000).
  - exact one_buffer_needs.
  - reflexivity.
  - apply test_world_ok.
Defined.
