(* ===== verification/Build.v ===== *)
(** * The build script: [runner/build.rs]

    [cargo] builds the kernel, the boot loader's builder makes two disk images of it,
    and their paths reach the runner as environment variables at compile time. The
    script is the list of what it does on the host, and ends early when something
    fails; what [cargo] and the builder themselves do is theirs. *)

From S2P Require Import Prelude Harness.
Local Open Scope string_scope.

(** [Path::join] with a relative path. *)
Definition join (dir file : string) : string := String.append dir (String.append "/" file).

Inductive build_step :=
  | RunCargo (dir : string) (args : list string)
  | CreateBiosImage (kernel img : string)
  | CreateUefiImage (kernel img : string)
  | CreateDirAll (dir : string)
  | Copy (from to : string)
  | Directive (line : string).

(** What the host answers: the variables, whether [cargo] starts and then succeeds, the directory
    above the kernel's, and whether the builder and the file system do their work. *)
Record build_host := mkHost {
  skip_kernel_build : bool;
  cargo_status : option bool;
  workspace_root : option string;
  out_dir : option string;
  manifest_dir : option string;
  bios_made : bool;
  uefi_made : bool;
  dir_made : bool;
  copied : bool * bool
}.

(** A step, and a panic if it failed. *)
Definition attempt (ok : bool) (msg : string) (s : build_step) : M (list build_step) unit :=
  _ ← modify (fun l => (l ++ [s])%list);
  guard_or ok (Panic msg).

Definition unwrap_none : string := "called `Option::unwrap()` on a `None` value".
Definition unwrap_err : string := "called `Result::unwrap()` on an `Err` value".

(** [main] *)
Definition build_main (h : build_host) : M (list build_step) unit :=
  if skip_kernel_build h then
    _ ← attempt true "" (Directive "cargo:rustc-env=BIOS_IMG=");
    attempt true "" (Directive "cargo:rustc-env=UEFI_IMG=")
  else
    let kernel_dir := "../kernel" in
    success ← lift (expect (cargo_status h) "failed to build kernel");
    _ ← attempt success "kernel build failed"
          (RunCargo kernel_dir ["build"; "--target"; "x86_64-unknown-none"]);
    root ← lift (expect (workspace_root h) unwrap_err);
    let target_dir := join root "target/x86_64-unknown-none/debug/yonti_os" in
    out ← lift (expect (out_dir h) unwrap_none);
    let bios_img := join out "bios.img" in
    _ ← attempt (bios_made h) unwrap_err (CreateBiosImage target_dir bios_img);
    let uefi_img := join out "uefi.img" in
    _ ← attempt (uefi_made h) unwrap_err (CreateUefiImage target_dir uefi_img);
    manifest ← lift (expect (manifest_dir h) unwrap_none);
    let artifacts_dir := join manifest "target/boot-images" in
    _ ← attempt (dir_made h) unwrap_err (CreateDirAll artifacts_dir);
    _ ← attempt (copied h).1 unwrap_err (Copy bios_img (join artifacts_dir "bios.img"));
    _ ← attempt (copied h).2 unwrap_err (Copy uefi_img (join artifacts_dir "uefi.img"));
    _ ← attempt true "" (Directive (String.append "cargo:rustc-env=BIOS_IMG=" bios_img));
    attempt true "" (Directive (String.append "cargo:rustc-env=UEFI_IMG=" uefi_img)).

(** The value the compiler gives to [env!(name)]: the last directive for it. *)
Fixpoint strip_prefix (key line : string) : option string :=
  match key, line with
  | EmptyString, _ => Some line
  | String a key', String b line' => if Ascii.eqb a b then strip_prefix key' line' else None
  | _, EmptyString => None
  end.

Definition env_of (name : string) (l : list build_step) : option string :=
  last (omap (fun s => match s with
                       | Directive line => strip_prefix (String.append "cargo:rustc-env=" (String.append name "=")) line
                       | _ => None
                       end) l).

(** A build that is not skipped and succeeds has run [cargo] first, without [--release],
    has made both images of the binary that leaves, and names exactly these images to
    the runner. *)
Lemma build_names_images h l : skip_kernel_build h = false -> build_main h [] = Ret (tt, l) ->
  exists root out, workspace_root h = Some root /\ out_dir h = Some out /\
    head l = Some (RunCargo "../kernel" ["build"; "--target"; "x86_64-unknown-none"]) /\
    (let kernel := join root "target/x86_64-unknown-none/debug/yonti_os" in
     CreateBiosImage kernel (join out "bios.img") ∈ l /\ CreateUefiImage kernel (join out "uefi.img") ∈ l) /\
    env_of "BIOS_IMG" l = Some (join out "bios.img") /\ env_of "UEFI_IMG" l = Some (join out "uefi.img").
Proof.
  intros Hs. unfold build_main. rewrite Hs. unfold attempt, mbind, M_bind, modify, guard_or, lift.
  destruct (cargo_status h) as [[]|]; [|done..]. cbn [expect]. destruct (workspace_root h) as [root|]; [|done].
  destruct (out_dir h) as [out|]; [|done]. cbn [expect]. destruct (bios_made h); [|done]. destruct (uefi_made h); [|done].
  destruct (manifest_dir h) as [man|]; [|done]. cbn [expect]. destruct (dir_made h); [|done].
  destruct (copied h) as [[] []]; cbn [fst snd]; try done. intros [= <-]. exists root, out.
  split; [done|]. split; [done|]. split; [done|]. split; [split; set_solver|]. split; vm_compute; reflexivity.
Qed.

(** The runner then starts the emulator on the image that was just built. *)
Lemma runner_starts_build h l args uefi ovmf : skip_kernel_build h = false -> build_main h [] = Ret (tt, l) ->
  args !! 1%nat = Some "bios" -> exists out c exit, out_dir h = Some out /\
    runner_main (default "" (env_of "BIOS_IMG" l)) uefi ovmf args = Launch c exit /\
    String.append "format=raw,file=" (join out "bios.img") ∈ arguments c.
Proof.
  intros Hs Hb Ha. destruct (build_names_images h l Hs Hb) as (root & out & _ & Ho & _ & _ & He & _).
  exists out. unfold runner_main. rewrite Ha, He. simpl. unfold run_bios.
  do 2 eexists. split; [done|]. split; [done|]. rewrite base_args_device. set_solver.
Qed.

(** A skipped build leaves the runner with an empty path. *)
Lemma skipped_build h : skip_kernel_build h = true -> exists l, build_main h [] = Ret (tt, l) /\ env_of "BIOS_IMG" l = Some "".
Proof. intros Hs. unfold build_main. rewrite Hs. eexists. split; reflexivity. Qed.
