(* ===== verification/KernelMain.v ===== *)
(** * The boot sequence: [main.rs], [memory.rs]

    [kernel_main] from its entry to the call of [executor.run], over one machine: the
    hardware is shared by the serial line and the interrupt controllers, physical
    memory by the frame allocator and the walk over the firmware's tables, the metrics
    by the frame allocator, the heap and the executor. The memory the collections of
    the [alloc] crate take is asked of the heap where the code runs them. Interrupts are
    off until [init_apic] has returned; the run modelled is one in which none arrives
    between then and [run], where [TaskSpec] takes over. *)

From S2P Require Import Prelude Memory Str Fmt Monitor Queue Trace Fs Task TaskInv TaskSpec Io Uart UartSpec.
From S2P Require Import Framebuffer FramebufferInv FramebufferOps FramebufferSpec Pic Apic ApicSpec AcpiSpec.
From S2P Require Import Log Heap KernelHeap Shell ShellSpec.
From S2P Require Import Buddy BuddyInv BuddyNew BuddySpec Tlsf TlsfInv TlsfPhys TlsfAlloc TlsfSpec HeapBoot Collections Interrupts Boot.
Import ArrayQueue OnceCell.

(** ** [memory.rs] *)

(** [VirtAddr] of the [x86_64] crate: 48-bit addresses, sign-extended. *)
Class VirtAddrApi := {
  va_new : Z -> outcome Z;
  va_add : Z -> Z -> outcome Z
}.

Definition canonical (a : Z) : Prop := 0 <= a < 2 ^ 47 \/ 2 ^ 64 - 2 ^ 47 <= a < 2 ^ 64.

Class VirtAddrLaws (api : VirtAddrApi) : Prop := {
  va_new_ok a : canonical a -> va_new a = Ret a;
  va_add_ok a n : canonical a -> 0 <= n -> canonical (a + n) -> va_add a n = Ret (a + n)
}.

(** [OffsetPageTable::new(level_4_table, offset)] *)
Class OffsetPageTableApi (PT : Type) := offset_page_table : Z -> Z -> PT.

Section memory.
Context `{VirtAddrApi} {PT : Type} `{OffsetPageTableApi PT}.

(** [Cr3::read()] gave the frame at [cr3]. *)
Definition active_level_4_table (cr3 physical_memory_offset : Z) : outcome Z :=
  va_add physical_memory_offset cr3.

(** [memory::init] *)
Definition memory_init (cr3 physical_memory_offset : Z) : outcome PT :=
  level_4_table ← active_level_4_table cr3 physical_memory_offset;
  Ret (offset_page_table level_4_table physical_memory_offset).
End memory.

(** ** The machine *)

(** The fields of [BootInfo] the kernel reads. *)
Record BootInfo := mkBootInfo {
  framebuffer : option (list Z * FrameBufferInfo);
  physical_memory_offset : option Z;
  memory_regions : list MemoryRegion;
  rsdp_addr : option Z
}.

Record machine (E D PT : Type) := mkMachine {
  mboot : boot_state E D;
  mserial : option SerialPort;
  mscreen : option FrameBufferWriter;
  mlog : logger;
  mbuddy : BuddyAllocator;
  mphys : memory;
  mtables : PT;
  mheap : tworld;
  mfs : FileSystem
}.
Arguments mkMachine {E D PT}.
Arguments mboot {E D PT}.
Arguments mserial {E D PT}.
Arguments mscreen {E D PT}.
Arguments mlog {E D PT}.
Arguments mbuddy {E D PT}.
Arguments mphys {E D PT}.
Arguments mtables {E D PT}.
Arguments mheap {E D PT}.
Arguments mfs {E D PT}.

(** [{:?}] of a string of ASCII characters, and of a vector of them. *)
Definition escaped (c : Z) : list Z :=
  if c =? 9 then text "\t" else if c =? 10 then text "\n" else if c =? 13 then text "\r"
  else if c =? 0 then text "\0" else if (c =? 34) || (c =? 92) then [92; c]
  else if (32 <=? c) && (c <? 127) then [c] else text "\u{" ++ hex c ++ text "}".

Definition debug_str (s : str) : list Z := [34] ++ concat (escaped <$> to_bytes s) ++ [34].

Definition debug_vec (l : list str) : list Z := text "[" ++ foldr (fun s r => s ++ r) (text "]")
  (imap (fun i s => (if (i =? 0)%nat then [] else text ", ") ++ debug_str s) l).

(** The lines of [demo_fs]. *)
Definition demo_bytes (l : demo_line) : list Z :=
  match l with
  | DemoText s => text "[fs] /hello.txt: " ++ to_bytes s
  | DemoListing path names => text "[fs] " ++ to_bytes path ++ text " contents: " ++ debug_vec names
  end.

(** The lines of [init_apic] and of [apic/mod.rs]: level, module and text. *)
Definition event_text (e : boot_event) : Level * list Z * list Z :=
  let main := text "yonti_os" in
  let apic := text "yonti_os::apic" in
  match e with
  | NoRsdp => (Warn, main, text "ACPI: no RSDP found — using PIC fallback")
  | DetectionFailed => (Warn, main, text "APIC: detection failed — using PIC fallback")
  | PicMasked => (Info, main, text "APIC: PIC masked, APIC routing active")
  | InitFailed => (Warn, main, text "APIC: init failed — using PIC fallback")
  | OfApic NoIoApic => (Warn, apic, text "MADT: no I/O APIC found — using PIC fallback")
  | OfApic (Detected base count) =>
      (Info, apic, text "APIC detected: LAPIC base=0x" ++ hex base ++ text ", " ++ dec count ++ text " I/O APIC(s)")
  | OfApic (LapicFound id version base) =>
      (Info, apic, text "LAPIC id=" ++ dec id ++ text " version=" ++ dec version ++ text " base=0x" ++ hex base)
  | OfApic (TimerRouted gsi) => (Info, apic, text "IOAPIC route: legacy IRQ0 → GSI " ++ dec gsi ++ text " → vector 32")
  | OfApic (KeyboardRouted gsi) => (Info, apic, text "IOAPIC route: legacy IRQ1 → GSI " ++ dec gsi ++ text " → vector 33")
  | OfApic SubsystemActive => (Info, apic, text "APIC subsystem active")
  end.

(** What the collections ask of the heap in [demo_fs], in [Executor::new] and in making
    and spawning each of the two tasks. *)
Record asks := mkAsks {
  ask_fs : list request;
  ask_executor : list request;
  ask_example : list request;
  ask_shell : list request
}.

Definition all_asks (q : asks) : list request := ask_fs q ++ ask_executor q ++ ask_example q ++ ask_shell q.

Section kernel_main.
Context {E D PT : Type} `{Ports D} `{Mmio D}.
Context `{PhysFrameApi} `{PageApi} `{!PageTables PT} `{VirtAddrApi} `{!OffsetPageTableApi PT}.
Context (rdtsc : Z -> Z) (q : asks) (cr3 : Z).
Notation S := (machine E D PT).

Definition on_boot {A} (c : M (boot_state E D) A) : M S A := fun m =>
  match c (mboot m) with
  | Ret (a, b) => Ret (a, mkMachine b (mserial m) (mscreen m) (mlog m) (mbuddy m) (mphys m) (mtables m) (mheap m) (mfs m))
  | Crash f => Crash f
  end.

(** The hardware of a boot state replaced. *)
Definition with_hardware (d : D) (b : boot_state E D) : boot_state E D :=
  let k := bkernel b in
  mkBoot (mkKernel (ksys k) (mkApic d (APIC (kapic k)) (LAPIC_EOI_PTR (kapic k))) (ktrace k) (kreads k) (iflag k))
    (cr0 b) (cr4 b) (idt b).

Definition on_com1 {A} (c : M (serial D) A) : M S A := fun m =>
  match c (mkSerialState (mach (mboot m)) (mserial m)) with
  | Ret (a, s) => Ret (a, mkMachine (with_hardware (Uart.machine s) (mboot m)) (SERIAL1 s) (mscreen m) (mlog m)
      (mbuddy m) (mphys m) (mtables m) (mheap m) (mfs m))
  | Crash f => Crash f
  end.

Definition set_screen (w : option FrameBufferWriter) (m : S) : S :=
  mkMachine (mboot m) (mserial m) w (mlog m) (mbuddy m) (mphys m) (mtables m) (mheap m) (mfs m).

Definition on_display {A} (c : M (option FrameBufferWriter) A) : M S A := fun m =>
  match c (mscreen m) with
  | Ret (a, w) => Ret (a, set_screen w m)
  | Crash f => Crash f
  end.

Definition on_fs {A} (c : M FileSystem A) : M S A := fun m =>
  match c (mfs m) with
  | Ret (a, fs) => Ret (a, mkMachine (mboot m) (mserial m) (mscreen m) (mlog m) (mbuddy m) (mphys m) (mtables m) (mheap m) fs)
  | Crash f => Crash f
  end.

(** [println!] *)
Definition println (s : list Z) : M S unit :=
  _ ← on_com1 (_print [s ++ [10]]);
  on_display (screen_print (s ++ [10])).

(** [log::info!], [log::warn!] *)
Definition log_at (l : Level) (target args : list Z) : M S unit :=
  m ← get;
  on_com1 (log_macro (mlog m) l target args).

(** [log::info!] of the crate's root module *)
Definition log_info (s : string) : M S unit := log_at Info (text "yonti_os") (text s).

Definition log_event (e : boot_event) : M S unit :=
  let '(l, target, args) := event_text e in log_at l target args.

(** [log::init(level).expect(..)] *)
Definition log_init (level : Z) : M S unit :=
  m ← get;
  let '(r, lg) := Log.init level (mlog m) in
  _ ← modify (fun m => mkMachine (mboot m) (mserial m) (mscreen m) lg (mbuddy m) (mphys m) (mtables m) (mheap m) (mfs m));
  expect_ok r "logger already set".

Definition with_metrics (x : MonitorData) (b : boot_state E D) : boot_state E D :=
  let k := bkernel b in
  mkBoot (mkKernel (set_metrics x (ksys k)) (kapic k) (ktrace k) (kreads k) (iflag k)) (cr0 b) (cr4 b) (idt b).

(** The frame allocator, the tables and the heap, on the memory and metrics of the
    machine. *)
Definition set_up_heap (regions : list MemoryRegion) (offset : Z) (mapper : PT) : M S unit := fun m =>
  let w := Buddy.mkWorld (mbuddy m) (mphys m) (metrics (ksys (bkernel (mboot m)))) in
  match heap_bring_up regions offset (w, mapper, mheap m) with
  | Ret (_, (w', pt, h)) =>
      Ret (tt, mkMachine (with_metrics (mon w') (mboot m)) (mserial m) (mscreen m) (mlog m)
        (self w') (mem w') pt h (mfs m))
  | Crash f => Crash f
  end.

(** The heap with the counters and the trace it shares with the interrupt handlers. *)
Definition heap_of (m : S) : kworld :=
  mkKworld (mheap m) (metrics (ksys (bkernel (mboot m)))) (ktrace (bkernel (mboot m))) (kreads (bkernel (mboot m))).

Definition with_heap (h : kworld) (m : S) : S :=
  let b := mboot m in
  let k := bkernel b in
  mkMachine (mkBoot (mkKernel (set_metrics (kmon h) (ksys k)) (kapic k) (KernelHeap.ktrace h) (KernelHeap.kreads h) (iflag k))
      (cr0 b) (cr4 b) (idt b))
    (mserial m) (mscreen m) (mlog m) (mbuddy m) (mphys m) (mtables m) (kheap h) (mfs m).

Definition on_kheap {A} (c : M kworld A) : M S A := fun m =>
  match c (heap_of m) with
  | Ret (a, h) => Ret (a, with_heap h m)
  | Crash f => Crash f
  end.

(** [trace::init()] *)
Definition trace_init : M S unit :=
  on_boot (on_kernel (modify (fun k => mkKernel (ksys k) (kapic k) (Trace.init (ktrace k)) (kreads k) (iflag k)))).

(** [Executor::new()] *)
Definition executor_new : M S unit :=
  q ← lift (ArrayQueue.new MAX_TASKS);
  on_boot (on_kernel (on_sys (modify (fun w => set_tasks ∅ (set_queue q w))))).

(** [executor.spawn(Task::new(future))] *)
Definition spawn_task : M S unit := on_boot (on_kernel (on_sys (t ← Task_new; spawn t))).

(** [kernel_main] up to [executor.run()], with the blocks its collections hold. The lines
    of [init_apic] and of [demo_fs] are printed when these have returned; what a call
    asks of the heap is asked when it is made. *)
Definition kernel_main (boot_info : BootInfo) : M S (list (Z * Layout)) :=
  _ ← on_boot Boot.init;
  _ ← match framebuffer boot_info with
      | Some (buffer, fb_info) =>
          w ← lift (Framebuffer.init buffer fb_info);
          modify (set_screen w)
      | None => mret tt
      end;
  _ ← log_init (level_num Info);
  _ ← log_info "framebuffer initialized";
  offset ← lift (Prelude.expect (physical_memory_offset boot_info) "physical memory offset not set");
  phys_mem_offset ← lift (va_new offset);
  mapper ← lift (memory_init cr3 phys_mem_offset);
  _ ← set_up_heap (memory_regions boot_info) phys_mem_offset mapper;
  _ ← log_info "heap initialized";
  _ ← trace_init;
  m ← get;
  events ← on_boot (init_apic (mphys m) (rsdp_addr boot_info) phys_mem_offset);
  _ ← for_each events log_event;
  held ← on_kheap (serve_all rdtsc (ask_fs q) []);
  lines ← on_fs demo_fs;
  _ ← for_each lines (fun l => println (demo_bytes l));
  _ ← log_info "filesystem demo done";
  held ← on_kheap (serve_all rdtsc (ask_executor q) held);
  _ ← executor_new;
  held ← on_kheap (serve_all rdtsc (ask_example q) held);
  _ ← spawn_task;
  held ← on_kheap (serve_all rdtsc (ask_shell q) held);
  _ ← spawn_task;
  mret held.
End kernel_main.

(** ** What printing leaves alone *)

(** The ports of the first serial line are not those of the interrupt controllers. *)
Class Com1Apart (D : Type) `{Ports D} `{!Pic8259Pair D} : Prop := {
  com1_out p v d : 0x3F8 <= p < 0x400 -> chips (outb p v d) = chips d;
  com1_in p d : 0x3F8 <= p < 0x400 -> chips (inb p d).2 = chips d
}.

Section printing.
Context {E D PT : Type} `{Ports D} `{Mmio D} {lbase iobase : Z}.
Context `{!Pic8259Pair D} `{!ApicMachine D lbase iobase} `{!Board D lbase iobase} `{!Com1Apart D}.
Notation S := (machine E D PT).
Implicit Types (m : S).

(** The interrupt controllers. *)
Definition hardware (d : D) := (chips d, lapic_of d, ioapic_of d).

Lemma com1_print_keeps args s : com1_ok (SERIAL1 s) ->
  wp (_print args) (fun _ s' => hardware (Uart.machine s') = hardware (Uart.machine s) /\ com1_ok (SERIAL1 s')) s.
Proof.
  apply serial_print_keeps.
  - intros p v d Hp. unfold hardware. destruct (board_out p v d) as [-> ->]. by rewrite com1_out.
  - intros p d Hp. unfold hardware. destruct (board_in p d) as [-> ->]. by rewrite com1_in.
Qed.

(** The console can print. *)
Definition console_up m : Prop :=
  com1_ok (mserial m) /\ match mscreen m with Some w => con_ok w | None => True end.

(** Everything but the console and its chip. *)
Definition rest m := (ksys (bkernel (mboot m)), APIC (kapic (bkernel (mboot m))), LAPIC_EOI_PTR (kapic (bkernel (mboot m))),
  ktrace (bkernel (mboot m)), iflag (bkernel (mboot m)), (cr0 (mboot m), cr4 (mboot m), idt (mboot m)),
  hardware (mach (mboot m)), mlog m, mbuddy m, mphys m, mtables m, mheap m, mfs m).

Definition printed m m' : Prop := console_up m' /\ rest m' = rest m /\ (is_Some (mscreen m') <-> is_Some (mscreen m)).

Lemma printed_trans m1 m2 m3 : printed m1 m2 -> printed m2 m3 -> printed m1 m3.
Proof. intros (_ & H2 & H3) (H4 & H5 & H6). split_and!; [done|congruence|tauto]. Qed.

Lemma on_com1_ok {A} (c : M (serial D) A) m : console_up m ->
  (forall s, com1_ok (SERIAL1 s) ->
     wp c (fun _ s' => hardware (Uart.machine s') = hardware (Uart.machine s) /\ com1_ok (SERIAL1 s')) s) ->
  wp (on_com1 c) (fun _ m' => printed m m') m.
Proof.
  intros [Hs Hw] Hc. specialize (Hc (mkSerialState (mach (mboot m)) (mserial m)) Hs). unfold wp, on_com1 in *.
  destruct (c _) as [[a s]|]; [|done]. destruct Hc as [Hh Hs']. split_and!; [by split| |done].
  unfold rest, mach. cbn -[hardware]. by rewrite Hh.
Qed.

Lemma log_at_ok l t s m : console_up m -> wp (log_at l t s) (fun _ m' => printed m m') m.
Proof.
  intros Hm. unfold log_at. apply wp_bind, wp_get, on_com1_ok; [done|]. intros x Hx. unfold log_macro, log.
  repeat case_match; try (apply wp_ret; done). by apply com1_print_keeps.
Qed.

Lemma println_ok s m : console_up m -> wp (println s) (fun _ m' => printed m m') m.
Proof.
  intros Hm. unfold println. apply wp_bind. eapply wp_mono.
  { apply on_com1_ok; [done|]. intros x. apply com1_print_keeps. }
  intros [] m1 H1. pose proof H1 as ([Hs Hw] & _).
  pose proof (screen_print_ok (s ++ [10]) (mscreen m1) Hw) as Hp. unfold wp, on_display in *.
  assert (Hsome : forall a w, screen_print (s ++ [10]) (mscreen m1) = Ret (a, w) -> is_Some w <-> is_Some (mscreen m1)).
  { intros a w. unfold screen_print, mbind, M_bind, with_framebuffer_mut. destruct (mscreen m1) as [f|]; [|by intros [= _ <-]].
    destruct (write_string _ f) as [[? ?]|]; [|done]. intros [= _ <-]. by rewrite !is_Some_alt. }
  destruct (screen_print _ _) as [[[] w]|] eqn:Ep; [|done]. apply (printed_trans m m1); [done|].
  split_and!; [done|done|]. by apply (Hsome tt).
Qed.

Lemma print_each_ok {A} (f : A -> M S unit) xs :
  (forall x m, console_up m -> wp (f x) (fun _ m' => printed m m') m) -> forall m, console_up m ->
  wp (for_each xs f) (fun _ m' => printed m m') m.
Proof.
  intros Hf. induction xs as [|x xs IH]; intros m Hm; simpl; [by apply wp_ret|].
  apply wp_bind. eapply wp_mono; [by apply Hf|]. intros [] m1 H1.
  eapply wp_mono; [apply IH, H1|]. intros [] m2 H2. by eapply printed_trans.
Qed.
End printing.

(** ** From reset to the executor *)

Section sequence.
Context {E D PT : Type} `{Ports D} `{Mmio D} {lbase iobase : Z}.
Context `{!Pic8259Pair D} `{!ApicMachine D lbase iobase} `{!Board D lbase iobase} `{!Com1Apart D}.
Context `{api : PhysFrameApi} {flaws : PhysFrameLaws api} `{pages : PageApi} {plaws : PageLaws pages}.
Context `{tables : !PageTables PT} {ptlaws : PageTablesLaws PT}.
Context `{va : VirtAddrApi} {valaws : VirtAddrLaws va} `{!OffsetPageTableApi PT}.
Context (rdtsc : Z -> Z) (q : asks) (cr3 : Z).
Notation S := (machine E D PT).
Implicit Types (m : S).

Definition sys_of m : sys E := ksys (bkernel (mboot m)).

(** The hardware and the serial driver are the same. *)
Definition same_line m m' : Prop := mach (mboot m') = mach (mboot m) /\ mserial m' = mserial m.

(** The frame allocator with its memory and metrics. *)
Definition frames_of m : bworld := Buddy.mkWorld (mbuddy m) (mphys m) (metrics (sys_of m)).

(** The statics as they are linked. *)
Record at_reset m : Prop := {
  r_apic : APIC (kapic (bkernel (mboot m))) = None;
  r_trace : ktrace (bkernel (mboot m)) = TRACE;
  r_log : mlog m = no_logger;
  r_serial : mserial m = None;
  r_screen : mscreen m = None;
  r_heap : tself (mheap m) = Tlsf.new;
  r_fs : mfs m = Fs.new;
  r_metrics : metrics (sys_of m) = MonitorData_new;
  r_next : next_id (sys_of m) = 0;
  r_waker : WAKER (sys_of m) = None;
  r_cell : SCANCODE_QUEUE (sys_of m) = uninit;
  r_lines : Task.console (sys_of m) = []
}.

(** The state before [init_apic]: interrupts not routed yet, the console working.
    [tr] is the trace, [lg] the logger. *)
Record early (screen : bool) (lg : logger) (tr : TraceBuffer) (m0 m : S) : Prop := {
  e_console : console_up m;
  e_screen : is_Some (mscreen m) <-> screen = true;
  e_log : mlog m = lg;
  e_trace : ktrace (bkernel (mboot m)) = tr;
  e_sys : exists x, sys_of m = set_metrics x (sys_of m0);
  e_sse : sse_enabled (mboot m0) (mboot m);
  e_idt : idt (mboot m) = Some IDT;
  e_apic : APIC (kapic (bkernel (mboot m))) = None;
  e_hw : hardware (mach (mboot m)) = (remapped (imr (chips (mach (mboot m0))).1) (imr (chips (mach (mboot m0))).2),
    lapic_of (mach (mboot m0)), ioapic_of (mach (mboot m0)));
  e_fs : mfs m = mfs m0
}.

Lemma early_printed sc lg tr m0 m m' : early sc lg tr m0 m -> printed m m' -> early sc lg tr m0 m'.
Proof.
  intros [? Hsc Hl Ht Hs Hf Hi Ha Hh Hfs] (Hc & Hr & Hsc'). unfold rest in Hr.
  injection Hr as E1 E2 E3 E4 E5 E6 E7 E8 E9 E10 E11 E12 E13 E14 E15 E16 E17.
  split; unfold sys_of, sse_enabled, hardware in *; try congruence.
  - by rewrite Hsc'.
  - by rewrite E1.
  - by rewrite E6, E7.
Qed.

(** Memory as it was at reset, for as long as the heap is not set up. *)
Definition no_heap (m0 m : S) : Prop :=
  mphys m = mphys m0 /\ mheap m = mheap m0 /\ metrics (sys_of m) = metrics (sys_of m0).

(** The heap on the frames of the memory map, with the metrics in use; nothing is
    allocated. *)
Definition heap_up (U : Z -> Prop) (base offset : Z) (m0 m : S) : Prop :=
  heap_ready U base offset (mphys m0) (frames_of m, mtables m, mheap m) /\ current_allocated (metrics (sys_of m)) = 0.

(** The requests [rs] have been served and [A] is held: the allocator's invariant, the
    metrics and the trace say so. *)
Record charged (U : Z -> Prop) (base offset : Z) (m0 : S) (rs : list request) (A : list (Z * Layout)) (m : S) : Prop := {
  ch_pages : pages_ready U base offset (mphys m0) (frames_of m) (mtables m);
  ch_heap : kernel_inv HEAP_START (HEAP_START + HEAP_SIZE) (heap_of m) A;
  ch_held : snd <$> A = held [] rs;
  ch_trace : exists es, trace_holds es (ktrace (bkernel (mboot m))) /\ summary <$> es = events_of [] rs
}.

(** What both say is not about the console. *)
Lemma memory_printed m m' : printed m m' ->
  mphys m' = mphys m /\ mheap m' = mheap m /\ metrics (sys_of m') = metrics (sys_of m) /\
  frames_of m' = frames_of m /\ mtables m' = mtables m.
Proof.
  intros (_ & Hr & _). unfold rest in Hr.
  injection Hr as E1 E2 E3 E4 E5 E6 E7 E8 E9 E10 E11 E12 E13 E14 E15 E16 E17.
  unfold frames_of, sys_of. split_and!; congruence.
Qed.

Lemma kept_printed m m' : printed m m' -> sys_of m' = sys_of m /\ mfs m' = mfs m.
Proof. intros (_ & Hr & _). unfold rest in Hr. unfold sys_of. split; congruence. Qed.

Lemma no_heap_printed m0 m m' : no_heap m0 m -> printed m m' -> no_heap m0 m'.
Proof. intros (H1 & H2 & H3) (H4 & H5 & H6 & _)%memory_printed. split_and!; congruence. Qed.

Lemma heap_up_printed U base off m0 m m' : heap_up U base off m0 m -> printed m m' -> heap_up U base off m0 m'.
Proof. intros H1 (_ & H2 & H5 & H3 & H4)%memory_printed. unfold heap_up. by rewrite H2, H3, H4, H5. Qed.

Lemma charged_printed U base off m0 rs A m m' : charged U base off m0 rs A m -> printed m m' -> charged U base off m0 rs A m'.
Proof.
  intros [H1 H2 H3 H4] Hp. pose proof Hp as (_ & E2 & E5 & E3 & E4)%memory_printed.
  assert (E6 : ktrace (bkernel (mboot m')) = ktrace (bkernel (mboot m))) by (destruct Hp as (_ & Hr & _); unfold rest in Hr; congruence).
  split; [by rewrite E3, E4| |done|by rewrite E6]. unfold heap_of, kernel_inv in *. unfold sys_of in E5. cbn in *.
  by rewrite E2, E5, E6.
Qed.

Lemma wp_on_boot {A} (c : M (boot_state E D) A) (Q : A -> S -> Prop) m :
  wp c (fun a b => Q a (mkMachine b (mserial m) (mscreen m) (mlog m) (mbuddy m) (mphys m) (mtables m) (mheap m) (mfs m)))
    (mboot m) -> wp (on_boot c) Q m.
Proof. unfold wp, on_boot. by destruct (c (mboot m)) as [[? ?]|]. Qed.

Lemma init_stage m : at_reset m -> wp (on_boot Boot.init) (fun _ m' => early false no_logger TRACE m m' /\ no_heap m m') m.
Proof.
  intros Hr. apply wp_on_boot. eapply wp_mono; [apply init_boot_ok|].
  intros [] b (Hk & Hs & Hi & _ & Ha & Hc & Hl & Hio). destruct Hk as [Hk1 Hk2].
  assert (Hsys : sys_of m = set_metrics (metrics (sys_of m)) (sys_of m)) by by destruct (sys_of m).
  destruct Hr as [R1 R2 R3 R4 R5 R6 R7 R8 R9 R10 R11 R12]. split.
  - split; unfold console_up, sys_of, hardware in *;
      cbn [mboot mserial mscreen mlog mbuddy mphys mtables mheap mfs]; try congruence.
    + rewrite R4, R5. split; [by left|done].
    + rewrite R5, is_Some_alt. done.
    + rewrite Hk1. eauto.
  - unfold no_heap, sys_of. cbn. by rewrite Hk1.
Qed.

(** The frame buffer the boot loader describes is one the console can use. *)
Definition framebuffer_ok (bi : BootInfo) : Prop :=
  forall buf i, framebuffer bi = Some (buf, i) -> info_ok i (Z.of_nat (length buf)).

Definition has_screen (bi : BootInfo) : bool := if framebuffer bi is Some _ then true else false.

Lemma screen_stage {X} bi m0 m (k : M S X) (Q : X -> S -> Prop) : framebuffer_ok bi ->
  early false no_logger TRACE m0 m -> no_heap m0 m ->
  (forall m', early (has_screen bi) no_logger TRACE m0 m' -> no_heap m0 m' -> same_line m m' -> wp k Q m') ->
  wp (_ ← match framebuffer bi with
          | Some (buffer, fb_info) => w ← lift (Framebuffer.init buffer fb_info); modify (set_screen w)
          | None => mret tt
          end; k) Q m.
Proof.
  intros Hfb He Hn Hk. unfold has_screen in Hk. apply wp_bind.
  destruct (framebuffer bi) as [[buf i]|] eqn:Ef; [|by apply wp_ret, Hk].
  destruct (init_con_ok buf i (Hfb _ _ Ef)) as (w & Hw & Hok & _). apply wp_bind, wp_lift. rewrite Hw.
  apply returns_ret, wp_modify, Hk; [|done|done]. destruct He as [[? ?] ? ? ? ? ? ? ? ? ?].
  by split.
Qed.

Lemma log_stage sc tr m0 m : early sc no_logger tr m0 m -> no_heap m0 m ->
  wp (log_init (level_num Info)) (fun _ m' => early sc (mkLogger true 3) tr m0 m' /\ no_heap m0 m') m.
Proof.
  intros [] Hn. unfold log_init. apply wp_bind, wp_get. rewrite e_log0. simpl. apply wp_bind, wp_modify, wp_ret.
  split; [by split|done].
Qed.

(** The heap has room for what the collections ask. *)
Definition asks_ok : Prop := fits HEAP_SIZE [] (all_asks q) /\ Z.of_nat (length (all_asks q)) < 2 ^ 64.

(** What [kernel_main] needs of the memory map and the page tables. *)
Record memory_ok (bi : BootInfo) (offset : Z) : Prop := {
  k_offset : physical_memory_offset bi = Some offset;
  k_canonical : canonical offset;
  k_cr3 : 0 <= cr3 /\ canonical (offset + cr3);
  k_map : map_ok (memory_regions bi) offset;
  k_fresh : Forall (fresh_page (offset_page_table (offset + cr3) offset)) heap_pages;
  k_room : let '(base, total) := total_of (memory_regions bi) in
           roomy (usable_frame base total (usable_regions (memory_regions bi))) (4 * 257)
}.

Lemma heap_stage bi offset sc lg tr m0 m base total : memory_ok bi offset -> at_reset m0 ->
  early sc lg tr m0 m -> no_heap m0 m -> total_of (memory_regions bi) = (base, total) ->
  wp (set_up_heap (memory_regions bi) offset (offset_page_table (offset + cr3) offset))
    (fun _ m' => early sc lg tr m0 m' /\
       heap_up (usable_frame base total (usable_regions (memory_regions bi))) base offset m0 m') m.
Proof.
  intros Hb Hr He (Hp & Hh & Hm) Ht. pose proof (k_room _ _ Hb) as Hroom.
  pose proof (heap_bring_up_cases (memory_regions bi) offset (frames_of m) (offset_page_table (offset + cr3) offset)
    (mheap m) (k_map _ _ Hb)) as Hc.
  assert (Hmon : allocated_frames (mon (frames_of m)) = 0) by (unfold frames_of; simpl; by rewrite Hm, (r_metrics _ Hr)).
  rewrite Ht in Hc, Hroom. destruct Hc as [[_ Hno]|(s & Hrun & Hok)].
  - done.
  - by rewrite Hh, (r_heap _ Hr).
  - by destruct (Hno (k_fresh _ _ Hb)).
  - unfold wp, set_up_heap. fold (sys_of m). fold (frames_of m). rewrite Hrun. destruct s as [[w pt] h]. split.
    + destruct He as [? ? ? ? [x Hx] ? ? ? ? ?]. split; try done. exists (mon w).
      unfold sys_of in *. cbn. by rewrite Hx.
    + pose proof (bring_up_bytes _ _ _ _ _ _ (k_map _ _ Hb) Hmon Hrun) as Hby. unfold heap_bytes in Hby. cbn in Hby.
      rewrite Hm, (r_metrics _ Hr) in Hby. split; [|exact Hby]. unfold frames_of, sys_of. cbn. rewrite <- Hp. by destruct w.
Qed.

Lemma trace_stage U base offset sc lg m0 m : early sc lg TRACE m0 m -> heap_up U base offset m0 m ->
  wp trace_init (fun _ m' => early sc lg (Trace.init TRACE) m0 m' /\ heap_up U base offset m0 m') m.
Proof.
  intros [] Hh. apply wp_on_boot, wp_on_kernel, wp_modify. split; [|done].
  split; try done. cbn. by rewrite e_trace0.
Qed.

(** The firmware's tables lie in memory the map does not call usable. *)
Definition firmware_ok (bi : BootInfo) (offset : Z) (m : S) (pins : option (Z * Z)) : Prop :=
  let '(base, total) := total_of (memory_regions bi) in
  exists acpi : memory, acpi ⊆ mphys m /\
    (forall a, is_Some (acpi !! a) ->
       outside_pages (usable_frame base total (usable_regions (memory_regions bi))) base offset a) /\
    firmware (lbase := lbase) (iobase := iobase) acpi offset (mach (mboot m)) (rsdp_addr bi) pins.

Lemma firmware_mono acpi mem offset (d : D) rsdp pins : acpi ⊆ mem ->
  firmware (lbase := lbase) (iobase := iobase) acpi offset d rsdp pins ->
  firmware (lbase := lbase) (iobase := iobase) mem offset d rsdp pins.
Proof.
  intros Hs Hf. destruct Hf as [|a Hd|a info addr g t k Hd Hr Htk]; econstructor; try done;
    by apply (detect_mono _ _ Hs).
Qed.

(** The state after [init_apic]. *)
Record late (screen : bool) (pins : option (Z * Z)) (m0 m : S) : Prop := {
  l_console : console_up m;
  l_screen : is_Some (mscreen m) <-> screen = true;
  l_log : mlog m = mkLogger true 3;
  l_sse : sse_enabled (mboot m0) (mboot m);
  l_idt : idt (mboot m) = Some IDT;
  l_iflag : iflag (bkernel (mboot m)) = true;
  l_apic : apic_ok (lbase := lbase) (kapic (bkernel (mboot m)));
  l_controllers : controllers (mboot m0) (mboot m) pins
}.

Lemma late_printed sc pins m0 m m' : late sc pins m0 m -> printed m m' -> late sc pins m0 m'.
Proof.
  intros [? Hsc Hl Hs Hi Hf Ha Hct] (Hc & Hr & Hsc'). unfold rest, hardware in Hr.
  injection Hr as E1 E2 E3 E4 E5 E6 E7 E8 E9 E10 E11 E12 E13 E14 E15 E16 E17.
  split; unfold sse_enabled in *; try congruence.
  - by rewrite Hsc'.
  - by rewrite E6, E7.
  - unfold apic_ok, is_active in *. by rewrite E2, E3.
  - unfold controllers, is_active, redirection in *. by rewrite E2, E9, E10, E11.
Qed.

Lemma apic_stage bi offset sc m0 m pins base total : at_reset m0 -> total_of (memory_regions bi) = (base, total) ->
  firmware_ok bi offset m0 pins -> early sc (mkLogger true 3) (Trace.init TRACE) m0 m ->
  heap_up (usable_frame base total (usable_regions (memory_regions bi))) base offset m0 m ->
  wp (on_boot (init_apic (mphys m) (rsdp_addr bi) offset)) (fun evs m' =>
    evs = boot_log (mphys m0) offset (mach (mboot m0)) (rsdp_addr bi) /\ late sc pins m0 m' /\
    sys_of m' = sys_of m /\ mfs m' = mfs m0 /\ ktrace (bkernel (mboot m')) = Trace.init TRACE /\
    heap_up (usable_frame base total (usable_regions (memory_regions bi))) base offset m0 m') m.
Proof.
  intros Hr Ht Hfw [Hc Hsc Hl Htr Hsys Hs Hi Ha Hh Hfs] Hheap. unfold firmware_ok in Hfw. rewrite Ht in Hfw.
  destruct Hfw as (acpi & Hsub & Hout & Hfw).
  assert (Hsub' : acpi ⊆ mphys m).
  { apply map_subseteq_spec. intros a v Hv. destruct Hheap as [(A & L & _ & [_ _ Hmem] & _) _]. simpl in Hmem.
    rewrite Hmem by by apply Hout. by eapply lookup_weaken. }
  pose proof (boot_log_mono _ _ _ _ _ _ Hsub Hfw) as Hev. pose proof (boot_log_mono _ _ _ _ _ _ Hsub' Hfw) as Hev'.
  apply (firmware_mono _ _ _ _ _ _ Hsub') in Hfw. unfold hardware in Hh. injection Hh as H1 H2 H3.
  apply wp_on_boot. eapply wp_mono; [by apply (init_apic_ok (mphys m) offset (mboot m0) (mboot m) _ pins)|].
  intros evs b (-> & [Hk1 Hk2] & Hf & Hc0 & Hc4 & Hi2 & Hok & Hctl). split_and!; [congruence| |done|done|cbn; by rewrite Hk2|].
  - split; cbn [mboot mserial mscreen mlog mbuddy mphys mtables mheap mfs]; try done.
    + unfold sse_enabled. by rewrite Hc0, Hc4.
    + by rewrite Hi2.
  - unfold heap_up, frames_of, sys_of in *. cbn. by rewrite Hk1.
Qed.

(** The files of [demo_fs]. *)
Definition demo_files (fs : FileSystem) : Prop :=
  read_file fs (lit "/hello.txt") = Ok (bytes_of "Hello from Yonti-os filesystem!") /\
  read_file fs (lit "/home/test") = Ok (bytes_of "nested file!").

(** The lines of [demo_fs]. *)
Definition demo_lines : list demo_line :=
  [DemoText (lit "Hello from Yonti-os filesystem!"); DemoListing (lit "/") [lit "hello.txt"; lit "home"];
   DemoListing (lit "/home") [lit "test"]].

Lemma fs_stage sc pins m0 m : late sc pins m0 m -> mfs m = Fs.new ->
  wp (on_fs demo_fs) (fun lines m' => lines = demo_lines /\ late sc pins m0 m' /\ sys_of m' = sys_of m /\
    (forall U base offset rs A, charged U base offset m0 rs A m -> charged U base offset m0 rs A m') /\ demo_files (mfs m')) m.
Proof.
  intros [] Hfs. destruct demo_fs_runs as (fs & Hrun & H1 & H2 & _). unfold wp, on_fs. rewrite Hfs, Hrun.
  split_and!; [done|done|done| |done]. intros U base offset rs A []. by split.
Qed.

(** The collections' requests, when there is room for them. *)
Lemma charge_start U base offset m0 m : heap_up U base offset m0 m -> ktrace (bkernel (mboot m)) = Trace.init TRACE ->
  charged U base offset m0 [] [] m.
Proof.
  intros [Hh Hz] Ht. destruct (heap_ready_pages _ _ _ _ _ _ _ Hh) as (Hp & Hi & Hs).
  split; [done| |done|exists []; rewrite Ht; split; [apply init_holds|done]].
  unfold kernel_inv, heap_of. cbn [kheap kmon KernelHeap.ktrace]. rewrite Ht. split_and!; [|exact Hz|reflexivity].
  exists [Blk HEAP_SIZE true]. pose proof (i_geo _ _ Hi) as Hg. pose proof (g_end _ _ Hg) as He. rewrite Hs in He.
  split_and!; [done|done|by rewrite He|]. split_and!; [constructor|constructor|done].
Qed.

Lemma charge_stage sc pins U base offset m0 rs rs' A m : late sc pins m0 m -> charged U base offset m0 rs A m ->
  fits HEAP_SIZE (held [] rs) rs' -> Z.of_nat (length (rs ++ rs')) < 2 ^ 64 ->
  wp (on_kheap (serve_all rdtsc rs' A)) (fun A' m' => late sc pins m0 m' /\ charged U base offset m0 (rs ++ rs') A' m' /\
    mfs m' = mfs m /\ exists x, sys_of m' = set_metrics x (sys_of m)) m.
Proof.
  intros [Hco Hsc Hl Hs Hi Hf Ha Hct] [H1 H2 H3 (es & H4 & H5)] Hfit Hlen.
  pose proof (serve_all_ok rdtsc HEAP_START (HEAP_START + HEAP_SIZE) rs' A (heap_of m) H2) as Hw.
  rewrite Z.add_simpl_l, H3 in Hw. specialize (Hw Hfit). unfold wp, on_kheap in *.
  destruct (serve_all rdtsc rs' A (heap_of m)) as [[A' h]|]; [|done]. destruct Hw as [S1 S2 S3 S4].
  assert (Hes : length es = length rs).
  { rewrite <- (length_fmap summary), H5. apply events_length. }
  destruct (S4 es H4) as (es' & T1 & T2); [rewrite length_app in Hlen; by rewrite Hes|].
  split; [by split|]. split; [|split; [done|by eexists]]. split.
  - unfold frames_of, sys_of in *. cbn in *. by eapply pages_ready_mon.
  - by destruct h.
  - by rewrite S2, H3, held_app.
  - exists (es ++ es'). split; [done|]. by rewrite fmap_app, H5, T2, H3, events_app.
Qed.

Lemma wp_on_executor {A} (c : M (sys E) A) (Q : A -> S -> Prop) m :
  wp c (fun a w => forall b, ksys (bkernel b) = w -> ktrace (bkernel b) = ktrace (bkernel (mboot m)) ->
    iflag (bkernel b) = iflag (bkernel (mboot m)) -> kapic (bkernel b) = kapic (bkernel (mboot m)) ->
    (cr0 b, cr4 b, idt b) = (cr0 (mboot m), cr4 (mboot m), idt (mboot m)) ->
    Q a (mkMachine b (mserial m) (mscreen m) (mlog m) (mbuddy m) (mphys m) (mtables m) (mheap m) (mfs m))) (sys_of m) ->
  wp (on_boot (on_kernel (on_sys c))) Q m.
Proof.
  intros Hc. apply wp_on_boot, wp_on_kernel, wp_on_sys. eapply wp_mono; [exact Hc|].
  intros a w HQ. by apply HQ.
Qed.

(** The executor's operations change the executor, not the rest. *)
Definition executor_step sc pins U base offset (m0 : S) (fs : FileSystem) k rs A m : Prop :=
  late sc pins m0 m /\ mfs m = fs /\ enrolled (futures (sys_of m0)) k (sys_of m) /\
  charged U base offset m0 rs A m.

Lemma executor_frame {X} (c : M (sys E) X) sc pins U base offset m0 k rs A m :
  late sc pins m0 m -> charged U base offset m0 rs A m ->
  wp c (fun _ w => enrolled (futures (sys_of m0)) k w /\ allocated_frames (metrics w) = allocated_frames (metrics (sys_of m)) /\
    current_allocated (metrics w) = current_allocated (metrics (sys_of m))) (sys_of m) ->
  wp (on_boot (on_kernel (on_sys c))) (fun _ m' => executor_step sc pins U base offset m0 (mfs m) k rs A m') m.
Proof.
  intros [Hco Hsc Hl Hs Hi Hf Ha Hct] [H1 H2 H3 H4] Hc. apply wp_on_executor. eapply wp_mono; [exact Hc|].
  intros a w (He & Hal & Hcu) b E1 E2 E3 E4 E5. injection E5 as E5 E6 E7.
  split; [|split; [done|split]].
  - split; cbn [mboot mserial mscreen mlog mbuddy mphys mtables mheap mfs]; try congruence; try done.
    + unfold sse_enabled. by rewrite E5, E6.
    + by rewrite E4.
    + unfold controllers, is_active, redirection, mach in *. by rewrite E4.
  - unfold sys_of. simpl. by rewrite E1.
  - unfold sys_of in *. split; [| |done|cbn [mboot]; by rewrite E2].
    + unfold frames_of, sys_of in *. cbn [mboot mbuddy mphys mtables mheap]. rewrite E1. by eapply pages_ready_mon.
    + unfold kernel_inv, heap_of in *. cbn [mboot mheap kheap kmon KernelHeap.ktrace] in *. by rewrite E1, E2, Hcu.
Qed.

Lemma enrolled_metrics {F} (e : F) k x w : enrolled e k w -> enrolled e k (set_metrics x w).
Proof. done. Qed.

(** More requests between the executor's operations. *)
Lemma executor_charge sc pins U base offset m0 fs k rs rs' A m : executor_step sc pins U base offset m0 fs k rs A m ->
  fits HEAP_SIZE (held [] rs) rs' -> Z.of_nat (length (rs ++ rs')) < 2 ^ 64 ->
  wp (on_kheap (serve_all rdtsc rs' A)) (fun A' m' => executor_step sc pins U base offset m0 fs k (rs ++ rs') A' m') m.
Proof.
  intros (Hl & <- & He & Hh) Hf Hn. eapply wp_mono; [by eapply charge_stage|]. intros A' m' (Hl' & Hh' & Hfs & x & Hx).
  split_and!; [done|done| |done]. rewrite Hx. by apply enrolled_metrics.
Qed.

Lemma spawn_stage sc pins U base offset m0 fs k rs A m : (k < 100)%nat -> executor_step sc pins U base offset m0 fs k rs A m ->
  wp spawn_task (fun _ m' => executor_step sc pins U base offset m0 fs (Datatypes.S k) rs A m') m.
Proof.
  intros Hk (Hl & <- & He & Hh). apply executor_frame; [done|done|].
  destruct (spawn_enrolled _ _ _ Hk He) as (w & Hrun & He' & Hm). eapply wp_intro; [exact Hrun|].
  split; [done|]. by rewrite Hm.
Qed.

Lemma executor_stage sc pins U base offset m0 rs A m : at_reset m0 -> late sc pins m0 m ->
  (exists x, sys_of m = set_metrics x (sys_of m0)) -> charged U base offset m0 rs A m ->
  wp executor_new (fun _ m' => executor_step sc pins U base offset m0 (mfs m) 0 rs A m') m.
Proof.
  intros Hr Hl [x Hx] Hh. destruct queue_new as (tq & Hq & Hok). unfold executor_new.
  apply wp_bind, wp_lift. unfold MAX_TASKS. rewrite Hq. apply returns_ret, executor_frame; [done|done|].
  apply wp_modify. split; [|done]. rewrite Hx. destruct Hr as [_ _ _ _ _ _ _ _ R1 R2 R3 R4].
  split; [exact R1|]. split; [exact Hok|]. split; [|by split_and!]. intros i. simpl.
  by rewrite bool_decide_false by lia.
Qed.

(** ** What is printed

    [J out m]: [out] is what has gone over the line. Printing adds to it; the rest of
    the boot sequence does not touch the line. *)
Record line_inv (J : list Z -> S -> Prop) : Prop := {
  j_frame out m m' : same_line m m' -> J out m -> J out m';
  j_init out m a m' : J out m -> on_boot Boot.init m = Ret (a, m') -> J out m';
  j_apic out m mem rsdp off a m' : J out m -> on_boot (init_apic mem rsdp off) m = Ret (a, m') -> J out m';
  j_print out ss m a m' : J out m -> on_com1 (_print ss) m = Ret (a, m') -> J (out ++ concat ss) m'
}.

(** The bytes of a line that is logged, and those of the whole boot. *)
Definition info_line (s : string) : list Z := log_line Info (text "yonti_os") (text s).
Definition event_line (e : boot_event) : list Z := let '(l, target, args) := event_text e in log_line l target args.
Definition boot_output (bi : BootInfo) (offset : Z) (m : S) : list Z :=
  info_line "framebuffer initialized" ++ info_line "heap initialized" ++
  concat (event_line <$> boot_log (lbase := lbase) (iobase := iobase) (mphys m) offset (mach (mboot m)) (rsdp_addr bi)) ++
  concat ((fun l => demo_bytes l ++ [10]) <$> demo_lines) ++ info_line "filesystem demo done".

Lemma wp_track {A} (c : M S A) (Q : A -> S -> Prop) (R : S -> Prop) m :
  wp c Q m -> (forall a m', c m = Ret (a, m') -> R m') -> wp c (fun a m' => Q a m' /\ R m') m.
Proof. unfold wp. intros Hc HR. destruct (c m) as [[a m']|]; [|done]. split; [done|]. by eapply HR. Qed.

Section track.
Context (J : list Z -> S -> Prop) (HJ : line_inv J).

(** [c] from [m], if it returns, adds [out]. *)
Definition adds {A} (c : M S A) (m : S) (out : list Z) : Prop :=
  forall o a m', J o m -> c m = Ret (a, m') -> J (o ++ out) m'.

Lemma adds_line {A} (c : M S A) m : (forall a m', c m = Ret (a, m') -> same_line m m') -> adds c m [].
Proof. intros Hc o a m' Ho Hr. rewrite app_nil_r. apply (j_frame J HJ o m m'); [by eapply Hc|done]. Qed.

Lemma adds_log l t s m : mlog m = mkLogger true 3 -> level_num l <= 3 -> adds (log_at l t s) m (log_line l t s).
Proof.
  intros Hl Hn o a m' Ho. unfold log_at, mbind, M_bind, get. rewrite Hl. unfold log_macro, log, enabled. cbn [max_level registered].
  rewrite (proj2 (Z.leb_le _ _) Hn). cbn [andb negb]. intros Hr.
  rewrite <- (app_nil_r (log_line l t s)). by apply (j_print J HJ o [log_line l t s] m a).
Qed.

Lemma adds_println s m : adds (println s) m (s ++ [10]).
Proof.
  intros o a m' Ho. unfold println, mbind, M_bind. destruct (on_com1 (_print [s ++ [10]]) m) as [[u m1]|] eqn:Ec; [|done].
  apply (j_print J HJ o) in Ec; [|done]. cbn [concat] in Ec. rewrite app_nil_r in Ec. unfold on_display.
  destruct (screen_print (s ++ [10]) (mscreen m1)) as [[? ?]|]; [|done]. intros [= _ <-]. by apply (j_frame J HJ _ m1).
Qed.

(** Printing does not change the logger. *)
Lemma adds_each {A} (f : A -> M S unit) (g : A -> list Z) lg xs :
  (forall x m, mlog m = lg -> console_up m -> wp (f x) (fun _ m' => printed m m') m) ->
  (forall x m, mlog m = lg -> adds (f x) m (g x)) -> forall m, mlog m = lg -> console_up m -> adds (for_each xs f) m (concat (g <$> xs)).
Proof.
  intros Hw Hf. induction xs as [|x xs IH]; intros m Hm Hc o a m' Ho; cbn [for_each].
  - intros [= _ <-]. by rewrite app_nil_r.
  - unfold mbind, M_bind. destruct (f x m) as [[u m1]|] eqn:Ex; [|done]. intros Hr.
    pose proof (Hw x m Hm Hc) as Hp. unfold wp in Hp. rewrite Ex in Hp. destruct Hp as (Hc1 & Hrest & _).
    cbn [fmap list_fmap concat]. rewrite app_assoc. eapply IH; [|exact Hc1|by eapply Hf|exact Hr].
    unfold rest in Hrest. injection Hrest. congruence.
Qed.

(** A step of the boot: what its stage gives, and what it printed. *)
Lemma wp_adds out {A} (c : M S A) (Q : A -> S -> Prop) o m :
  wp c Q m -> J o m -> adds c m out -> wp c (fun a m' => Q a m' /\ J (o ++ out) m') m.
Proof. intros Hc Ho Ha. apply wp_track; [done|]. intros a m' Hr. by eapply Ha. Qed.

Lemma wp_stage out {A B} (c : M S A) (f : A -> M S B) (Q : A -> S -> Prop) (R : B -> S -> Prop) o m :
  wp c Q m -> J o m -> adds c m out -> (forall a m', Q a m' -> J (o ++ out) m' -> wp (f a) R m') -> wp (c ≫= f) R m.
Proof.
  intros Hc Ho Ha Hf. apply wp_bind. eapply wp_mono; [exact (wp_adds _ _ _ _ _ Hc Ho Ha)|]. intros a m' []. by apply Hf.
Qed.

(** *** The steps that print nothing *)

Lemma adds_sys {A} (c : M (sys E) A) m : adds (on_boot (on_kernel (on_sys c))) m [].
Proof.
  apply adds_line. intros a m'. unfold on_boot, on_kernel, on_sys. destruct (c _) as [[? ?]|]; [|done]. by intros [= _ <-].
Qed.
Lemma adds_kheap {A} (c : M kworld A) m : adds (on_kheap c) m [].
Proof. apply adds_line. intros a m'. unfold on_kheap. destruct (c _) as [[? ?]|]; [|done]. by intros [= _ <-]. Qed.
Lemma adds_fs {A} (c : M FileSystem A) m : adds (on_fs c) m [].
Proof. apply adds_line. intros a m'. unfold on_fs. destruct (c _) as [[? ?]|]; [|done]. by intros [= _ <-]. Qed.
Lemma adds_executor m : adds executor_new m [].
Proof.
  intros o a m' Ho. unfold executor_new, mbind, M_bind, lift. destruct (new MAX_TASKS); [|done]. by apply adds_sys.
Qed.
Lemma adds_log_init lv m : adds (log_init lv) m [].
Proof.
  apply adds_line. intros a m'. unfold log_init, mbind, M_bind, get, modify. destruct (Log.init lv (mlog m)) as [[]]; [|done].
  by intros [= _ <-].
Qed.
Lemma adds_heap regions off pt m : adds (set_up_heap regions off pt) m [].
Proof.
  apply adds_line. intros a m'. unfold set_up_heap. destruct (heap_bring_up _ _ _) as [[? [[w' pt'] h]]|]; [|done].
  by intros [= _ <-].
Qed.
Lemma adds_trace m : adds trace_init m [].
Proof. apply adds_line. by intros a m' [= _ <-]. Qed.
Lemma adds_init m : adds (on_boot Boot.init) m [].
Proof. intros o a m' Ho Hr. rewrite app_nil_r. by eapply j_init. Qed.
Lemma adds_apic mem rsdp off m : adds (on_boot (init_apic mem rsdp off)) m [].
Proof. intros o a m' Ho Hr. rewrite app_nil_r. by eapply j_apic. Qed.

Lemma wp_info {X} s (k : M S X) (R : X -> S -> Prop) o m : console_up m -> mlog m = mkLogger true 3 -> J o m ->
  (forall m', printed m m' -> J (o ++ info_line s) m' -> wp k R m') -> wp (_ ← log_info s; k) R m.
Proof.
  intros Hc Hl Ho Hk. eapply (wp_stage (info_line s)); [by apply log_at_ok|exact Ho|by apply adds_log|].
  intros [] m' H1 H2. by apply Hk.
Qed.

Lemma event_level e : level_num (event_text e).1.1 <= 3.
Proof. by destruct e as [| | | |[]]. Qed.

Lemma wp_events {X} evs (k : M S X) (R : X -> S -> Prop) o m : console_up m -> mlog m = mkLogger true 3 -> J o m ->
  (forall m', printed m m' -> J (o ++ concat (event_line <$> evs)) m' -> wp k R m') -> wp (_ ← for_each evs log_event; k) R m.
Proof.
  intros Hc Hl Ho Hk.
  assert (Hw : forall e m, console_up m -> wp (log_event e) (fun _ m' => printed m m') m).
  { intros e m' Hm. unfold log_event. destruct (event_text e) as [[l t] s]. by apply log_at_ok. }
  eapply (wp_stage (concat (event_line <$> evs))); [by apply print_each_ok|exact Ho| |intros [] m' H1 H2; by apply Hk].
  eapply adds_each; [by intros; apply Hw| |exact Hl|exact Hc].
  intros e m' Hm. unfold log_event, event_line. pose proof (event_level e). destruct (event_text e) as [[l t] s].
  by apply adds_log.
Qed.

Lemma wp_demo_lines {X} lines (k : M S X) (R : X -> S -> Prop) o m : console_up m -> J o m ->
  (forall m', printed m m' -> J (o ++ concat ((fun l => demo_bytes l ++ [10]) <$> lines)) m' -> wp k R m') ->
  wp (_ ← for_each lines (fun l => println (demo_bytes l)); k) R m.
Proof.
  intros Hc Ho Hk.
  eapply (wp_stage (concat ((fun l => demo_bytes l ++ [10]) <$> lines))); [|exact Ho|..].
  - apply print_each_ok, Hc. intros. by apply println_ok.
  - eapply (adds_each _ _ (mlog m)); [|intros; apply adds_println|done|done]. intros. by apply println_ok.
  - intros [] m' H1 H2. by apply Hk.
Qed.

(** The end of the boot: the executor and its two tasks. *)
Lemma tasks_stage sc pins U base offset m0 fs A m o :
  executor_step sc pins U base offset m0 fs 0 (ask_fs q ++ ask_executor q) A m -> asks_ok -> J o m ->
  wp (held ← on_kheap (serve_all rdtsc (ask_example q) A);
      _ ← spawn_task;
      held ← on_kheap (serve_all rdtsc (ask_shell q) held);
      _ ← spawn_task;
      mret held)
    (fun A' m' => executor_step sc pins U base offset m0 fs 2 (all_asks q) A' m' /\ J o m') m.
Proof.
  intros Hst [Hf Hn] Ho. unfold all_asks in *. rewrite !app_assoc in *. rewrite !length_app in Hn. apply fits_app in Hf as [Hf Hf4].
  apply fits_app in Hf as [_ Hf3].
  eapply (wp_stage []); [eapply executor_charge; [exact Hst|exact Hf3|rewrite !length_app; lia]|exact Ho|apply adds_kheap|].
  intros A1 m1 H1 Ho1. eapply (wp_stage []); [eapply spawn_stage; [|exact H1]; lia|exact Ho1|apply adds_sys|].
  intros [] m2 H2 Ho2.
  eapply (wp_stage []); [eapply executor_charge; [exact H2|exact Hf4|rewrite !length_app; lia]|exact Ho2|apply adds_kheap|].
  intros A3 m3 H3 Ho3. eapply (wp_stage []); [eapply spawn_stage; [|exact H3]; lia|exact Ho3|apply adds_sys|].
  intros [] m4 H4 Ho4. apply wp_ret. rewrite !app_nil_r in Ho4. done.
Qed.

(** From [demo_fs] on. *)
Lemma demo_stage sc pins U base offset m0 m o : at_reset m0 -> late sc pins m0 m ->
  (exists x, sys_of m = set_metrics x (sys_of m0)) -> mfs m = Fs.new -> heap_up U base offset m0 m ->
  ktrace (bkernel (mboot m)) = Trace.init TRACE -> asks_ok -> J o m ->
  wp (held ← on_kheap (serve_all rdtsc (ask_fs q) []);
      lines ← on_fs demo_fs;
      _ ← for_each lines (fun l => println (demo_bytes l));
      _ ← log_info "filesystem demo done";
      held ← on_kheap (serve_all rdtsc (ask_executor q) held);
      _ ← executor_new;
      held ← on_kheap (serve_all rdtsc (ask_example q) held);
      _ ← spawn_task;
      held ← on_kheap (serve_all rdtsc (ask_shell q) held);
      _ ← spawn_task;
      mret held)
    (fun A' m' => (exists fs, executor_step sc pins U base offset m0 fs 2 (all_asks q) A' m' /\ demo_files fs) /\
       J ((o ++ concat ((fun l => demo_bytes l ++ [10]) <$> demo_lines)) ++ info_line "filesystem demo done") m') m.
Proof.
  intros Hr Hl [x Hx] Hf Hh Ht Hq Ho. pose proof Hq as [Hfit Hn]. unfold all_asks in Hfit, Hn. rewrite !length_app in Hn.
  apply fits_app in Hfit as [Hf1 [Hf2 _]%fits_app].
  eapply (wp_stage []); [eapply (charge_stage _ _ _ _ _ _ []); [exact Hl|by apply charge_start|exact Hf1|simpl; lia]|done|apply adds_kheap|].
  intros A1 m1 (Hl1 & Hc1 & Hfs1 & x1 & Hx1) Ho1. cbn [app] in Hc1.
  eapply (wp_stage []); [apply fs_stage; [exact Hl1|by rewrite Hfs1]|exact Ho1|apply adds_fs|].
  intros ? m2 (-> & Hl2 & Hs2 & Hch & Hd2) Ho2. apply Hch in Hc1.
  eapply wp_demo_lines; [apply Hl2|exact Ho2|]. intros m3 H3 Ho3. pose proof (late_printed _ _ _ _ _ Hl2 H3) as Hl3.
  eapply wp_info; [apply Hl3|apply Hl3|exact Ho3|]. intros m4 H4 Ho4. pose proof (printed_trans _ _ _ H3 H4) as Hpr.
  destruct (kept_printed _ _ Hpr) as [Hs4 Hf4].
  eapply (wp_stage []); [eapply charge_stage; [by eapply late_printed|by eapply charged_printed|exact Hf2|rewrite length_app; lia]
    |exact Ho4|apply adds_kheap|].
  intros A5 m5 (Hl5 & Hc5 & Hfs5 & x5 & Hx5) Ho5. eapply (wp_stage []); [|exact Ho5|apply adds_executor|].
  { apply executor_stage; [exact Hr|exact Hl5| |exact Hc5]. exists x5. by rewrite Hx5, Hs4, Hs2, Hx1, Hx. }
  intros [] m6 H6 Ho6. eapply wp_mono; [by apply tasks_stage|]. intros A7 m7 [H7 Ho7].
  rewrite !app_nil_r in Ho7. split; [|done]. exists (mfs m5). split; [exact H7|]. by rewrite Hfs5, Hf4.
Qed.

(** The beginning, up to the logger. *)
Lemma first_stage {X} bi m o (k : M S X) (R : X -> S -> Prop) : at_reset m -> framebuffer_ok bi -> J o m ->
  (forall m', early (has_screen bi) (mkLogger true 3) TRACE m m' -> no_heap m m' ->
     J (o ++ info_line "framebuffer initialized") m' -> wp k R m') ->
  wp (_ ← on_boot Boot.init;
      _ ← match framebuffer bi with
          | Some (buffer, fb_info) => w ← lift (Framebuffer.init buffer fb_info); modify (set_screen w)
          | None => mret tt
          end;
      _ ← log_init (level_num Info);
      _ ← log_info "framebuffer initialized";
      k) R m.
Proof.
  intros Hr Hfb Ho Hk. eapply (wp_stage []); [by apply init_stage|done|apply adds_init|]. intros [] m1 [He1 Hn1] Ho1.
  apply (screen_stage bi m m1); [done..|]. intros m2 He2 Hn2 Hsl. apply (j_frame J HJ _ _ _ Hsl) in Ho1.
  eapply (wp_stage []); [by apply log_stage|exact Ho1|apply adds_log_init|]. intros [] m3 [He3 Hn3] Ho3.
  eapply wp_info; [apply He3|apply He3|exact Ho3|]. intros m4 H4 Ho4. rewrite !app_nil_r in Ho4.
  apply Hk; [by eapply early_printed|by eapply no_heap_printed|done].
Qed.

Lemma kernel_main_boots bi offset pins m base total o :
  at_reset m -> total_of (memory_regions bi) = (base, total) ->
  memory_ok bi offset -> framebuffer_ok bi -> firmware_ok bi offset m pins -> asks_ok -> J o m ->
  wp (kernel_main rdtsc q cr3 bi) (fun A m' => (exists fs,
    executor_step (has_screen bi) pins (usable_frame base total (usable_regions (memory_regions bi))) base offset m fs 2 (all_asks q) A m' /\
    demo_files fs) /\ J (o ++ boot_output bi offset m) m') m.
Proof.
  intros Hr Ht Hmem Hfb Hfw Hq Ho. set (U := usable_frame base total (usable_regions (memory_regions bi))).
  unfold kernel_main. apply (first_stage bi m o); [done..|]. intros m1 He1 Hn1 Ho1.
  apply wp_bind, wp_lift. rewrite (k_offset _ _ Hmem). apply returns_ret, wp_bind, wp_lift.
  rewrite va_new_ok by apply Hmem. apply returns_ret, wp_bind, wp_lift. unfold memory_init, active_level_4_table.
  rewrite va_add_ok by apply Hmem. apply returns_ret.
  eapply (wp_stage []); [by eapply heap_stage|exact Ho1|apply adds_heap|]. intros [] m2 [He2 Hh2] Ho2.
  eapply wp_info; [apply He2|apply He2|exact Ho2|]. intros m3 H3 Ho3.
  apply (early_printed _ _ _ _ _ _ He2) in H3 as He3. apply (heap_up_printed _ _ _ _ _ _ Hh2) in H3 as Hh3.
  eapply (wp_stage []); [by apply (trace_stage U base offset)|exact Ho3|apply adds_trace|]. intros [] m4 [He4 Hh4] Ho4.
  apply wp_bind, wp_get. eapply (wp_stage []); [by eapply apic_stage|exact Ho4|apply adds_apic|].
  intros evs m5 (-> & Hl5 & Hs5 & Hf5 & Ht5 & Hh5) Ho5. eapply wp_events; [apply Hl5|apply Hl5|exact Ho5|].
  intros m6 H6 Ho6. destruct (kept_printed _ _ H6) as [Hs6 Hf6]. eapply wp_mono.
  { eapply (demo_stage _ _ U base offset m m6); [done|by eapply late_printed|..|exact Hq|exact Ho6].
    - rewrite Hs6, Hs5. apply He4.
    - by rewrite Hf6, Hf5, (r_fs _ Hr).
    - by eapply heap_up_printed.
    - destruct H6 as (_ & Hre & _). unfold rest in Hre. congruence. }
  intros A m' [H' Ho']. split; [done|]. unfold boot_output. by rewrite ?app_nil_r, <- ?app_assoc in *.
Qed.
End track.

(** Whether anything arrives or not. *)
Lemma no_line : line_inv (fun _ _ => True).
Proof. done. Qed.

(** C8: the boot sequence reaches the executor. From reset, on a board with a well-formed
    memory map that has room for the heap, unmapped heap pages, either no ACPI root
    pointer or tables outside usable memory over which the walk returns and interrupt
    controllers in the ranges [init] asserts, and (if any) a frame buffer the console can
    use; when the heap has room for each request of the collections as it comes;
    [kernel_main] arrives at [executor.run] without a panic. Interrupts are enabled and
    exactly one controller delivers them to handlers that acknowledge there; every page
    of the heap has a usable frame of its own, and both allocators' invariants hold, the
    heap's with exactly the blocks the collections hold, whose sizes the metric
    [current_allocated] sums up; the trace is recording and holds one event for each
    request; the demo files are in the file system; the logger is at [Info]; and the
    executor has the two tasks on its queue, in order, with the statics of the keyboard
    as the first poll of the shell expects them. *)
Theorem kernel_main_reaches_executor bi offset pins m base total :
  at_reset m -> total_of (memory_regions bi) = (base, total) ->
  memory_ok bi offset -> framebuffer_ok bi -> firmware_ok bi offset m pins -> asks_ok ->
  exists A m', kernel_main rdtsc q cr3 bi m = Ret (A, m') /\
    iflag (bkernel (mboot m')) = true /\ idt (mboot m') = Some IDT /\ sse_enabled (mboot m) (mboot m') /\
    apic_ok (lbase := lbase) (kapic (bkernel (mboot m'))) /\ controllers (mboot m) (mboot m') pins /\
    pages_ready (usable_frame base total (usable_regions (memory_regions bi))) base offset (mphys m)
      (frames_of m') (mtables m') /\
    kernel_inv HEAP_START (HEAP_START + HEAP_SIZE) (heap_of m') A /\ snd <$> A = held [] (all_asks q) /\
    (exists es, trace_holds es (ktrace (bkernel (mboot m'))) /\ summary <$> es = events_of [] (all_asks q)) /\
    demo_files (mfs m') /\ enrolled (futures (sys_of m)) 2 (sys_of m') /\
    mlog m' = mkLogger true (level_num Info) /\
    (is_Some (mscreen m') <-> is_Some (framebuffer bi)).
Proof.
  intros Hr Ht Hmem Hfb Hfw Hq.
  destruct (wp_elim _ _ _ (kernel_main_boots _ no_line bi offset pins m base total [] Hr Ht Hmem Hfb Hfw Hq I))
    as (A & m' & Hrun & (fs & ([] & <- & He & []) & Hd) & _). exists A, m'.
  split_and!; try done. rewrite l_screen0. unfold has_screen. destruct (framebuffer bi); [done|].
  by rewrite is_Some_alt.
Qed.
End sequence.

(** ** A boot that shows the hypotheses can hold *)

#[global] Instance demo_com1 : Com1Apart demo_board.
Proof.
  split.
  - intros p v [[c0 c1] a k] Hp. simpl. repeat (case_match; [lia|]). done.
  - intros p b Hp. simpl. repeat (case_match; [lia|]). done.
Qed.

#[global] Instance plain_va : VirtAddrApi := {|
  va_new a := if (a <? 2 ^ 47) || (2 ^ 64 - 2 ^ 47 <=? a) then Ret a else Crash (Panic "VirtAddr::new");
  va_add a n := if (a + n <? 2 ^ 47) || (2 ^ 64 - 2 ^ 47 <=? a + n) then Ret (a + n) else Crash (Panic "VirtAddr::new")
|}.

#[global] Instance plain_va_laws : VirtAddrLaws plain_va.
Proof.
  assert (Hc : forall a, canonical a -> (a <? 2 ^ 47) || (2 ^ 64 - 2 ^ 47 <=? a) = true).
  { intros a Ha. unfold canonical in Ha. lia. }
  split; intros; simpl; by rewrite Hc.
Qed.

#[global] Instance no_tables : OffsetPageTableApi (option Z * gmap Z Z) := fun _ _ => (None, ∅).

Definition demo_info : BootInfo :=
  mkBootInfo (Some (replicate 3456 7, small_screen)) (Some 0x10000) roomy_map (Some 0x100).

Definition demo_reset : machine unit demo_board (option Z * gmap Z Z) :=
  mkMachine
    (mkBoot (mkKernel demo_sys (mkApic (mkBoard (mkChip Pic.Ready 8 0 0 0xB8 0, mkChip Pic.Ready 112 0 0 0x8F 0)
       (amachine demo_apic) []) None 0) TRACE 0 false) 0x80000011 0x20 None)
    None None no_logger (self blank) pc_memory (None, ∅) blank_heap Fs.new.

Lemma pc_memory_low a : is_Some (pc_memory !! a) -> a < 0x11000.
Proof.
  intros [b Hb]. assert (Hall : map_Forall (fun a _ => a < 0x11000) pc_memory); [|exact (Hall a b Hb)].
  apply (bool_decide_unpack _). vm_compute. exact I.
Qed.

Lemma demo_memory_ok : memory_ok 0x1000 demo_info 0x10000.
Proof.
  split.
  - reflexivity.
  - left. lia.
  - split; [lia|left; lia].
  - destruct roomy_map_ok as (H1 & H2 & H3 & _). split_and!; try done.
  - apply Forall_forall. intros p _. split; [apply lookup_empty|reflexivity].
  - change (total_of (memory_regions demo_info)) with (1048576, 2048). exact roomy_map_roomy.
Qed.

(** Boxes, a queue, B-tree nodes, names and contents; a vector that grows and is dropped. *)
Definition demo_asks : asks := mkAsks
  [Get (mkLayout 1096 8); Get (mkLayout 9 1); Get (mkLayout 9 1); Get (mkLayout 31 1); Get (mkLayout 31 1); Put 0;
   Get (mkLayout 1096 8); Get (mkLayout 4 1); Get (mkLayout 12 1); Get (mkLayout 96 8); Put 0]
  [Get (mkLayout 1600 8); Get (mkLayout 64 8)]
  [Get (mkLayout 16 8); Get (mkLayout 32 8); Get (mkLayout 456 8)]
  [Get (mkLayout 512 8); Get (mkLayout 32 8)].

Lemma demo_asks_ok : asks_ok demo_asks.
Proof. split; [apply fitsb_fits|]; vm_compute; reflexivity. Qed.

Lemma kernel_main_witness : exists A m',
  kernel_main (fun n => n) demo_asks 0x1000 demo_info demo_reset = Ret (A, m') /\
  current_allocated (metrics (sys_of m')) = 4969 /\ iflag (bkernel (mboot m')) = true /\ chips (mach (mboot m')) = remapped 0xFF 0xFF /\
  redirection 2 (mach (mboot m')) = (Some 32, Some 0) /\ enrolled tt 2 (sys_of m').
Proof.
  destruct (kernel_main_reaches_executor (fun n => n) demo_asks 0x1000 demo_info 0x10000 (Some (2 - 0, 1 - 0)) demo_reset 1048576 2048)
    as (A & m' & H1 & H2 & _ & _ & _ & (_ & H3 & _ & H4 & _) & _ & (_ & H6 & _) & H7 & _ & _ & H5 & _).
  - split; reflexivity.
  - reflexivity.
  - exact demo_memory_ok.
  - intros buf i [= <- <-]. exact small_ok.
  - exists pc_memory. split; [reflexivity|]. split.
    + intros a Ha%pc_memory_low f Hf. left. destruct Hf as (_ & r & Hr & Hf).
      apply list_elem_of_singleton in Hr as ->.
      replace (first_frame 1048576 _) with 0 in Hf by (vm_compute; reflexivity).
      change (a < 1048576 + f * 4096 + 65536). lia.
    + eapply (FwApic _ _ _ _ _ 0xFEC00000); [vm_compute; reflexivity| |lia].
      constructor; vm_compute; intuition congruence.
  - exact demo_asks_ok.
  - exists A, m'. split; [exact H1|]. split; [|split; [exact H2|]].
    { change (current_allocated (metrics (sys_of m')) = sizes A) in H6. rewrite H6, sizes_layouts, H7. vm_compute. reflexivity. } split; [exact H3|]. split; [exact H4|exact H5].
Defined.
