(* ===== verification/System.v ===== *)
(** * From reset to a session

    The components together: [kernel_main] brings the machine from reset to the
    executor, whose interleavings with the keyboard interrupt are those of [Kernel];
    what is typed after boot is answered, from the files [demo_fs] wrote, and every byte
    transmitted since reset is known. *)

From S2P Require Import Prelude Memory Str Fmt Monitor Queue Trace Fs Task TaskInv TaskSpec Io Uart UartSpec.
From S2P Require Import Framebuffer FramebufferInv FramebufferOps FramebufferSpec Pic Apic ApicSpec AcpiSpec.
From S2P Require Import Log Heap KernelHeap Shell ShellSpec Async Terminal Kernel.
From S2P Require Import Buddy BuddyInv BuddyNew BuddySpec Tlsf TlsfInv TlsfSpec HeapBoot Interrupts Boot KernelMain.
Import ArrayQueue OnceCell.

(** The serial chip answers at its own ports only. *)
Class SerialApart (D : Type) `{Ports D} `{Mmio D} (latency : nat) `{!Uart16550 D 0x3F8 latency} : Prop := {
  apart_out p v d : p < 0x3F8 \/ 0x400 <= p -> uview (outb p v d) = uview d;
  apart_in p d : p < 0x3F8 \/ 0x400 <= p -> uview (inb p d).2 = uview d;
  apart_read a d : uview (mmio_read a d).2 = uview d;
  apart_write a v d : uview (mmio_write a v d) = uview d
}.

(** ** What the interrupt controllers' drivers leave alone *)

(** A part [view] of the machine that is not at the ports outside the serial line's, nor
    in memory. *)
Section apart.
Context {E D X : Type} `{Ports D} `{Mmio D} (view : D -> X).
Hypothesis out_apart : forall p v d, p < 0x3F8 \/ 0x400 <= p -> view (outb p v d) = view d.
Hypothesis in_apart : forall p d, p < 0x3F8 \/ 0x400 <= p -> view (inb p d).2 = view d.
Hypothesis read_apart : forall a d, view (mmio_read a d).2 = view d.
Hypothesis write_apart : forall a v d, view (mmio_write a v d) = view d.

Lemma view_out p v : p < 0x3F8 \/ 0x400 <= p -> preserves view (port_write p v).
Proof using out_apart. intros Hp d u d' [= _ <-]. by apply out_apart. Qed.
Lemma view_in p : p < 0x3F8 \/ 0x400 <= p -> preserves view (port_read p).
Proof using in_apart.
  intros Hp d u d'. unfold port_read. pose proof (in_apart p d Hp). destruct (inb p d). intros Heq. by simplify_eq.
Qed.
Lemma view_read a : preserves view (read_volatile a).
Proof using read_apart.
  intros d v d'. unfold read_volatile. case_match; [|done]. pose proof (read_apart a d).
  destruct (mmio_read a d). intros Heq. by simplify_eq.
Qed.
Lemma view_write a v : preserves view (write_volatile a v).
Proof using write_apart. intros d u d'. unfold write_volatile. case_match; [|done]. intros [= _ <-]. apply write_apart. Qed.

Lemma view_on_apic {A} (c : M D A) : preserves view c -> preserves (fun s => view (amachine s)) (on_apic c).
Proof using Type.
  intros Hc s a s'. unfold on_apic. destruct (c (amachine s)) as [[? ?]|] eqn:Ec; [|done]. intros [= _ <-]. by eapply Hc.
Qed.
Lemma view_modify {T} (f : T -> D) (g : T -> T) : (forall s, f (g s) = f s) -> preserves (fun s => view (f s)) (modify g).
Proof using Type. intros Hg s a s' [= _ <-]. by rewrite Hg. Qed.
Lemma view_on_apics {A} (c : M (apic_state D) A) : preserves (fun s => view (amachine s)) c ->
  preserves (fun b : boot_state E D => view (mach b)) (on_kernel (on_apics c)).
Proof using Type.
  intros Hc b a b'. unfold on_kernel, on_apics. destruct (c (kapic (bkernel b))) as [[? ?]|] eqn:Ec; [|done].
  intros [= _ <-]. by eapply Hc.
Qed.
Lemma view_on_ports {A} (c : M D A) : preserves view c ->
  preserves (fun b : boot_state E D => view (mach b)) (on_kernel (on_ports c)).
Proof using Type. intros Hc. by apply view_on_apics, view_on_apic. Qed.
Lemma view_on_sys {A} (c : M (sys E) A) : preserves (fun b : boot_state E D => view (mach b)) (on_kernel (on_sys c)).
Proof using Type. intros b a b'. unfold on_kernel, on_sys. destruct (c _) as [[? ?]|]; [|done]. by intros [= _ <-]. Qed.

Create HintDb line.
#[local] Hint Resolve preserves_ret preserves_lift preserves_guard preserves_get view_read view_write : line.
#[local] Hint Extern 1 (preserves _ (port_write _ _)) => apply view_out; vm_compute; intuition discriminate : line.
#[local] Hint Extern 1 (preserves _ (port_read _)) => apply view_in; vm_compute; intuition discriminate : line.

Ltac line_steps :=
  repeat first [ solve [auto with line] | apply preserves_bind; [|intros ?] | apply view_on_apic | apply view_on_ports
               | apply view_on_apics | apply view_on_sys | apply view_modify; done | case_match ].

Lemma view_boot_init : preserves (fun b : boot_state E D => view (mach b)) Boot.init.
Proof using out_apart in_apart. unfold Boot.init, sse_init, init_idt, initialize, wait. line_steps. Qed.

Lemma view_apic_init info off : preserves (fun s => view (amachine s)) (Apic.init (D := D) info off).
Proof using read_apart write_apart.
  unfold Apic.init, Lapic.new, Lapic.id, Lapic.version, Lapic.enable, Lapic.read, Lapic.write,
    IoApic.new, IoApic.read_reg, route, IoApic.set_irq, IoApic.write_reg. line_steps.
Qed.

Lemma view_init_apic mem o off : preserves (fun b : boot_state E D => view (mach b)) (init_apic mem o off).
Proof using out_apart in_apart read_apart write_apart.
  assert (Hf : forall f, preserves (fun b : boot_state E D => view (mach b)) (set_iflag f)).
  { intros f b a b' [= _ <-]. done. }
  unfold init_apic, mask_all. repeat first [apply Hf | apply view_on_apics, view_apic_init | progress line_steps].
Qed.
End apart.

Section line.
Context {E D PT : Type} `{Ports D} `{Mmio D} {latency : nat} `{!Uart16550 D 0x3F8 latency} `{!SerialApart D latency}.
Notation view := (uview (base := 0x3F8) (latency := latency)).
Notation serial_ok := (serial_ok (latency := latency)).
Notation S := (machine E D PT).
Implicit Types (m : S).

(** ** The boot sequence keeps the line in order *)

Definition line_of m : serial D := mkSerialState (mach (mboot m)) (mserial m).

Hypothesis patient : (latency < RETRIES)%nat.

(** The line is in order, and [out] is what has gone over it. *)
Definition carried (out : list Z) m : Prop := serial_ok (line_of m) /\ sent (view (mach (mboot m))) = out.

Lemma carried_boot {A} (c : M (boot_state E D) A) out m a m' :
  preserves (fun b => view (mach b)) c -> carried out m -> on_boot c m = Ret (a, m') -> carried out m'.
Proof using Type.
  intros Hc [[Hb Hs] Ho]. unfold on_boot. destruct (c (mboot m)) as [[? b]|] eqn:Ec; [|done]. intros [= _ <-].
  unfold carried, line_of, UartSpec.serial_ok. cbn. by rewrite (Hc _ _ _ Ec).
Qed.

Lemma line_carries : line_inv carried.
Proof using SerialApart0 patient.
  split.
  - intros out m m' [H1 H2]. unfold carried, line_of. by rewrite H1, H2.
  - intros out m a m'. apply carried_boot, view_boot_init; [apply apart_out|apply apart_in].
  - intros out m mem rsdp off a m'. apply carried_boot, view_init_apic; [apply apart_out|apply apart_in|apply apart_read|apply apart_write].
  - intros out ss m a m' [Hs Ho]. destruct (wp_elim _ _ _ (print_ok ss _ patient Hs)) as ([] & s & Hp & Hs' & _ & Hse).
    unfold on_com1. fold (line_of m). rewrite Hp. intros [= _ <-]. split; [by destruct s|].
    change (sent (view (Uart.machine s)) = out ++ concat ss). by rewrite Hse, <- Ho.
Qed.
End line.

(** ** The whole *)

Section system.
Context {D PT : Type} `{Ports D} `{Mmio D} {lbase iobase : Z}.
Context `{!Pic8259Pair D} `{!ApicMachine D lbase iobase} `{!Board D lbase iobase} `{!Com1Apart D}.
Context {latency : nat} `{!Uart16550 D 0x3F8 latency} `{!SerialApart D latency}.
Hypothesis patient : (latency < RETRIES)%nat.
Context `{api : PhysFrameApi} {flaws : PhysFrameLaws api} `{pages : PageApi} {plaws : PageLaws pages}.
Context `{tables : !PageTables PT} {ptlaws : PageTablesLaws PT}.
Context `{va : VirtAddrApi} {valaws : VirtAddrLaws va} `{!OffsetPageTableApi PT}.
Context {KB Ev : Type} `{!KeyboardDecoder KB Ev} (rdtsc : Z -> Z) (q : asks) (kb0 : KB) (cr3 : Z).
Notation S := (machine keyboard D PT).
Notation output := (output (latency := latency)).

(** What the shell works on, with the heap [k] the kernel's collections have left. *)
Definition console_of (m : S) (k : kworld) : Shell.world D := Shell.mkWorld (line_of m) (mscreen m) (mfs m) k (mlog m).

(** The executor as [kernel_main] leaves it: task 0 is [example_task], task 1 the shell. *)
Definition booted (m : S) (k : kworld) : terminal D KB := mkTerm Popping (sys_of m) None (console_of m k).

Lemma boot_world bi offset pins m base total :
  at_reset m -> futures (sys_of m) = mkKeyboard false [] ->
  (busy (uview (latency := latency) (mach (mboot m))) <= latency)%nat -> total_of (memory_regions bi) = (base, total) ->
  memory_ok cr3 bi offset -> framebuffer_ok bi -> firmware_ok bi offset m pins -> asks_ok q ->
  exists A m', kernel_main rdtsc q cr3 bi m = Ret (A, m') /\ kernel_inv HEAP_START (HEAP_START + HEAP_SIZE) (heap_of m') A /\
    enrolled (mkKeyboard false []) 2 (sys_of m') /\
    demo_files (mfs m') /\
    (forall k, output (console_of m' k) = sent (uview (latency := latency) (mach (mboot m))) ++ boot_output (lbase := lbase) (iobase := iobase) bi offset m) /\
    forall lo hi A k, kernel_inv lo hi k A -> world_ok (latency := latency) lo hi A (console_of m' k).
Proof.
  intros Hr Hfu Hbusy Ht Hmem Hfb Hfw Hq.
  assert (Hc : carried (latency := latency) (sent (uview (mach (mboot m)))) m).
  { split; [|done]. split; [done|]. cbn. by rewrite (r_serial _ Hr). }
  destruct (wp_elim _ _ _ (kernel_main_boots rdtsc q cr3 _ (line_carries patient) bi offset pins m base total _ Hr Ht Hmem Hfb Hfw Hq Hc))
    as (A0 & m' & Hrun & (fs & (Hl & <- & He & Hch) & Hfiles) & Hs & Ho).
  exists A0, m'. rewrite Hfu in He. split_and!; try done; [apply Hch|]. intros lo hi A k Hk. split; [|done].
  split; [done|apply (l_console _ _ _ _ Hl)].
Qed.

(** C5: from reset to a session. On a board as [kernel_main] expects it (the conditions
    of the boot theorem, and a lawful serial chip), the boot sequence returns with the
    heap in order. From there, with that heap or any other in order, and however the
    interrupts interleave with the executor: as long as no command line typed is [alloc]
    of more than [2^56] bytes, the executor can take its next step and the keyboard's
    handler runs. Once the keys stop, the executor halts within 1409 steps. If no
    scancode was refused by the queue, the shell then holds the line as edited; and if
    moreover every command entered is one the file system alone answers (not [mem],
    [trace], [alloc], [uptime], [clear] or [scale]), what went over the serial line since
    reset is exactly the log of the boot with what was found of the interrupt controllers
    and the lines of [demo_fs], the line of [example_task], the prompt, and the echo and
    the answers of the session on the files [demo_fs] wrote. *)
Theorem boot_session bi offset pins m base total :
  at_reset m -> futures (sys_of m) = mkKeyboard false [] ->
  (busy (uview (latency := latency) (mach (mboot m))) <= latency)%nat -> total_of (memory_regions bi) = (base, total) ->
  memory_ok cr3 bi offset -> framebuffer_ok bi -> firmware_ok bi offset m pins -> asks_ok q ->
  exists A0 m', kernel_main rdtsc q cr3 bi m = Ret (A0, m') /\ demo_files (mfs m') /\
    kernel_inv HEAP_START (HEAP_START + HEAP_SIZE) (heap_of m') A0 /\
    forall lo hi A k ls t, kernel_inv lo hi k A ->
      ArrayQueue.run (kernel_step rdtsc kb0) (booted m' k) ls t -> Z.of_nat (length ls) < 2 ^ 62 ->
      sane_input kb0 (typed_keys ls) ->
      (exists t', kmain rdtsc kb0 t = Ret (tt, t')) /\ (forall s, exists t', tkey s t = Ret (tt, t')) /\
      exists j t', (j <= 1409)%nat /\ ArrayQueue.run (kernel_step rdtsc kb0) t (replicate j KMain) t' /\ tpc t' = Halted /\
        (Task.console (texec t') = [] ->
          let acts := (decode (typed_keys ls) kb0).1 in
          exists s, tlocals t' = Some ((decode (typed_keys ls) kb0).2, s) /\ holds_line s (line_after [] acts) /\
            forall out, transcript (mfs m') [] acts = Some out ->
              output (tconsole t') = sent (uview (latency := latency) (mach (mboot m))) ++
                boot_output (lbase := lbase) (iobase := iobase) bi offset m ++ example_line ++ prompt ++ out).
Proof.
  intros Hr Hfu Hbusy Ht Hmem Hfb Hfw Hq.
  destruct (boot_world bi offset pins m base total Hr Hfu Hbusy Ht Hmem Hfb Hfw Hq) as (A0 & m' & Hrun & Hk0 & He & Hd & Ho & Hw).
  exists A0, m'. split; [done|]. split; [done|]. split; [done|]. intros lo hi A k ls t Hk Hls Hlen Hsane.
  pose proof (kstart_ok lo hi A patient kb0 (console_of m' k) (sys_of m') He (Hw lo hi A k Hk)) as Hs.
  destruct (krun_ok rdtsc lo hi A patient kb0 _ ls 100 [] _ t _ _ _ ltac:(lia) ltac:(lia) Hsane Hs Hls) as (x1 & tl & sl & Hi).
  split; [|split].
  - destruct (kmain_ok rdtsc lo hi A patient kb0 _ (100 + Z.of_nat (length ls)) _ t x1 tl sl ltac:(lia) Hsane Hi) as (t' & _ & _ & _ & Hm & _). by exists t'.
  - intros s. destruct (kkey_ok lo hi A patient kb0 _ (100 + Z.of_nat (length ls)) _ s t x1 tl sl ltac:(lia) Hi) as (t' & _ & _ & Hm & _). by exists t'.
  - destruct (kdrain_ok rdtsc lo hi A patient kb0 _ 1409 (100 + Z.of_nat (length ls)) _ t x1 tl sl ltac:(lia) ltac:(lia) Hsane Hi) as (j & t' & x2 & tl' & sl' & Hj & Hd' & Hp & Hk').
    { eapply cost_bound, (k_exec _ _ _ _ _ _ _ _ _ _ _ Hi). }
    exists j, t'. split_and!; try done. intros Hc acts.
    destruct (khalted lo hi A kb0 _ _ _ t' x2 tl' sl' Hk' Hp Hc) as (s & H1 & H2 & H3). exists s. split_and!; [done..|].
    intros out Hout. by rewrite (H3 out Hout), Ho, <- app_assoc.
Qed.
End system.

(** ** A machine that shows the hypotheses can hold *)

(** The controllers of [Interrupts], and a serial chip at its ports. *)
Record pc_board := mkPc { pc_chips : demo_board; pc_line : uart }.

Definition com1 (p : Z) : bool := (0x3F8 <=? p) && (p <? 0x400).

#[export] Instance pc_ports : Ports pc_board := {|
  inb p d := if com1 p then ((inb p (pc_line d)).1, mkPc (pc_chips d) (inb p (pc_line d)).2)
             else ((inb p (pc_chips d)).1, mkPc (inb p (pc_chips d)).2 (pc_line d));
  outb p v d := if com1 p then mkPc (pc_chips d) (outb p v (pc_line d)) else mkPc (outb p v (pc_chips d)) (pc_line d)
|}.

#[export] Instance pc_mmio : Mmio pc_board := {|
  mmio_read a d := ((mmio_read a (pc_chips d)).1, mkPc (mmio_read a (pc_chips d)).2 (pc_line d));
  mmio_write a v d := mkPc (mmio_write a v (pc_chips d)) (pc_line d)
|}.

#[export] Program Instance pc_uart : Uart16550 pc_board 0x3F8 2 := {| uview := pc_line |}.
Next Obligation. intros d v. exact (uart_divisor (pc_line d) v). Qed.
Next Obligation. intros d v. exact (uart_transmit (pc_line d) v). Qed.
Next Obligation. intros d v. exact (uart_ier (pc_line d) v). Qed.
Next Obligation. intros d v. exact (uart_fcr (pc_line d) v). Qed.
Next Obligation. intros d v. exact (uart_lcr (pc_line d) v). Qed.
Next Obligation. intros d v. exact (uart_mcr (pc_line d) v). Qed.
Next Obligation. intros d. exact (uart_lsr (pc_line d)). Qed.
Next Obligation. intros d. exact (uart_poll (pc_line d)). Qed.

#[export] Program Instance pc_pics : Pic8259Pair pc_board := {| chips d := chips (pc_chips d) |}.
Next Obligation. intros d v. exact (pic_command0 (pc_chips d) v). Qed.
Next Obligation. intros d v. exact (pic_command1 (pc_chips d) v). Qed.
Next Obligation. intros d v. exact (pic_data0 (pc_chips d) v). Qed.
Next Obligation. intros d v. exact (pic_data1 (pc_chips d) v). Qed.
Next Obligation. intros d. exact (pic_mask0 (pc_chips d)). Qed.
Next Obligation. intros d. exact (pic_mask1 (pc_chips d)). Qed.
Next Obligation. intros d v. exact (pic_other (pc_chips d) v). Qed.

#[export] Program Instance pc_apics : ApicMachine pc_board demo_lbase demo_iobase := {|
  lapic_of d := lapic_of (pc_chips d); ioapic_of d := ioapic_of (pc_chips d)
|}.
Next Obligation. intros d. exact (lapic_id_law (pc_chips d)). Qed.
Next Obligation. intros d. exact (lapic_version_law (pc_chips d)). Qed.
Next Obligation. intros d. exact (lapic_svr_read_law (pc_chips d)). Qed.
Next Obligation. intros d v. exact (lapic_svr_write_law (pc_chips d) v). Qed.
Next Obligation. intros d. exact (lapic_eoi_law (pc_chips d)). Qed.
Next Obligation. intros d v. exact (ioapic_select_law (pc_chips d) v). Qed.
Next Obligation. intros d. exact (ioapic_version_law (pc_chips d)). Qed.
Next Obligation. intros d v. exact (ioapic_redir_law (pc_chips d) v). Qed.

Lemma com1_true p : 0x3F8 <= p < 0x400 -> com1 p = true.
Proof. unfold com1. lia. Qed.
Lemma com1_false p : p < 0x3F8 \/ 0x400 <= p -> com1 p = false.
Proof. unfold com1. lia. Qed.

#[export] Instance pc_board_laws : Board pc_board demo_lbase demo_iobase.
Proof.
  split.
  - intros p v d. cbn. destruct (com1 p); [done|]. exact (board_out p v (pc_chips d)).
  - intros p d. cbn. destruct (com1 p); [done|]. exact (board_in p (pc_chips d)).
  - intros d. exact (board_scancode (pc_chips d)).
  - intros a d. exact (board_read a (pc_chips d)).
  - intros a v d. exact (board_write a v (pc_chips d)).
Qed.

#[export] Instance pc_com1_apart : Com1Apart pc_board.
Proof. split; intros; cbn; by rewrite com1_true. Qed.

#[export] Instance pc_serial_apart : SerialApart pc_board 2.
Proof. split; intros; cbn; try done; by rewrite com1_false. Qed.

Definition pc_reset : machine keyboard pc_board (option Z * gmap Z Z) :=
  mkMachine
    (mkBoot (mkKernel (mkSys 0 ∅ (mkQueue 0 0 []) None uninit MonitorData_new [] (mkKeyboard false []))
       (mkApic (mkPc (mkBoard (mkChip Pic.Ready 8 0 0 0xB8 0, mkChip Pic.Ready 112 0 0 0x8F 0)
         (amachine demo_apic) []) (Uart.machine demo_serial)) None 0) TRACE 0 false) 0x80000011 0x20 None)
    None None no_logger (self blank) pc_memory (None, ∅) blank_heap Fs.new.

Definition cat_scancodes : list Z := text "cat /hello.txt" ++ [10].

Lemma cat_decoded : (decode (KeyboardDecoder0 := plain_decoder) cat_scancodes tt).1 = cat_keys (lit "/hello.txt").
Proof. reflexivity. Qed.

Lemma cat_answer fs : read_file fs (lit "/hello.txt") = Ok (bytes_of "Hello from Yonti-os filesystem!") ->
  transcript fs [] (cat_keys (lit "/hello.txt")) =
    Some (text "cat /hello.txt" ++ [10] ++ text "Hello from Yonti-os filesystem!" ++ prompt).
Proof.
  intros Hf. apply (cat_session fs (lit "/hello.txt") _ Hf).
  - reflexivity.
  - vm_compute. repeat constructor; discriminate.
  - discriminate.
  - simpl. lia.
Qed.

Lemma cat_sane : sane_input (KeyboardDecoder0 := plain_decoder) tt cat_scancodes.
Proof.
  intros got Hg%elem_of_sublists. apply no_alloc_sane.
  assert (Hall : forallb (fun got => no_alloc [] (decode (KeyboardDecoder0 := plain_decoder) got tt).1)
    (sublists cat_scancodes) = true) by (vm_compute; reflexivity).
  rewrite forallb_forall in Hall. apply Hall. by apply list_elem_of_In.
Qed.

Lemma pc_reset_ok : at_reset pc_reset /\ firmware_ok (lbase := demo_lbase) (iobase := demo_iobase) demo_info 0x10000
  pc_reset (Some (2 - 0, 1 - 0)).
Proof.
  split; [split; reflexivity|]. exists pc_memory. split; [reflexivity|]. split.
  - intros a Ha%pc_memory_low f Hf. left. destruct Hf as (_ & r & Hr & Hf).
    apply list_elem_of_singleton in Hr as ->.
    replace (first_frame 1048576 _) with 0 in Hf by (vm_compute; reflexivity).
    change (a < 1048576 + f * 4096 + 65536). lia.
  - eapply (FwApic _ _ _ _ _ 0xFEC00000); [vm_compute; reflexivity| |lia].
    constructor; vm_compute; intuition congruence.
Qed.

(** What the demonstration machine transmits at boot. *)
Lemma pc_boot_output : boot_output (lbase := demo_lbase) (iobase := demo_iobase) demo_info 0x10000 pc_reset =
  let main := log_line Info (text "yonti_os") in
  let apic := log_line Info (text "yonti_os::apic") in
  concat [
    main (text "framebuffer initialized");
    main (text "heap initialized");
    apic (text "APIC detected: LAPIC base=0xfee00000, 1 I/O APIC(s)");
    apic (text "LAPIC id=0 version=20 base=0xfee00000");
    apic (text "IOAPIC route: legacy IRQ0 → GSI 2 → vector 32");
    apic (text "IOAPIC route: legacy IRQ1 → GSI 1 → vector 33");
    apic (text "APIC subsystem active");
    main (text "APIC: PIC masked, APIC routing active");
    text "[fs] /hello.txt: Hello from Yonti-os filesystem!" ++ [10];
    text "[fs] / contents: [" ++ [34] ++ text "hello.txt" ++ [34] ++ text ", " ++ [34] ++ text "home" ++ [34] ++ text "]" ++ [10];
    text "[fs] /home contents: [" ++ [34] ++ text "test" ++ [34] ++ text "]" ++ [10];
    main (text "filesystem demo done")].
Proof. vm_compute. reflexivity. Qed.

(** [cat /hello.txt] is typed at the prompt of the booted machine, and answered. *)
Lemma boot_session_witness : exists A m' (t' : terminal pc_board unit),
  kernel_main (fun n => n) demo_asks 0x1000 demo_info pc_reset = Ret (A, m') /\ tpc t' = Halted /\
  output (latency := 2) (tconsole t') =
    boot_output (lbase := demo_lbase) (iobase := demo_iobase) demo_info 0x10000 pc_reset ++
    text "async number: 5234" ++ [10] ++
    prompt ++ text "cat /hello.txt" ++ [10] ++ text "Hello from Yonti-os filesystem!" ++ prompt.
Proof.
  destruct pc_reset_ok as [Hreset Hfw].
  assert (Hbusy : (busy (uview (latency := 2) (mach (mboot pc_reset))) <= 2)%nat) by (simpl; lia).
  assert (Hfb : framebuffer_ok demo_info) by (intros buf i [= <- <-]; exact small_ok).
  assert (Hmap : total_of (memory_regions demo_info) = (1048576, 2048)) by reflexivity.
  destruct (boot_world (latency := 2) demo_patient (fun n => n) demo_asks 0x1000 demo_info 0x10000 (Some (2 - 0, 1 - 0)) pc_reset
    1048576 2048 Hreset eq_refl Hbusy Hmap demo_memory_ok Hfb Hfw demo_asks_ok) as (A1 & m1 & Hm1 & _ & He & _ & _ & Hw).
  destruct (boot_session (latency := 2) demo_patient (KeyboardDecoder0 := plain_decoder) (fun n => n) demo_asks tt 0x1000
    demo_info 0x10000 (Some (2 - 0, 1 - 0)) pc_reset 1048576 2048) as (A & m' & Hm & [Hhello _] & Hk0 & Hall).
  - exact Hreset.
  - reflexivity.
  - exact Hbusy.
  - exact Hmap.
  - exact demo_memory_ok.
  - exact Hfb.
  - exact Hfw.
  - exact demo_asks_ok.
  - assert (m1 = m') as -> by (rewrite Hm1 in Hm; by injection Hm).
    specialize (Hw HEAP_START (HEAP_START + HEAP_SIZE) A (heap_of m') Hk0).
    destruct (kernel_types (latency := 2) (fun n => n) HEAP_START (HEAP_START + HEAP_SIZE) A demo_patient (KeyboardDecoder0 := plain_decoder) tt
      (console_of m' (heap_of m')) (sys_of m') cat_scancodes) as (ls & t & Hr & Hlen & Hk & Hc).
    { exact He. } { exact Hw. } { intros got Hg. apply sublist_nil_r in Hg as ->. exact I. } { vm_compute. lia. }
    destruct (Hall HEAP_START (HEAP_START + HEAP_SIZE) A (heap_of m') ls t) as (_ & _ & j & t' & _ & H1 & H2 & H3).
    { exact Hk0. } { exact Hr. } { exact Hlen. } { rewrite Hk. exact cat_sane. }
    exists A, m', t'. split; [exact Hm|]. split; [exact H2|]. rewrite <- (kmains_console _ _ _ _ _ H1) in Hc.
    destruct (H3 Hc) as (s & _ & _ & H4). rewrite Hk, cat_decoded in H4. apply H4, cat_answer, Hhello.
Defined.
