(* ===== verification/TestKernel.v ===== *)
(** * The library's own test kernel: [test_kernel_main] of [lib.rs]

    The unit tests of the library run on a kernel that sets up the processor, the legacy
    controllers and the screen, and no heap. Its verdict reaches the host when every
    test returns; the panic of a failing test does not, since its report allocates. *)

From S2P Require Import Prelude Memory Str Fmt Monitor Queue Trace Fs Task TaskSpec Io Uart UartSpec.
From S2P Require Import Framebuffer FramebufferInv FramebufferOps FramebufferSpec Pic Apic Log Heap Tlsf KernelHeap Shell ShellSpec.
From S2P Require Import Debug Buddy BuddySpec Interrupts Boot Harness KernelMain System.

Section test_kernel.
Context {D PT : Type} `{Emulated D} (rdtsc : Z -> Z).
Context (cpu : list Z -> registers * memory * Z) (growth : list Z -> list Layout) (oom : Layout -> list Z).
Notation S := (machine keyboard D PT).

(** A computation of the harness, on the machine. *)
Definition on_console {A} (c : M (Shell.world D) A) : M S A := fun m =>
  match c (console_of m (heap_of m)) with
  | Crash f => Crash f
  | Ret (a, x) =>
      let k := bkernel (mboot m) in
      let h := wheap x in
      Ret (a, mkMachine
        (mkBoot (mkKernel (set_metrics (kmon h) (ksys k))
                   (mkApic (Uart.machine (wserial x)) (APIC (kapic k)) (LAPIC_EOI_PTR (kapic k)))
                   (KernelHeap.ktrace h) (KernelHeap.kreads h) (iflag k))
           (cr0 (mboot m)) (cr4 (mboot m)) (idt (mboot m)))
        (SERIAL1 (wserial x)) (wscreen x) (wlog x) (mbuddy m) (mphys m) (mtables m) (kheap h) (wfs x))
  end.

(** [test_kernel_main], up to its [hlt_loop]; [tests] are the test cases [test_main]
    runs. *)
Definition test_kernel_main (fuel : nat) (boot_info : BootInfo) (tests : list (test D)) : M S unit :=
  _ ← on_boot Boot.init;
  _ ← match framebuffer boot_info with
      | Some (buffer, fb_info) =>
          w ← lift (Framebuffer.init buffer fb_info);
          modify (set_screen w)
      | None => mret tt
      end;
  on_console (test_main rdtsc cpu growth oom fuel tests).
End test_kernel.

(** ** Its verdict *)

Section verdict.
Context {D PT : Type} `{Emulated D} {latency : nat} `{!Uart16550 D 0x3F8 latency} `{!DebugExit D}.
Hypothesis patient : (latency < RETRIES)%nat.
Hypothesis exit_apart : forall v d, uview (outl 0xf4 v d) = uview d.
Hypothesis out_apart : forall p v d, p < 0x3F8 \/ 0x400 <= p -> uview (outb p v d) = uview d.
Hypothesis in_apart : forall p d, p < 0x3F8 \/ 0x400 <= p -> uview (inb p d).2 = uview d.
Context (rdtsc : Z -> Z) (cpu : list Z -> registers * memory * Z) (growth : list Z -> list Layout) (oom : Layout -> list Z).
Notation S := (machine keyboard D PT).
Notation output := (output (latency := latency)).
Notation test_kernel_main := (test_kernel_main rdtsc cpu growth oom).

(** Nothing has initialised the heap. *)
Definition heapless (k : kworld) : Prop := exists mem, kheap k = mkTworld Tlsf.new mem.

(** Setting up the processor and the controllers returns on any machine. *)
Lemma boot_init_returns (b : boot_state keyboard D) : exists b', Boot.init b = Ret (tt, b').
Proof using Type.
  assert (Hw : wp Boot.init (fun _ _ => True) b).
  { unfold Boot.init, sse_init, init_idt. repeat first [apply wp_bind | apply wp_get | apply wp_modify].
    apply wp_on_kernel, wp_on_ports. unfold initialize, wait.
    repeat first [apply wp_bind | apply wp_port_read | apply wp_port_write]. done. }
  destruct (wp_elim _ _ _ Hw) as ([] & b' & Hb & _). by exists b'.
Qed.

(** The machine [test_main] starts on. *)
Lemma test_kernel_starts bi tests (m : S) : framebuffer_ok bi -> at_reset m ->
  (busy (uview (latency := latency) (mach (mboot m))) <= latency)%nat -> exited (mach (mboot m)) = None ->
  exists m1, (forall fuel, test_kernel_main fuel bi tests m = on_console (test_main rdtsc cpu growth oom fuel tests) m1) /\
    serial_ok (latency := latency) (line_of m1) /\ exited (mach (mboot m1)) = None /\ mheap m1 = mheap m /\
    output (console_of m1 (heap_of m1)) = sent (uview (latency := latency) (mach (mboot m))).
Proof using patient out_apart in_apart DebugExit0.
  intros Hfb Hr Hbusy Hex. destruct (boot_init_returns (mboot m)) as [b Hb].
  assert (Hu : uview (latency := latency) (mach b) = uview (mach (mboot m))).
  { by apply (view_boot_init (E := keyboard) uview out_apart in_apart (mboot m) tt b Hb). }
  assert (He : exited (mach b) = None).
  { rewrite <- Hex. apply (view_boot_init (E := keyboard) exited) with (a := tt); [intros; apply exit_out|intros; apply exit_in|done]. }
  set (m1 := mkMachine b (mserial m) (mscreen m) (mlog m) (mbuddy m) (mphys m) (mtables m) (mheap m) (mfs m)).
  assert (Hs : exists w, forall fuel, test_kernel_main fuel bi tests m =
    on_console (test_main rdtsc cpu growth oom fuel tests) (set_screen w m1)).
  { unfold TestKernel.test_kernel_main, mbind, M_bind, on_boot. rewrite Hb. destruct (framebuffer bi) as [[buf i]|] eqn:Ef.
    - destruct (init_con_ok buf i (Hfb _ _ Ef)) as (w & Hw & _). exists (Some w). intros fuel. unfold lift. by rewrite Hw.
    - by exists (mscreen m). }
  destruct Hs as [w Hs]. exists (set_screen w m1). split; [done|]. unfold line_of, set_screen, m1, ShellSpec.output, console_of, serial_ok.
  cbn. rewrite Hu, (r_serial _ Hr). by split_and!.
Qed.

(** C39: the library's test kernel tells the host of success, and only of success. From
    reset, on any machine with the serial chip and the debug-exit device, it runs the
    tests in order. When all return, it returns with the emulator's status at 33 and
    the report transmitted, and the host exits with 0. When one panics, the panic
    handler never gets to its exit: there is no heap, and its report allocates. *)
Theorem test_kernel_verdict bi tests (m : S) :
  at_reset m -> (busy (uview (latency := latency) (mach (mboot m))) <= latency)%nat -> exited (mach (mboot m)) = None ->
  framebuffer_ok bi -> needs_memory growth -> Forall (steady (latency := latency) heapless) tests ->
  exists r out, report tests r out /\
    match r with
    | Ok _ => forall fuel, exists m', test_kernel_main fuel bi tests m = Ret (tt, m') /\
        exited (mach (mboot m')) = Some 33 /\ test_exit (exited (mach (mboot m'))) = 0 /\
        sent (uview (latency := latency) (mach (mboot m'))) = sent (uview (latency := latency) (mach (mboot m))) ++
          text "Running " ++ dec (Z.of_nat (length tests)) ++ text " tests" ++ [10] ++ out
    | Err _ => forall fuel, test_kernel_main fuel bi tests m = Crash OutOfFuel
    end.
Proof.
  intros Hr Hbusy Hex Hfb Hg Hst.
  destruct (test_kernel_starts bi tests m Hfb Hr Hbusy Hex) as (m1 & Hrun & Hs & He & Hh & Ho).
  set (w := console_of m1 (heap_of m1)) in *.
  assert (Hj : heapless (wheap w)) by (exists (tmem (mheap m)); cbn; rewrite Hh, <- (r_heap _ Hr); by destruct (mheap m)).
  destruct (wp_elim _ _ _ (serial_print_ok (latency := latency) patient
    [text "Running "; dec (Z.of_nat (length tests)); text " tests" ++ [10]] w Hs)) as ([] & w1 & Hp & Hs1 & Hn1 & Ho1 & Hh1 & _).
  destruct (run_each_ok (latency := latency) patient heapless tests w1 Hst Hs1) as (r & w2 & out & Hre & Hrep & Ho2 & Hs2 & Hn2 & Hj2);
    [by rewrite Hn1|by rewrite Hh1|].
  assert (Hm : forall fuel, test_main rdtsc cpu growth oom fuel tests w =
    match r with Ok _ => _ ← exit_qemu Success; mret tt | Err info => test_panic_handler rdtsc cpu growth oom fuel info end w2).
  { intros fuel. unfold test_main, test_runner, mbind, M_bind. rewrite Hp, Hre. by destruct r. }
  exists r, out. split; [done|]. destruct r as [[]|info]; intros fuel; rewrite Hrun; unfold on_console; fold w; rewrite Hm.
  - destruct (exit_ok (latency := latency) exit_apart Success w2 Hn2) as (w3 & Hx & Hst3 & Ho3).
    unfold mbind, M_bind. rewrite Hx. eexists. split; [done|]. cbn [mboot mach bkernel kapic amachine].
    unfold status in Hst3. rewrite Hst3. split; [done|]. split; [done|].
    change (sent (uview (Uart.machine (wserial w3)))) with (output w3). rewrite Ho3, Ho2, Ho1, Ho. cbn [concat].
    by rewrite app_nil_r, <- !app_assoc.
  - destruct Hj2 as [mem Hj2].
    by rewrite (proj2 (panic_uninit (latency := latency) patient rdtsc cpu growth oom mem w2 info fuel Hg Hj2 Hs2)).
Qed.
End verdict.

(** ** A run that shows the hypotheses can hold *)

(** The emulated machine at reset. *)
Definition test_reset : machine keyboard emulated unit :=
  mkMachine
    (mkBoot (mkKernel (mkSys 0 ∅ (ArrayQueue.mkQueue 0 0 []) None OnceCell.uninit MonitorData_new [] (mkKeyboard false []))
       (mkApic (mkEmulated (Uart.machine demo_serial) None) None 0) TRACE 0 false) 0x80000011 0x20 None)
    None None no_logger (self BuddySpec.blank) ∅ tt (mkTworld Tlsf.new ∅) Fs.new.

Definition no_screen : BootInfo := mkBootInfo None None [] None.

Lemma emulated_out p v (d : emulated) : p < 0x3F8 \/ 0x400 <= p -> uview (outb p v d) = uview d.
Proof. intros Hp. destruct d as [u e]. cbn. unfold step_uart. repeat case_match; done || lia. Qed.
Lemma emulated_in p (d : emulated) : p < 0x3F8 \/ 0x400 <= p -> uview (inb p d).2 = uview d.
Proof. intros Hp. destruct d as [u e]. cbn. repeat case_match; done || lia. Qed.

(** The second test panics, and the test kernel never gets to its exit. *)
Lemma test_kernel_witness : exists out,
  report [trivial_assertion; failing_assertion] (Err (text "assertion failed")) out /\
  forall fuel, test_kernel_main (fun n => n) demo_cpu one_buffer (fun _ => text "out of memory") fuel no_screen
    [trivial_assertion; failing_assertion] test_reset = Crash OutOfFuel.
Proof.
  destruct (test_kernel_verdict (latency := 2) demo_patient emulated_apart emulated_out emulated_in (fun n => n) demo_cpu
    one_buffer (fun _ => text "out of memory") no_screen [trivial_assertion; failing_assertion] test_reset) as (r & out & H1 & H2).
  - split; reflexivity.
  - simpl. lia.
  - reflexivity.
  - intros buf i Hb. discriminate Hb.
  - exact one_buffer_needs.
  - apply tests_steady.
  - pose proof (second_fails _ _ H1) as Hr. subst r. exists out. split; [exact H1|exact H2].
Defined.
