(* ===== verification/Gdt.v ===== *)
(** * The descriptor table and the double fault's stack: [gdt.rs]

    The task state segment with the stack of the double fault, the descriptor table
    and its loading. The table is the [x86_64] crate's, an interface here; the
    processor finds the stack of a double fault through the gate of [Interrupts.IDT],
    the task register and the table. *)

From S2P Require Import Prelude Interrupts KernelMain.
Local Open Scope rust_scope.

(** [TaskStateSegment]: the field the code sets. *)
Record TaskStateSegment := mkTss { interrupt_stack_table : list Z }.

(** [TaskStateSegment::new()] *)
Definition tss_new : TaskStateSegment := mkTss (replicate 7 0).

Definition STACK_SIZE : Z := 4096 * 5.

(** The initialiser of the static [TSS]; [stack] is the address of the static [STACK]. *)
Definition TSS `{VirtAddrApi} (stack : Z) : outcome TaskStateSegment :=
  stack_start ← va_new stack;
  stack_end ← va_add stack_start STACK_SIZE;
  ist ← store_index (interrupt_stack_table tss_new) DOUBLE_FAULT_IST_INDEX stack_end;
  Ret (mkTss ist).

Inductive Descriptor := KernelCodeSegment | TssSegment (tss : TaskStateSegment).

(** [GlobalDescriptorTable] *)
Class GdtApi (G : Type) := {
  gdt_new : G;
  gdt_append : Descriptor -> G -> outcome (Z * G);
  (* the descriptor a selector names *)
  gdt_entry : G -> Z -> option Descriptor
}.

(** A new table has room for a code segment and a task state segment (three of its
    eight slots); a selector handed out keeps naming its descriptor. *)
Class GdtLaws (G : Type) `{GdtApi G} : Prop := {
  gdt_append_code : exists s g, gdt_append KernelCodeSegment gdt_new = Ret (s, g);
  gdt_append_tss t s g : gdt_append KernelCodeSegment gdt_new = Ret (s, g) ->
    exists s' g', gdt_append (TssSegment t) g = Ret (s', g');
  gdt_append_entry d g s g' : gdt_append d g = Ret (s, g') -> gdt_entry g' s = Some d;
  gdt_append_keeps d g s g' s0 d0 : gdt_append d g = Ret (s, g') -> gdt_entry g s0 = Some d0 -> gdt_entry g' s0 = Some d0
}.

Record Selectors := mkSelectors {
  code_selector : Z;
  tss_selector : Z
}.

(** The registers [init] loads. *)
Record cpu (G : Type) := mkCpu {
  gdtr : option G;
  cs : Z;
  tr : Z
}.
Arguments mkCpu {G}.
Arguments gdtr {G}.
Arguments cs {G}.
Arguments tr {G}.

Section gdt.
Context {G : Type} `{GdtApi G} `{VirtAddrApi}.

(** The initialiser of the static [GDT]. *)
Definition GDT (stack : Z) : outcome (G * Selectors) :=
  tss ← TSS stack;
  '(code_selector, gdt) ← gdt_append KernelCodeSegment gdt_new;
  '(tss_selector, gdt) ← gdt_append (TssSegment tss) gdt;
  Ret (gdt, mkSelectors code_selector tss_selector).

(** [gdt::init()]: [lgdt], [CS::set_reg], [load_tss]. *)
Definition gdt_init (stack : Z) : M (cpu G) unit :=
  '(gdt, sel) ← lift (GDT stack);
  _ ← modify (fun c => mkCpu (Some gdt) (cs c) (tr c));
  _ ← modify (fun c => mkCpu (gdtr c) (code_selector sel) (tr c));
  modify (fun c => mkCpu (gdtr c) (cs c) (tss_selector sel)).

(** Where the processor switches the stack to when a double fault comes. *)
Definition double_fault_stack (c : cpu G) : option Z :=
  match IDT !! 8 with
  | Some (DoubleFaultHandler (Some i)) =>
      g ← gdtr c;
      d ← gdt_entry g (tr c);
      match d with TssSegment t => interrupt_stack_table t !! Z.to_nat i | KernelCodeSegment => None end
  | _ => None
  end.

(** The lowest address the processor writes when it enters the handler: the pointer
    aligned down to 16, then six 64-bit values (the error code is the sixth). *)
Definition frame_low (rsp : Z) : Z := rsp - rsp mod 16 - 48.

(** After [init], the handler of the double fault runs on a stack of its own: the gate,
    the task register and the table lead to the end of [STACK], code runs in the
    kernel's segment, and the frame the processor pushes lies within [STACK], with
    more than 20000 bytes left. *)
Theorem double_fault_has_stack `{!GdtLaws G} (valaws : VirtAddrLaws _) stack c :
  canonical stack -> canonical (stack + STACK_SIZE) ->
  exists c', gdt_init stack c = Ret (tt, c') /\ double_fault_stack c' = Some (stack + STACK_SIZE) /\
    (gdtr c' ≫= fun g => gdt_entry g (cs c')) = Some KernelCodeSegment /\
    stack + 20000 < frame_low (stack + STACK_SIZE) <= stack + STACK_SIZE - 48.
Proof.
  intros Hs He. destruct gdt_append_code as (sc & g1 & Hc).
  set (t := mkTss (stack + STACK_SIZE :: replicate 6 0)). destruct (gdt_append_tss t sc g1 Hc) as (st & g2 & Ht).
  assert (HT : TSS stack = Ret t).
  { unfold TSS. rewrite va_new_ok by done. cbn [mbind outcome_bind]. by rewrite va_add_ok by done. }
  exists (mkCpu (Some g2) sc st). split_and!.
  - unfold gdt_init, GDT, mbind, M_bind, outcome_bind, lift, modify. rewrite HT. cbn [mbind outcome_bind]. rewrite Hc.
    cbn [mbind outcome_bind]. by rewrite Ht.
  - unfold double_fault_stack. change (IDT !! 8) with (Some (DoubleFaultHandler (Some 0))). cbn [gdtr tr mbind option_bind].
    by rewrite (gdt_append_entry _ _ _ _ Ht).
  - cbn [gdtr cs mbind option_bind]. apply (gdt_append_keeps _ _ _ _ _ _ Ht). by apply (gdt_append_entry _ _ _ _ Hc).
  - unfold frame_low, STACK_SIZE. pose proof (Z.mod_pos_bound (stack + 4096 * 5) 16 ltac:(lia)). lia.
  - unfold frame_low, STACK_SIZE. pose proof (Z.mod_pos_bound (stack + 4096 * 5) 16 ltac:(lia)). lia.
Qed.
End gdt.

(** ** A table that shows the laws can hold *)

(** Descriptors by selector, as the crate numbers them: the null descriptor first. *)
#[export] Instance list_gdt : GdtApi (list (option Descriptor)) := {|
  gdt_new := [None];
  gdt_append d g :=
    let slots := match d with TssSegment _ => [Some d; None] | KernelCodeSegment => [Some d] end in
    if (length g + length slots <=? 8)%nat then Ret (8 * Z.of_nat (length g), g ++ slots) else Crash (Panic "GDT full");
  gdt_entry g s := g !! Z.to_nat (s / 8) ≫= fun d => d
|}.

#[export] Instance list_gdt_laws : GdtLaws (list (option Descriptor)).
Proof.
  split.
  - by do 2 eexists.
  - intros t s g [= _ <-]. by do 2 eexists.
  - intros d g s g'. cbn. case_match; [|done]. intros [= <- <-]. rewrite Z.mul_comm, Z.div_mul, Nat2Z.id by done.
    rewrite lookup_app_r, Nat.sub_diag by done. by destruct d.
  - intros d g s g' s0 d0. cbn. case_match; [|done]. intros [= _ <-].
    destruct (g !! Z.to_nat (s0 / 8)) as [o|] eqn:E; [|done]. rewrite lookup_app_l by by eapply lookup_lt_Some. by rewrite E.
Qed.

Lemma double_fault_has_stack_demo : exists c', gdt_init 0x200000 (mkCpu (None : option (list (option Descriptor))) 0 0) = Ret (tt, c') /\
  double_fault_stack c' = Some 0x205000 /\ cs c' = 8 /\ tr c' = 16.
Proof. eexists. split; [reflexivity|]. by split_and!. Qed.
